(* ===== verification/_CoqProject ===== *)
-Q . S2P
Prelude.v
Coroutine.v
Heapq.v
PyData.v
Bisect.v
PyDict.v
Framer.v
Messages.v
Encoder.v
Parser.v
ProtocolFacts.v
RecordFacts.v
Segment.v
SegmentRegistry.v
RegistryFacts.v
RegistryTheorems.v
SegmentMemory.v
MemoryFacts.v
MemoryTheorems.v
Log.v
LogNames.v
LogInv.v
LogMemory.v
LogWrite.v
LogRead.v
LogSteps.v
LogTheorems.v
LogApi.v
Leader.v
LeaderTheorems.v
Fetcher.v
Replicas.v
ReplicasFacts.v
ReplicasRun.v
ReplicasTheorems.v
Writer.v
WriterFacts.v
WriterLiveness.v
WriterTheorems.v
Broker.v
BrokerFacts.v
BrokerAccounts.v
BrokerSteps.v
BrokerTheorems.v
ProtocolTheorems.v
Md5.v
Ring.v
RingFacts.v
RingTheorems.v
Metastore.v
StorageFacts.v
ManagerFacts.v
MetastoreTheorems.v
Controller.v
ControllerFacts.v
ControllerSteps.v
ControllerRun.v
ControllerTheorems.v
ControllerConnection.v
ConnectionFacts.v
ConnectionSteps.v
ConnectionInv.v
ConnectionTheorems.v
BrokerLife.v
ClusterTheorems.v
Json.v
JsonFacts.v
Zk.v
ZkFacts.v
ZkTheorems.v
Client.v
ClientTheorems.v
AsyncManager.v
AsyncTheorems.v
AsyncSafety.v
Ensemble.v
EnsembleFacts.v
EnsembleTheorems.v
EnsembleRuns.v
Config.v
