(* ===== verification/Prelude.v ===== *)
(** * PyLogStream: a verified model of its core

    PyLogStream (under [src/]) is a message broker in Python: producers publish
    messages to topics, brokers keep each topic as an append-only log of segment
    files, consumers and follower brokers fetch batches from it, and a controller
    assigns topics to brokers.  This development models the parts that carry its
    logic and proves what makes them correct.

    ** The parts and how they interact

    Bytes arrive on a connection, are cut into frames, parsed into commands and
    handed to the broker; publishing appends to the log through a batching writer,
    pulling reads from it; the replica manager holds a leader for each topic of which
    the broker is one, which keeps the high watermark, and followers fetch through it;
    the controller places topics on a hash ring.

    - [Prelude], [PyData], [Bisect], [PyDict]: exceptions, the state-and-exception
      monad [M], tactics, and the pieces of Python the code uses: slices, indices,
      [int.to_bytes], UTF-8, [split] and [join], [int] and [str] of integers,
      [bisect], insertion-ordered dictionaries.
    - [Coroutine], [Heapq]: an [async def] as a tree of atomic parts with its points of
      suspension, the event loop as a step relation on the suspended tasks, and a
      program logic for their interleavings (an invariant, what a part of a task
      guarantees, what it relies on; [every_part] for what each part keeps); the
      functions of [heapq].
    - [Framer], [Messages], [Encoder], [Parser]: the package [pylogstream_protocol].
      [ProtocolFacts] (round trips and checksums) and [RecordFacts] are their lemmas,
      [ProtocolTheorems] their properties.
    - [Segment], [SegmentRegistry]: [log/segment.py], [log/segment_policy.py] and
      [log/segment_registry.py]; lemmas in [RegistryFacts], properties in
      [RegistryTheorems].
    - [SegmentMemory]: [log/segment_memory.py], with the heap of entries, the LRU
      cache, the clean-up queue and the files as one state; [MemoryFacts] describes
      its operations and the step relation of the threads that share it,
      [MemoryTheorems] has the properties.
    - [Log]: [log/log_writer.py], [log/log_reader.py] and [log/log_manager.py] over the
      registry and the cache.  [LogNames] (file names and cache keys), [LogInv] (the
      invariant), [LogMemory], [LogWrite], [LogRead] (one call at a time) and
      [LogSteps] (histories of calls) lead to [LogTheorems].
    - [Md5], [Ring]: the class [ConsistentHashRing] of [metastore/manager.py] in
      [pylogstream_controller] with the hash it uses.  [RingFacts] (the ring as a set
      of virtual nodes, the clockwise walk) leads to [RingTheorems].
    - [Metastore]: [metastore/models.py], the interface [StorageApi] of a storage,
      [MetastoreStorage] of [metastore/storage.py] as its instance, and
      [MetastoreManager] of [metastore/manager.py] over that interface.
      [StorageFacts] states the laws of a storage and proves them for the one in
      memory; [ManagerFacts] has the calls of the manager, one at a time, over any
      storage with these laws, and [MetastoreTheorems] histories of calls.
    - [AsyncManager]: the calls of [MetastoreManager] once more, with an [await] at each
      call of the storage.  [AsyncTheorems] proves that a call that runs alone is the one
      of [Metastore] and has a run of two calls that overlap, [AsyncSafety] is about
      registrations that overlap.
    - [LogApi]: the log as other components see it, a class with laws and its
      instance; [Leader] is [replication/leader.py] over that class and
      [LeaderTheorems] has its properties.
    - [Fetcher], [Replicas]: [replication/fetcher.py] and [replication/manager.py].
      [TopicState] objects are in a heap, as they are shared between the dictionary of
      topics, the coroutine that changes roles and the requests that hold a leader.
      [ReplicasFacts] proves each coroutine against the program logic, [ReplicasRun]
      runs them without interruption, [ReplicasTheorems] has the properties.
    - [Writer]: [network/writer.py], the collectors, threads and callbacks as steps on
      one state; [WriterFacts] (the invariant of all runs), [WriterLiveness] (they end)
      and [WriterTheorems].
    - [Broker]: [network/broker.py], a round of [handle_client] per packet as a
      coroutine over the replica manager, the log and the writer; a connection also
      records the commands it was given, for the properties.  [BrokerFacts] ties the
      four together in one invariant, [BrokerAccounts] accounts for the requests of the
      writer (for which command each was made, which publishes have none), [BrokerSteps]
      proves that each handler keeps the invariant whatever runs meanwhile,
      [BrokerTheorems] has the properties.
    - [Controller]: [server.py] of the controller, a round of [handle_connection] per
      packet, the broadcasts, the heartbeat checker and the election as coroutines over
      the metastore manager.  [ControllerFacts] has the invariant, [ControllerSteps]
      proves that each coroutine keeps it whatever runs meanwhile, [ControllerRun] runs
      them without interruption, [ControllerTheorems] has the properties and a run in
      which two of them overtake each other.
    - [ControllerConnection]: [network/controller.py] of the broker, with what the
      network does in its state.  [ConnectionFacts] has single calls, [ConnectionSteps]
      and [ConnectionInv] prove the invariant whatever the interleaving,
      [ConnectionTheorems] has the properties.
    - [BrokerLife]: [start_server] and [close] of [network/broker.py] with the tasks of
      the clients, and [close] of [network/controller.py], over [Broker] and
      [ControllerConnection].
    - [ClusterTheorems]: a controller and a broker together.
    - [Json]: [json.dumps] and [json.loads] of the Python library; [JsonFacts] has
      their round trip.  [Zk]: [ZKClient] of [zk/client.py] over the calls of the kazoo
      library, [ZKMetastoreStorage] of [metastore/storage.py] over it as another
      instance of [StorageApi], and what [server.py] asks of ZooKeeper for the
      election.  [ZkFacts] states the documented behaviour of the tree of znodes as a
      class and proves single calls, [ZkTheorems] has the properties and an instance.
    - [Ensemble]: several controllers with sessions at one ZooKeeper: [start], [close]
      and the election with its watch of [server.py], the session and the watches of
      [zk/client.py], over [Controller] and [Zk].  [EnsembleFacts] has the laws and the
      invariant of every step, [EnsembleTheorems] the properties, [EnsembleRuns] an
      instance of the laws and runs over it.
    - [Config]: [config.py] of the broker and of the controller and [main.py] of the
      controller, over the document that the YAML library returns.
    - [Client]: [client.py] of the client package, its socket, its queue and the two
      threads beside the callers; [ClientTheorems] has the properties.

    ** How the code is read

    A Python function that can raise is a function into [result]; a method that
    changes its object is a computation in [M], whose state survives an exception.
    [int] is [Z]; [bytes] and [str] are lists of numbers.  Dictionaries are [gmap]s
    where order is not observed and association lists where it is.  A time is a
    number of microseconds, so that comparing a difference of [time.time()] with a
    configured number of milliseconds, as the code does, is visible.  A loop with no
    structural measure gets fuel: one round per segment in [_find_segment_index] and
    per byte in [parse_records] and [_calc_read_size], one more than the entries in
    the clean-up loop of the cache; in each case a theorem shows that it suffices.
    Logging, [print] and the [madvise] hints have no counterpart.  Code between two
    [await]s is atomic, as in [asyncio]; an [await] of something that may suspend is a
    point at which any other task may run.  The threads of the writer append one
    message at a time between them.  What a client sends, the clock, fresh
    identifiers, the answers of the controller to a broker's requests, those of
    ZooKeeper and the connections to other brokers are inputs.  The number of rounds
    given to the loops of the controller connection is a bound on what is observed of
    them, not on what they do: the theorems hold for every number.  The mutual recursion
    of broadcasts and disconnections has a depth, as in the interpreter;
    [broadcast_informs] shows that the number of active brokers is enough.

    ** What is shown

    - Protocol: commands, responses, metadata lists and batches survive encoding,
      framing and parsing, under side conditions on the fields (no blank in a topic
      and the like) that are part of the statements; a checked publish is decoded by
      the consumer and a record changed in one byte is refused; parsing raises only
      the expected exceptions.
    - Registry: disjoint ascending segments are preserved by all calls; [get_segment]
      answers exactly the segment that contains the offset; a segment's state moves
      only along its life cycle.
    - Cache: an entry in use stays mapped whatever the interleaving, eviction waits,
      the cache is a bounded LRU cache, a write reads back.
    - Log: appending refines appending to a list of messages per topic, a fetch at a
      message boundary returns the next whole messages, nothing else changes the
      lists.  The topic names must not end in a digit: otherwise the cache keys
      [topic + str(base_offset)] of two segments can coincide, and [cache_key_collision]
      shows a message being overwritten.  A topic is one plain path component, so that
      a path names one file; offsets stay below 2^63 and messages below 4 GiB.
    - Leader: the high watermark is monotone, bounded by the log and, when it
      advances, replicated on every replica in sync; the in-sync list is what its
      policy asks for.
    - Replication: whatever the interleaving, a broker leads exactly the topics whose
      metadata names it, a leader that somebody holds stays valid, and applying a
      metadata list gives the topics it describes.  Four theorems show where it goes
      wrong: no follower ever fetches, what it would store is misplaced, a version
      is forgotten, a producer with [acks=-1] is answered too early.
    - Writer: every submitted message is in the log once or on its way there, every run
      can be drained, one message at a time is the same as one batch.
    - Broker: every acknowledgement ever sent names the position of a message of its
      connection; the log holds the message of each publish and commit that was taken,
      once, and a publish that was not taken was refused; an acknowledged message is
      what a consumer pulls, in the response or, beyond a kilobyte, in the slice of the
      segment's file that the response names; the assumptions are that the topics fit in
      63 bits and that the clock is not at zero.  Closing a broker leaves nothing open,
      but that a handler that ended with an exception stops it half way.
    - Ring: joins and leaves keep exactly the virtual nodes of the live brokers; a
      topic goes to the brokers a clockwise walk meets first; a broker that leaves
      moves only its own topics.  The virtual nodes must not coincide, which is
      decidable for given brokers; [ring_dangling_key] shows what happens otherwise.
    - Metastore: no history of calls fails, topics stay placed on registered brokers,
      and the effect of each call; two theorems show where failover goes wrong, a
      topic left without replicas for good and a dead follower elected as leader.
    - Controller: whatever the interleaving, topics are placed on live brokers, and every
      metadata that was ever answered is what had been decided at some time, with the
      brokers live then; a broadcast ends and reaches everybody who can be reached; a
      broker that registers is served, one that is silent is removed.  Two theorems
      show races: a broker that registers again is thrown out when its old connection
      ends, and a broadcast that waits is overtaken by a newer one.
    - Several controllers: whatever they do and whichever sessions end, of those that
      have kept their sessions at most one accepts brokers as the leader, and a follower
      whose watch fires takes over.  Two runs show what that leaves out: a leader whose
      session expired goes on as before, and a leader that is closed orphans a topic.
    - Configuration: a document is loaded as exactly the configuration it describes, and
      any other raises [KeyError] or [TypeError].
    - Controller connection: a response only settles the read it belongs to, whatever
      the interleaving; starting finds the leader through the referrals of the others;
      losing the connection hangs the broker ([lost_connection_hangs]).
    - Cluster: a broker that reads what a broadcast wrote has the topics, leaders and
      replicas that the controller has decided on.
    - ZooKeeper: the storage there answers every sequence of calls as the one in memory
      does and outlives the controller that wrote it; of the controllers that run the
      election one after the other one leads; JSON survives the trip.  Names and records
      must be ones ZooKeeper takes, which is decidable, nothing else writes to the tree
      and the session stays up.
    - The manager over ZooKeeper: the theorems on [Metastore], [Controller] and
      [Ensemble] treat a call of the manager as one part, which it is over the storage in
      memory ([manager_calls_atomic]) and over ZooKeeper when it runs alone.
      Registrations that overlap there are safe, failovers that overlap are not
      ([failovers_overlap]).
    - Client: whatever the interleaving of its threads it sends whole frames in order,
      and all of them unless it is closed or a send fails; whatever pieces a stream
      arrives in, [consume] returns its messages.  [broker_takes_frames] says which of
      its frames the broker understands: those of [produce] are not among them.

    ** What is not modelled

    Sockets and what [asyncio] does to accept connections, of which the effects are
    inputs; [main] in [network/broker.py], which loads the configuration and runs
    [start_server]; [argparse] and [yaml]; the file system's errors; the branch of
    [client.py] that runs its two loops in greenlets of the gevent library.  Of a task
    that is cancelled it is modelled that it goes no further than its next point of
    suspension, not a cancellation that it would itself catch.
    [offsets/offsets_manager.py] is commented out, and the test script of the client only
    calls the encoder and the parser. *)
From Stdlib Require Import String Ascii.
From Stdlib Require Export ZArith Lia ZifyBool.
From stdpp Require Export base tactics option gmap numbers.
From stdpp Require Export list.

#[export] Set Default Goal Selector "!".
#[global] Open Scope Z_scope.

(** ** Data of the source language *)

(** Python [bytes] are lists of numbers below 256, Python [str] are lists of
    code points.  The two are kept apart by name only. *)
Abbreviation bytes := (list Z) (only parsing).
Abbreviation pystr := (list Z) (only parsing).

(** The code points of an ASCII literal. *)
Fixpoint py (x : string) : list Z :=
  match x with
  | EmptyString => []
  | String a x' => Z.of_N (N_of_ascii a) :: py x'
  end.
Arguments py x%_string_scope : simpl never.

(** ** Exceptions *)

(** The exceptions the modelled code raises or provokes.  [Exception] is the
    bare class, which some of the code raises itself. *)
Inductive exn : Set :=
| Exception
| ValueError
| UnicodeDecodeError
| UnicodeEncodeError
| UnknownCommand (cmd : list Z)
| ChecksumFailed (data : list Z) (hash : Z)
| IndexError
| KeyError
| TypeError
| AttributeError
| OverflowError
| AssertionError
| RuntimeError
| IncompleteReadError
| OSError
| TopicDoesntExistsError (topic : list Z)
| IllegalTransitionError
| UnauthorisedReplica
| InvalidStateError
| ConnectionError
| TimeoutError
| NodeExistsError
| NoNodeError
| NameError
| CancelledError.

#[export] Instance exn_eq_dec : EqDecision exn.
Proof.
  intros x y. unfold Decision.
  decide equality; try apply list_eq_dec; apply Z.eq_dec.
Defined.

(** [isinstance(e, ValueError)]: the Unicode errors, [UnknownCommand] and
    [ChecksumFailed] are subclasses. *)
Definition is_ValueError (e : exn) : bool :=
  match e with
  | ValueError | UnicodeDecodeError | UnicodeEncodeError
  | UnknownCommand _ | ChecksumFailed _ _ => true
  | _ => false
  end.

(** A computation that returns or raises. *)
Inductive result (A : Type) : Type :=
| Ok (a : A)
| Raise (e : exn).
Arguments Ok {A} a.
Arguments Raise {A} e.

#[export] Instance result_eq_dec `{EqDecision A} : EqDecision (result A).
Proof. solve_decision. Defined.

#[export] Instance result_ret : MRet result := @Ok.
#[export] Instance result_bind : MBind result := λ A B f m,
  match m with Ok a => f a | Raise e => Raise e end.
#[export] Instance result_fmap : FMap result := λ A B f m,
  match m with Ok a => Ok (f a) | Raise e => Raise e end.

Definition is_Ok {A} (m : result A) : Prop := ∃ a, m = Ok a.

(** [if not b: raise e]. *)
Definition require (b : bool) (e : exn) : result unit :=
  if b then Ok tt else Raise e.

(** [x] or raise. *)
Definition or_raise {A} (o : option A) (e : exn) : result A :=
  match o with Some a => Ok a | None => Raise e end.

(** A stateful computation: an exception leaves the mutations made before it
    in place, so the final state is returned in both cases. *)
Definition M (S A : Type) : Type := S → result A * S.

#[export] Instance M_ret {S} : MRet (M S) := λ A a s, (Ok a, s).
#[export] Instance M_bind {S} : MBind (M S) := λ A B f m s,
  match m s with
  | (Ok a, s') => f a s'
  | (Raise e, s') => (Raise e, s')
  end.

Definition get {S} : M S S := λ s, (Ok s, s).
Definition put {S} (s : S) : M S unit := λ _, (Ok tt, s).
Definition modify {S} (f : S → S) : M S unit := λ s, (Ok tt, f s).
Definition raise {S A} (e : exn) : M S A := λ s, (Raise e, s).
(** A computation that only reads the state. *)
Definition reads {S A} (f : S → result A) : M S A := λ s, (f s, s).
Definition lift {S A} (m : result A) : M S A := λ s, (m, s).
(** [try: m except h]: [h] decides which exceptions it handles. *)
Definition catch {S A} (m : M S A) (h : exn → option (M S A)) : M S A := λ s,
  match m s with
  | (Ok a, s') => (Ok a, s')
  | (Raise e, s') => match h e with Some k => k s' | None => (Raise e, s') end
  end.
(** [try: m finally: f]: [f] runs in both cases and does not raise. *)
Definition finally {S A} (m : M S A) (f : S → S) : M S A := λ s,
  match m s with (r, s') => (r, f s') end.
(** Run [m] on a component of the state. *)
Definition zoom {S T A} (getter : S → T) (setter : T → S → S) (m : M T A) : M S A :=
  λ s, match m (getter s) with (r, t) => (r, setter t s) end.

(** ** Tactics and generic lemmas *)

Lemma run_bind {S A B} (f : A → M S B) (m : M S A) s :
  (m ≫= f) s = match m s with (Ok a, s') => f a s' | (Raise e, s') => (Raise e, s') end.
Proof. done. Qed.
Lemma run_ret {S A} (a : A) (s : S) : (mret a : M S A) s = (Ok a, s).
Proof. done. Qed.
Lemma run_get {S} (s : S) : get s = (Ok s, s).
Proof. done. Qed.
Lemma run_put {S} (t s : S) : put t s = (Ok tt, t).
Proof. done. Qed.
Lemma run_modify {S} (f : S → S) s : modify f s = (Ok tt, f s).
Proof. done. Qed.
Lemma run_raise {S A} e (s : S) : (raise e : M S A) s = (Raise e, s).
Proof. done. Qed.
Lemma run_reads {S A} (f : S → result A) s : reads f s = (f s, s).
Proof. done. Qed.
Lemma run_lift {S A} (m : result A) (s : S) : lift m s = (m, s).
Proof. done. Qed.
Lemma run_catch {S A} (m : M S A) h s :
  catch m h s = match m s with
                | (Ok a, s') => (Ok a, s')
                | (Raise e, s') => match h e with Some k => k s' | None => (Raise e, s') end
                end.
Proof. done. Qed.
Lemma run_finally {S A} (m : M S A) f s :
  finally m f s = match m s with (r, s') => (r, f s') end.
Proof. done. Qed.
Lemma run_zoom {S T A} (g : S → T) (h : T → S → S) (m : M T A) s :
  zoom g h m s = match m (g s) with (r, t) => (r, h t s) end.
Proof. done. Qed.

(** Run a stateful computation as far as its first unknown result. *)
Ltac run :=
  cbv beta iota;
  repeat (first
    [ rewrite run_bind | rewrite run_ret | rewrite run_get | rewrite run_put
    | rewrite run_modify | rewrite run_raise | rewrite run_reads | rewrite run_lift
    | rewrite run_catch | rewrite run_finally | rewrite run_zoom ];
    cbv beta iota).
Ltac run_in H :=
  cbv beta iota in H;
  repeat (first
    [ rewrite run_bind in H | rewrite run_ret in H | rewrite run_get in H
    | rewrite run_put in H | rewrite run_modify in H | rewrite run_raise in H
    | rewrite run_reads in H | rewrite run_lift in H | rewrite run_catch in H
    | rewrite run_finally in H | rewrite run_zoom in H ];
    cbv beta iota in H).

Lemma bind_Ok {A B} (f : A → result B) (m : result A) b :
  m ≫= f = Ok b ↔ ∃ a, m = Ok a ∧ f a = Ok b.
Proof.
  destruct m as [a|e]; cbn; split.
  - eauto.
  - by intros (? & [= ->] & ?).
  - done.
  - by intros (? & ? & ?).
Qed.

Lemma require_Ok b e u : require b e = Ok u ↔ b = true.
Proof. destruct b, u; simpl; naive_solver. Qed.

Lemma or_raise_Ok {A} (o : option A) e a : or_raise o e = Ok a ↔ o = Some a.
Proof. destruct o; simpl; naive_solver. Qed.

(** Split every successful bind of the context into its parts. *)
Ltac inv_ok :=
  repeat match goal with
  | H : mbind _ _ = Ok _ |- _ =>
      apply bind_Ok in H; let a := fresh "a" in let Ha := fresh "Ha" in
      destruct H as (a & Ha & H)
  | H : require _ _ = Ok _ |- _ => apply require_Ok in H
  | H : or_raise _ _ = Ok _ |- _ => apply or_raise_Ok in H
  | H : mret _ = Ok _ |- _ => injection H as H
  | H : Ok _ = Ok _ |- _ => injection H as H
  | H : Raise _ = Ok _ |- _ => discriminate H
  end; subst.

(** Case analysis on the boolean comparisons of a goal. *)
Ltac zcases :=
  repeat match goal with
  | |- context [?a =? ?b] => destruct (Z.eqb_spec a b)
  | |- context [?a <? ?b] => destruct (Z.ltb_spec a b)
  | |- context [?a <=? ?b] => destruct (Z.leb_spec a b)
  | |- context [?a >? ?b] => rewrite (Z.gtb_ltb a b)
  | |- context [?a >=? ?b] => rewrite (Z.geb_leb a b)
  end.
Ltac zbool :=
  repeat match goal with
  | H : (_ && _) = true |- _ => apply andb_true_iff in H as [? ?]
  | H : (_ || _) = false |- _ => apply orb_false_iff in H as [? ?]
  | H : (_ =? _) = true |- _ => apply Z.eqb_eq in H
  | H : (_ =? _) = false |- _ => apply Z.eqb_neq in H
  | H : (_ <? _) = true |- _ => apply Z.ltb_lt in H
  | H : (_ <? _) = false |- _ => apply Z.ltb_ge in H
  | H : (_ <=? _) = true |- _ => apply Z.leb_le in H
  | H : (_ <=? _) = false |- _ => apply Z.leb_gt in H
  | H : (_ >? _) = _ |- _ => rewrite Z.gtb_ltb in H
  | H : (_ >=? _) = _ |- _ => rewrite Z.geb_leb in H
  end.

(** Decide the next conditional of the goal by linear arithmetic. *)
Ltac lia_if :=
  match goal with
  | |- context [if ?b then _ else _] =>
      first [replace b with true by lia | replace b with false by lia]
  end; cbv beta iota.

(** [len(l)]. *)
Abbreviation zlen l := (Z.of_nat (length l)).

Lemma zlen_app {A} (l k : list A) : zlen (l ++ k) = zlen l + zlen k.
Proof. rewrite length_app. lia. Qed.
Lemma zlen_cons {A} (x : A) l : zlen (x :: l) = 1 + zlen l.
Proof. simpl. lia. Qed.

Create HintDb py discriminated.
Create Rewrite HintDb py.
#[export] Hint Rewrite @zlen_app @zlen_cons : py.
