(* ===== verification/Coroutine.v ===== *)
(** * Coroutines

    An [async def] as a tree of atomic parts, with the points at which it gives the
    event loop the chance to run something else.  [resume] runs one part, [run] a
    whole coroutine that is never interrupted, and [sched] is what the event loop
    does with several of them.  [wp] is a program logic for the interleavings: an
    invariant and a relation between the states at consecutive interruptions.
    [every_part] is for coroutines each part of which keeps a relation. *)
From stdpp Require Import relations.
From S2P Require Import Prelude.

Inductive Co (S A : Type) : Type :=
| Done (r : result A)
| Act {B : Type} (m : S → B * S) (k : B → Co S A)
| Await (ready : S → bool) (k : Co S A).
Arguments Done {S A} r.
Arguments Act {S A B} m k.
Arguments Await {S A} ready k.

#[export] Instance Co_ret {S} : MRet (Co S) := λ A a, Done (Ok a).
#[export] Instance Co_bind {S} : MBind (Co S) := λ A B f,
  fix bind c :=
    match c with
    | Done (Ok a) => f a
    | Done (Raise e) => Done (Raise e)
    | Act m k => Act m (λ b, bind (k b))
    | Await ready k => Await ready (bind k)
    end.

(** Code without [await] in it. *)
Definition atomic {S A} (m : M S A) : Co S A := Act m Done.
(** [await] for something that is not ready at once. *)
Definition pause {S} : Co S unit := Await (λ _, true) (Done (Ok tt)).
(** [try: c except h] *)
Fixpoint co_catch {S A} (c : Co S A) (h : exn → option (Co S A)) : Co S A :=
  match c with
  | Done (Ok a) => Done (Ok a)
  | Done (Raise e) => default (Done (Raise e)) (h e)
  | Act m k => Act m (λ b, co_catch (k b) h)
  | Await ready k => Await ready (co_catch k h)
  end.

(** [try: c finally: f] with an [f] that does not raise. *)
Fixpoint co_finally {S A} (c : Co S A) (f : S → S) : Co S A :=
  match c with
  | Done r => Act (λ s, (r, f s)) Done
  | Act m k => Act m (λ b, co_finally (k b) f)
  | Await ready k => Await ready (co_finally k f)
  end.

(** A task that may be cancelled: it goes no further than to its next point of suspension,
    where [f] is what its [finally] clauses do. *)
Fixpoint cancellable {S A} (cancelled : S → bool) (f : S → S) (c : Co S A) : Co S A :=
  match c with
  | Done r => Done r
  | Act m k => Act m (λ b, cancellable cancelled f (k b))
  | Await ready k =>
      Await (λ s, cancelled s || ready s)
        (Act (λ s, if cancelled s then (true, f s) else (false, s))
           (λ b, if (b : bool) then Done (Raise CancelledError) else cancellable cancelled f k))
  end.

(** Up to the next point of suspension. *)
Fixpoint resume {S A} (c : Co S A) (s : S) : Co S A * S :=
  match c with
  | Done r => (Done r, s)
  | Act m k => let '(b, s) := m s in resume (k b) s
  | Await ready k => (Await ready k, s)
  end.

(** The whole coroutine, alone: nothing it waits for takes time. *)
Fixpoint run {S A} (c : Co S A) : M S A := λ s,
  match c with
  | Done r => (r, s)
  | Act m k => let '(b, s) := m s in run (k b) s
  | Await _ k => run k s
  end.

Lemma run_co_bind {S A B} (f : A → Co S B) (c : Co S A) s :
  run (c ≫= f) s = match run c s with (Ok a, s) => run (f a) s | (Raise e, s) => (Raise e, s) end.
Proof.
  revert s. induction c as [r|X m k IH|ready k IH]; intros s; cbn.
  - by destruct r.
  - destruct (m s) as [b s']. apply IH.
  - apply IH.
Qed.

Lemma run_co_catch {S A} (c : Co S A) h s :
  run (co_catch c h) s = match run c s with
                         | (Ok a, s) => (Ok a, s)
                         | (Raise e, s) => match h e with Some c => run c s | None => (Raise e, s) end
                         end.
Proof.
  revert s. induction c as [r|X m k IH|ready k IH]; intros s; cbn.
  - destruct r as [a|e]; [done|]. by destruct (h e).
  - destruct (m s) as [b s']. apply IH.
  - apply IH.
Qed.

Lemma run_co_finally {S A} (c : Co S A) f s :
  run (co_finally c f) s = match run c s with (r, s) => (r, f s) end.
Proof.
  revert s. induction c as [r|X m k IH|ready k IH]; intros s; cbn; auto.
  by destruct (m s) as [b s'].
Qed.

Lemma run_atomic {S A} (m : M S A) s : run (atomic m) s = m s.
Proof. cbn. by destruct (m s). Qed.
Lemma run_pause {S} (s : S) : run pause s = (Ok tt, s).
Proof. done. Qed.
Lemma run_co_ret {S A} (a : A) (s : S) : run (mret a) s = (Ok a, s).
Proof. done. Qed.

(** ** Futures

    The futures that no value has been set for are not in [results]. *)
Record Futures := mkFutures {
  next_future : nat;
  results : gmap nat (result unit) }.

Definition no_futures : Futures := mkFutures 0 ∅.

Definition create_future : M Futures nat :=
  x ← get;
  put (mkFutures (S (next_future x)) (results x));;
  mret (next_future x).

(** [set_result] and [set_exception] *)
Definition set_future (f : nat) (r : result unit) : M Futures unit :=
  x ← get;
  match results x !! f with
  | Some _ => raise InvalidStateError
  | None => put (mkFutures (next_future x) (<[f := r]> (results x)))
  end.

Definition is_done (f : nat) (x : Futures) : bool := bool_decide (is_Some (results x !! f)).
Definition future_result (f : nat) : M Futures unit :=
  x ← get;
  match results x !! f with Some r => lift r | None => raise InvalidStateError end.

Ltac run_co :=
  cbv beta iota;
  repeat (first [ rewrite run_co_bind | rewrite run_co_catch | rewrite run_co_finally | rewrite run_atomic
                | rewrite run_pause | rewrite run_co_ret ]; cbv beta iota).

(** A coroutine that never waits for anything in particular. *)
Fixpoint prompt {S A} (c : Co S A) : Prop :=
  match c with
  | Done _ => True
  | Act _ k => ∀ b, prompt (k b)
  | Await ready k => (∀ s, ready s = true) ∧ prompt k
  end.

Lemma prompt_atomic {S A} (m : M S A) : prompt (atomic m).
Proof. done. Qed.
Lemma prompt_ret {S A} (a : A) : prompt (mret a : Co S A).
Proof. done. Qed.
Lemma prompt_pause {S} : prompt (pause : Co S unit).
Proof. done. Qed.
Lemma prompt_bind {S A B} (f : A → Co S B) (c : Co S A) :
  prompt c → (∀ a, prompt (f a)) → prompt (c ≫= f).
Proof. intros Hc Hf. induction c as [[a|e]|X m k IH|ready k IH]; cbn in *; naive_solver. Qed.
Lemma prompt_catch {S A} (c : Co S A) h :
  prompt c → (∀ e c, h e = Some c → prompt c) → prompt (co_catch c h).
Proof.
  intros Hc Hh. induction c as [[a|e]|X m k IH|ready k IH]; cbn in *; try naive_solver.
  destruct (h e) eqn:E; cbn; eauto.
Qed.

Create HintDb co.
#[export] Hint Resolve prompt_atomic prompt_ret prompt_pause prompt_bind prompt_catch : co.

(** ** A program logic for interleavings

    [I] holds whenever something is suspended, [R] relates the states at the
    beginning and the end of a suspension (rely), [G] those at the beginning and the
    end of a part of this coroutine (guarantee).  [s0] is the state in which the
    current part began; the post-condition gets it as well. *)

Section logic.
Context {S : Type} (I : S → Prop) (G R : S → S → Prop).

Fixpoint wp {A} (s0 : S) (c : Co S A) (s : S) (Q : S → result A → S → Prop) : Prop :=
  match c with
  | Done r => Q s0 r s
  | Act m k => wp s0 (k (m s).1) (m s).2 Q
  | Await ready k => I s ∧ G s0 s ∧ ∀ s', I s' → R s s' → ready s' = true → wp s' k s' Q
  end.

Lemma wp_mono {A} (c : Co S A) s0 s (Q Q' : S → result A → S → Prop) :
  (∀ s0 r s, Q s0 r s → Q' s0 r s) → wp s0 c s Q → wp s0 c s Q'.
Proof.
  intros HQ. revert s0 s. induction c as [r|X m k IH|ready k IH]; intros s0 s; cbn; auto.
  intros (? & ? & ?). auto.
Qed.

(** The part began earlier. *)
Lemma wp_earlier {A} (c : Co S A) s00 s0 s (Q : S → result A → S → Prop) :
  (∀ s, G s0 s → G s00 s) → (∀ r s, Q s0 r s → Q s00 r s) → wp s0 c s Q → wp s00 c s Q.
Proof.
  intros HG HQ. revert s. induction c as [r|X m k IH|ready k IH]; intros s; cbn; auto.
  intros (? & ? & ?). auto.
Qed.

Lemma wp_bind {A B} (f : A → Co S B) (c : Co S A) s0 s Q :
  wp s0 c s (λ s0 r s, match r with Ok a => wp s0 (f a) s Q | Raise e => Q s0 (Raise e) s end) →
  wp s0 (c ≫= f) s Q.
Proof.
  revert s0 s. induction c as [r|X m k IH|ready k IH]; intros s0 s; cbn.
  - by destruct r.
  - apply IH.
  - intros (? & ? & ?). split_and!; auto.
Qed.

Lemma wp_catch {A} (c : Co S A) h s0 s Q :
  wp s0 c s (λ s0 r s, match r with
                       | Ok a => Q s0 (Ok a) s
                       | Raise e => match h e with
                                    | Some c => wp s0 c s Q
                                    | None => Q s0 (Raise e) s
                                    end
                       end) →
  wp s0 (co_catch c h) s Q.
Proof.
  revert s0 s. induction c as [r|X m k IH|ready k IH]; intros s0 s; cbn.
  - destruct r as [a|e]; [done|]. by destruct (h e).
  - apply IH.
  - intros (? & ? & ?). split_and!; auto.
Qed.

Lemma wp_finally {A} (c : Co S A) f s0 s (Q : S → result A → S → Prop) :
  wp s0 c s (λ s0 r s, Q s0 r (f s)) → wp s0 (co_finally c f) s Q.
Proof.
  revert s0 s. induction c as [r|X m k IH|ready k IH]; intros s0 s; cbn; auto.
  intros (? & ? & ?). split_and!; auto.
Qed.

Lemma wp_atomic {A} (m : M S A) s0 s Q : wp s0 (atomic m) s Q = Q s0 (m s).1 (m s).2.
Proof. done. Qed.
Lemma wp_ret {A} (a : A) s0 s Q : wp s0 (mret a) s Q = Q s0 (Ok a) s.
Proof. done. Qed.
Lemma wp_pause s0 s Q :
  wp s0 pause s Q ↔ I s ∧ G s0 s ∧ ∀ s', I s' → R s s' → Q s' (Ok tt) s'.
Proof. cbn. split; intros (? & ? & ?); auto. Qed.

(** What holds of every interleaving holds of a run without interruptions. *)
Lemma wp_run `{!Reflexive R} {A} (c : Co S A) s0 s Q :
  prompt c → wp s0 c s Q → ∃ s0, Q s0 (run c s).1 (run c s).2.
Proof.
  revert s0 s. induction c as [r|X m k IH|ready k IH]; intros s0 s; cbn.
  - eauto.
  - intros Hp Hw. specialize (Hp (m s).1). destruct (m s) as [b s1]. by eapply IH.
  - intros [Hr Hp] (Hi & _ & Hk). eapply IH; [done|]. by apply Hk.
Qed.

(** The current part began later than the first one. *)
Lemma wp_track `{!PreOrder R} {A} (c : Co S A) s00 s0 s Q :
  (∀ s s', G s s' → R s s') → R s00 s0 → wp s0 c s Q →
  wp s0 c s (λ s1 r s', R s00 s1 ∧ Q s1 r s').
Proof.
  intros HGR. revert s0 s. induction c as [r|X m k IH|ready k IH]; intros s0 s Hs; cbn; auto.
  intros (? & Hg & Hk). split_and!; [done..|]. intros s' ? ? ?. apply IH; [|by apply Hk].
  etrans; [exact Hs|]. etrans; [by apply HGR|done].
Qed.

(** ** The event loop *)

Context (spawns : S → Co S unit → Prop) (env : S → S → Prop).

(** A task goes on when what it waits for is there, a new one starts, or something
    happens outside of the coroutines. *)
Inductive sched : list (Co S unit) * S → list (Co S unit) * S → Prop :=
| sched_resume ts s i ready k c s' :
    ts !! i = Some (Await ready k) → ready s = true → resume k s = (c, s') →
    sched (ts, s) (<[i := c]> ts, s')
| sched_spawn ts s c c' s' :
    spawns s c → resume c s = (c', s') → sched (ts, s) (ts ++ [c'], s')
| sched_env ts s s' : env s s' → sched (ts, s) (ts, s').

(** What is known about a task that is suspended in [s]. *)
Definition parked (s : S) (c : Co S unit) : Prop :=
  match c with
  | Done _ => True
  | Act _ _ => False
  | Await ready k =>
      ∀ s', I s' → R s s' → ready s' = true → wp s' k s' (λ s0 _ s, I s ∧ G s0 s)
  end.

Definition sched_ok (x : list (Co S unit) * S) : Prop := I x.2 ∧ Forall (parked x.2) x.1.

Context `{!PreOrder R} (HGR : ∀ s s', G s s' → R s s').
Context (Hspawn : ∀ s c, I s → spawns s c → wp s c s (λ s0 _ s, I s ∧ G s0 s)).
Context (Henv : ∀ s s', I s → env s s' → I s' ∧ R s s').

Lemma parked_later s s' c : R s s' → parked s c → parked s' c.
Proof. destruct c as [|? m k|ready k]; [done..|]. cbn. intros ? Hc ???. apply Hc; [done|]. by etrans. Qed.

Lemma resume_ok (c : Co S unit) s0 s c' s' :
  wp s0 c s (λ s0 _ s, I s ∧ G s0 s) → resume c s = (c', s') → I s' ∧ R s0 s' ∧ parked s' c'.
Proof.
  revert s. induction c as [r|X m k IH|ready k IH]; intros s; cbn.
  - intros [? ?] [= <- <-]. split_and!; [done|by apply HGR|done].
  - destruct (m s) as [b s1]. cbn. apply IH.
  - intros (? & ? & ?) [= <- <-]. split_and!; [done|by apply HGR|done].
Qed.

Lemma sched_step_ok x y : sched x y → sched_ok x → sched_ok y ∧ R x.2 y.2.
Proof.
  assert (∀ ts s s', R s s' → Forall (parked s) ts → Forall (parked s') ts) as Hlater.
  { intros ts s s' HR Hts. eapply Forall_impl; [exact Hts|]. intros c. by apply parked_later. }
  intros [ts s i ready k c s' Hi Hr E|ts s c c' s' Hc E|ts s s' He] [HI Hts]; cbn in *.
  - pose proof (Forall_lookup_1 _ _ _ _ Hts Hi) as Hk. cbn in Hk.
    specialize (Hk s HI (reflexivity s) Hr). destruct (resume_ok _ _ _ _ _ Hk E) as (? & HR & ?).
    split; [|done]. split; [done|]. apply Forall_insert; [by eapply Hlater|done].
  - destruct (resume_ok _ _ _ _ _ (Hspawn _ _ HI Hc) E) as (? & HR & ?).
    split; [|done]. split; [done|]. apply Forall_app. split; [by eapply Hlater|by repeat constructor].
  - destruct (Henv _ _ HI He) as [? HR]. split; [|done]. split; [done|]. by eapply Hlater.
Qed.

Lemma sched_rtc_ok x y : rtc sched x y → sched_ok x → sched_ok y ∧ R x.2 y.2.
Proof.
  induction 1 as [x|x y z Hxy _ IH]; intros Hx; [done|].
  destruct (sched_step_ok _ _ Hxy Hx) as [Hy ?]. destruct (IH Hy) as [? ?]. split; [done|]. by etrans.
Qed.
End logic.

(** ** A component of the state *)

Section zoom.
Context {S T : Type} (getter : T → S) (setter : S → T → T).

Fixpoint co_zoom {A} (c : Co S A) : Co T A :=
  match c with
  | Done r => Done r
  | Act m k => Act (λ t, let '(b, s) := m (getter t) in (b, setter s t)) (λ b, co_zoom (k b))
  | Await ready k => Await (λ t, ready (getter t)) (co_zoom k)
  end.

Context (Hget : ∀ s t, getter (setter s t) = s) (Hput : ∀ s s' t, setter s (setter s' t) = setter s t)
  (Hsame : ∀ t, setter (getter t) t = t).

Lemma run_co_zoom {A} (c : Co S A) t :
  run (co_zoom c) t = let '(r, s) := run c (getter t) in (r, setter s t).
Proof.
  revert t. induction c as [r|X m k IH|ready k IH]; intros t; cbn; [by rewrite Hsame| |apply IH].
  destruct (m (getter t)) as [b s]. rewrite IH, Hget. destruct (run (k b) s). by rewrite Hput.
Qed.

(** A coroutine of a component keeps what holds of the whole when the whole does not
    mind what the component guarantees. *)
Lemma wp_zoom {A} (I : S → Prop) (G R : S → S → Prop) (I' : T → Prop) (G' R' : T → T → Prop)
    (c : Co S A) t0 s Q :
  (∀ t, I' t → I (getter t)) → (∀ t t', R' t t' → R (getter t) (getter t')) →
  (∀ t s, I' t → I s → G (getter t) s → I' (setter s t) ∧ G' t (setter s t)) →
  I' t0 → wp I G R (getter t0) c s Q →
  wp I' G' R' t0 (co_zoom c) (setter s t0)
    (λ t0 r t, ∃ s, t = setter s t0 ∧ I' t0 ∧ Q (getter t0) r s).
Proof.
  intros HI HR HG. revert t0 s. induction c as [r|X m k IH|ready k IH]; intros t0 s Ht0; cbn.
  - intros HQ. by exists s.
  - rewrite Hget. intros Hw. destruct (m s) as [b s1]. cbn in *. rewrite Hput. by apply IH.
  - intros (Hs & Hg & Hk). destruct (HG t0 s Ht0 Hs Hg) as [Ht Hg']. split_and!; [done..|].
    intros t' Ht' Hr' Hready. rewrite <-(Hsame t'). rewrite (Hsame t') at 1. apply IH; [done|].
    apply Hk; [by apply HI| |done]. apply HR in Hr'. by rewrite Hget in Hr'.
Qed.
End zoom.

(** ** Coroutines whose parts are all of one kind *)

Section kind.
Context {S : Type} (R : S → S → Prop) `{!PreOrder R}.

Definition stays {A} (m : M S A) : Prop := ∀ s, R s (m s).2.

Lemma stays_ret {A} (a : A) : stays (mret a).
Proof. intros s. cbn. reflexivity. Qed.
Lemma stays_raise {A} e : stays (raise (A := A) e).
Proof. intros s. cbn. reflexivity. Qed.
Lemma stays_get : stays get.
Proof. intros s. cbn. reflexivity. Qed.
Lemma stays_reads {A} (f : S → result A) : stays (reads f).
Proof. intros s. cbn. reflexivity. Qed.
Lemma stays_lift {A} (r : result A) : stays (lift r).
Proof. intros s. cbn. reflexivity. Qed.
Lemma stays_bind {A B} (f : A → M S B) (m : M S A) : stays m → (∀ a, stays (f a)) → stays (m ≫= f).
Proof.
  intros Hm Hf s. run. specialize (Hm s). destruct (m s) as [[a|e] s1]; cbn in *; [|done]. etrans; [exact Hm|apply Hf].
Qed.

Fixpoint every_part {A} (c : Co S A) : Prop :=
  match c with
  | Done _ => True
  | Act m k => (∀ s, R s (m s).2) ∧ ∀ b, every_part (k b)
  | Await _ k => every_part k
  end.

Lemma every_atomic {A} (m : M S A) : stays m → every_part (atomic m).
Proof. by split. Qed.
Lemma every_done {A} (r : result A) : every_part (Done r : Co S A).
Proof. done. Qed.
Lemma every_ret {A} (a : A) : every_part (mret a : Co S A).
Proof. done. Qed.
Lemma every_pause : every_part (pause : Co S unit).
Proof. done. Qed.
Lemma every_bind {A B} (f : A → Co S B) (c : Co S A) :
  every_part c → (∀ a, every_part (f a)) → every_part (c ≫= f).
Proof. intros Hc Hf. induction c as [[a|e]|X m k IH|ready k IH]; cbn in *; naive_solver. Qed.
Lemma every_catch {A} (c : Co S A) h :
  every_part c → (∀ e c, h e = Some c → every_part c) → every_part (co_catch c h).
Proof.
  intros Hc Hh. induction c as [[a|e]|X m k IH|ready k IH]; cbn in *; try naive_solver.
  destruct (h e) eqn:E; cbn; eauto.
Qed.
Lemma every_finally {A} (c : Co S A) f : every_part c → (∀ s, R s (f s)) → every_part (co_finally c f).
Proof. intros Hc Hf. induction c as [r|X m k IH|ready k IH]; cbn in *; naive_solver. Qed.
Lemma every_if {A} (b : bool) (c c' : Co S A) : every_part c → every_part c' → every_part (if b then c else c').
Proof. by destruct b. Qed.
Lemma every_cancellable {A} cancelled f (c : Co S A) : (∀ s, R s (f s)) → every_part c → every_part (cancellable cancelled f c).
Proof.
  intros Hf. induction c as [r|X m k IH|ready k IH]; cbn; [done|naive_solver|]. intros Hk. split.
  - intros s. destruct (cancelled s); [apply Hf|cbn; reflexivity].
  - intros []; [done|auto].
Qed.

(** Such a coroutine keeps what its parts keep. *)
Lemma every_part_wp {A} (I : S → Prop) (G : S → S → Prop) `{!PreOrder G} (c : Co S A) s0 s :
  (∀ s s', I s → R s s' → I s' ∧ G s s') → every_part c → I s → G s0 s →
  wp I G G s0 c s (λ s0 _ s, I s ∧ G s0 s).
Proof.
  intros HI. revert s0 s. induction c as [r|X m k IH|ready k IH]; intros s0 s; cbn.
  - done.
  - intros [Hm Hk] Hs H0. destruct (HI s _ Hs (Hm s)) as [Hs' HG]. apply IH; [done..|by etrans].
  - intros Hk Hs H0. split_and!; [done..|]. intros s' Hs' _ _. by apply IH.
Qed.
End kind.

Lemma every_zoom {S T A} (getter : T → S) (setter : S → T → T) (R : S → S → Prop) (R' : T → T → Prop) (c : Co S A) :
  (∀ t s, R (getter t) s → R' t (setter s t)) → every_part R c → every_part R' (co_zoom getter setter c).
Proof.
  intros HR. induction c as [r|X m k IH|ready k IH]; cbn; [done| |done]. intros [Hm Hk]. split; [|auto].
  intros t. specialize (Hm (getter t)). destruct (m (getter t)). cbn in *. by apply HR.
Qed.
Lemma stays_zoom {S T A} (getter : T → S) (setter : S → T → T) (R : S → S → Prop) (R' : T → T → Prop) (m : M S A) :
  (∀ t s, R (getter t) s → R' t (setter s t)) → stays R m → stays R' (zoom getter setter m).
Proof. intros HR Hm t. run. specialize (Hm (getter t)). destruct (m (getter t)). cbn in *. by apply HR. Qed.

Create HintDb kind.
#[export] Hint Resolve stays_ret stays_raise stays_get stays_reads stays_lift stays_bind every_atomic every_done every_ret
  every_pause every_bind every_catch every_finally every_if every_cancellable : kind.

(** By the shape of the code. *)
Ltac kind :=
  repeat first
    [ progress intros | assumption | match goal with |- PreOrder _ => apply _ end
    | apply every_ret | apply every_done | apply every_pause | apply stays_ret | apply stays_raise | apply stays_get
    | apply stays_reads | apply stays_lift
    | solve [eauto 6 with kind]
    | apply every_bind | apply every_catch | apply every_cancellable | apply every_atomic
    | apply stays_bind
    | match goal with
      | |- every_part _ (match ?x with _ => _ end) => destruct x eqn:?
      | |- stays _ (match ?x with _ => _ end) => destruct x eqn:?
      | |- every_part _ (let '_ := ?x in _) => destruct x eqn:?
      | |- stays _ (let '_ := ?x in _) => destruct x eqn:?
      | E : _ = Some _ |- every_part _ _ => progress (repeat case_bool_decide; simplify_eq)
      end ].

Lemma every_run {S A} (R : S → S → Prop) `{!PreOrder R} (c : Co S A) : every_part R c → stays R (run c).
Proof.
  induction c as [r|X m k IH|ready k IH]; cbn; [intros _ s; reflexivity| |].
  - intros [Hm Hk] s. specialize (Hm s). destruct (m s) as [b s1]. cbn in *. etrans; [exact Hm|]. apply IH, Hk.
  - intros Hk s. by apply IH.
Qed.
