(* ===== verification/Heapq.v ===== *)
(** * The standard library's [heapq]

    [heappush] and [heappop] as CPython runs them, comparison by comparison: a
    comparison may raise, and then the list stays as it is at that point. *)
From S2P Require Import Prelude.

Definition swap {A} (i j : nat) (h : list A) : list A :=
  match h !! i, h !! j with
  | Some x, Some y => <[i := y]> (<[j := x]> h)
  | _, _ => h
  end.

Definition parent (pos : nat) : nat := (pos - 1) / 2.

Section heapq.
Context {A : Type} (lt : A → A → result bool).

Definition item (i : nat) : M (list A) A := reads (λ h, or_raise (h !! i) IndexError).

(** [newitem] rises to its place; a round per level, so [pos] rounds are enough. *)
Fixpoint siftdown (fuel pos : nat) : M (list A) unit :=
  match fuel, pos with
  | S fuel, S _ =>
      newitem ← item pos;
      above ← item (parent pos);
      smaller ← lift (lt newitem above);
      if smaller : bool then modify (swap (parent pos) pos);; siftdown fuel (parent pos)
      else mret tt
  | _, _ => mret tt
  end.

(** The item at [pos] sinks below its smaller child until there is none, and then
    rises again. *)
Fixpoint siftup (fuel pos : nat) : M (list A) unit :=
  match fuel with
  | S fuel =>
      h ← get;
      if (pos <? length h / 2)%nat then
        let childpos := (2 * pos + 1)%nat in
        childpos ← (if (childpos + 1 <? length h)%nat then
                      left ← item childpos;
                      right ← item (childpos + 1);
                      smaller ← lift (lt left right);
                      mret (if smaller : bool then childpos else (childpos + 1)%nat)
                    else mret childpos);
        modify (swap childpos pos);;
        siftup fuel childpos
      else siftdown pos pos
  | O => mret tt
  end.

Definition heappush (x : A) : M (list A) unit :=
  modify (λ h, h ++ [x]);;
  h ← get;
  siftdown (length h - 1) (length h - 1).

Definition heappop : M (list A) A :=
  h ← get;
  match last h with
  | None => raise IndexError
  | Some lastelt =>
      put (take (length h - 1) h);;
      h ← get;
      match h with
      | [] => mret lastelt
      | returnitem :: _ =>
          put (<[0%nat := lastelt]> h);;
          siftup (length h) 0;;
          mret returnitem
      end
  end.
End heapq.

(** ** What it does when the keys are distinct *)

Lemma lookup_swap {A} i j (h : list A) k :
  (i < length h)%nat → (j < length h)%nat →
  swap i j h !! k = if decide (k = i) then h !! j else if decide (k = j) then h !! i else h !! k.
Proof.
  intros Hi Hj. unfold swap.
  destruct (lookup_lt_is_Some_2 h i Hi) as [x Ex], (lookup_lt_is_Some_2 h j Hj) as [y Ey].
  rewrite Ex, Ey. destruct (decide (k = i)) as [->|Hki].
  - apply list_lookup_insert_eq. by rewrite length_insert.
  - rewrite list_lookup_insert_ne by done. destruct (decide (k = j)) as [->|].
    + by apply list_lookup_insert_eq.
    + by apply list_lookup_insert_ne.
Qed.

Lemma length_swap {A} i j (h : list A) : length (swap i j h) = length h.
Proof. unfold swap. repeat case_match; by rewrite ?length_insert. Qed.

Lemma swap_perm {A} i j (h : list A) : swap i j h ≡ₚ h.
Proof.
  destruct (decide (i < length h ∧ j < length h)%nat) as [[Hi Hj]|Hn].
  - apply Permutation_inj. split; [apply length_swap|].
    exists (λ k, if decide (k = i) then j else if decide (k = j) then i else k). split.
    + intros a b. repeat case_decide; lia.
    + intros k. rewrite lookup_swap by done. repeat case_decide; subst; done.
  - unfold swap. repeat case_match; try done. exfalso. apply Hn.
    split; eapply lookup_lt_Some; eassumption.
Qed.

Lemma parent_lt pos : (0 < pos)%nat → (parent pos < pos)%nat.
Proof. unfold parent. intros. apply Nat.Div0.div_lt_upper_bound. lia. Qed.

Lemma parent_child c p : (parent c = p ∧ 0 < c ↔ c = 2 * p + 1 ∨ c = 2 * p + 2)%nat.
Proof.
  unfold parent. split.
  - intros [Hp Hc]. pose proof (Nat.div_mod_eq (c - 1) 2). pose proof (Nat.mod_upper_bound (c - 1) 2). lia.
  - intros [-> | ->]; split; try lia.
    + replace (2 * p + 1 - 1)%nat with (p * 2)%nat by lia. by apply Nat.div_mul.
    + replace (2 * p + 2 - 1)%nat with (1 + p * 2)%nat by lia. by rewrite Nat.div_add.
Qed.

Section correct.
Context {A : Type} (lt : A → A → result bool) (key : A → Z).
(** Items with different keys can be compared. *)
Context (Hlt : ∀ x y, key x ≠ key y → lt x y = Ok (key x <? key y)).

Definition distinct (h : list A) : Prop := NoDup (key <$> h).

Definition le_at (h : list A) (i j : nat) : Prop :=
  ∀ x y, h !! i = Some x → h !! j = Some y → key x <= key y.
Definition heap (h : list A) : Prop := ∀ i, (0 < i)%nat → le_at h (parent i) i.

(** A heap but for the item at [pos], which may be too small for its place... *)
Definition small_at (pos : nat) (h : list A) : Prop :=
  (∀ i, (0 < i)%nat → i ≠ pos → le_at h (parent i) i) ∧
  (∀ i, (0 < i)%nat → (0 < pos)%nat → parent i = pos → le_at h (parent pos) i).
(** ... or fit nowhere. *)
Definition loose_at (pos : nat) (h : list A) : Prop :=
  (∀ i, (0 < i)%nat → i ≠ pos → parent i ≠ pos → le_at h (parent i) i) ∧
  (∀ i, (0 < i)%nat → (0 < pos)%nat → parent i = pos → le_at h (parent pos) i).

Lemma lt_at h i j x y :
  distinct h → h !! i = Some x → h !! j = Some y → i ≠ j → lt x y = Ok (key x <? key y).
Proof.
  intros Hd Hi Hj Hne. apply Hlt. intros E. apply Hne.
  eapply (NoDup_lookup _ _ _ _ Hd); rewrite list_lookup_fmap, ?Hi, ?Hj; cbn; [reflexivity|by rewrite E].
Qed.

Lemma distinct_perm h h' : h ≡ₚ h' → distinct h → distinct h'.
Proof. unfold distinct. by intros ->. Qed.

Lemma parent_in pos (h : list A) : (pos < length h)%nat → (parent pos < length h)%nat.
Proof. destruct pos; [cbn; lia|]. pose proof (parent_lt (S pos)). lia. Qed.

Lemma rise_once pos h x y :
  (0 < pos)%nat → small_at pos h → h !! pos = Some x → h !! parent pos = Some y → key x < key y →
  small_at (parent pos) (swap (parent pos) pos h).
Proof.
  intros Hpos [H1 H2] Hx Hy Hlt'. pose proof (parent_lt pos Hpos).
  pose proof (lookup_lt_Some _ _ _ Hx). pose proof (lookup_lt_Some _ _ _ Hy).
  assert (∀ i u, (0 < i)%nat → i ≠ pos → parent i = parent pos → h !! i = Some u → key y <= key u) as Hsib.
  { intros i u Hi Hne E Hu. apply (H1 i Hi Hne); by rewrite ?E. }
  split.
  - intros i Hi Hne u v. pose proof (parent_lt i Hi). rewrite !lookup_swap by done.
    repeat case_decide; subst; intros Hu Hv; simplify_eq; try lia.
    + specialize (Hsib i v). intuition lia.
    + pose proof (H2 i Hi Hpos eq_refl y v). intuition.
    + apply (H1 i Hi); done.
  - intros i Hi Hpp Hpar u v. pose proof (parent_lt i Hi). pose proof (parent_lt _ Hpp).
    rewrite !lookup_swap by done.
    repeat case_decide; subst; intros Hu Hv; simplify_eq; try lia.
    + apply (H1 (parent pos) Hpp); [lia|done|done].
    + pose proof (H1 (parent pos) Hpp ltac:(lia) u y Hu Hy). specialize (Hsib i v). intuition lia.
Qed.

Lemma siftdown_ok fuel pos h :
  (pos <= fuel)%nat → (pos < length h)%nat → distinct h → small_at pos h →
  ∃ h', siftdown lt fuel pos h = (Ok tt, h') ∧ h' ≡ₚ h ∧ heap h'.
Proof.
  revert pos h. induction fuel as [|fuel IH]; intros [|pos] h Hf Hlen Hd Hh; try lia.
  1, 2: exists h; split_and!; [done..|]; intros i Hi; apply (proj1 Hh); lia.
  cbn [siftdown]. pose proof (parent_lt (S pos) ltac:(lia)) as Hp.
  destruct (lookup_lt_is_Some_2 h (S pos) Hlen) as [x Hx].
  destruct (lookup_lt_is_Some_2 h (parent (S pos)) ltac:(lia)) as [y Hy].
  unfold item. run. rewrite Hx. cbn [or_raise]. run. rewrite Hy. cbn [or_raise]. run.
  rewrite (lt_at h (S pos) (parent (S pos))) by (done || lia). run.
  destruct (Z.ltb_spec (key x) (key y)).
  - run. destruct (IH (parent (S pos)) (swap (parent (S pos)) (S pos) h)) as (h' & E & Hperm & Hok).
    + lia.
    + rewrite length_swap. lia.
    + eapply distinct_perm; [symmetry; apply swap_perm|done].
    + by eapply rise_once; [lia|..].
    + exists h'. split_and!; [done| |done]. by rewrite Hperm, swap_perm.
  - run. exists h. split_and!; [done..|]. intros i Hi.
    destruct (decide (i = S pos)) as [->|]; [|by apply (proj1 Hh)].
    intros u v Hu Hv. simplify_eq. lia.
Qed.

Lemma sink_once pos c h x z :
  parent c = pos → (0 < c)%nat → loose_at pos h → h !! pos = Some x → h !! c = Some z →
  (∀ i u, (0 < i)%nat → parent i = pos → h !! i = Some u → key z <= key u) →
  loose_at c (swap c pos h).
Proof.
  intros Hpar Hc [H1 H2] Hx Hz Hmin. pose proof (parent_lt c Hc).
  pose proof (lookup_lt_Some _ _ _ Hx). pose proof (lookup_lt_Some _ _ _ Hz). split.
  - intros i Hi Hne Hpi u v. pose proof (parent_lt i Hi). rewrite !lookup_swap by done.
    repeat case_decide; subst; intros Hu Hv; simplify_eq; try lia.
    + by apply (Hmin i).
    + eapply (H2 c); eauto.
    + apply (H1 i Hi); done.
  - intros i Hi _ Hpi u v. pose proof (parent_lt i Hi). rewrite Hpar, !lookup_swap by done.
    repeat case_decide; subst; intros Hu Hv; simplify_eq; try lia.
    apply (H1 i Hi); [lia|lia|done|done].
Qed.

Lemma half_le n m : (m < n / 2 ↔ 2 * m + 1 < n)%nat.
Proof. pose proof (Nat.div_mod_eq n 2). pose proof (Nat.mod_upper_bound n 2). lia. Qed.

Lemma siftup_ok fuel pos h :
  (length h <= fuel + pos)%nat → (pos < length h)%nat → distinct h → loose_at pos h →
  ∃ h', siftup lt fuel pos h = (Ok tt, h') ∧ h' ≡ₚ h ∧ heap h'.
Proof.
  revert pos h. induction fuel as [|fuel IH]; intros pos h Hf Hlen Hd Hh; [lia|].
  cbn [siftup]. run. destruct (Nat.ltb_spec pos (length h / 2)) as [Hin%half_le|Hout].
  - destruct (lookup_lt_is_Some_2 h pos Hlen) as [x Hx].
    destruct (lookup_lt_is_Some_2 h (2 * pos + 1) Hin) as [z Hz].
    match goal with |- context [mbind _ ?m] => match m with (if _ then _ else _) => set (choice := m) end end.
    run. assert (∃ c z, choice h = (Ok c, h) ∧ parent c = pos ∧ (pos < c)%nat ∧ h !! c = Some z ∧
              ∀ i u, (0 < i)%nat → parent i = pos → h !! i = Some u → key z <= key u)
      as (c & z' & -> & Hpar & Hgt & Hz' & Hmin).
    { unfold choice, item. destruct (Nat.ltb_spec (2 * pos + 1 + 1) (length h)) as [Hr|Hr].
      - destruct (lookup_lt_is_Some_2 h (2 * pos + 1 + 1) Hr) as [w Hw].
        run. rewrite Hz. cbn [or_raise]. run. rewrite Hw. cbn [or_raise]. run.
        rewrite (lt_at h (2 * pos + 1) (2 * pos + 1 + 1)) by (done || lia). run.
        assert (∀ i u, (0 < i)%nat → parent i = pos → h !! i = Some u → u = z ∨ u = w) as Hkids.
        { intros i u Hi Hp Hu. destruct (proj1 (parent_child i pos) (conj Hp Hi)) as [-> | ->].
          - left. congruence.
          - right. replace (2 * pos + 2)%nat with (2 * pos + 1 + 1)%nat in Hu by lia. congruence. }
        destruct (Z.ltb_spec (key z) (key w)); [exists (2 * pos + 1)%nat, z|exists (2 * pos + 1 + 1)%nat, w];
          (split_and!; [done|apply parent_child; lia|lia|done|]);
          intros i u Hi Hp Hu; destruct (Hkids i u Hi Hp Hu) as [-> | ->]; lia.
      - run. exists (2 * pos + 1)%nat, z. split_and!; [done|apply parent_child; lia|lia|done|].
        intros i u Hi Hp Hu. destruct (proj1 (parent_child i pos) (conj Hp Hi)) as [-> | ->].
        + simplify_eq. lia.
        + apply lookup_lt_Some in Hu. lia. }
    run. destruct (IH c (swap c pos h)) as (h' & E & Hperm & Hok).
    + rewrite length_swap. lia.
    + rewrite length_swap. by eapply lookup_lt_Some.
    + eapply distinct_perm; [symmetry; apply swap_perm|done].
    + by eapply sink_once; [..|lia|exact Hh|exact Hx|exact Hz'|].
    + exists h'. split_and!; [done| |done]. by rewrite Hperm, swap_perm.
  - assert (∀ i u, (0 < i)%nat → parent i = pos → h !! i = Some u → False) as Hleaf.
    { intros i u Hi Hp Hu%lookup_lt_Some. pose proof (proj1 (half_le (length h) pos)).
      destruct (proj1 (parent_child i pos) (conj Hp Hi)) as [-> | ->];
        pose proof (proj2 (half_le (length h) pos)); lia. }
    apply siftdown_ok; [lia|done|done|]. split.
    + intros i Hi Hne u v Hu Hv. destruct (decide (parent i = pos)); [exfalso; by eapply Hleaf|].
      by apply (proj1 Hh i Hi).
    + intros i Hi _ Hp u v _ Hv. exfalso. by eapply Hleaf.
Qed.

(** The first item of a heap is the smallest. *)
Lemma heap_min h x y : heap h → h !! 0%nat = Some x → y ∈ h → key x <= key y.
Proof.
  intros Hh Hx [i Hi]%list_elem_of_lookup. revert y Hi.
  induction (lt_wf i) as [i _ IH]. intros y Hi. destruct i as [|i]; [simplify_eq; lia|].
  pose proof (parent_lt (S i) ltac:(lia)) as Hp.
  destruct (lookup_lt_is_Some_2 h (parent (S i))) as [z Hz].
  { apply lookup_lt_Some in Hi. lia. }
  specialize (IH _ Hp z Hz). pose proof (Hh (S i) ltac:(lia) z y Hz Hi). lia.
Qed.

Lemma heappush_ok x h :
  distinct (h ++ [x]) → heap h → ∃ h', heappush lt x h = (Ok tt, h') ∧ h' ≡ₚ h ++ [x] ∧ heap h'.
Proof.
  intros Hd Hh. unfold heappush. run. rewrite length_app. cbn [length].
  apply siftdown_ok; [done|rewrite length_app; cbn; lia|done|].
  assert (∀ i u, (h ++ [x]) !! i = Some u → i ≠ (length h + 1 - 1)%nat → h !! i = Some u) as Hold.
  { intros i u Hu Hne. pose proof (lookup_lt_Some _ _ _ Hu) as Hl. rewrite length_app in Hl.
    cbn in Hl. rewrite lookup_app_l in Hu by lia. done. }
  split.
  - intros i Hi Hne u v Hu Hv. pose proof (parent_lt i Hi). pose proof (lookup_lt_Some _ _ _ Hv) as Hl.
    rewrite length_app in Hl. cbn in Hl.
    apply (Hh i Hi); apply Hold; (done || lia).
  - intros i Hi _ Hp u v _ Hv. pose proof (parent_lt i Hi). apply lookup_lt_Some in Hv.
    rewrite length_app in Hv. cbn in Hv. lia.
Qed.

Lemma heappop_ok h x :
  distinct h → heap h → h !! 0%nat = Some x →
  ∃ h', heappop lt h = (Ok x, h') ∧ x :: h' ≡ₚ h ∧ heap h'.
Proof.
  intros Hd Hh Hx. unfold heappop. run.
  destruct (last h) as [y|] eqn:Hlast; [|apply last_None in Hlast; by subst].
  apply last_Some in Hlast as [k ->]. rewrite length_app. cbn [length].
  replace (length k + 1 - 1)%nat with (length k) by lia. rewrite take_app_length. run.
  destruct k as [|r k]; cbn in Hx; injection Hx as ->.
  { run. exists []. split_and!; [done|done|]. intros i _ u v Hu. done. }
  cbn [insert list_insert]. run.
  destruct (siftup_ok (length (x :: k)) 0 (y :: k)) as (h' & E & Hp & Hok).
  - cbn. lia.
  - cbn. lia.
  - eapply distinct_perm in Hd; [|apply Permutation_app_comm]. cbn in Hd.
    unfold distinct in *. cbn in *. apply NoDup_cons in Hd as [Hy Hd].
    apply NoDup_cons in Hd as [Hx Hd]. apply NoDup_cons. set_solver.
  - split; [|lia]. intros i Hi Hne Hpi u v Hu Hv.
    pose proof (parent_lt i Hi). apply (Hh i Hi).
    + destruct (parent i) as [|n]; [done|]. cbn in Hu |- *. by apply lookup_app_l_Some.
    + destruct i as [|n]; [lia|]. cbn in Hv |- *. by apply lookup_app_l_Some.
  - rewrite E. run. exists h'. split_and!; [done| |done].
    rewrite Hp. cbn. constructor. by rewrite <-Permutation_cons_append.
Qed.
End correct.
