(* ===== verification/PyData.v ===== *)
(** * Python data primitives

    The parts of the built-in types the source uses: slices, [int.to_bytes] and
    [int.from_bytes] (big-endian), strict UTF-8 [str.encode] and
    [bytes.decode], [str.split], [str.join], [int(str)] and [str(int)].  They
    model the language, not files under src/. *)
From S2P Require Import Prelude.

(** ** Sequences *)

(** A slice bound: negative bounds count from the end, and both are clipped. *)
Definition clip (n i : Z) : Z := if i <? 0 then Z.max 0 (i + n) else Z.min i n.

(** [l[i:j]] *)
Definition py_slice {A} (l : list A) (i j : Z) : list A :=
  let i' := clip (zlen l) i in
  let j' := clip (zlen l) j in
  take (Z.to_nat (j' - i')) (drop (Z.to_nat i') l).

(** [l[i]] *)
Definition py_index {A} (l : list A) (i : Z) : result A :=
  let i' := if i <? 0 then i + zlen l else i in
  if (0 <=? i') then or_raise (l !! Z.to_nat i') IndexError else Raise IndexError.

Lemma py_slice_mid {A} (a b c : list A) i j :
  i = zlen a → j = zlen a + zlen b → py_slice (a ++ b ++ c) i j = b.
Proof.
  intros -> ->. unfold py_slice, clip. autorewrite with py.
  destruct (Z.ltb_spec (zlen a) 0), (Z.ltb_spec (zlen a + zlen b) 0); try lia.
  rewrite !Z.min_l by lia. replace (Z.to_nat _) with (length b) by lia.
  rewrite Nat2Z.id, drop_app_length. apply take_app_length.
Qed.

Lemma py_slice_nonneg {A} (l : list A) i j :
  0 ≤ i → 0 ≤ j →
  py_slice l i j = take (Z.to_nat (Z.min j (zlen l) - Z.min i (zlen l)))
                        (drop (Z.to_nat i) l).
Proof.
  intros Hi Hj. unfold py_slice, clip.
  destruct (Z.ltb_spec i 0), (Z.ltb_spec j 0); try lia.
  destruct (decide (i ≤ zlen l)).
  - by rewrite (Z.min_l i) by lia.
  - rewrite !drop_ge by lia. by rewrite !take_nil.
Qed.

Lemma length_py_slice {A} (l : list A) i j :
  0 ≤ i → i ≤ j → zlen (py_slice l i j) = Z.min j (zlen l) - Z.min i (zlen l).
Proof.
  intros Hi Hj. rewrite py_slice_nonneg, length_take, length_drop by lia. lia.
Qed.

(** ** Integers as bytes *)

Definition is_byte (b : Z) : Prop := 0 ≤ b < 256.

Fixpoint be_bytes (len : nat) (n : Z) : bytes :=
  match len with
  | O => []
  | S k => be_bytes k (n / 256) ++ [n mod 256]
  end.

(** [n.to_bytes(len, "big")] *)
Definition to_bytes (n : Z) (len : nat) : result bytes :=
  if (0 <=? n) && (n <? 256 ^ Z.of_nat len) then Ok (be_bytes len n)
  else Raise OverflowError.

(** [int.from_bytes(bs, "big")] *)
Definition from_bytes (bs : bytes) : Z := fold_left (λ acc b, acc * 256 + b) bs 0.

Lemma length_be_bytes len n : length (be_bytes len n) = len.
Proof.
  revert n; induction len as [|k IH]; intros n; simpl; [done|].
  rewrite length_app, IH. simpl. lia.
Qed.

Lemma be_bytes_bytes len n : Forall is_byte (be_bytes len n).
Proof.
  revert n; induction len as [|k IH]; intros n; simpl; [constructor|].
  apply Forall_app; split; [apply IH|]. constructor; [|constructor].
  unfold is_byte. pose proof (Z.mod_pos_bound n 256). lia.
Qed.

Lemma from_bytes_snoc bs b : from_bytes (bs ++ [b]) = from_bytes bs * 256 + b.
Proof. unfold from_bytes. by rewrite fold_left_app. Qed.

Lemma from_be_bytes len n : from_bytes (be_bytes len n) = n mod 256 ^ Z.of_nat len.
Proof.
  revert n; induction len as [|k IH]; intros n; simpl be_bytes.
  - by rewrite Z.mod_1_r.
  - rewrite from_bytes_snoc, IH, Nat2Z.inj_succ, Z.pow_succ_r by lia.
    rewrite (Z.rem_mul_r n 256) by (try apply Z.pow_pos_nonneg; lia). lia.
Qed.

Lemma from_bytes_bound bs :
  Forall is_byte bs → 0 ≤ from_bytes bs < 256 ^ zlen bs.
Proof.
  induction bs as [|b bs IH] using rev_ind; intros Hb.
  - unfold from_bytes; simpl. lia.
  - apply Forall_app in Hb as [Hbs Hb]. apply Forall_cons_1 in Hb as [Hb _].
    rewrite from_bytes_snoc, zlen_app. change (zlen [b]) with 1.
    rewrite Z.pow_add_r, Z.pow_1_r by lia. specialize (IH Hbs).
    unfold is_byte in Hb. nia.
Qed.

Lemma be_from_bytes bs : Forall is_byte bs → be_bytes (length bs) (from_bytes bs) = bs.
Proof.
  induction bs as [|b bs IH] using rev_ind; intros Hb; [done|].
  apply Forall_app in Hb as [Hbs Hb]. apply Forall_cons_1 in Hb as [Hb _].
  unfold is_byte in Hb.
  rewrite length_app, Nat.add_comm, from_bytes_snoc. simpl.
  rewrite Z.div_add_l, Z.div_small, Z.add_0_r by lia. rewrite IH by done.
  f_equal. f_equal. rewrite Z.add_comm, Z.mod_add, Z.mod_small; lia.
Qed.

Lemma to_bytes_Ok n len bs :
  to_bytes n len = Ok bs ↔ 0 ≤ n < 256 ^ Z.of_nat len ∧ bs = be_bytes len n.
Proof.
  unfold to_bytes. destruct (Z.leb_spec 0 n), (Z.ltb_spec n (256 ^ Z.of_nat len));
    simpl; naive_solver lia.
Qed.

Lemma to_bytes_length n len bs : to_bytes n len = Ok bs → length bs = len.
Proof. intros [_ ->]%to_bytes_Ok. apply length_be_bytes. Qed.

Lemma from_to_bytes n len bs : to_bytes n len = Ok bs → from_bytes bs = n.
Proof. intros [? ->]%to_bytes_Ok. rewrite from_be_bytes. by apply Z.mod_small. Qed.

(** ** UTF-8 *)

(** A code point that UTF-8 can represent: not a surrogate. *)
Definition is_scalar (c : Z) : Prop := 0 ≤ c < 0xD800 ∨ 0xE000 ≤ c < 0x110000.

Definition scalarb (c : Z) : bool :=
  (0 <=? c) && (c <? 0xD800) || (0xE000 <=? c) && (c <? 0x110000).

(** One character of [str.encode()].  A lone surrogate raises; a Python string
    holds no number outside the code space. *)
Definition utf8_char (c : Z) : result bytes :=
  if negb (scalarb c) then Raise UnicodeEncodeError
  else if c <? 0x80 then Ok [c]
  else if c <? 0x800 then Ok [0xC0 + c / 64; 0x80 + c mod 64]
  else if c <? 0x10000 then
    Ok [0xE0 + c / 4096; 0x80 + c / 64 mod 64; 0x80 + c mod 64]
  else Ok [0xF0 + c / 262144; 0x80 + c / 4096 mod 64; 0x80 + c / 64 mod 64;
           0x80 + c mod 64].

(** [s.encode()] *)
Fixpoint utf8_encode (s : pystr) : result bytes :=
  match s with
  | [] => Ok []
  | c :: t => b ← utf8_char c; r ← utf8_encode t; Ok (b ++ r)
  end.

Definition is_cont (b : Z) : bool := (0x80 <=? b) && (b <? 0xC0).
(** [b.decode()], strict: overlong forms, surrogates, stray continuation bytes
    and truncated sequences raise. *)
Fixpoint utf8_decode (bs : bytes) : result pystr :=
  match bs with
  | [] => Ok []
  | b0 :: r0 =>
    if (0 <=? b0) && (b0 <? 0x80) then t ← utf8_decode r0; Ok (b0 :: t)
    else if (0xC2 <=? b0) && (b0 <? 0xE0) then
      match r0 with
      | b1 :: r1 =>
        if is_cont b1 then
          t ← utf8_decode r1; Ok ((b0 - 0xC0) * 64 + (b1 - 0x80) :: t)
        else Raise UnicodeDecodeError
      | [] => Raise UnicodeDecodeError
      end
    else if (0xE0 <=? b0) && (b0 <? 0xF0) then
      match r0 with
      | b1 :: b2 :: r2 =>
        let c := (b0 - 0xE0) * 4096 + (b1 - 0x80) * 64 + (b2 - 0x80) in
        if is_cont b1 && is_cont b2 && (0x800 <=? c) && scalarb c then
          t ← utf8_decode r2; Ok (c :: t)
        else Raise UnicodeDecodeError
      | _ => Raise UnicodeDecodeError
      end
    else if (0xF0 <=? b0) && (b0 <? 0xF5) then
      match r0 with
      | b1 :: b2 :: b3 :: r3 =>
        let c := (b0 - 0xF0) * 262144 + (b1 - 0x80) * 4096 + (b2 - 0x80) * 64
                 + (b3 - 0x80) in
        if is_cont b1 && is_cont b2 && is_cont b3 && (0x10000 <=? c) && scalarb c then
          t ← utf8_decode r3; Ok (c :: t)
        else Raise UnicodeDecodeError
      | _ => Raise UnicodeDecodeError
      end
    else Raise UnicodeDecodeError
  end.

Lemma utf8_decode_raises b e : utf8_decode b = Raise e → e = UnicodeDecodeError.
Proof.
  remember (length b) as n eqn:Hn. revert b Hn e. induction n as [n IH] using lt_wf_ind. intros b -> e.
  assert (∀ r (f : pystr → result pystr), (length r < length b)%nat → (∀ t, ∃ t', f t = Ok t') →
    utf8_decode r ≫= f = Raise e → e = UnicodeDecodeError) as Hbind.
  { intros r f Hr Hf. destruct (utf8_decode r) as [t|e'] eqn:E; cbn.
    - destruct (Hf t) as [? ->]. done.
    - intros [= <-]. by eapply (IH (length r)). }
  destruct b as [|b0 r0]; [done|]. cbn [utf8_decode].
  repeat case_match; subst; try (by intros [= <-]);
    (apply Hbind; [cbn; lia|intros; by eexists]).
Qed.

Lemma utf8_char_decode c b bs :
  utf8_char c = Ok b →
  utf8_decode (b ++ bs) = t ← utf8_decode bs; Ok (c :: t).
Proof.
  unfold utf8_char. destruct (scalarb c) eqn:Hc; [|done]. cbn [negb].
  unfold scalarb in Hc.
  pose proof (Z.div_mod c 64) as E1. pose proof (Z.mod_pos_bound c 64) as B1.
  pose proof (Z.div_mod (c / 64) 64) as E2.
  pose proof (Z.mod_pos_bound (c / 64) 64) as B2.
  pose proof (Z.div_mod (c / 4096) 64) as E3.
  pose proof (Z.mod_pos_bound (c / 4096) 64) as B3.
  rewrite Z.div_div in E2, E3 by lia. change (64 * 64) with 4096 in E2.
  change (4096 * 64) with 262144 in E3.
  set (q1 := c / 64) in *. set (q2 := c / 4096) in *. set (q3 := c / 262144) in *.
  set (m1 := c mod 64) in *. set (m2 := q1 mod 64) in *. set (m3 := q2 mod 64) in *.
  clearbody q1 q2 q3 m1 m2 m3.
  repeat case_match; intros [= <-]; zbool; cbn [app utf8_decode];
    unfold is_cont, scalarb; cbv zeta; repeat lia_if;
    destruct (utf8_decode bs); cbn; try done; do 2 f_equal; lia.
Qed.

Lemma utf8_decode_encode s b rest :
  utf8_encode s = Ok b →
  utf8_decode (b ++ rest) = t ← utf8_decode rest; Ok (s ++ t).
Proof.
  revert b; induction s as [|c s IH]; cbn; intros b Hb; inv_ok.
  - cbn. by destruct (utf8_decode rest).
  - rewrite <-app_assoc. erewrite utf8_char_decode by done.
    erewrite IH by done. by destruct (utf8_decode rest).
Qed.

Lemma utf8_roundtrip s b : utf8_encode s = Ok b → utf8_decode b = Ok s.
Proof.
  intros Hb. rewrite <-(app_nil_r b). erewrite utf8_decode_encode by done.
  cbn. by rewrite app_nil_r.
Qed.

Lemma utf8_encode_app s t b :
  utf8_encode (s ++ t) = Ok b ↔
  ∃ b1 b2, utf8_encode s = Ok b1 ∧ utf8_encode t = Ok b2 ∧ b = b1 ++ b2.
Proof.
  revert b; induction s as [|c s IH]; intros b.
  - cbn. naive_solver.
  - cbn [app utf8_encode]. split.
    + intros Hb. inv_ok. apply IH in Ha0 as (b1 & b2 & H1 & H2 & ->).
      eexists (a ++ b1), b2. rewrite H1, Ha, app_assoc. done.
    + intros (b1 & b2 & H1 & H2 & ->). inv_ok. rewrite Ha; cbn.
      rewrite (proj2 (IH (a0 ++ b2))) by eauto. cbn. by rewrite app_assoc.
Qed.

Lemma divmod_of c q m r : 0 ≤ r < m → c = q * m + r → c / m = q ∧ c mod m = r.
Proof.
  intros Hr ->. split.
  - rewrite Z.div_add_l, Z.div_small; lia.
  - rewrite Z.add_comm, Z.mod_add, Z.mod_small; lia.
Qed.

Lemma utf8_char_2 b0 b1 :
  0xC2 ≤ b0 < 0xE0 → is_cont b1 = true →
  utf8_char ((b0 - 0xC0) * 64 + (b1 - 0x80)) = Ok [b0; b1].
Proof.
  unfold is_cont. intros H0 H1. set (c := (b0 - 0xC0) * 64 + _).
  destruct (divmod_of c (b0 - 0xC0) 64 (b1 - 0x80)) as [E1 E2]; [lia|done|].
  assert (128 ≤ c < 2048) by lia. unfold utf8_char, scalarb. rewrite E1, E2.
  clearbody c. repeat lia_if. by rewrite !Zplus_minus.
Qed.

Lemma utf8_char_3 b0 b1 b2 :
  let c := (b0 - 0xE0) * 4096 + (b1 - 0x80) * 64 + (b2 - 0x80) in
  0xE0 ≤ b0 < 0xF0 →
  is_cont b1 && is_cont b2 && (0x800 <=? c) && scalarb c = true →
  utf8_char c = Ok [b0; b1; b2].
Proof.
  intros c H0 H1. zbool. unfold is_cont in *. zbool.
  destruct (divmod_of c ((b0 - 0xE0) * 64 + (b1 - 0x80)) 64 (b2 - 0x80))
    as [E1 E2]; [lia|unfold c; ring|].
  destruct (divmod_of (c / 64) (b0 - 0xE0) 64 (b1 - 0x80)) as [E3 E4]; [lia|done|].
  rewrite Z.div_div in E3 by lia. change (64 * 64) with 4096 in E3.
  assert (c < 0x10000) by lia.
  unfold utf8_char. rewrite H1, E2, E3, E4. clearbody c. cbn [negb].
  repeat lia_if. by rewrite !Zplus_minus.
Qed.

Lemma utf8_char_4 b0 b1 b2 b3 :
  let c := (b0 - 0xF0) * 262144 + (b1 - 0x80) * 4096 + (b2 - 0x80) * 64
           + (b3 - 0x80) in
  0xF0 ≤ b0 < 0xF5 →
  is_cont b1 && is_cont b2 && is_cont b3 && (0x10000 <=? c) && scalarb c = true →
  utf8_char c = Ok [b0; b1; b2; b3].
Proof.
  intros c H0 H1. zbool. unfold is_cont in *. zbool.
  destruct (divmod_of c ((b0 - 0xF0) * 4096 + (b1 - 0x80) * 64 + (b2 - 0x80)) 64
              (b3 - 0x80)) as [E1 E2]; [lia|unfold c; ring|].
  destruct (divmod_of (c / 64) ((b0 - 0xF0) * 64 + (b1 - 0x80)) 64 (b2 - 0x80))
    as [E3 E4]; [lia|rewrite E1; ring|].
  destruct (divmod_of (c / 64 / 64) (b0 - 0xF0) 64 (b1 - 0x80))
    as [E5 E6]; [lia|rewrite E3; ring|].
  assert (c / 64 / 64 = c / 4096) as F1 by (apply (Z.div_div c 64 64); lia).
  assert (c / 4096 / 64 = c / 262144) as F2 by (apply (Z.div_div c 4096 64); lia).
  rewrite F1 in E5, E6. rewrite F2 in E5.
  unfold utf8_char. rewrite H1, E2, E4, E5, E6. clearbody c. cbn [negb].
  repeat lia_if. by rewrite !Zplus_minus.
Qed.

(** Decoding is injective where it succeeds: re-encoding gives the bytes. *)
Lemma utf8_encode_decode bs s : utf8_decode bs = Ok s → utf8_encode s = Ok bs.
Proof.
  remember (length bs) as n eqn:Hn. revert bs s Hn.
  induction (lt_wf n) as [n _ IH]; intros bs s -> Hs.
  assert (∀ c b r, utf8_char c = Ok b → (length r < length bs)%nat →
            (t ← utf8_decode r; Ok (c :: t)) = Ok s → utf8_encode s = Ok (b ++ r))
    as Step.
  { intros c b r Hc Hl Hr. inv_ok. cbn [utf8_encode]. rewrite Hc. cbn.
    by rewrite (IH _ Hl _ _ eq_refl Ha). }
  destruct bs as [|b0 r0]; cbn [utf8_decode] in Hs; [by inv_ok|].
  cbn [length] in Step.
  destruct (_ && (b0 <? 0x80)) eqn:E1 in Hs.
  { apply (Step b0 [b0] r0); [|lia|done].
    zbool. unfold utf8_char, scalarb. by repeat lia_if. }
  destruct (_ && (b0 <? 0xE0)) eqn:E2 in Hs.
  { destruct r0 as [|b1 r1]; [done|]. destruct (is_cont b1) eqn:E3; [|done].
    eapply (Step _ [b0; b1] r1); [apply utf8_char_2; [lia|done]|cbn; lia|exact Hs]. }
  destruct (_ && (b0 <? 0xF0)) eqn:E4 in Hs.
  { destruct r0 as [|b1 [|b2 r2]]; [done..|]. case_match; [|done].
    eapply (Step _ [b0; b1; b2] r2); [apply utf8_char_3; [lia|done]|cbn; lia|exact Hs]. }
  destruct (_ && (b0 <? 0xF5)) eqn:E5 in Hs; [|done].
  destruct r0 as [|b1 [|b2 [|b3 r3]]]; [done..|]. case_match; [|done].
  eapply (Step _ [b0; b1; b2; b3] r3);
    [apply utf8_char_4; [lia|done]|cbn; lia|exact Hs].
Qed.

Lemma utf8_decode_app a b s t :
  utf8_decode a = Ok s → utf8_decode b = Ok t → utf8_decode (a ++ b) = Ok (s ++ t).
Proof.
  intros Ha Hb. erewrite utf8_decode_encode by by apply utf8_encode_decode.
  by rewrite Hb.
Qed.

Definition asciib (c : Z) : bool := (0 <=? c) && (c <? 0x80).

Lemma utf8_encode_ascii s : forallb asciib s = true → utf8_encode s = Ok s.
Proof.
  induction s as [|c s IH]; [done|]. cbn. intros [Hc Hs]%andb_true_iff.
  unfold asciib in Hc. unfold utf8_char, scalarb.
  repeat lia_if. cbn. by rewrite IH.
Qed.

Lemma utf8_decode_ascii s rest :
  forallb asciib s = true → utf8_decode (s ++ rest) = t ← utf8_decode rest; Ok (s ++ t).
Proof. intros Hs. by apply utf8_decode_encode, utf8_encode_ascii. Qed.

(** ** [str.split], [str.join] *)

(** [s.split(sep, k)] for a one-character separator; a negative [k] does not
    limit the number of cuts. *)
Fixpoint py_split (sep : Z) (k : Z) (s : pystr) : list (list Z) :=
  match s with
  | [] => [[]]
  | c :: t =>
    if (c =? sep) && negb (k =? 0) then [] :: py_split sep (k - 1) t
    else match py_split sep k t with
         | p :: ps => (c :: p) :: ps
         | [] => [[c]]
         end
  end.

(** [sep.join(l)] *)
Fixpoint py_join (sep : pystr) (l : list (list Z)) : pystr :=
  match l with
  | [] => []
  | [x] => x
  | x :: l' => x ++ sep ++ py_join sep l'
  end.

Lemma py_join_cons sep x l :
  l ≠ [] → py_join sep (x :: l) = x ++ sep ++ py_join sep l.
Proof. by destruct l. Qed.

Lemma py_join_snoc sep l x t : py_join sep (l ++ [x]) ++ t = py_join sep (l ++ [x ++ t]).
Proof.
  induction l as [|y l IH]; [done|]. rewrite <-!app_comm_cons.
  rewrite !py_join_cons by (by destruct l). by rewrite <-!app_assoc, IH.
Qed.

Lemma py_split_0 sep s : py_split sep 0 s = [s].
Proof.
  induction s as [|c s IH]; [done|]. cbn. rewrite IH.
  by rewrite andb_false_r.
Qed.

Lemma py_split_nosep sep k s : sep ∉ s → py_split sep k s = [s].
Proof.
  induction s as [|c s IH]; [done|]. intros Hn.
  apply not_elem_of_cons in Hn as [Hc Hs]. cbn. rewrite IH by done.
  by destruct (Z.eqb_spec c sep); [congruence|].
Qed.

Lemma py_split_cons sep k a s :
  sep ∉ a → k ≠ 0 → py_split sep k (a ++ sep :: s) = a :: py_split sep (k - 1) s.
Proof.
  intros Ha Hk. induction a as [|c a IH]; cbn.
  - rewrite Z.eqb_refl. by destruct (Z.eqb_spec k 0).
  - apply not_elem_of_cons in Ha as [Hc Hs]. rewrite IH by done.
    by destruct (Z.eqb_spec c sep); [congruence|].
Qed.

(** [sep.join(l).split(sep)] gives [l] back when no element contains [sep]. *)
Lemma py_split_join sep k l :
  l ≠ [] → Forall (λ x, sep ∉ x) l → k < 0 → py_split sep k (py_join [sep] l) = l.
Proof.
  intros Hne Hl. revert k. induction Hl as [|x l Hx Hl IH]; [done|].
  intros k Hk. destruct l as [|y l]; cbn [py_join].
  - by apply py_split_nosep.
  - cbn [app]. rewrite py_split_cons by (done || lia). f_equal. apply IH; [done|lia].
Qed.

(** ** [int(str)] and [str(int)] *)

(** The code points of value 0 of the blocks of decimal digits (Unicode 14). *)
Definition digit_zeros : list Z :=
  [48; 1632; 1776; 1984; 2406; 2534; 2662; 2790; 2918; 3046; 3174; 3302; 3430;
   3558; 3664; 3792; 3872; 4160; 4240; 6112; 6160; 6470; 6608; 6784; 6800; 6992;
   7088; 7232; 7248; 42528; 43216; 43264; 43472; 43504; 43600; 44016; 65296;
   66720; 68912; 69734; 69872; 69942; 70096; 70384; 70736; 70864; 71248; 71360;
   71472; 71904; 72016; 72784; 73040; 73120; 92768; 92864; 93008; 120782; 120792;
   120802; 120812; 120822; 123200; 123632; 125264; 130032].

Definition digit_value (c : Z) : option Z :=
  match List.find (λ z, (z <=? c) && (c <=? z + 9)) digit_zeros with
  | Some z => Some (c - z)
  | None => None
  end.

(** White space beyond ASCII. *)
Definition wide_space (c : Z) : bool :=
  bool_decide (c ∈ [133; 160; 5760; 8192; 8193; 8194; 8195; 8196; 8197; 8198; 8199;
                    8200; 8201; 8202; 8232; 8233; 8239; 8287; 12288]).
(** [str.isspace], also what [\s] matches in a [str] pattern. *)
Definition is_space (c : Z) : bool :=
  (9 <=? c) && (c <=? 13) || (28 <=? c) && (c <=? 32) || wide_space c.
(** What [int] skips around a literal: not the separators 28 to 31. *)
Definition int_space (c : Z) : bool :=
  (9 <=? c) && (c <=? 13) || (c =? 32) || wide_space c.

Fixpoint drop_while (f : Z → bool) (s : pystr) : pystr :=
  match s with
  | c :: t => if f c then drop_while f t else s
  | [] => []
  end.
Definition strip_by (f : Z → bool) (s : pystr) : pystr :=
  reverse (drop_while f (reverse (drop_while f s))).

(** The digits of an [int] literal: one underscore may separate two digits. *)
Fixpoint int_digits (need : bool) (s : pystr) : option (list Z) :=
  match s with
  | [] => if need then None else Some []
  | c :: t =>
    match digit_value c with
    | Some d => cons d <$> int_digits false t
    | None => if (c =? 95) && negb need then int_digits true t else None
    end
  end.

(** The value of a list of decimal digits, most significant first. *)
Definition from_digits (ds : list Z) : Z := fold_left (λ acc d, acc * 10 + d) ds 0.

(** [sys.get_int_max_str_digits()]: longer conversions raise both ways. *)
Definition max_str_digits : Z := 4300.

(** [int(s)] *)
Definition py_int (s : pystr) : result Z :=
  let s := strip_by int_space s in
  let '(neg, body) :=
    match s with
    | c :: t => if c =? 45 then (true, t) else if c =? 43 then (false, t) else (false, s)
    | [] => (false, s)
    end in
  ds ← or_raise (int_digits true body) ValueError;
  if max_str_digits <? zlen ds then Raise ValueError
  else Ok (if neg : bool then - from_digits ds else from_digits ds).

(** The digits of [abs(n)]; every round divides by ten, so one round per bit
    is enough. *)
Fixpoint digits_loop (fuel : nat) (n : Z) : list Z :=
  match fuel with
  | O => [n]
  | S fuel => if n <? 10 then [n] else digits_loop fuel (n / 10) ++ [n mod 10]
  end.
Definition digits (n : Z) : list Z := digits_loop (Z.to_nat (Z.log2 (Z.abs n))) (Z.abs n).

(** [str(n)] *)
Definition py_str (n : Z) : result pystr :=
  if max_str_digits <? zlen (digits n) then Raise ValueError
  else Ok ((if n <? 0 then [45] else []) ++ map (Z.add 48) (digits n)).

(** [f"{n:020d}"] *)
Definition py_str_020 (n : Z) : result pystr :=
  if max_str_digits <? zlen (digits n) then Raise ValueError
  else let sign := if n <? 0 then [45] else [] in
       let pad := Z.to_nat (20 - zlen sign - zlen (digits n)) in
       Ok (sign ++ replicate pad 48 ++ map (Z.add 48) (digits n)).

Definition is_digit (d : Z) : Prop := 0 ≤ d ≤ 9.

Lemma digits_loop_digits fuel n :
  0 ≤ n < 10 * 2 ^ Z.of_nat fuel → Forall is_digit (digits_loop fuel n).
Proof.
  revert n. induction fuel as [|fuel IH]; intros n Hn; cbn [digits_loop].
  - constructor; [|done]. unfold is_digit. lia.
  - rewrite Nat2Z.inj_succ, Z.pow_succ_r in Hn by lia.
    destruct (Z.ltb_spec n 10).
    + constructor; [|done]. unfold is_digit. lia.
    + apply Forall_app; split.
      * apply IH. split; [apply Z.div_pos; lia|]. apply Z.div_lt_upper_bound; lia.
      * constructor; [|done]. unfold is_digit. pose proof (Z.mod_pos_bound n 10). lia.
Qed.

Lemma digits_digits n : Forall is_digit (digits n).
Proof.
  apply digits_loop_digits. split; [lia|].
  destruct (decide (n = 0)) as [->|Hn]; [done|].
  rewrite Z2Nat.id by apply Z.log2_nonneg.
  pose proof (Z.log2_spec (Z.abs n)) as [_ H]; [lia|].
  rewrite Z.pow_succ_r in H by apply Z.log2_nonneg. lia.
Qed.

Lemma digits_nonempty n : digits n ≠ [].
Proof.
  unfold digits. destruct (Z.to_nat _) as [|fuel]; cbn; [done|]. case_match; [done|].
  by intros [_ ?]%app_eq_nil.
Qed.

Lemma from_digits_loop fuel n : from_digits (digits_loop fuel n) = n.
Proof.
  revert n. induction fuel as [|fuel IH]; intros n; cbn [digits_loop].
  - unfold from_digits. cbn. lia.
  - case_match; [unfold from_digits; cbn; lia|].
    unfold from_digits in *. rewrite fold_left_app, IH. cbn.
    pose proof (Z.div_mod n 10). lia.
Qed.

Lemma from_digits_digits n : from_digits (digits n) = Z.abs n.
Proof. apply from_digits_loop. Qed.

Lemma digits_loop_length fuel n k :
  0 ≤ n < 10 ^ Z.of_nat k → (0 < k)%nat → (length (digits_loop fuel n) ≤ k)%nat.
Proof.
  revert n k. induction fuel as [|fuel IH]; intros n k Hn Hk; cbn [digits_loop].
  - cbn. lia.
  - destruct (Z.ltb_spec n 10); [cbn; lia|]. rewrite length_app. cbn [length].
    destruct k as [|k]; [lia|]. rewrite Nat2Z.inj_succ, Z.pow_succ_r in Hn by lia.
    assert (0 < k)%nat by (destruct k; [cbn in Hn; lia|lia]).
    assert (length (digits_loop fuel (n / 10)) ≤ k)%nat; [|lia].
    apply IH; [|done]. split; [apply Z.div_pos; lia|]. apply Z.div_lt_upper_bound; lia.
Qed.

Lemma digits_length n k :
  Z.abs n < 10 ^ Z.of_nat k → (0 < k)%nat → zlen (digits n) ≤ Z.of_nat k.
Proof.
  intros Hn Hk. pose proof (digits_loop_length (Z.to_nat (Z.log2 (Z.abs n))) (Z.abs n) k).
  unfold digits. lia.
Qed.

Lemma digit_value_ascii d : is_digit d → digit_value (48 + d) = Some d.
Proof.
  unfold is_digit, digit_value. intros Hd. cbn [digit_zeros List.find].
  replace (_ && _) with true by lia. f_equal. lia.
Qed.

Lemma int_digits_ascii need ds :
  Forall is_digit ds → ds ≠ [] ∨ need = false →
  int_digits need (map (Z.add 48) ds) = Some ds.
Proof.
  intros Hds. revert need. induction Hds as [|d ds Hd Hds IH]; intros need Hn.
  - destruct need; [naive_solver|done].
  - cbn -[digit_value]. rewrite digit_value_ascii by done. by rewrite IH by auto.
Qed.

Lemma drop_while_none f s : Forall (λ c, f c = false) s → drop_while f s = s.
Proof. destruct 1 as [|c s Hc Hs]; cbn; [done|by rewrite Hc]. Qed.

Lemma strip_by_none f s : Forall (λ c, f c = false) s → strip_by f s = s.
Proof.
  intros Hs. unfold strip_by. rewrite (drop_while_none f s) by done.
  rewrite drop_while_none by by apply Forall_reverse. apply reverse_involutive.
Qed.

(** The characters [str(int)] is made of: digits and a minus sign. *)
Definition int_char (c : Z) : Prop := 48 ≤ c ≤ 57 ∨ c = 45.

Lemma digits_int_char ds : Forall is_digit ds → Forall int_char (map (Z.add 48) ds).
Proof. induction 1; cbn; constructor; [|done]. unfold is_digit, int_char in *. lia. Qed.

Lemma py_str_chars n s : py_str n = Ok s → Forall int_char s ∧ s ≠ [].
Proof.
  unfold py_str. case_match; [done|]. intros [= <-].
  pose proof (digits_int_char _ (digits_digits n)) as Hd. split.
  - apply Forall_app; split; [|done]. case_match; [|constructor].
    constructor; [by right|constructor].
  - destruct (n <? 0); cbn; [done|]. intros [=]%map_eq_nil.
    by eapply digits_nonempty.
Qed.

Lemma int_char_space c : int_char c → int_space c = false.
Proof.
  intros Hc. unfold int_space, wide_space.
  rewrite bool_decide_eq_false_2; [unfold int_char in Hc; lia|].
  unfold int_char in Hc. rewrite !elem_of_cons. rewrite elem_of_nil. lia.
Qed.

Lemma py_int_str n s : py_str n = Ok s → py_int s = Ok n.
Proof.
  intros Hs. pose proof (py_str_chars n s Hs) as [Hc _].
  unfold py_int. rewrite strip_by_none
    by (eapply Forall_impl; [exact Hc|apply int_char_space]).
  unfold py_str in Hs. destruct (_ <? zlen _) eqn:Hlen; [done|]. injection Hs as <-.
  pose proof (digits_digits n) as Hd. pose proof (digits_nonempty n) as Hne.
  pose proof (from_digits_digits n) as Hof.
  destruct (Z.ltb_spec n 0) as [Hn|Hn].
  - cbn [app]. change (45 =? 45) with true. cbv iota.
    rewrite int_digits_ascii by auto. unfold or_raise, mbind, result_bind.
    rewrite Hlen, Hof. f_equal. lia.
  - destruct (digits n) as [|d ds] eqn:E; [done|].
    pose proof (Forall_inv Hd) as Hd0. unfold is_digit in Hd0.
    cbn [app map]. repeat lia_if.
    change ((48 + d) :: map (Z.add 48) ds) with (map (Z.add 48) (d :: ds)).
    rewrite int_digits_ascii by auto. unfold or_raise, mbind, result_bind.
    rewrite Hlen, Hof. f_equal. lia.
Qed.

Lemma int_char_ascii s : Forall int_char s → forallb asciib s = true.
Proof.
  induction 1 as [|c s Hc Hs IH]; [done|]. cbn. rewrite IH, andb_true_r.
  unfold int_char, asciib in *. lia.
Qed.

Lemma py_str_ascii n s : py_str n = Ok s → forallb asciib s = true.
Proof. intros [? _]%py_str_chars. by apply int_char_ascii. Qed.

(** A character that is not part of a number does not occur in [str(n)]. *)
Lemma py_str_not_in n s c : py_str n = Ok s → c < 45 ∨ 45 < c < 48 ∨ 57 < c → c ∉ s.
Proof.
  intros [Hs _]%py_str_chars Hc Hin. rewrite Forall_forall in Hs.
  apply Hs in Hin. unfold int_char in Hin. lia.
Qed.

Lemma py_str_inj n m s : py_str n = Ok s → py_str m = Ok s → n = m.
Proof. intros H1%py_int_str H2%py_int_str. congruence. Qed.

(** An f-string whose parts are separated by single blanks. *)
Definition words (l : list (list Z)) : pystr := py_join [32] l.

(** Cutting [k] times gives back [k] blank-free parts and any last part. *)
Lemma py_split_words k l x :
  Forall (λ p, 32 ∉ p) l → k = zlen l →
  py_split 32 k (words (l ++ [x])) = l ++ [x].
Proof.
  intros Hl. revert k. induction Hl as [|p l Hp Hl IH]; intros k ->.
  - apply py_split_0.
  - assert (words ((p :: l) ++ [x]) = p ++ 32 :: words (l ++ [x])) as ->
      by (unfold words; destruct l; done).
    rewrite py_split_cons, IH by (done || (simpl; lia)). done.
Qed.

Lemma py_split_fields k l :
  l ≠ [] → Forall (λ p, 32 ∉ p) (removelast l) → k = zlen l - 1 →
  py_split 32 k (words l) = l.
Proof.
  intros Hne Hl ->. rewrite (app_removelast_last [] Hne) at 2 3.
  apply py_split_words; [done|].
  rewrite (app_removelast_last [] Hne) at 1. rewrite zlen_app. simpl length. lia.
Qed.

Lemma py_split_all l :
  l ≠ [] → Forall (λ p, 32 ∉ p) l → py_split 32 (-1) (words l) = l.
Proof. intros. by apply py_split_join. Qed.

(** The first bytes of an encoded text that starts with ASCII letters. *)
Lemma utf8_prefix kw t b :
  forallb asciib kw = true → utf8_decode b = Ok (kw ++ t) → ∃ b', b = kw ++ b'.
Proof.
  intros Hk Hb%utf8_encode_decode. apply utf8_encode_app in Hb as (b1 & b2 & H1 & _ & ->).
  rewrite utf8_encode_ascii in H1 by done. injection H1 as <-. by exists b2.
Qed.

(** [str] of a number of up to 4300 digits succeeds. *)
Lemma py_str_total n k :
  Z.abs n < 10 ^ Z.of_nat k → (0 < k)%nat → Z.of_nat k ≤ max_str_digits →
  py_str n = Ok ((if n <? 0 then [45] else []) ++ map (Z.add 48) (digits n)).
Proof.
  intros Hn Hk Hm. pose proof (digits_length n k Hn Hk). unfold py_str.
  by replace (_ <? zlen _) with false by lia.
Qed.

(** [l[i] = x] *)
Definition py_setitem {A} (l : list A) (i : Z) (x : A) : result (list A) :=
  let i' := if i <? 0 then i + zlen l else i in
  if (0 <=? i') && (i' <? zlen l) then Ok (<[Z.to_nat i' := x]> l) else Raise IndexError.

Lemma py_index_last {A} (l : list A) : py_index l (-1) = or_raise (last l) IndexError.
Proof.
  unfold py_index. rewrite last_lookup. cbn [Z.ltb Z.compare]. destruct l as [|x l]; [done|].
  rewrite zlen_cons. lia_if. cbn [length pred]. by replace (Z.to_nat _) with (length l) by lia.
Qed.

Lemma py_index_nonneg {A} (l : list A) i x :
  0 ≤ i → l !! Z.to_nat i = Some x → py_index l i = Ok x.
Proof. intros Hi Hx. unfold py_index. repeat lia_if. by rewrite Hx. Qed.

Lemma py_setitem_nonneg {A} (l : list A) i x :
  0 ≤ i < zlen l → py_setitem l i x = Ok (<[Z.to_nat i := x]> l).
Proof. intros Hi. unfold py_setitem. by repeat lia_if. Qed.

(** ASCII text stays ASCII when it is put together. *)
Lemma ascii_app a b : forallb asciib a → forallb asciib b → forallb asciib (a ++ b).
Proof. rewrite !Is_true_true, forallb_app. by intros -> ->. Qed.

Lemma join_ascii sep l : forallb asciib sep → Forall (λ s, forallb asciib s) l → forallb asciib (py_join sep l).
Proof.
  intros Hs. induction 1 as [|x l Hx Hl IH]; [done|]. destruct l as [|y l]; [done|].
  rewrite py_join_cons by done. by repeat apply ascii_app.
Qed.
