(* ===== verification/Bisect.v ===== *)
(** * The [bisect] module of the standard library

    The search loops [bisect_left], [bisect_right] and [insort], on a list of
    keys, with the specification for sorted lists that the registry and the
    hash ring use. *)
From stdpp Require Import sorting.
From S2P Require Import Prelude.

(** [while lo < hi]: [right k] tells that the key [k] lies before the result. *)
Fixpoint bisect_loop (fuel : nat) (right : Z → bool) (a : list Z) (lo hi : nat) : nat :=
  match fuel with
  | O => lo
  | S fuel =>
    if (lo <? hi)%nat then
      let mid := Nat.div2 (lo + hi) in
      if right (nth mid a 0) then bisect_loop fuel right a (S mid) hi
      else bisect_loop fuel right a lo mid
    else lo
  end.

Definition bisect_left (a : list Z) (x : Z) : nat :=
  bisect_loop (length a) (λ k, k <? x) a 0 (length a).
Definition bisect_right (a : list Z) (x : Z) : nat :=
  bisect_loop (length a) (λ k, k <=? x) a 0 (length a).
Definition insort (a : list Z) (x : Z) : list Z :=
  let i := bisect_right a x in take i a ++ x :: drop i a.

(** [p] holds of a prefix of [a] only. *)
Definition prefix_closed (p : Z → bool) (a : list Z) : Prop :=
  ∀ i j x y, (i ≤ j)%nat → a !! i = Some x → a !! j = Some y → p y = true → p x = true.

Definition splits_at (p : Z → bool) (a : list Z) (i : nat) : Prop :=
  (i ≤ length a)%nat ∧ Forall (λ x, p x = true) (take i a)
  ∧ Forall (λ x, p x = false) (drop i a).

Lemma bisect_loop_spec fuel p a lo hi :
  prefix_closed p a → (lo ≤ hi ≤ length a)%nat → (hi - lo ≤ fuel)%nat →
  (∀ i x, (i < lo)%nat → a !! i = Some x → p x = true) →
  (∀ i x, (hi ≤ i)%nat → a !! i = Some x → p x = false) →
  splits_at p a (bisect_loop fuel p a lo hi).
Proof.
  intros Hp. revert lo hi. induction fuel as [|fuel IH]; intros lo hi Hr Hf Hlo Hhi.
  - cbn. assert (lo = hi) as <- by lia. split_and!; [lia|..].
    + apply Forall_lookup. intros i x (Hx & Hi)%lookup_take_Some. eauto.
    + apply Forall_lookup. intros i x. rewrite lookup_drop. apply Hhi. lia.
  - cbn [bisect_loop]. destruct (Nat.ltb_spec lo hi) as [Hlt|Hge].
    + pose proof (Nat.div2_odd (lo + hi)) as Hm.
      destruct (Nat.odd (lo + hi)); cbn [Nat.b2n] in Hm.
      all: set (mid := Nat.div2 (lo + hi)) in *.
      all: destruct (lookup_lt_is_Some_2 a mid) as [k Hk]; [lia|].
      all: rewrite (nth_lookup_Some _ _ _ _ Hk).
      all: destruct (p k) eqn:Ek; apply IH; try lia; try done.
      all: intros i x Hi Hx.
      all: try (eapply (Hp i mid x k); [lia|done..]).
      all: destruct (p x) eqn:Ex; [|done].
      all: rewrite <-Ek; symmetry; eapply (Hp mid i k x); [lia|done..].
    + assert (lo = hi) as <- by lia. split_and!; [lia|..].
      * apply Forall_lookup. intros i x (Hx & Hi)%lookup_take_Some. eauto.
      * apply Forall_lookup. intros i x. rewrite lookup_drop. apply Hhi. lia.
Qed.

Lemma bisect_split p a :
  prefix_closed p a → splits_at p a (bisect_loop (length a) p a 0 (length a)).
Proof.
  intros Hp. apply bisect_loop_spec; try lia; [done|].
  intros i x Hi Hx%lookup_lt_Some. lia.
Qed.

Lemma sorted_lookup (a : list Z) i j x y :
  StronglySorted Z.le a → (i ≤ j)%nat → a !! i = Some x → a !! j = Some y → x ≤ y.
Proof.
  intros Ha. revert i j. induction Ha as [|z a Ha IH Hz]; intros i j Hij Hx Hy; [done|].
  destruct i as [|i], j as [|j]; cbn in *; [simplify_eq; lia| |lia|eapply (IH i j); [lia|done..]].
  simplify_eq. rewrite Forall_forall in Hz. apply Hz. by eapply list_elem_of_lookup_2.
Qed.

Lemma left_prefix_closed a x : StronglySorted Z.le a → prefix_closed (λ k, k <? x) a.
Proof. intros Ha i j y z Hij Hy Hz ?; cbn in *. pose proof (sorted_lookup a i j y z Ha Hij Hy Hz). lia. Qed.
Lemma right_prefix_closed a x : StronglySorted Z.le a → prefix_closed (λ k, k <=? x) a.
Proof. intros Ha i j y z Hij Hy Hz ?; cbn in *. pose proof (sorted_lookup a i j y z Ha Hij Hy Hz). lia. Qed.

Lemma bisect_left_split a x :
  StronglySorted Z.le a → splits_at (λ k, k <? x) a (bisect_left a x).
Proof. intros Ha. by apply bisect_split, left_prefix_closed. Qed.
Lemma bisect_right_split a x :
  StronglySorted Z.le a → splits_at (λ k, k <=? x) a (bisect_right a x).
Proof. intros Ha. by apply bisect_split, right_prefix_closed. Qed.

(** A split point is determined by the elements around it. *)
Lemma splits_at_unique p a i j : splits_at p a i → splits_at p a j → i = j.
Proof.
  assert (∀ i j, splits_at p a i → splits_at p a j → (j ≤ i)%nat) as H.
  { clear. intros i j (Hi & _ & Hd) (Hj & Ht & _).
    destruct (decide (j ≤ i)%nat); [done|].
    destruct (lookup_lt_is_Some_2 a i) as [x Hx]; [lia|].
    rewrite Forall_lookup in Hd, Ht.
    specialize (Hd 0%nat x). rewrite lookup_drop, Nat.add_0_r in Hd.
    specialize (Ht i x). rewrite lookup_take_lt in Ht by lia.
    rewrite Hd in Ht by done. by specialize (Ht Hx). }
  intros Hi Hj. pose proof (H i j Hi Hj). pose proof (H j i Hj Hi). lia.
Qed.

Lemma insort_perm a x : insort a x ≡ₚ x :: a.
Proof.
  unfold insort. rewrite <-Permutation_middle.
  by rewrite take_drop.
Qed.

Lemma insort_sorted a x : StronglySorted Z.le a → StronglySorted Z.le (insort a x).
Proof.
  intros Ha. destruct (bisect_right_split a x Ha) as (Hi & Ht & Hd).
  unfold insort. set (i := bisect_right a x) in *. clearbody i.
  rewrite <-(take_drop i a) in Ha. apply StronglySorted_app in Ha as (Hx & H1 & H2).
  apply StronglySorted_app_2; [|done|].
  - intros y z Hy Hz. rewrite Forall_forall in Ht. specialize (Ht _ Hy).
    apply elem_of_cons in Hz as [->|Hz]; [lia|eauto].
  - constructor; [done|]. eapply Forall_impl; [exact Hd|]. cbn. intros; lia.
Qed.
