(* ===== verification/PyDict.v ===== *)
(** * Insertion-ordered dictionaries

  [dict] and [OrderedDict]: association lists in insertion order, one pair per
  key.  Order matters to the source in the segment cache (LRU) and wherever
  it iterates over a dictionary. *)
From S2P Require Import Prelude.

Section dict.
Context {K V : Type} `{EqDecision K}.
Implicit Types d : list (K * V).

Fixpoint dict_get d (k : K) : option V :=
  match d with
  | [] => None
  | (k', v) :: d' => if decide (k = k') then Some v else dict_get d' k
  end.

(** [d[k] = v]: a present key keeps its place. *)
Fixpoint dict_set d (k : K) (v : V) : list (K * V) :=
  match d with
  | [] => [(k, v)]
  | (k', v') :: d' => if decide (k = k') then (k, v) :: d' else (k', v') :: dict_set d' k v
  end.

(** [d.pop(k, None)] as an effect on [d] *)
Fixpoint dict_del d (k : K) : list (K * V) :=
  match d with
  | [] => []
  | (k', v') :: d' => if decide (k = k') then d' else (k', v') :: dict_del d' k
  end.

(** [d.move_to_end(k)] *)
Definition dict_move_to_end d (k : K) : list (K * V) :=
  match dict_get d k with
  | Some v => dict_del d k ++ [(k, v)]
  | None => d
  end.

Definition dict_keys d : list K := d.*1.
Definition dict_values d : list V := d.*2.

Definition dict_ok d : Prop := NoDup (dict_keys d).

Lemma dict_get_elem d k v : dict_get d k = Some v → (k, v) ∈ d.
Proof.
  induction d as [|[k' v'] d IH]; cbn; [done|].
  case_decide; intros; simplify_eq; [left|right; auto].
Qed.

Lemma dict_elem_get d k v : dict_ok d → (k, v) ∈ d → dict_get d k = Some v.
Proof.
  unfold dict_ok, dict_keys.
  induction d as [|[k' v'] d IH]; cbn; [by intros _ ?%not_elem_of_nil|].
  intros [Hk Hd]%NoDup_cons [[= -> ->]|Hin]%elem_of_cons; case_decide; subst; auto.
  - done.
  - exfalso. apply Hk. by apply (list_elem_of_fmap_2 fst) in Hin.
Qed.

Lemma dict_get_None d k : dict_get d k = None ↔ k ∉ dict_keys d.
Proof.
  unfold dict_keys. induction d as [|[k' v'] d IH]; cbn.
  - split; [intros _; apply not_elem_of_nil|done].
  - rewrite not_elem_of_cons. case_decide; [naive_solver|]. rewrite IH. naive_solver.
Qed.

Lemma dict_get_set_eq d k v : dict_get (dict_set d k v) k = Some v.
Proof.
  induction d as [|[k' v'] d IH]; cbn.
  - by rewrite decide_True.
  - destruct (decide (k = k')) as [->|Hne]; cbn.
    + by rewrite decide_True.
    + by rewrite decide_False.
Qed.

Lemma dict_get_set_ne d k k' v : k ≠ k' → dict_get (dict_set d k v) k' = dict_get d k'.
Proof.
  intros Hne. induction d as [|[k'' v''] d IH]; cbn.
  - by rewrite decide_False.
  - case_decide; subst; cbn; [by rewrite !decide_False by done|]. by rewrite IH.
Qed.

Lemma dict_keys_set d k v :
  dict_keys (dict_set d k v)
  = if decide (k ∈ dict_keys d) then dict_keys d else dict_keys d ++ [k].
Proof.
  unfold dict_keys. induction d as [|[k' v'] d IH]; cbn.
  - rewrite decide_False; [done|apply not_elem_of_nil].
  - destruct (decide (k = k')) as [->|Hne]; cbn.
    + rewrite decide_True; [done|left].
    + rewrite IH. destruct (decide (k ∈ d.*1)).
      * rewrite decide_True; [done|by right].
      * rewrite decide_False; [done|]. by intros [?|?]%elem_of_cons.
Qed.

Lemma dict_set_ok d k v : dict_ok d → dict_ok (dict_set d k v).
Proof.
  unfold dict_ok. intros Hd. rewrite dict_keys_set. case_decide as Hk; [done|].
  apply NoDup_app. split_and!; [done| |apply NoDup_singleton].
  intros x Hx ->%list_elem_of_singleton. done.
Qed.

Lemma dict_set_length d k v : (length (dict_set d k v) <= S (length d))%nat.
Proof. induction d as [|[k' v'] d IH]; cbn; [lia|]. case_decide; cbn; lia. Qed.

Lemma dict_get_del_eq d k : dict_ok d → dict_get (dict_del d k) k = None.
Proof.
  unfold dict_ok, dict_keys. induction d as [|[k' v'] d IH]; cbn; [done|].
  intros [Hk Hd]%NoDup_cons. case_decide as E; subst; cbn.
  - by apply dict_get_None.
  - rewrite decide_False by done. auto.
Qed.

Lemma dict_get_del_ne d k k' : k ≠ k' → dict_get (dict_del d k) k' = dict_get d k'.
Proof.
  intros Hne. induction d as [|[k'' v''] d IH]; cbn; [done|].
  case_decide; subst; cbn; [by rewrite decide_False by done|]. by rewrite IH.
Qed.

Lemma dict_del_sublist d k : dict_del d k `sublist_of` d.
Proof.
  induction d as [|[k' v'] d IH]; cbn; [done|].
  case_decide; [by apply sublist_cons|by apply sublist_skip].
Qed.

Lemma dict_del_absent d k : dict_get d k = None → dict_del d k = d.
Proof.
  induction d as [|[k' v'] d IH]; cbn; [done|]. case_decide; [done|]. intros Hk. by rewrite IH.
Qed.

Lemma dict_del_ok d k : dict_ok d → dict_ok (dict_del d k).
Proof.
  unfold dict_ok, dict_keys. intros Hd.
  eapply sublist_NoDup; [exact Hd|]. apply (fmap_sublist fst), dict_del_sublist.
Qed.

Lemma dict_del_perm d k v : dict_get d k = Some v → (k, v) :: dict_del d k ≡ₚ d.
Proof.
  induction d as [|[k' v'] d IH]; cbn; [done|].
  case_decide; intros; simplify_eq; [done|]. rewrite Permutation_swap. by rewrite IH.
Qed.

Lemma dict_move_perm d k : dict_move_to_end d k ≡ₚ d.
Proof.
  unfold dict_move_to_end. destruct (dict_get d k) as [v|] eqn:Hk; [|done].
  rewrite <-(dict_del_perm d k v Hk) at 2. by rewrite <-Permutation_cons_append.
Qed.

Lemma dict_set_new d k v : dict_get d k = None → dict_set d k v ≡ₚ (k, v) :: d.
Proof.
  induction d as [|[k' v'] d IH]; cbn; [done|].
  case_decide; [done|]. intros Hd. rewrite IH by done. apply Permutation_swap.
Qed.

Lemma dict_get_snoc d k v k' :
  dict_get d k = None → dict_get (d ++ [(k, v)]) k' = if decide (k' = k) then Some v else dict_get d k'.
Proof.
  induction d as [|[k'' v''] d IH]; cbn; [done|].
  destruct (decide (k = k'')) as [|Hk]; [done|]. intros Hd.
  destruct (decide (k' = k'')) as [->|]; [by rewrite decide_False by auto|auto].
Qed.

Lemma dict_get_move d k k' :
  dict_ok d → dict_get (dict_move_to_end d k) k' = dict_get d k'.
Proof.
  intros Hd. unfold dict_move_to_end. destruct (dict_get d k) as [v|] eqn:Hk; [|done].
  rewrite dict_get_snoc by by apply dict_get_del_eq.
  case_decide; subst; [done|]. by apply dict_get_del_ne.
Qed.

Lemma dict_values_inj d k k' v :
  NoDup (dict_values d) → dict_get d k = Some v → dict_get d k' = Some v → k = k'.
Proof.
  unfold dict_values. induction d as [|[k'' v''] d IH]; cbn; [done|].
  assert (∀ c w, dict_get d c = Some w → w ∈ d.*2) as Hin.
  { intros c w Hc%dict_get_elem. by apply (list_elem_of_fmap_2 snd) in Hc. }
  intros [Hv Hd]%NoDup_cons. case_decide; case_decide; intros; simplify_eq; eauto.
  all: exfalso; eauto.
Qed.

Lemma filter_absent (l : list K) k : k ∉ l → filter (λ k', k' ≠ k) l = l.
Proof.
  induction l as [|x l IH]; [done|]. intros [Hx Hl]%not_elem_of_cons.
  rewrite filter_cons_True by naive_solver. by rewrite IH.
Qed.

Lemma dict_keys_del d k :
  dict_ok d → dict_keys (dict_del d k) = filter (λ k', k' ≠ k) (dict_keys d).
Proof.
  unfold dict_ok, dict_keys. induction d as [|[k' v'] d IH]; [done|].
  rewrite fmap_cons. intros [Hk Hd]%NoDup_cons. cbn [dict_del]. case_decide as E.
  - subst. rewrite filter_cons_False by auto. by rewrite filter_absent.
  - rewrite filter_cons_True by (cbn; auto). rewrite fmap_cons. by rewrite IH.
Qed.

Lemma dict_keys_move d k v :
  dict_ok d → dict_get d k = Some v →
  dict_keys (dict_move_to_end d k) = filter (λ k', k' ≠ k) (dict_keys d) ++ [k].
Proof.
  intros Hd Hk. unfold dict_move_to_end. rewrite Hk. unfold dict_keys at 1.
  rewrite fmap_app. cbn. f_equal. by apply dict_keys_del.
Qed.

Lemma dict_keys_set_move d k v :
  dict_ok d → dict_get d k = None →
  dict_keys (dict_move_to_end (dict_set d k v) k) = filter (λ k', k' ≠ k) (dict_keys d) ++ [k].
Proof.
  intros Hd Hk%dict_get_None.
  rewrite (dict_keys_move _ _ v) by auto using dict_set_ok, dict_get_set_eq.
  rewrite dict_keys_set, decide_False by done. f_equal.
  rewrite filter_app, filter_cons_False, filter_nil, app_nil_r by naive_solver. done.
Qed.

Lemma dict_ok_perm d d' : d ≡ₚ d' → dict_ok d → dict_ok d'.
Proof. unfold dict_ok, dict_keys. by intros ->. Qed.
End dict.
