(* ===== verification/Framer.v ===== *)
(** * Frames and checksums

    [framer.py] of the protocol package, the two [checksum_verify] helpers and
    the reads from an [asyncio.StreamReader] every connection handler starts
    with.  The stream is the list of bytes still to be read. *)
From S2P Require Import Prelude PyData.

(** ** CRC-32, the [zlib.crc32] of the standard library *)

Definition crc_step (c : Z) : Z :=
  if Z.testbit c 0 then Z.lxor (Z.shiftr c 1) 0xEDB88320 else Z.shiftr c 1.
Definition crc_byte (c b : Z) : Z := Nat.iter 8 crc_step (Z.lxor c b).
Definition crc32 (bs : bytes) : Z :=
  Z.lxor (fold_left crc_byte bs 0xFFFFFFFF) 0xFFFFFFFF.

Definition checksum_verify (msg_bytes : bytes) (checksum : Z) : bool :=
  let curr := crc32 msg_bytes in curr =? checksum.

Module Utility.
  (** The broker's own copy, [utility.checksum_verify]. *)
Definition checksum_verify (msg_bytes : bytes) (checksum : Z) : bool :=
  let curr := crc32 msg_bytes in curr =? checksum.
End Utility.

Definition PREFIX_SIZE : nat := 4.

Definition encode_frame (payload : bytes) : result bytes :=
  prefix ← to_bytes (zlen payload) 4;
  Ok (prefix ++ payload).

Definition decode_length (prefix : bytes) : Z := from_bytes prefix.

(** [await reader.readexactly(n)]: too short a stream raises. *)
Definition readexactly (n : Z) (stream : bytes) : result (bytes * bytes) :=
  if (n <? 0) then Raise ValueError
  else if zlen stream <? n then Raise IncompleteReadError
  else Ok (take (Z.to_nat n) stream, drop (Z.to_nat n) stream).

(** The two reads in front of every packet: the prefix, then the body. *)
Definition read_packet (stream : bytes) : result (bytes * bytes) :=
  '(prefix, stream) ← readexactly (Z.of_nat PREFIX_SIZE) stream;
  readexactly (decode_length prefix) stream.

(** ** Facts *)

Lemma readexactly_app n a rest : n = zlen a → readexactly n (a ++ rest) = Ok (a, rest).
Proof.
  intros ->. unfold readexactly. rewrite zlen_app. repeat lia_if.
  by rewrite Nat2Z.id, take_app_length, drop_app_length.
Qed.

Lemma encode_frame_Ok payload f :
  encode_frame payload = Ok f ↔
  ∃ p, to_bytes (zlen payload) 4 = Ok p ∧ f = p ++ payload.
Proof. unfold encode_frame. rewrite bind_Ok. naive_solver. Qed.

Lemma read_encoded payload f rest :
  encode_frame payload = Ok f → read_packet (f ++ rest) = Ok (payload, rest).
Proof.
  intros (p & Hp & ->)%encode_frame_Ok. unfold read_packet.
  rewrite <-app_assoc, (readexactly_app _ p) by (by rewrite (to_bytes_length _ _ _ Hp)).
  cbn. apply readexactly_app. unfold decode_length. by apply (from_to_bytes _ 4).
Qed.

(** [encode_frame] fails exactly on payloads of 4 GiB and more. *)
Lemma encode_frame_total payload :
  zlen payload < 2 ^ 32 → is_Ok (encode_frame payload).
Proof.
  intros Hl. unfold encode_frame, to_bytes.
  change (256 ^ Z.of_nat 4) with (2 ^ 32). rewrite (proj2 (Z.ltb_lt _ _) Hl).
  rewrite (proj2 (Z.leb_le _ _)) by lia. by eexists.
Qed.

Lemma encode_frame_length payload f :
  encode_frame payload = Ok f → zlen f = 4 + zlen payload.
Proof.
  intros (p & Hp%to_bytes_length & ->)%encode_frame_Ok. rewrite zlen_app. lia.
Qed.
