(* ===== verification/Messages.v ===== *)
(** * Commands and responses

    The packet classes of [common.py], [commands.py] and [response.py].  The
    optional header of the base class is a field of [Packet]; every class that
    is instantiated is a constructor with the dataclass's fields in order.
    [memoryview] buffers are the bytes they show. *)
From S2P Require Import Prelude.

Record PacketHeader := mkPacketHeader { correlation_id : pystr }.

Record Packet (A : Type) := mkPacket { header : option PacketHeader; body : A }.
Arguments mkPacket {A} header body.
Arguments header {A} _.
Arguments body {A} _.

(** A packet as its constructor leaves it: no header. *)
Definition packet {A} (a : A) : Packet A := mkPacket None a.

Inductive Command : Type :=
| RegisterCommand
| ClientIdCommand (client_id : pystr)
| PublishCommand (topic : pystr) (payload : bytes) (acks : Z) (contains_checksum : bool)
| FetchOffsetCommand (topic : pystr)
| PullCommand (topic : pystr) (offset size : Z)
| SubscribeCommand (topic : pystr)
| CommitOffsetCommand (topic : pystr) (offset acks : Z)
| PingCommand
| ReplicaCommand (topic : pystr)
| ReplicaFetchCommand (topic : pystr) (offset size : Z) (replica_id : pystr)
| RegisterTopicCommand (topic : pystr)
| MetadataRequestCommand (topic : pystr)
| BrokerRegisterCommand (broker_id host : pystr) (port : Z)
| ControllerPingCommand (broker_id : pystr)
| BrokerMetadataListCommand (broker_id : pystr)
| ISRChangeCommand (topic : pystr) (isr_list : list (list Z)).

(** [TopicMetaDataResponse], also the element of a metadata list.  [state] has
    the default ["running"]. *)
Record TopicMeta := mkTopicMeta {
  tm_topic : pystr;
  tm_leader_id : pystr;
  tm_leader_addr : pystr;
  tm_leader_port : Z;
  tm_replica_list : list (list Z);
  tm_version : Z }.

Inductive Response : Type :=
| ClientIDResponse (client_id : pystr)
| PingResponse
| OffsetAckResponse (topic : pystr) (offset acks : Z)
| PubAckResponse (topic : pystr) (offset acks : Z)
| FetchOffsetResponse (topic : pystr) (offset : Z)
| ErrorResponse (code : Z) (message : pystr)
| MessageResponseHeader (topic : pystr) (length : Z)
| MessageResponse (topic : pystr) (payload : bytes)
| FileResponse (topic file_path : pystr) (offset length : Z)
| MmapResponse (topic : pystr) (buffer : bytes)
| ReplicaFetchHeaderResponse (topic : pystr)
    (log_end_offset high_watermark payload_length : Z)
| ReplicaFetchBytesResponse (topic : pystr)
    (log_end_offset high_watermark payload_length : Z) (payload : bytes)
| ReplicaFetchMmapResponse (topic : pystr)
    (log_end_offset high_watermark payload_length : Z) (buffer : bytes)
| ReplicaFetchFileResponse (topic : pystr)
    (log_end_offset high_watermark payload_length : Z)
    (file_path : pystr) (offset length : Z)
| TopicMetaDataResponse (meta : TopicMeta)
| TopicMetaDataListHeaderResponse (payload_length : Z)
| TopicMetaDataListResponse (meta_list : list TopicMeta)
| ControllerPingResponse
| NotLeaderControllerResponse (leader_id leader_host : pystr) (leader_port : Z).

#[export] Instance PacketHeader_eq_dec : EqDecision PacketHeader.
Proof. solve_decision. Defined.
#[export] Instance Packet_eq_dec `{EqDecision A} : EqDecision (Packet A).
Proof. solve_decision. Defined.
#[export] Instance Command_eq_dec : EqDecision Command.
Proof. solve_decision. Defined.
#[export] Instance TopicMeta_eq_dec : EqDecision TopicMeta.
Proof. solve_decision. Defined.
#[export] Instance Response_eq_dec : EqDecision Response.
Proof. solve_decision. Defined.

(** [EncodedFrame]: what the sender writes, and the file slice it appends. *)
Record EncodedFrame := mkEncodedFrame {
  ef_header : bytes;
  ef_payload : option (list Z);
  ef_file_path : option (list Z);
  ef_offset : option Z;
  ef_length : option Z }.
