(* ===== verification/Encoder.v ===== *)
(** * [encoder.py] *)
From Stdlib Require Import String.
From S2P Require Import Prelude PyData Framer Messages.

(** A frame without payload and file. *)
Definition plain_frame (h : bytes) : EncodedFrame := mkEncodedFrame h None None None None.

Definition encode_packet_header {A} (packet : Packet A) : result bytes :=
  match header packet with
  | None => Ok []
  | Some h => utf8_encode (py "[CRR=" ++ correlation_id h ++ py "] ")
  end.

(** What [encode_command] appends to the header for each command class. *)
Definition encode_command_body (cmd : Command) (checksum_enable : bool) : result bytes :=
  match cmd with
  | RegisterCommand => Ok (py "REG")
  | ClientIdCommand client_id => utf8_encode (words [py "CID"; client_id])
  | SubscribeCommand topic => utf8_encode (words [py "SUB"; topic])
  | CommitOffsetCommand topic offset acks =>
      a ← py_str acks; o ← py_str offset;
      utf8_encode (words [py "CMT"; topic; a; o])
  | FetchOffsetCommand topic => utf8_encode (words [py "FCH"; topic])
  | PublishCommand topic payload acks _ =>
      a ← py_str acks;
      if checksum_enable then
        c ← py_str (crc32 payload);
        b ← utf8_encode (words [py "PUB"; topic; a; c; []]);
        Ok (b ++ payload)
      else
        b ← utf8_encode (words [py "PUB"; topic; a; []]);
        Ok (b ++ payload)
  | PullCommand topic offset size =>
      o ← py_str offset; s ← py_str size;
      utf8_encode (words [py "PUL"; topic; o; s])
  | PingCommand => Ok (py "PNG")
  | ReplicaFetchCommand topic offset size replica_id =>
      o ← py_str offset; s ← py_str size;
      utf8_encode (words [py "RFH"; replica_id; topic; o; s])
  | RegisterTopicCommand topic => utf8_encode (words [py "RGT"; topic])
  | MetadataRequestCommand topic => utf8_encode (words [py "MTR"; topic])
  | BrokerRegisterCommand broker_id host port =>
      p ← py_str port; utf8_encode (words [py "BRK"; broker_id; host; p])
  | ControllerPingCommand broker_id => utf8_encode (words [py "CPG"; broker_id])
  | ISRChangeCommand topic isr_list =>
      utf8_encode (words [py "ISR"; topic; py_join (py ",") isr_list])
  | ReplicaCommand _ | BrokerMetadataListCommand _ =>
      Raise ValueError (* "Unknown command type" *)
  end.

Definition encode_command (cmd : Packet Command) (checksum_enable : bool)
    : result EncodedFrame :=
  h ← encode_packet_header cmd;
  b ← encode_command_body (body cmd) checksum_enable;
  f ← encode_frame (h ++ b);
  Ok (plain_frame f).

(** [",".join(replica_list) if replica_list else "-"] *)
Definition replicas_str (replica_list : list (list Z)) : pystr :=
  if bool_decide (replica_list = []) then py "-" else py_join (py ",") replica_list.

(** The fields of a metadata record as they are written, blank separated. *)
Definition meta_fields (m : TopicMeta) : result (list (list Z)) :=
  p ← py_str (tm_leader_port m);
  v ← py_str (tm_version m);
  Ok [tm_topic m; tm_leader_id m; tm_leader_addr m; p;
      replicas_str (tm_replica_list m); v].

Fixpoint meta_lines (l : list TopicMeta) : result (list (list Z)) :=
  match l with
  | [] => Ok []
  | m :: l' => w ← meta_fields m; r ← meta_lines l'; Ok (words w :: r)
  end.

(** The text after the packet header, and the frame around [header]. *)
Definition encode_response_body (resp : Response)
    : result (bytes * (bytes → EncodedFrame)) :=
  match resp with
  | ClientIDResponse client_id =>
      b ← utf8_encode (words [py "CID"; client_id]); Ok (b, plain_frame)
  | PingResponse => Ok (py "PNG", plain_frame)
  | OffsetAckResponse topic offset acks =>
      a ← py_str acks; o ← py_str offset;
      b ← utf8_encode (words [py "OAK"; topic; a; o]); Ok (b, plain_frame)
  | FetchOffsetResponse topic offset =>
      o ← py_str offset;
      b ← utf8_encode (words [py "FCR"; topic; o]); Ok (b, plain_frame)
  | PubAckResponse topic offset acks =>
      a ← py_str acks; o ← py_str offset;
      b ← utf8_encode (words [py "ACK"; topic; a; o]); Ok (b, plain_frame)
  | ErrorResponse code message =>
      c ← py_str code;
      b ← utf8_encode (words [py "ERR"; c; message]); Ok (b, plain_frame)
  | MessageResponse topic payload | MmapResponse topic payload =>
      n ← py_str (zlen payload);
      b ← utf8_encode (words [py "MSG"; topic; n]);
      Ok (b, λ h, mkEncodedFrame h (Some payload) None None None)
  | FileResponse topic file_path offset length =>
      n ← py_str length;
      b ← utf8_encode (words [py "MSG"; topic; n]);
      Ok (b, λ h, mkEncodedFrame h None (Some file_path) (Some offset) (Some length))
  | ReplicaFetchBytesResponse topic leo hw _ payload
  | ReplicaFetchMmapResponse topic leo hw _ payload =>
      e ← py_str leo; w ← py_str hw; n ← py_str (zlen payload);
      b ← utf8_encode (words [py "RPL"; topic; e; w; n]);
      Ok (b, λ h, mkEncodedFrame h (Some payload) None None None)
  | ReplicaFetchFileResponse topic leo hw _ file_path offset length =>
      e ← py_str leo; w ← py_str hw; n ← py_str length;
      b ← utf8_encode (words [py "RPL"; topic; e; w; n]);
      Ok (b, λ h, mkEncodedFrame h None (Some file_path) (Some offset) (Some length))
  | TopicMetaDataResponse m =>
      fields ← meta_fields m;
      b ← utf8_encode (words (py "TMD" :: fields)); Ok (b, plain_frame)
  | TopicMetaDataListResponse meta_list =>
      lines ← meta_lines meta_list;
      let payload_str := py_join [10] lines in
      n ← py_str (zlen payload_str);
      b ← utf8_encode (words [py "TML"; n]);
      payload ← utf8_encode payload_str;
      Ok (b, λ h, mkEncodedFrame h (Some payload) None None None)
  | ControllerPingResponse => Ok (py "CPR", plain_frame)
  | NotLeaderControllerResponse leader_id leader_host leader_port =>
      p ← py_str leader_port;
      b ← utf8_encode (words [py "NLC"; leader_id; leader_host; p]); Ok (b, plain_frame)
  | MessageResponseHeader _ _ | ReplicaFetchHeaderResponse _ _ _ _
  | TopicMetaDataListHeaderResponse _ =>
      Raise ValueError (* "Unknown response type" *)
  end.

Definition encode_response (resp : Packet Response) : result EncodedFrame :=
  h ← encode_packet_header resp;
  '(b, frame) ← encode_response_body (body resp);
  f ← encode_frame (h ++ b);
  Ok (frame f).
