(* ===== verification/Parser.v ===== *)
(** * [parser.py] *)
From Stdlib Require Import String.
From S2P Require Import Prelude PyData Framer Messages.
#[local] Open Scope string_scope.
#[local] Open Scope list_scope.
#[local] Open Scope Z_scope.

(** ** The optional packet header *)

Fixpoint span (f : Z → bool) (s : pystr) : pystr * pystr :=
  match s with
  | c :: t => if f c then let '(a, b) := span f t in (c :: a, b) else ([], s)
  | [] => ([], [])
  end.

(** [re.compile(r"^\[CRR=([^\]]+)\]\s*").match(text)]: the group and the text
    after the match.  The group is the longest run without a closing bracket,
    so the pattern never backtracks. *)
Definition _HEADER_RE (text : pystr) : option (pystr * pystr) :=
  if bool_decide (take 5 text = py "[CRR=") then
    match span (λ c, negb (c =? 93)) (drop 5 text) with
    | ((_ :: _) as group, _ :: rest) => Some (group, drop_while is_space rest)
    | _ => None
    end
  else None.

Definition parse_packet_header (data : bytes) : result (option PacketHeader * bytes) :=
  text ← utf8_decode data;
  match _HEADER_RE text with
  | None => Ok (None, data)
  | Some (group, rest) =>
      remaining ← utf8_encode rest;
      Ok (Some (mkPacketHeader group), remaining)
  end.

(** [acks in {'-1', '0', '1'}] *)
Definition valid_acks (acks : pystr) : bool :=
  bool_decide (acks ∈ [py "-1"; py "0"; py "1"]).

(** [s.split(",") if s != "-" else []] *)
Definition split_replicas (s : pystr) : list (list Z) :=
  if bool_decide (s = py "-") then [] else py_split 44 (-1) s.

(** [l[-1]] of a non-empty list. *)
Definition py_last (l : list (list Z)) : pystr := default [] (last l).

(** ** Commands *)

Definition _parse_command (data : bytes) (checksum_enable : bool) : result Command :=
  cmd ← utf8_decode (py_slice data 0 3);
  let cmd_is (name : string) := bool_decide (cmd = py name) in
  if cmd_is "REG" then Ok RegisterCommand
  else if cmd_is "CID" then
    msg ← utf8_decode data;
    c ← py_index (py_split 32 1 msg) 1;
    Ok (ClientIdCommand c)
  else if cmd_is "SUB" then
    msg ← utf8_decode data;
    Ok (SubscribeCommand (py_last (py_split 32 1 msg)))
  else if cmd_is "CMT" then
    msg ← utf8_decode data;
    let parts := py_split 32 3 msg in
    acks ← py_index parts 2;
    _ ← require (valid_acks acks) ValueError;
    topic ← py_index parts 1;
    p3 ← py_index parts 3;
    offset ← py_int p3;
    a ← py_int acks;
    Ok (CommitOffsetCommand topic offset a)
  else if cmd_is "FCH" then
    msg ← utf8_decode data;
    topic ← py_index (py_split 32 1 msg) 1;
    Ok (FetchOffsetCommand topic)
  else if cmd_is "PUB" then
    msg ← utf8_decode data;
    let parts := py_split 32 3 msg in
    topic ← py_index parts 1;
    acks ← py_index parts 2;
    _ ← require (valid_acks acks) ValueError;
    payload ← py_index parts 3;
    _ ← (if checksum_enable then
           let payload_parts := py_split 32 1 payload in
           h ← py_index payload_parts 0;
           hash ← py_int h;
           m ← py_index payload_parts 1;
           msg ← utf8_encode m;
           require (checksum_verify msg hash) (ChecksumFailed msg hash)
         else Ok tt);
    payload ← utf8_encode payload;
    a ← py_int acks;
    Ok (PublishCommand topic payload a checksum_enable)
  else if cmd_is "PUL" then
    msg ← utf8_decode data;
    let parts := py_split 32 3 msg in
    topic ← py_index parts 1;
    offset ← py_index parts 2;
    size ← py_index parts 3;
    o ← py_int offset; s ← py_int size;
    Ok (PullCommand topic o s)
  else if cmd_is "RFH" then
    msg ← utf8_decode data;
    let parts := py_split 32 4 msg in
    replica_id ← py_index parts 1;
    topic ← py_index parts 2;
    offset ← py_index parts 3;
    size ← py_index parts 4;
    o ← py_int offset; s ← py_int size;
    Ok (ReplicaFetchCommand topic o s replica_id)
  else if cmd_is "PNG" then Ok PingCommand
  else if cmd_is "RGT" then
    msg ← utf8_decode data;
    topic ← py_index (py_split 32 1 msg) 1;
    Ok (RegisterTopicCommand topic)
  else if cmd_is "MTR" then
    msg ← utf8_decode data;
    topic ← py_index (py_split 32 1 msg) 1;
    Ok (MetadataRequestCommand topic)
  else if cmd_is "BRK" then
    msg ← utf8_decode data;
    let parts := py_split 32 3 msg in
    broker_id ← py_index parts 1;
    host ← py_index parts 2;
    p3 ← py_index parts 3;
    port ← py_int p3;
    Ok (BrokerRegisterCommand broker_id host port)
  else if cmd_is "CPG" then
    msg ← utf8_decode data;
    broker_id ← py_index (py_split 32 1 msg) 1;
    Ok (ControllerPingCommand broker_id)
  else if cmd_is "ISR" then
    msg ← utf8_decode data;
    let parts := py_split 32 2 msg in
    topic ← py_index parts 1;
    p2 ← py_index parts 2;
    Ok (ISRChangeCommand topic (split_replicas p2))
  else Raise (UnknownCommand cmd).

Definition parse_command (data : bytes) (checksum_enable : bool) : result (Packet Command) :=
  '(hdr, data) ← parse_packet_header data;
  cmd_obj ← _parse_command data checksum_enable;
  Ok (mkPacket hdr cmd_obj).

(** ** Responses *)

(** The fields of a metadata record, from index [i] of the parts on. *)
Definition parse_meta (parts : list (list Z)) (i : Z) : result TopicMeta :=
  topic ← py_index parts i;
  leader_id ← py_index parts (i + 1);
  leader_addr ← py_index parts (i + 2);
  p ← py_index parts (i + 3);
  leader_port ← py_int p;
  r ← py_index parts (i + 4);
  v ← py_index parts (i + 5);
  version ← py_int v;
  Ok (mkTopicMeta topic leader_id leader_addr leader_port (split_replicas r) version).

Definition _parse_response (data : bytes) : result Response :=
  msg ← utf8_decode data;
  let cmd := py_slice msg 0 3 in
  let cmd_is (name : string) := bool_decide (cmd = py name) in
  if cmd_is "CID" then
    c ← py_index (py_split 32 1 msg) 1; Ok (ClientIDResponse c)
  else if cmd_is "PNG" then Ok PingResponse
  else if cmd_is "ACK" then
    let parts := py_split 32 3 msg in
    acks ← py_index parts 2;
    _ ← require (valid_acks acks) ValueError;
    topic ← py_index parts 1;
    p3 ← py_index parts 3;
    offset ← py_int p3; a ← py_int acks;
    Ok (PubAckResponse topic offset a)
  else if cmd_is "OAK" then
    let parts := py_split 32 3 msg in
    acks ← py_index parts 2;
    _ ← require (valid_acks acks) ValueError;
    topic ← py_index parts 1;
    p3 ← py_index parts 3;
    offset ← py_int p3; a ← py_int acks;
    Ok (OffsetAckResponse topic offset a)
  else if cmd_is "FCR" then
    let parts := py_split 32 2 msg in
    topic ← py_index parts 1;
    p2 ← py_index parts 2;
    offset ← py_int p2;
    Ok (FetchOffsetResponse topic offset)
  else if cmd_is "ERR" then
    let parts := py_split 32 2 msg in
    message ← (if 2 <? zlen parts then py_index parts 2 else Ok []);
    p1 ← py_index parts 1;
    code ← py_int p1;
    Ok (ErrorResponse code message)
  else if cmd_is "MSG" then
    let parts := py_split 32 2 msg in
    topic ← py_index parts 1;
    p2 ← py_index parts 2;
    payload_len ← py_int p2;
    Ok (MessageResponseHeader topic payload_len)
  else if cmd_is "RPL" then
    let parts := py_split 32 4 msg in
    topic ← py_index parts 1;
    p2 ← py_index parts 2; log_end_offset ← py_int p2;
    p3 ← py_index parts 3; high_watermark ← py_int p3;
    p4 ← py_index parts 4; payload_len ← py_int p4;
    Ok (ReplicaFetchHeaderResponse topic log_end_offset high_watermark payload_len)
  else if cmd_is "CPR" then Ok ControllerPingResponse
  else if cmd_is "TMD" then
    m ← parse_meta (py_split 32 6 msg) 1;
    Ok (TopicMetaDataResponse m)
  else if cmd_is "TML" then
    p1 ← py_index (py_split 32 1 msg) 1;
    n ← py_int p1;
    Ok (TopicMetaDataListHeaderResponse n)
  else if cmd_is "NLC" then
    let parts := py_split 32 3 msg in
    leader_id ← py_index parts 1;
    leader_host ← py_index parts 2;
    p3 ← py_index parts 3;
    leader_port ← py_int p3;
    Ok (NotLeaderControllerResponse leader_id leader_host leader_port)
  else Raise (UnknownCommand cmd).

Definition parse_response (data : bytes) : result (Packet Response) :=
  '(hdr, data) ← parse_packet_header data;
  resp_obj ← _parse_response data;
  Ok (mkPacket hdr resp_obj).

(** The records of a metadata list; blank lines are skipped. *)
Fixpoint parse_metadata_lines (lines : list (list Z)) : result (list TopicMeta) :=
  match lines with
  | [] => Ok []
  | line :: lines' =>
    if bool_decide (strip_by is_space line = []) then parse_metadata_lines lines'
    else m ← parse_meta (py_split 32 (-1) line) 0;
         r ← parse_metadata_lines lines';
         Ok (m :: r)
  end.

Definition parse_metadata_list_payload (payload : bytes) : result (list TopicMeta) :=
  if bool_decide (payload = []) then Ok []
  else text ← utf8_decode payload;
       parse_metadata_lines (py_split 10 (-1) text).

(** ** Records of a fetched batch *)

(** The generator [parse_records], run to its end: the loop body for the
    position [i]; each round moves [i] by at least the four length bytes. *)
Fixpoint parse_records_loop (fuel : nat) (payload : bytes) (i : Z) : list (list Z) :=
  match fuel with
  | O => []
  | S fuel =>
    if i <? zlen payload then
      let length := from_bytes (py_slice payload i (i + 4)) in
      let i := i + 4 in
      let record := py_slice payload i (i + length) in
      record :: parse_records_loop fuel payload (i + length)
    else []
  end.
Definition parse_records (payload : bytes) : list (list Z) :=
  parse_records_loop (length payload) payload 0.

(** [record.split(b" ", 1)] and the checks behind it.  Every byte string with
    a blank splits; [int] of [bytes] reads them as ASCII text. *)
Definition decode_record (record : bytes) : result (Z * pystr) :=
  let parts := py_split 32 1 record in
  p0 ← py_index parts 0;
  checksum ← (if forallb asciib p0 then py_int p0 else Raise ValueError);
  message ← (if 1 <? zlen parts then p1 ← py_index parts 1; utf8_decode p1 else Ok []);
  p1 ← py_index parts 1;
  _ ← require (checksum_verify p1 checksum) RuntimeError;
  Ok (checksum, message).
