(* ===== verification/ProtocolFacts.v ===== *)
(** * Facts about the wire protocol

    Round trips of its parts, and the checksum of a message. *)
From Stdlib Require Import String.
From S2P Require Import Prelude PyData Framer Messages Encoder Parser.

(** ** What the text format can carry *)

Abbreviation no_blank s := (32 ∉ (s : list Z)).

Definition acks_ok (acks : Z) : Prop := acks = -1 ∨ acks = 0 ∨ acks = 1.

(** A replica list that [",".join] writes unambiguously. *)
Definition replicas_ok (l : list (list Z)) : Prop :=
  Forall (λ r, 44 ∉ r) l ∧ l ≠ [py "-"].

(** The commands whose fields survive the blank-separated format. *)
Definition wire_command (c : Command) : Prop :=
  match c with
  | CommitOffsetCommand topic _ acks => no_blank topic ∧ acks_ok acks
  | PublishCommand topic payload acks _ =>
      no_blank topic ∧ acks_ok acks ∧ is_Ok (utf8_decode payload)
  | PullCommand topic _ _ => no_blank topic
  | ReplicaFetchCommand topic _ _ replica_id => no_blank topic ∧ no_blank replica_id
  | BrokerRegisterCommand broker_id host _ => no_blank broker_id ∧ no_blank host
  | ISRChangeCommand topic isr_list =>
      no_blank topic ∧ isr_list ≠ [] ∧ replicas_ok isr_list
  | _ => True
  end.

Definition wire_header (h : option PacketHeader) : Prop :=
  match h with
  | None => True
  | Some h => correlation_id h ≠ [] ∧ 93 ∉ correlation_id h
  end.

(** The command as the receiver sees it: with checksums on, the payload of a
    [PUB] keeps the checksum text in front. *)
Definition received (checksum_enable : bool) (c : Command) : Command :=
  match c with
  | PublishCommand topic payload acks _ =>
      PublishCommand topic
        (match checksum_enable, py_str (crc32 payload) with
         | true, Ok c => c ++ 32 :: payload
         | _, _ => payload
         end) acks checksum_enable
  | c => c
  end.

(** ** Parsing steps *)

(** Evaluate the closed comparisons of the dispatch on the keyword. *)
Ltac dispatch :=
  repeat match goal with
  | |- context [bool_decide (@eq (list Z) ?a ?b)] =>
      let r := eval vm_compute in (bool_decide (a = b)) in
      change (bool_decide (a = b)) with r; cbv iota
  end.

Lemma text_slice (kw t : list Z) : length kw = 3%nat → py_slice (kw ++ t) 0 3 = kw.
Proof.
  intros Hl. destruct kw as [|x [|y [|z [|]]]]; try done. unfold py_slice, clip.
  rewrite zlen_app. simpl length. repeat lia_if.
  rewrite !Z.min_l by lia. done.
Qed.

Lemma keyword_slice kw t b :
  length kw = 3%nat → forallb asciib kw = true →
  utf8_decode b = Ok (kw ++ t) → py_slice b 0 3 = kw.
Proof.
  intros Hl Ha [b' ->]%utf8_prefix; [|done]. by apply text_slice.
Qed.

Lemma valid_acks_ok acks s : acks_ok acks → py_str acks = Ok s → valid_acks s = true.
Proof. intros [->|[->| ->]]; vm_compute; intros [= <-]; done. Qed.

Lemma split_replicas_str l :
  l ≠ [] → replicas_ok l → split_replicas (py_join (py ",") l) = l.
Proof.
  intros Hne [Hc Hd]. unfold split_replicas.
  case_bool_decide as E; [|by apply py_split_join].
  exfalso. destruct l as [|x [|y l]]; [done| |].
  - by apply Hd; rewrite <-E.
  - assert (44 ∈ py "-") as Hin; [rewrite <-E; cbn; set_solver|].
    vm_compute in Hin. by set_solver.
Qed.

Lemma split_replicas_replicas_str l :
  replicas_ok l → split_replicas (replicas_str l) = l.
Proof.
  intros Hl. unfold replicas_str. case_bool_decide as E; [by subst|].
  by apply split_replicas_str.
Qed.

(** ** The packet header *)

Lemma span_until x s rest :
  x ∉ s → span (λ c, negb (c =? x)) (s ++ x :: rest) = (s, x :: rest).
Proof.
  induction s as [|c s IH]; intros Hx; cbn.
  - by rewrite Z.eqb_refl.
  - apply not_elem_of_cons in Hx as [Hc Hs]. rewrite IH by done.
    by rewrite (proj2 (Z.eqb_neq c x)) by done.
Qed.

(** A packet text starts with a capital letter, so it is neither taken for a
    header nor eaten by the blank after one. *)
Definition letter_first (t : pystr) : Prop := ∃ x r, t = x :: r ∧ 65 ≤ x ≤ 90.

Lemma letter_not_space t : letter_first t → drop_while is_space t = t.
Proof.
  intros (x & r & -> & Hx). cbn. replace (is_space x) with false; [done|].
  unfold is_space, wide_space.
  rewrite bool_decide_eq_false_2; [lia|]. rewrite !elem_of_cons, elem_of_nil. lia.
Qed.

Lemma header_re_letter t : letter_first t → _HEADER_RE t = None.
Proof.
  intros (x & r & -> & Hx). unfold _HEADER_RE.
  rewrite bool_decide_eq_false_2; [done|]. vm_compute py. cbn. intros [=]. lia.
Qed.

Lemma header_re_some id t :
  id ≠ [] → 93 ∉ id → letter_first t →
  _HEADER_RE (py "[CRR=" ++ id ++ py "] " ++ t) = Some (id, t).
Proof.
  intros Hne Hid Ht. unfold _HEADER_RE.
  change (py "[CRR=" ++ id ++ py "] " ++ t)
    with (py "[CRR=" ++ (id ++ 93 :: 32 :: t)).
  rewrite (take_app_length' (py "[CRR=")), bool_decide_eq_true_2,
    (drop_app_length' (py "[CRR=")), span_until by done.
  destruct id as [|i id]; [done|]. cbn.
  by rewrite letter_not_space.
Qed.

Lemma parse_packet_header_encoded {A} (p : Packet A) hb b t :
  wire_header (header p) → encode_packet_header p = Ok hb →
  utf8_decode b = Ok t → letter_first t →
  parse_packet_header (hb ++ b) = Ok (header p, b).
Proof.
  intros Hw Hh Hb Ht. unfold encode_packet_header in Hh. unfold parse_packet_header.
  destruct (header p) as [[id]|]; cbn [correlation_id wire_header] in *.
  - rewrite (utf8_decode_encode _ _ _ Hh), Hb. cbn [mbind result_bind].
    rewrite <-!app_assoc, header_re_some by naive_solver.
    by rewrite (utf8_encode_decode _ _ Hb).
  - injection Hh as <-. cbn [app]. rewrite Hb. cbn [mbind result_bind].
    by rewrite header_re_letter.
Qed.

(** ** Commands *)

(** [H : utf8_decode b = Ok (words (kw :: fields))]: run the parser up to the
    split of the text, then look at the fields. *)
Ltac keyword kw H :=
  match type of H with
  | utf8_decode ?b = Ok ?text =>
      rewrite ?(keyword_slice kw (drop 3 text) b eq_refl eq_refl H);
      change (utf8_decode kw) with (Ok kw); rewrite ?H;
      cbn [mbind result_bind]; cbv zeta;
      try replace (py_slice text 0 3) with kw
        by (symmetry; exact (text_slice kw (drop 3 text) eq_refl));
      dispatch; rewrite ?H; cbn [mbind result_bind]
  end.

Ltac no_blank_tac :=
  match goal with
  | |- 32 ∉ py _ => apply (bool_decide_unpack _); vm_compute; exact I
  | H : py_str _ = Ok ?s |- 32 ∉ ?s => apply (py_str_not_in _ _ _ H); lia
  | |- _ => naive_solver
  end.

Ltac fields :=
  cbv zeta;
  repeat (rewrite py_split_fields by
    first [done | cbn [removelast]; repeat (constructor; [no_blank_tac|]); constructor]);
  repeat match goal with
  | |- context [py_index (?x :: ?l) ?i] =>
      let r := eval cbv [py_index Z.ltb Z.leb Z.compare Pos.compare Pos.compare_cont
        Z.to_nat Pos.to_nat Pos.iter_op lookup list_lookup or_raise Nat.add Init.Nat.add]
        in (py_index (x :: l) i) in
      change (py_index (x :: l) i) with r; cbn [mbind result_bind]
  | H : py_str _ = Ok ?s |- context [py_int ?s] =>
      rewrite (py_int_str _ _ H); cbn [mbind result_bind]
  | H : py_str _ = Ok ?s |- context [valid_acks ?s] =>
      rewrite (valid_acks_ok _ _ ltac:(naive_solver) H); cbn [require mbind result_bind]
  end.

Ltac first_letter := eexists; split; [eassumption|]; do 2 eexists; split;
  [reflexivity|vm_compute; split; discriminate].

(** A [PUB] text ends in the raw payload, of which only the decoded form is
    split further. *)
Lemma decode_with_payload l b payload t :
  utf8_encode (words (l ++ [[]])) = Ok b → utf8_decode payload = Ok t →
  utf8_decode (b ++ payload) = Ok (words (l ++ [t])).
Proof.
  intros Hb Ht. rewrite (utf8_decode_app _ _ _ _ (utf8_roundtrip _ _ Hb) Ht).
  unfold words. by rewrite py_join_snoc.
Qed.

Lemma parse_publish_plain topic payload acks a t b :
  no_blank topic → acks_ok acks → py_str acks = Ok a → utf8_decode payload = Ok t →
  utf8_encode (words [py "PUB"; topic; a; []]) = Ok b →
  _parse_command (b ++ payload) false = Ok (PublishCommand topic payload acks false).
Proof.
  intros Ht Hk Ha Hp Hb.
  pose proof (decode_with_payload [py "PUB"; topic; a] _ _ _ Hb Hp) as Hd.
  cbn [app] in Hd. unfold _parse_command. keyword (py "PUB") Hd. fields.
  by rewrite (utf8_encode_decode _ _ Hp).
Qed.

Lemma parse_publish_checked topic payload acks a c t b :
  no_blank topic → acks_ok acks → py_str acks = Ok a → utf8_decode payload = Ok t →
  py_str (crc32 payload) = Ok c →
  utf8_encode (words [py "PUB"; topic; a; c; []]) = Ok b →
  _parse_command (b ++ payload) true
  = Ok (PublishCommand topic (c ++ 32 :: payload) acks true).
Proof.
  intros Ht Hk Ha Hp Hc Hb.
  pose proof (decode_with_payload [py "PUB"; topic; a; c] _ _ _ Hb Hp) as Hd.
  change (words ([py "PUB"; topic; a; c] ++ [t]))
    with (words [py "PUB"; topic; a; words [c; t]]) in Hd.
  unfold _parse_command. keyword (py "PUB") Hd. fields. fields.
  rewrite (utf8_encode_decode _ _ Hp). cbn [mbind result_bind].
  unfold checksum_verify. rewrite Z.eqb_refl. cbn [require mbind result_bind].
  change (words [c; t]) with (c ++ 32 :: t).
  erewrite (proj2 (utf8_encode_app c (32 :: t) (c ++ 32 :: payload))); [done|].
  exists c, (32 :: payload). split_and!; [|cbn [utf8_encode]|done].
  - by eapply utf8_encode_ascii, py_str_ascii.
  - by rewrite (utf8_encode_decode _ _ Hp).
Qed.

Lemma parse_command_body c ck b :
  wire_command c → encode_command_body c ck = Ok b →
  (∃ t, utf8_decode b = Ok t ∧ letter_first t) ∧
  _parse_command b ck = Ok (received ck c).
Proof.
  destruct c; cbn [wire_command encode_command_body received]; intros Hw Hb; inv_ok;
    try (pose proof (utf8_roundtrip _ _ Hb) as Hd; split; [first_letter|];
      unfold _parse_command;
      match type of Hd with _ = Ok (words (?kw :: _)) => keyword kw Hd end;
      fields; try done).
  - split; [|done]. eexists; split; [done|]. do 2 eexists; split; [done|].
    vm_compute; split; discriminate.
  - destruct Hw as (Ht & Hk & [t Hp]). destruct ck; inv_ok.
    + split; [|by rewrite Ha0; eapply parse_publish_checked].
      pose proof (decode_with_payload [py "PUB"; topic; a; a0] _ _ _ Ha1 Hp).
      first_letter.
    + split; [|by eapply parse_publish_plain].
      pose proof (decode_with_payload [py "PUB"; topic; a] _ _ _ Ha0 Hp).
      first_letter.
  - split; [|done]. eexists; split; [done|]. do 2 eexists; split; [done|].
    vm_compute; split; discriminate.
  - by rewrite split_replicas_str by naive_solver.
Qed.

(** Encoding, framing, reading and parsing a command gives the command back. *)
Lemma command_roundtrip p ck f rest :
  wire_header (header p) → wire_command (body p) → encode_command p ck = Ok f →
  ∃ data, read_packet (ef_header f ++ rest) = Ok (data, rest) ∧
          parse_command data ck = Ok (mkPacket (header p) (received ck (body p))).
Proof.
  intros Hh Hw He. unfold encode_command in He. inv_ok. rename a into hb, a0 into b.
  destruct (parse_command_body _ _ _ Hw Ha0) as [(t & Ht & Hl) Hp].
  exists (hb ++ b). split; [by apply read_encoded|].
  unfold parse_command.
  rewrite (parse_packet_header_encoded p hb b t) by done.
  cbn [mbind result_bind]. by rewrite Hp.
Qed.

(** ** Responses *)

Definition wire_meta (m : TopicMeta) : Prop :=
  no_blank (tm_topic m) ∧ no_blank (tm_leader_id m) ∧ no_blank (tm_leader_addr m) ∧
  Forall (λ r, no_blank r) (tm_replica_list m) ∧ replicas_ok (tm_replica_list m).

Definition wire_response (r : Response) : Prop :=
  match r with
  | OffsetAckResponse topic _ acks | PubAckResponse topic _ acks =>
      no_blank topic ∧ acks_ok acks
  | FetchOffsetResponse topic _ | MessageResponse topic _ | MmapResponse topic _
  | FileResponse topic _ _ _ | ReplicaFetchBytesResponse topic _ _ _ _
  | ReplicaFetchMmapResponse topic _ _ _ _ | ReplicaFetchFileResponse topic _ _ _ _ _ _ =>
      no_blank topic
  | TopicMetaDataResponse m => wire_meta m
  | NotLeaderControllerResponse leader_id leader_host _ =>
      no_blank leader_id ∧ no_blank leader_host
  | _ => True
  end.

(** What the first frame of a response announces.  [payload_text] is the text of
    a metadata list. *)
Definition announced (r : Response) : Response :=
  match r with
  | MessageResponse topic payload | MmapResponse topic payload =>
      MessageResponseHeader topic (zlen payload)
  | FileResponse topic _ _ length => MessageResponseHeader topic length
  | ReplicaFetchBytesResponse topic leo hw _ payload
  | ReplicaFetchMmapResponse topic leo hw _ payload =>
      ReplicaFetchHeaderResponse topic leo hw (zlen payload)
  | ReplicaFetchFileResponse topic leo hw _ _ _ length =>
      ReplicaFetchHeaderResponse topic leo hw length
  | TopicMetaDataListResponse l =>
      match meta_lines l with
      | Ok lines => TopicMetaDataListHeaderResponse (zlen (py_join [10] lines))
      | Raise _ => TopicMetaDataListResponse l
      end
  | r => r
  end.

Lemma join_no_blank l : Forall (λ r, no_blank r) l → no_blank (py_join (py ",") l).
Proof.
  induction 1 as [|x l Hx Hl IH]; [by apply not_elem_of_nil|].
  destruct l as [|y l]; [done|]. rewrite py_join_cons by done.
  rewrite !not_elem_of_app. split_and!; [done| |done].
  apply (bool_decide_unpack _). vm_compute. exact I.
Qed.

Lemma replicas_str_no_blank l : Forall (λ r, no_blank r) l → no_blank (replicas_str l).
Proof.
  intros Hl. unfold replicas_str. case_bool_decide; [|by apply join_no_blank].
  apply (bool_decide_unpack _). vm_compute. exact I.
Qed.

(** The parts of a metadata record, found at index [i] of a split text. *)
Lemma parse_meta_fields m w pre :
  wire_meta m → meta_fields m = Ok w → parse_meta (pre ++ w) (zlen pre) = Ok m.
Proof.
  intros (Ht & Hi & Ha & Hb & Hr) Hw. unfold meta_fields in Hw. inv_ok.
  rename a into p, a0 into v. unfold parse_meta.
  assert (∀ k x, 0 ≤ k → [tm_topic m; tm_leader_id m; tm_leader_addr m; p;
            replicas_str (tm_replica_list m); v] !! Z.to_nat k = Some x →
          py_index (pre ++ [tm_topic m; tm_leader_id m; tm_leader_addr m; p;
            replicas_str (tm_replica_list m); v]) (zlen pre + k) = Ok x) as E.
  { intros k x Hk Hx. unfold py_index. repeat lia_if.
    rewrite Z2Nat.inj_add, Nat2Z.id, lookup_app_r by lia.
    by rewrite Nat.add_comm, Nat.add_sub, Hx. }
  rewrite <-(Z.add_0_r (zlen pre)) at 1. rewrite (E 0 _ ltac:(lia) eq_refl).
  cbn [mbind result_bind]. rewrite (E 1 _ ltac:(lia) eq_refl). cbn [mbind result_bind].
  rewrite (E 2 _ ltac:(lia) eq_refl). cbn [mbind result_bind].
  rewrite (E 3 _ ltac:(lia) eq_refl). cbn [mbind result_bind].
  rewrite (py_int_str _ _ Ha0). cbn [mbind result_bind].
  rewrite (E 4 _ ltac:(lia) eq_refl). cbn [mbind result_bind].
  rewrite (E 5 _ ltac:(lia) eq_refl). cbn [mbind result_bind].
  rewrite (py_int_str _ _ Ha1). cbn [mbind result_bind].
  rewrite split_replicas_replicas_str by done. by destruct m.
Qed.

Lemma meta_fields_no_blank m w :
  wire_meta m → meta_fields m = Ok w → Forall (λ s, no_blank s) w ∧ zlen w = 6.
Proof.
  intros (Ht & Hi & Ha & Hb & Hr) Hw. unfold meta_fields in Hw. inv_ok.
  split; [|done]. repeat constructor; try done.
  - by no_blank_tac.
  - by apply replicas_str_no_blank.
  - by no_blank_tac.
Qed.

Lemma removelast_no_blank w : Forall (λ s, no_blank s) w →
  Forall (λ s, no_blank s) (removelast (py "TMD" :: w)).
Proof.
  intros Hw. assert (Forall (λ s, no_blank s) (py "TMD" :: w)) as H.
  { constructor; [|done]. apply (bool_decide_unpack _). vm_compute. exact I. }
  rewrite (app_removelast_last (A := list Z) [] (l := py "TMD" :: w)) in H by done.
  by apply Forall_app in H as [? _].
Qed.

Lemma parse_response_body r b fr :
  wire_response r → encode_response_body r = Ok (b, fr) →
  (∃ t, utf8_decode b = Ok t ∧ letter_first t) ∧ _parse_response b = Ok (announced r).
Proof.
  destruct r; cbn [wire_response encode_response_body announced]; intros Hw Hb; inv_ok;
    try match goal with
    | H : Ok _ = Ok (_, _) |- _ => injection H as <- <-
    end;
    try match goal with H : utf8_encode (words (?kw :: _)) = Ok ?b |- _ =>
      pose proof (utf8_roundtrip _ _ H) as Hd; split; [first_letter|];
      unfold _parse_response; keyword kw Hd; fields; try done end.
  - split; [|done]. eexists; split; [done|]. do 2 eexists; split; [done|].
    vm_compute; split; discriminate.
  - rename a into w. destruct (meta_fields_no_blank _ _ Hw Ha) as [Hn Hl].
    pose proof (utf8_roundtrip _ _ Ha0) as Hd.
    assert (words (py "TMD" :: w) = py "TMD" ++ 32 :: words w) as E
      by (by destruct w).
    rewrite E in Hd. split; [first_letter|].
    unfold _parse_response. rewrite Hd. cbn [mbind result_bind]. cbv zeta.
    rewrite text_slice by done. dispatch. rewrite <-E, py_split_fields.
    + pose proof (parse_meta_fields _ w [py "TMD"] Hw Ha) as Hp.
      change (parse_meta (py "TMD" :: w) 1 = Ok meta) in Hp. by rewrite Hp.
    + done.
    + by apply removelast_no_blank.
    + cbn [length]. lia.
  - by rewrite Ha.
  - split; [|done]. eexists; split; [done|]. do 2 eexists; split; [done|].
    vm_compute; split; discriminate.
Qed.

Lemma response_roundtrip p f rest :
  wire_header (header p) → wire_response (body p) → encode_response p = Ok f →
  ∃ data, read_packet (ef_header f ++ rest) = Ok (data, rest) ∧
          parse_response data = Ok (mkPacket (header p) (announced (body p))).
Proof.
  intros Hh Hw He. unfold encode_response in He. inv_ok. rename a into hb.
  destruct a0 as [b fr]. inv_ok.
  destruct (parse_response_body _ _ _ Hw Ha0) as [(t & Ht & Hl) Hp].
  exists (hb ++ b). split.
  - apply read_encoded.
    destruct (body p); cbn in Ha0; inv_ok; try (injection Ha0 as <- <-);
      try (injection Hb as <- <-); done.
  - unfold parse_response.
    rewrite (parse_packet_header_encoded p hb b t) by done.
    cbn [mbind result_bind]. by rewrite Hp.
Qed.

Definition word32 (c : Z) : Prop := 0 ≤ c < 2 ^ 32.

Lemma lxor_word32 a b : word32 a → word32 b → word32 (Z.lxor a b).
Proof.
  unfold word32. intros Ha Hb.
  assert (∀ x, 0 ≤ x < 2 ^ 32 → x = Z.land x (Z.ones 32)) as E.
  { intros x Hx. rewrite Z.land_ones, Z.mod_small by lia. done. }
  rewrite (E a Ha), (E b Hb).
  replace (Z.lxor _ _) with (Z.land (Z.lxor a b) (Z.ones 32)).
  - rewrite Z.land_ones by lia. apply Z.mod_pos_bound. lia.
  - apply Z.bits_inj'. intros n Hn. rewrite Z.lxor_spec, !Z.land_spec, Z.lxor_spec.
    by destruct (Z.testbit a n), (Z.testbit b n), (Z.testbit (Z.ones 32) n).
Qed.

Lemma shiftr1_bound c : word32 c → 0 ≤ Z.shiftr c 1 < 2 ^ 31.
Proof.
  unfold word32. intros Hc. rewrite Z.shiftr_div_pow2 by lia. change (2 ^ 1) with 2.
  change (2 ^ 32) with (2 ^ 31 * 2) in Hc. split; [apply Z.div_pos; lia|].
  apply Z.div_lt_upper_bound; lia.
Qed.

Lemma crc_step_word32 c : word32 c → word32 (crc_step c).
Proof.
  intros Hc. pose proof (shiftr1_bound c Hc) as Hs. unfold crc_step.
  assert (word32 (Z.shiftr c 1)) as Hw by (unfold word32; lia).
  destruct (Z.testbit c 0); [|done]. apply lxor_word32; [done|]. by vm_compute.
Qed.

Lemma crc_iter_word32 n c : word32 c → word32 (Nat.iter n crc_step c).
Proof. intros Hc. induction n; cbn; [done|by apply crc_step_word32]. Qed.

Lemma crc_byte_word32 c b : word32 c → is_byte b → word32 (crc_byte c b).
Proof.
  intros Hc Hb. unfold crc_byte.
  assert (word32 (Z.lxor c b)) as H.
  { apply lxor_word32; [done|]. unfold word32, is_byte in *. lia. }
  by apply crc_iter_word32.
Qed.

(** Bit 31 of a step's result is the bit that was shifted out. *)
Lemma crc_step_top c : word32 c → Z.testbit (crc_step c) 31 = Z.testbit c 0.
Proof.
  intros Hc. pose proof (shiftr1_bound c Hc) as Hs.
  assert (Z.testbit (Z.shiftr c 1) 31 = false) as Ht.
  { destruct (decide (Z.shiftr c 1 = 0)) as [->|]; [done|].
    apply Z.bits_above_log2; [lia|]. apply Z.log2_lt_pow2; lia. }
  unfold crc_step. destruct (Z.testbit c 0); [|done].
  rewrite Z.lxor_spec, Ht. done.
Qed.

Lemma crc_step_inj c d : word32 c → word32 d → crc_step c = crc_step d → c = d.
Proof.
  intros Hc Hd E. assert (Z.testbit c 0 = Z.testbit d 0) as E0.
  { by rewrite <-!crc_step_top, E. }
  assert (Z.shiftr c 1 = Z.shiftr d 1) as E1.
  { unfold crc_step in E. rewrite E0 in E. destruct (Z.testbit d 0); [|done].
    rewrite <-(Z.lxor_0_r (Z.shiftr c 1)), <-(Z.lxor_nilpotent 0xEDB88320).
    by rewrite <-Z.lxor_assoc, E, Z.lxor_assoc, Z.lxor_nilpotent, Z.lxor_0_r. }
  apply Z.bits_inj'. intros n Hn. destruct (decide (n = 0)) as [->|Hn0]; [done|].
  replace n with ((n - 1) + 1) by lia. rewrite <-!Z.shiftr_spec by lia. by rewrite E1.
Qed.

Lemma crc_iter_inj n c d :
  word32 c → word32 d → Nat.iter n crc_step c = Nat.iter n crc_step d → c = d.
Proof.
  intros Hc Hd. induction n as [|n IH]; cbn; [done|]. intros E. apply IH.
  apply crc_step_inj; auto using crc_iter_word32.
Qed.

Lemma lxor_inj_l a b c : Z.lxor a b = Z.lxor a c → b = c.
Proof.
  intros E. rewrite <-(Z.lxor_0_l b), <-(Z.lxor_0_l c), <-(Z.lxor_nilpotent a).
  by rewrite !Z.lxor_assoc, E.
Qed.
Lemma lxor_inj_r a b c : Z.lxor b a = Z.lxor c a → b = c.
Proof. rewrite !(Z.lxor_comm _ a). apply lxor_inj_l. Qed.

Lemma byte_word32 b : is_byte b → word32 b.
Proof. unfold is_byte, word32. lia. Qed.

Lemma crc_byte_inj_byte c b b' :
  word32 c → is_byte b → is_byte b' → crc_byte c b = crc_byte c b' → b = b'.
Proof.
  intros Hc Hb Hb' E%crc_iter_inj; try (apply lxor_word32; auto using byte_word32).
  by eapply lxor_inj_l.
Qed.

Lemma crc_byte_inj_state c d b :
  word32 c → word32 d → is_byte b → crc_byte c b = crc_byte d b → c = d.
Proof.
  intros Hc Hd Hb E%crc_iter_inj; try (apply lxor_word32; auto using byte_word32).
  by eapply lxor_inj_r.
Qed.

Lemma crc_fold_word32 bs c :
  word32 c → Forall is_byte bs → word32 (fold_left crc_byte bs c).
Proof.
  intros Hc Hbs. revert c Hc.
  induction Hbs as [|b bs Hb Hbs IH]; intros c Hc; cbn; [done|].
  by apply IH, crc_byte_word32.
Qed.

Lemma crc_fold_inj bs c d :
  word32 c → word32 d → Forall is_byte bs →
  fold_left crc_byte bs c = fold_left crc_byte bs d → c = d.
Proof.
  intros Hc Hd Hbs. revert c d Hc Hd.
  induction Hbs as [|b bs Hb Hbs IH]; intros c d Hc Hd; cbn; [done|].
  intros E%IH; [|by apply crc_byte_word32..]. by eapply crc_byte_inj_state.
Qed.

(** Two messages that differ in one byte have different checksums. *)
Lemma crc32_one_byte p b b' s :
  Forall is_byte p → is_byte b → is_byte b' → Forall is_byte s →
  crc32 (p ++ b :: s) = crc32 (p ++ b' :: s) → b = b'.
Proof.
  intros Hp Hb Hb' Hs E. unfold crc32 in E. apply lxor_inj_r in E.
  rewrite !fold_left_app in E. cbn in E.
  assert (word32 (fold_left crc_byte p 0xFFFFFFFF)) as Hw.
  { apply crc_fold_word32; [by vm_compute|done]. }
  apply crc_fold_inj in E; [|by apply crc_byte_word32..|done].
  by eapply crc_byte_inj_byte.
Qed.

Lemma crc32_word32 bs : Forall is_byte bs → word32 (crc32 bs).
Proof.
  intros Hbs. unfold crc32. apply lxor_word32; [|by vm_compute].
  apply crc_fold_word32; [by vm_compute|done].
Qed.
