(* ===== verification/RecordFacts.v ===== *)
(** * Records of a batch and metadata lists

    [parse_records] undoes the length-prefixed concatenation the log stores,
    [decode_record] accepts what a checked publish stores and nothing that
    differs from it in one byte, and [parse_metadata_list_payload] undoes the
    list form of [encode_response]. *)
From Stdlib Require Import String.
From S2P Require Import Prelude PyData Framer Messages Encoder Parser ProtocolFacts.

(** ** [parse_records] *)

(** The length-prefixed records one after the other. *)
Definition frames (msgs : list (list Z)) : result bytes :=
  fs ← mapM encode_frame msgs; Ok (concat fs).

Lemma frames_cons m msgs b :
  frames (m :: msgs) = Ok b ↔
  ∃ f r, encode_frame m = Ok f ∧ frames msgs = Ok r ∧ b = f ++ r.
Proof.
  unfold frames. cbn. split.
  - intros H. inv_ok. cbn. eexists _, _. split_and!; eauto. by rewrite Ha1.
  - intros (f & r & -> & H & ->). inv_ok. cbn. by rewrite Ha.
Qed.

Lemma parse_records_step fuel pre m f rest :
  encode_frame m = Ok f →
  parse_records_loop (S fuel) (pre ++ f ++ rest) (zlen pre)
  = m :: parse_records_loop fuel ((pre ++ f) ++ rest) (zlen (pre ++ f)).
Proof.
  intros Hf. pose proof (encode_frame_length _ _ Hf) as Hl.
  apply encode_frame_Ok in Hf as (p & Hp & ->).
  pose proof (to_bytes_length _ _ _ Hp) as Hlp.
  cbn [parse_records_loop]. rewrite !zlen_app in *. lia_if.
  replace (pre ++ (p ++ m) ++ rest) with (pre ++ p ++ (m ++ rest))
    by (by rewrite <-!app_assoc).
  rewrite (py_slice_mid pre p _ (zlen pre) (zlen pre + 4)) by lia. rewrite (from_to_bytes _ _ _ Hp).
  replace (pre ++ p ++ m ++ rest) with ((pre ++ p) ++ m ++ rest)
    by (by rewrite <-!app_assoc).
  rewrite (py_slice_mid (pre ++ p) m) by (rewrite zlen_app; lia). f_equal.
  rewrite <-!app_assoc. f_equal. lia.
Qed.

Lemma parse_records_loop_frames msgs b pre fuel :
  frames msgs = Ok b → (length msgs ≤ fuel)%nat →
  parse_records_loop fuel (pre ++ b) (zlen pre) = msgs.
Proof.
  revert b pre fuel. induction msgs as [|m msgs IH]; intros b pre fuel Hb Hf.
  - injection Hb as <-. destruct fuel; cbn; [done|].
    rewrite app_nil_r. by rewrite Z.ltb_irrefl.
  - apply frames_cons in Hb as (f & r & Hm & Hr & ->).
    destruct fuel as [|fuel]; [cbn in Hf; lia|].
    rewrite (parse_records_step _ _ m) by done. f_equal. apply IH; [done|cbn in Hf; lia].
Qed.

Lemma frames_app l l' b b' :
  frames l = Ok b → frames l' = Ok b' → frames (l ++ l') = Ok (b ++ b').
Proof.
  intros Hl Hl'. revert b Hl. induction l as [|m l IH]; intros b Hl.
  - by injection Hl as <-.
  - apply frames_cons in Hl as (f & r & Hf & Hr & ->). cbn [app]. rewrite frames_cons.
    exists f, (r ++ b'). rewrite <-app_assoc. auto.
Qed.

Lemma frames_one m f : encode_frame m = Ok f → frames [m] = Ok f.
Proof. intros Hf. rewrite frames_cons. exists f, []. by rewrite app_nil_r. Qed.

Lemma frames_app_inv l l' b :
  frames (l ++ l') = Ok b → ∃ b1 b2, frames l = Ok b1 ∧ frames l' = Ok b2 ∧ b = b1 ++ b2.
Proof.
  revert b. induction l as [|m l IH]; intros b Hb; [by exists [], b|].
  cbn [app] in Hb. apply frames_cons in Hb as (f & r & Hf & Hr & ->).
  destruct (IH _ Hr) as (b1 & b2 & H1 & H2 & ->). exists (f ++ b1), b2.
  rewrite <-app_assoc. split_and!; [|done|done]. apply frames_cons. by exists f, b1.
Qed.

Lemma frames_length msgs b : frames msgs = Ok b → 4 * zlen msgs ≤ zlen b.
Proof.
  revert b. induction msgs as [|m msgs IH]; intros b Hb.
  - injection Hb as <-. done.
  - apply frames_cons in Hb as (f & r & Hm%encode_frame_length & Hr%IH & ->).
    autorewrite with py. lia.
Qed.

Lemma parse_records_frames msgs b : frames msgs = Ok b → parse_records b = msgs.
Proof.
  intros Hb. pose proof (frames_length _ _ Hb). unfold parse_records.
  apply (parse_records_loop_frames msgs b []); [done|lia].
Qed.

(** More fuel than bytes changes nothing: the generator has ended. *)
Lemma parse_records_fuel fuel payload i :
  0 ≤ i → Forall is_byte payload → zlen payload - i ≤ Z.of_nat fuel →
  parse_records_loop (S fuel) payload i = parse_records_loop fuel payload i.
Proof.
  revert i. induction fuel as [|fuel IH]; intros i Hi Hb Hf.
  - cbn. destruct (Z.ltb_spec i (zlen payload)); [lia|done].
  - remember (S fuel) as k eqn:Hk. cbn [parse_records_loop]. subst k.
    cbn [parse_records_loop]. destruct (Z.ltb_spec i (zlen payload)) as [Hlt|]; [|done].
    f_equal. set (n := from_bytes _).
    assert (0 ≤ n).
    { apply from_bytes_bound. rewrite py_slice_nonneg by lia.
      by apply Forall_take, Forall_drop. }
    apply IH; [lia|done|lia].
Qed.

(** ** [decode_record] *)

Lemma decode_record_checked payload t c :
  py_str (crc32 payload) = Ok c → utf8_decode payload = Ok t →
  decode_record (c ++ 32 :: payload) = Ok (crc32 payload, t).
Proof.
  intros Hc Ht. unfold decode_record.
  change (c ++ 32 :: payload) with (words [c; payload]). fields.
  rewrite (py_str_ascii _ _ Hc). cbn [mbind result_bind].
  cbn [length]. lia_if. rewrite Ht. cbn [mbind result_bind].
  unfold checksum_verify. by rewrite Z.eqb_refl.
Qed.

(** A record whose message differs in one byte is refused. *)
Lemma decode_record_corrupt p b b' s c r :
  Forall is_byte p → is_byte b → is_byte b' → Forall is_byte s → b ≠ b' →
  py_str (crc32 (p ++ b :: s)) = Ok c →
  decode_record (c ++ 32 :: (p ++ b' :: s)) ≠ Ok r.
Proof.
  intros Hp Hb Hb' Hs Hne Hc. unfold decode_record.
  change (c ++ 32 :: p ++ b' :: s) with (words [c; p ++ b' :: s]). fields.
  rewrite (py_str_ascii _ _ Hc). cbn [mbind result_bind].
  cbn [length]. lia_if. destruct (utf8_decode _); cbn [mbind result_bind]; [|done].
  unfold checksum_verify. destruct (Z.eqb_spec (crc32 (p ++ b' :: s)) (crc32 (p ++ b :: s)));
    [|done]. exfalso. apply Hne. symmetry. by apply (crc32_one_byte p _ _ s).
Qed.

(** ** Metadata lists *)

Abbreviation no_newline s := (10 ∉ (s : list Z)).

(** A metadata record a line of the list can carry. *)
Definition wire_meta_line (m : TopicMeta) : Prop :=
  wire_meta m ∧ no_newline (tm_topic m) ∧ no_newline (tm_leader_id m) ∧
  no_newline (tm_leader_addr m) ∧ Forall (λ r, no_newline r) (tm_replica_list m).

Lemma join_not_in c sep l :
  c ≠ sep → Forall (λ r, c ∉ r) l → c ∉ py_join [sep] l.
Proof.
  intros Hc. induction 1 as [|x l Hx Hl IH]; [by apply not_elem_of_nil|].
  destruct l as [|y l]; [done|]. rewrite py_join_cons by done.
  rewrite !not_elem_of_app, not_elem_of_cons. split_and!; auto using not_elem_of_nil.
Qed.

Lemma meta_fields_no_newline m w :
  wire_meta_line m → meta_fields m = Ok w → no_newline (words w).
Proof.
  intros (_ & Ht & Hi & Ha & Hr) Hw. unfold meta_fields in Hw. inv_ok.
  apply join_not_in; [done|]. repeat constructor; try done.
  - apply (py_str_not_in _ _ _ Ha0). lia.
  - unfold replicas_str. case_bool_decide.
    + apply (bool_decide_unpack _). vm_compute. exact I.
    + by apply join_not_in.
  - apply (py_str_not_in _ _ _ Ha1). lia.
Qed.

Lemma drop_while_nil f s x : drop_while f s = [] → x ∈ s → f x = true.
Proof.
  induction s as [|c s IH]; cbn; [by intros _ ?%not_elem_of_nil|].
  destruct (f c) eqn:E; [|done]. intros Hs [->|Hx]%elem_of_cons; auto.
Qed.

Lemma drop_while_elem f s x : x ∈ s → f x = true ∨ x ∈ drop_while f s.
Proof.
  induction s as [|c s IH]; [by intros ?%not_elem_of_nil|]. cbn.
  intros [->|Hx]%elem_of_cons.
  - destruct (f c); [by left|]. right. apply elem_of_cons. by left.
  - destruct (f c); [by apply IH|]. right. apply elem_of_cons. by right.
Qed.

Lemma strip_by_nil f s x : strip_by f s = [] → x ∈ s → f x = true.
Proof.
  unfold strip_by. intros Hs Hx. apply (f_equal reverse) in Hs.
  rewrite reverse_involutive in Hs.
  destruct (drop_while_elem f s x Hx) as [|Hd]; [done|].
  apply (drop_while_nil _ _ _ Hs). by apply elem_of_reverse.
Qed.

Lemma int_char_not_space c : int_char c → is_space c = false.
Proof.
  intros Hc. unfold is_space, wide_space, int_char in *.
  rewrite bool_decide_eq_false_2; [lia|]. rewrite !elem_of_cons, elem_of_nil. lia.
Qed.

Lemma elem_of_join sep l x c : x ∈ l → c ∈ x → c ∈ py_join sep l.
Proof.
  induction l as [|y l IH]; [by intros ?%not_elem_of_nil|].
  destruct l as [|z l]; intros Hx Hc.
  - apply list_elem_of_singleton in Hx as ->. done.
  - rewrite py_join_cons by done. rewrite !elem_of_app.
    apply elem_of_cons in Hx as [->|Hx]; auto.
Qed.

(** A written record is not taken for a blank line: its version has digits. *)
Lemma meta_line_not_blank m w :
  meta_fields m = Ok w → strip_by is_space (words w) ≠ [].
Proof.
  intros Hw Hs. unfold meta_fields in Hw. inv_ok. rename a0 into v.
  pose proof (py_str_chars _ _ Ha0) as [Hv Hne]. destruct v as [|d v]; [done|].
  apply Forall_cons_1 in Hv as [Hd%int_char_not_space _].
  assert (is_space d = true); [|congruence].
  apply (strip_by_nil _ _ _ Hs).
  apply (elem_of_join _ _ (d :: v)); rewrite !elem_of_cons; tauto.
Qed.

Lemma parse_metadata_lines_encoded l lines :
  Forall wire_meta_line l → meta_lines l = Ok lines →
  parse_metadata_lines lines = Ok l ∧ Forall (λ s, no_newline s) lines.
Proof.
  intros Hl. revert lines. induction Hl as [|m l Hm Hl IH]; cbn; intros lines H; inv_ok.
  - done.
  - rename a into w, a0 into r. destruct (IH _ Ha0) as [Hp Hn]. split.
    + cbn [parse_metadata_lines]. rewrite bool_decide_eq_false_2 by by eapply meta_line_not_blank.
      destruct Hm as [Hm _]. destruct (meta_fields_no_blank _ _ Hm Ha) as [Hb Hlen].
      rewrite py_split_all; [|by intros ->|done].
      pose proof (parse_meta_fields m w [] Hm Ha) as Hpm.
      change (parse_meta w 0 = Ok m) in Hpm. rewrite Hpm. cbn. by rewrite Hp.
    + constructor; [by eapply meta_fields_no_newline|done].
Qed.

Lemma metadata_list_payload l lines payload :
  Forall wire_meta_line l → meta_lines l = Ok lines →
  utf8_encode (py_join [10] lines) = Ok payload →
  parse_metadata_list_payload payload = Ok l.
Proof.
  intros Hl Hm He. destruct (parse_metadata_lines_encoded _ _ Hl Hm) as [Hp Hn].
  unfold parse_metadata_list_payload. case_bool_decide as Hnil.
  - subst payload. apply utf8_roundtrip in He. injection He as He.
    destruct l as [|m l]; [done|]. exfalso. cbn in Hm. inv_ok.
    apply (meta_line_not_blank _ _ Ha). replace (words a) with (@nil Z); [done|].
    destruct a0 as [|w r]; [done|]. rewrite py_join_cons in He by done.
    by destruct (words a).
  - rewrite (utf8_roundtrip _ _ He). cbn [mbind result_bind].
    rewrite py_split_join; [done| |done|lia].
    intros ->. cbn in He. by injection He as <-.
Qed.
