(* ===== verification/Segment.v ===== *)
(** * Segment descriptors and the rollover policy

    [segment.py] and [segment_policy.py].  Times are kept in microseconds: the
    source's [time()] is in seconds, so a configured number of milliseconds
    that is compared with a difference of times counts as that many seconds. *)
From Stdlib Require Import String.
From S2P Require Import Prelude PyData.

Inductive SegmentState : Set := ACTIVE | SEALED | EXPIRED | DELETED.

#[export] Instance SegmentState_eq_dec : EqDecision SegmentState.
Proof. solve_decision. Defined.

(** The frozen dataclass; its equality compares all six fields. *)
Record SegmentMeta := mkSegmentMeta {
  topic : pystr;
  base_offset : Z;
  path : pystr;
  state : SegmentState;
  created_at : Z;
  size : Z }.

#[export] Instance SegmentMeta_eq_dec : EqDecision SegmentMeta.
Proof. solve_decision. Defined.

Definition get_id (m : SegmentMeta) : result pystr :=
  b ← py_str (base_offset m); Ok (topic m ++ b).
Definition get_filepath (m : SegmentMeta) : pystr := path m.
Definition is_mutable (m : SegmentMeta) : bool := bool_decide (state m = ACTIVE).
(** The offset of the next message to be written in this segment. *)
Definition get_end_offset (m : SegmentMeta) : Z := base_offset m + size m.
(** The same as a position in the segment's file. *)
Definition get_file_end_offset (m : SegmentMeta) : Z := size m.

(** Microseconds in the unit of [time()]. *)
Definition second : Z := 1000000.

Record SegmentPolicy := mkSegmentPolicy {
  retension_ms : Z;
  rollover_ms : Z;
  max_segment_size : Z }.

Definition is_expired (p : SegmentPolicy) (segment : SegmentMeta) (now : Z) : bool :=
  now - created_at segment >? retension_ms p * second.

(** [now] is the [time.time()] read inside. *)
Definition should_rollover (p : SegmentPolicy) (now : Z) (m : SegmentMeta) (msg_size : Z)
    : bool :=
  if now - created_at m >? rollover_ms p * second then true
  else size m + msg_size >? max_segment_size p.
