(* ===== verification/SegmentRegistry.v ===== *)
(** * [segment_registry.py]

    The registry maps a topic to the descriptors of its segments, in the order
    of their base offsets.  Every public operation runs under the topic's
    re-entrant lock, so it is one atomic step on the registry. *)
From Stdlib Require Import String.
From S2P Require Import Prelude PyData Bisect Segment.

Record Registry := mkRegistry {
  log_dir : pystr;
  (** [SegmentMeta.created_at]'s default: [time()] when the module was loaded *)
  import_time : Z;
  registry : gmap (list Z) (list SegmentMeta) }.

Definition set_registry (f : gmap (list Z) (list SegmentMeta) → gmap (list Z) (list SegmentMeta))
    (r : Registry) : Registry :=
  mkRegistry (log_dir r) (import_time r) (f (registry r)).

(** [SegmentRegistry(log_dir)] *)
Definition new_registry (dir : pystr) (now : Z) : Registry := mkRegistry dir now ∅.

Definition allowed_transition (a b : SegmentState) : bool :=
  match a, b with
  | ACTIVE, SEALED | SEALED, EXPIRED | EXPIRED, DELETED => true
  | _, _ => false
  end.

(** [f"{log_dir}/{topic}/{base_offset:020d}.log"] *)
Definition _build_segment_path (dir topic : pystr) (base_offset : Z) : result pystr :=
  b ← py_str_020 base_offset;
  Ok (dir ++ py "/" ++ topic ++ py "/" ++ b ++ py ".log").

Definition create_segment (topic : pystr) (base_offset : Z) : M Registry SegmentMeta :=
  r ← get;
  path ← lift (_build_segment_path (log_dir r) topic base_offset);
  let segment := mkSegmentMeta topic base_offset path ACTIVE (import_time r) 0 in
  match registry r !! topic with
  | None =>
      modify (set_registry <[topic := [segment]]>);;
      mret segment
  | Some segs =>
      previous_segment ← lift (py_index segs (-1));
      let previous_offset := get_end_offset previous_segment in
      if (previous_offset >? base_offset)
         || (Segment.base_offset previous_segment =? base_offset)
      then raise ValueError
      else modify (set_registry <[topic := segs ++ [segment]]>);;
           mret segment
  end.

(** The loop of [_find_segment_index]: [l], [r] and the best index [i] so far. *)
Fixpoint find_loop (fuel : nat) (segs : list SegmentMeta) (offset l r i : Z) : result Z :=
  match fuel with
  | O => Ok i
  | S fuel =>
    if l <=? r then
      let mid := (l + r) / 2 in
      m ← py_index segs mid;
      if base_offset m <=? offset then find_loop fuel segs offset (mid + 1) r mid
      else find_loop fuel segs offset l (mid - 1) i
    else Ok i
  end.
Definition _find_segment_index (segs : list SegmentMeta) (offset : Z) : result Z :=
  find_loop (length segs) segs offset 0 (zlen segs - 1) (-1).

Definition advance_offset (meta : SegmentMeta) (length : Z) : M Registry SegmentMeta :=
  r ← get;
  segs ← lift (or_raise (registry r !! topic meta) KeyError);
  idx ← lift (_find_segment_index segs (base_offset meta));
  old_meta ← lift (py_index segs idx);
  let new_meta := mkSegmentMeta (topic old_meta) (base_offset old_meta) (path old_meta)
                    (state old_meta) (created_at old_meta) (size old_meta + length) in
  segs' ← lift (py_setitem segs idx new_meta);
  modify (set_registry <[topic meta := segs']>);;
  mret new_meta.

Definition get_segment (r : Registry) (topic : pystr) (offset : Z) : result SegmentMeta :=
  match registry r !! topic with
  | None => Raise (TopicDoesntExistsError topic)
  | Some segs =>
    if bool_decide (segs = []) then Raise ValueError
    else
      previous_segment ← py_index segs (-1);
      let previous_offset := get_end_offset previous_segment in
      if previous_offset <? offset then Raise ValueError
      else if offset =? -1 then py_index segs (-1)
      else
        i ← _find_segment_index segs offset;
        if i =? -1 then Raise ValueError
        else
          m ← py_index segs i;
          if get_end_offset m <=? offset then Raise ValueError
          else Ok m
  end.

Definition get_segment_by_base_offset (r : Registry) (topic : pystr) (base_offset : Z)
    : result SegmentMeta :=
  match registry r !! topic with
  | None => Raise (TopicDoesntExistsError topic)
  | Some segs =>
    if bool_decide (segs = []) then Raise ValueError
    else
      i ← _find_segment_index segs base_offset;
      if i =? -1 then Raise ValueError
      else
        m ← py_index segs i;
        if Segment.base_offset m =? base_offset then Ok m else Raise ValueError
  end.

Definition list_segments (r : Registry) (topic : pystr) : result (list SegmentMeta) :=
  or_raise (registry r !! topic) (TopicDoesntExistsError topic).

Definition list_segments_by_state (r : Registry) (topic : pystr) (st : SegmentState)
    : result (list SegmentMeta) :=
  segs ← or_raise (registry r !! topic) (TopicDoesntExistsError topic);
  Ok (List.filter (λ sg, bool_decide (state sg = st)) segs).

Definition progress_state (segment : SegmentMeta) (new_state : SegmentState)
    : M Registry SegmentMeta :=
  r ← get;
  let topic := Segment.topic segment in
  segment_list ← lift (or_raise (registry r !! topic) ValueError);
  let idx := bisect_left (map base_offset segment_list) (base_offset segment) in
  if bool_decide (segment_list !! idx = Some segment) then
    if negb (allowed_transition (state segment) new_state) then raise IllegalTransitionError
    else if bool_decide (new_state = DELETED) then
      modify (set_registry <[topic := delete idx segment_list]>);;
      mret segment
    else
      let new_segment := mkSegmentMeta topic (base_offset segment) (path segment) new_state
                           (created_at segment) (size segment) in
      modify (set_registry <[topic := <[idx := new_segment]> segment_list]>);;
      mret new_segment
  else raise ValueError.

Definition remove_segment (segment : SegmentMeta) : M Registry SegmentMeta :=
  progress_state segment DELETED.

Definition get_latest_offset (r : Registry) (topic : pystr) : result Z :=
  segs ← or_raise (registry r !! topic) (TopicDoesntExistsError topic);
  active_segment ← py_index segs (-1);
  Ok (get_end_offset active_segment).
