(* ===== verification/RegistryFacts.v ===== *)
(** * The segment registry is a sorted interval map

    The invariant [registry_ok] (segments of a topic are disjoint half-open
    intervals in increasing order), its preservation by every operation, and
    the lookups: [_find_segment_index] is the greatest base not above the
    offset, [get_segment] is interval stabbing. *)
From stdpp Require Import sorting.
From S2P Require Import Prelude PyData Bisect Segment SegmentRegistry.

(** [a] ends before [b] starts. *)
Definition before (a b : SegmentMeta) : Prop :=
  get_end_offset a ≤ base_offset b ∧ base_offset a < base_offset b.

Definition seg_ok (t : pystr) (m : SegmentMeta) : Prop :=
  topic m = t ∧ 0 ≤ base_offset m ∧ 0 ≤ size m ∧ state m ≠ DELETED.

Record segs_ok (t : pystr) (l : list SegmentMeta) : Prop := {
  segs_each : Forall (seg_ok t) l;
  segs_sorted : StronglySorted before l }.

Definition registry_ok (r : Registry) : Prop :=
  ∀ t l, registry r !! t = Some l → segs_ok t l.

(** A descriptor the registry holds. *)
Definition registered (r : Registry) (m : SegmentMeta) : Prop :=
  ∃ l, registry r !! topic m = Some l ∧ m ∈ l.

(** The offset lies in the half-open interval of the segment. *)
Definition contains (m : SegmentMeta) (offset : Z) : Prop :=
  base_offset m ≤ offset < get_end_offset m.

Lemma sorted_before (l : list SegmentMeta) i j a b :
  StronglySorted before l → (i < j)%nat → l !! i = Some a → l !! j = Some b → before a b.
Proof.
  intros Hl. revert i j. induction Hl as [|x l Hl IH Hx]; intros i j Hij Ha Hb; [done|].
  destruct i as [|i], j as [|j]; cbn in *; [lia| |lia|by apply (IH i j); [lia|..]].
  simplify_eq. rewrite Forall_forall in Hx. apply Hx. by eapply list_elem_of_lookup_2.
Qed.

Lemma sorted_bases l : StronglySorted before l → StronglySorted Z.le (map base_offset l).
Proof.
  induction 1 as [|x l Hl IH Hx]; cbn; constructor; [done|].
  apply Forall_fmap. eapply Forall_impl; [exact Hx|]. intros y [_ ?]. cbn. lia.
Qed.

(** ** [_find_segment_index] *)

Definition find_spec (l : list SegmentMeta) (offset i : Z) : Prop :=
  -1 ≤ i < zlen l ∧
  (∀ k m, l !! k = Some m → Z.of_nat k ≤ i → base_offset m ≤ offset) ∧
  (∀ k m, l !! k = Some m → i < Z.of_nat k → offset < base_offset m).

Lemma find_loop_spec fuel l offset lo hi :
  StronglySorted before l → 0 ≤ lo → hi < zlen l → lo ≤ hi + 1 →
  hi - lo + 1 ≤ Z.of_nat fuel →
  (∀ k m, l !! k = Some m → Z.of_nat k < lo → base_offset m ≤ offset) →
  (∀ k m, l !! k = Some m → hi < Z.of_nat k → offset < base_offset m) →
  ∃ i, find_loop fuel l offset lo hi (lo - 1) = Ok i ∧ find_spec l offset i.
Proof.
  intros Hl. revert lo hi. induction fuel as [|fuel IH]; intros lo hi Hlo Hhi Hle Hf Hl1 Hl2;
    cbn [find_loop].
  - exists (lo - 1). split; [done|]. split_and!; [lia|lia| |].
    + intros k m Hk Hi. apply (Hl1 k m Hk). lia.
    + intros k m Hk Hi. apply (Hl2 k m Hk). lia.
  - destruct (Z.leb_spec lo hi) as [Hc|Hc].
    + set (mid := (lo + hi) / 2).
      assert (lo ≤ mid ≤ hi) as Hmid.
      { split; [apply Z.div_le_lower_bound; lia|].
        apply Z.lt_succ_r, Z.div_lt_upper_bound; lia. }
      destruct (lookup_lt_is_Some_2 l (Z.to_nat mid)) as [m Hm]; [lia|].
      rewrite (py_index_nonneg l mid m) by (lia || done). cbn [mbind result_bind].
      destruct (Z.leb_spec (base_offset m) offset) as [Hb|Hb].
      * destruct (IH (mid + 1) hi) as (i & Hi & Hs); try lia; [|done|].
        { intros k x Hx Hk. destruct (decide (k = Z.to_nat mid)) as [->|]; [by simplify_eq|].
          pose proof (sorted_before l k (Z.to_nat mid) x m Hl ltac:(lia) Hx Hm) as [_ ?]. lia. }
        replace (mid + 1 - 1) with mid in Hi by lia. eauto.
      * apply IH; try lia; [done|].
        intros k x Hx Hk. destruct (decide (k = Z.to_nat mid)) as [->|]; [by simplify_eq|].
        pose proof (sorted_before l (Z.to_nat mid) k m x Hl ltac:(lia) Hm Hx) as [_ ?]. lia.
    + exists (lo - 1). split; [done|]. split_and!; [lia|lia| |].
      * intros k m Hk Hi. apply (Hl1 k m Hk). lia.
      * intros k m Hk Hi. apply (Hl2 k m Hk). lia.
Qed.

Lemma find_segment_index_spec l offset :
  StronglySorted before l →
  ∃ i, _find_segment_index l offset = Ok i ∧ find_spec l offset i.
Proof.
  intros Hl. apply (find_loop_spec (length l) l offset 0 (zlen l - 1)); try lia; [done|].
  intros k m Hk%lookup_lt_Some. lia.
Qed.

Lemma find_spec_unique l offset i j : find_spec l offset i → find_spec l offset j → i = j.
Proof.
  assert (∀ i j, find_spec l offset i → find_spec l offset j → i ≤ j) as H.
  { clear. intros i j (Hi & H1 & _) (Hj & _ & H2). destruct (decide (i ≤ j)); [done|].
    destruct (lookup_lt_is_Some_2 l (Z.to_nat i)) as [m Hm]; [lia|].
    specialize (H1 _ _ Hm ltac:(lia)). specialize (H2 _ _ Hm ltac:(lia)). lia. }
  intros Hi Hj. pose proof (H i j Hi Hj). pose proof (H j i Hj Hi). lia.
Qed.

(** The index of the segment that starts at the offset. *)
Lemma find_segment_base l k m :
  StronglySorted before l → l !! k = Some m →
  _find_segment_index l (base_offset m) = Ok (Z.of_nat k).
Proof.
  intros Hl Hk. destruct (find_segment_index_spec l (base_offset m) Hl) as (i & -> & Hi).
  f_equal. eapply find_spec_unique; [exact Hi|]. split_and!; [lia| | |].
  - apply lookup_lt_Some in Hk. lia.
  - intros j x Hx Hj. destruct (decide (j = k)) as [->|]; [by simplify_eq|].
    pose proof (sorted_before l j k x m Hl ltac:(lia) Hx Hk) as [_ ?]. lia.
  - intros j x Hx Hj.
    pose proof (sorted_before l k j m x Hl ltac:(lia) Hk Hx) as [_ ?]. lia.
Qed.

(** The position [bisect_left] finds for a registered segment is its own. *)
Lemma bisect_segment l k m :
  StronglySorted before l → l !! k = Some m →
  bisect_left (map base_offset l) (base_offset m) = k.
Proof.
  intros Hl Hk. pose proof (lookup_lt_Some _ _ _ Hk).
  eapply (splits_at_unique (λ x, x <? base_offset m) (map base_offset l));
    [by apply bisect_left_split, sorted_bases|].
  split_and!; [rewrite length_map; lia|..]; apply Forall_lookup; intros j x.
  - intros (Hx & Hj)%lookup_take_Some. apply list_lookup_fmap_Some in Hx as (y & -> & Hy).
    pose proof (sorted_before l j k y m Hl ltac:(lia) Hy Hk) as [_ ?]. lia.
  - rewrite lookup_drop. intros (y & -> & Hy)%list_lookup_fmap_Some.
    destruct j as [|j]; [rewrite Nat.add_0_r in Hy; simplify_eq; lia|].
    pose proof (sorted_before l k (k + S j) m y Hl ltac:(lia) Hk Hy) as [_ ?]. lia.
Qed.

(** ** Lookups *)

Lemma last_end l k m t :
  segs_ok t l → l !! k = Some m →
  ∃ x, last l = Some x ∧ get_end_offset m ≤ get_end_offset x ∧ base_offset m ≤ base_offset x.
Proof.
  intros [He Hs] Hk. destruct (last l) as [x|] eqn:Hx.
  - exists x. split; [done|]. rewrite last_lookup in Hx.
    destruct (decide (k = pred (length l))) as [->|]; [by simplify_eq|].
    pose proof (lookup_lt_Some _ _ _ Hk).
    pose proof (sorted_before l k (pred (length l)) m x Hs ltac:(lia) Hk Hx) as [? ?].
    rewrite Forall_forall in He. pose proof (list_elem_of_lookup_2 _ _ _ Hx) as (_ & _ & ? & _)%He.
    unfold get_end_offset in *. lia.
  - apply last_None in Hx as ->. done.
Qed.

Lemma contains_unique l t i j a b o :
  segs_ok t l → l !! i = Some a → l !! j = Some b → contains a o → contains b o → i = j.
Proof.
  intros [_ Hs] Ha Hb [] []. destruct (lt_eq_lt_dec i j) as [[Hij|]|Hij]; [|done|].
  - pose proof (sorted_before l i j a b Hs Hij Ha Hb) as []. lia.
  - pose proof (sorted_before l j i b a Hs Hij Hb Ha) as []. lia.
Qed.

(** [get_segment] with an offset other than -1 returns exactly the segment whose
    interval contains the offset. *)
Lemma get_segment_Ok r t l offset m :
  registry r !! t = Some l → segs_ok t l → offset ≠ -1 →
  get_segment r t offset = Ok m ↔ m ∈ l ∧ contains m offset.
Proof.
  intros Hl Hok Hne. unfold get_segment. rewrite Hl.
  case_bool_decide as Hnil.
  { subst l. split; [done|]. by intros [?%not_elem_of_nil _]. }
  rewrite py_index_last. destruct (last l) as [x|] eqn:Hx; [|by apply last_None in Hx].
  cbn [or_raise mbind result_bind].
  destruct (Z.ltb_spec (get_end_offset x) offset) as [Hlt|Hge].
  { split; [done|]. intros [(k & Hk)%list_elem_of_lookup_1 [_ Hc]].
    destruct (last_end l k m t Hok Hk) as (y & Hy & ? & _). simplify_eq. lia. }
  rewrite (proj2 (Z.eqb_neq _ _) Hne).
  destruct (find_segment_index_spec l offset (segs_sorted _ _ Hok)) as (i & -> & Hi & H1 & H2).
  cbn [mbind result_bind]. destruct (Z.eqb_spec i (-1)) as [->|Hi1].
  { split; [done|]. intros [(k & Hk)%list_elem_of_lookup_1 [Hc _]].
    specialize (H2 k m Hk ltac:(lia)). lia. }
  destruct (lookup_lt_is_Some_2 l (Z.to_nat i)) as [a Ha]; [lia|].
  rewrite (py_index_nonneg l i a) by (lia || done). cbn [mbind result_bind].
  specialize (H1 _ _ Ha ltac:(lia)).
  destruct (Z.leb_spec (get_end_offset a) offset) as [He|He].
  - split; [done|]. intros [(k & Hk)%list_elem_of_lookup_1 [Hc1 Hc2]]. exfalso.
    destruct (decide (i < Z.of_nat k)) as [Hik|Hik]; [by specialize (H2 k m Hk Hik); lia|].
    destruct (decide (k = Z.to_nat i)) as [->|]; [simplify_eq; lia|].
    pose proof (sorted_before l k (Z.to_nat i) m a (segs_sorted _ _ Hok) ltac:(lia) Hk Ha) as [? _]. lia.
  - split.
    + intros [= <-]. split; [by eapply list_elem_of_lookup_2|]. split; lia.
    + intros [(k & Hk)%list_elem_of_lookup_1 Hc].
      assert (k = Z.to_nat i) as ->; [|congruence].
      eapply contains_unique; [done..|]. split; lia.
Qed.

(** Offsets outside every segment raise [ValueError]. *)
Lemma get_segment_error r t l offset e :
  registry r !! t = Some l → segs_ok t l → get_segment r t offset = Raise e → e = ValueError.
Proof.
  intros Hl Hok. unfold get_segment. rewrite Hl.
  case_bool_decide as Hnil; [congruence|].
  rewrite py_index_last. destruct (last l) as [x|] eqn:Hx; [|by apply last_None in Hx].
  cbn [or_raise mbind result_bind]. case_match; [congruence|]. case_match; [done|].
  destruct (find_segment_index_spec l offset (segs_sorted _ _ Hok)) as (i & -> & Hi & H1 & H2).
  cbn [mbind result_bind]. destruct (Z.eqb_spec i (-1)); [congruence|].
  destruct (lookup_lt_is_Some_2 l (Z.to_nat i)) as [a Ha]; [lia|].
  rewrite (py_index_nonneg l i a) by (lia || done). cbn. case_match; congruence.
Qed.

(** The default offset asks for the last segment, empty or not. *)
Lemma get_segment_latest r t l x :
  registry r !! t = Some l → segs_ok t l → last l = Some x → get_segment r t (-1) = Ok x.
Proof.
  intros Hl Hok Hx. unfold get_segment. rewrite Hl.
  rewrite bool_decide_eq_false_2 by (by intros ->).
  rewrite py_index_last, Hx. cbn [or_raise mbind result_bind].
  destruct Hok as [He _]. rewrite Forall_forall in He.
  pose proof (He x) as (_ & ? & ? & _); [by apply last_Some_elem_of|].
  unfold get_end_offset. by repeat lia_if.
Qed.

Lemma get_segment_unknown r t offset :
  registry r !! t = None → get_segment r t offset = Raise (TopicDoesntExistsError t).
Proof. intros Hl. unfold get_segment. by rewrite Hl. Qed.

(** ** Every operation keeps the registry well formed *)

Lemma segs_ok_snoc t l x m :
  segs_ok t l → last l = Some x → seg_ok t m →
  get_end_offset x ≤ base_offset m → base_offset x < base_offset m →
  segs_ok t (l ++ [m]).
Proof.
  intros [He Hs] Hx Hm Hend Hbase. split.
  - apply Forall_app; split; [done|]. by constructor.
  - apply StronglySorted_app_2; [|done|by repeat constructor].
    intros a b (k & Hk)%list_elem_of_lookup_1 ->%list_elem_of_singleton.
    destruct (last_end l k a t) as (y & Hy & ? & ?); [done..|]. simplify_eq.
    unfold before. lia.
Qed.

Lemma segs_ok_insert t l k m m' :
  segs_ok t l → l !! k = Some m → seg_ok t m' → base_offset m' = base_offset m →
  (size m' = size m ∨ k = pred (length l) ∧ size m ≤ size m') →
  segs_ok t (<[k := m']> l).
Proof.
  intros [He Hs] Hk Hm' Hb Hsz. split; [by apply Forall_insert|].
  assert (∀ i j a b, (i < j)%nat → <[k:=m']> l !! i = Some a → <[k:=m']> l !! j = Some b →
            before a b) as H.
  { intros i j a b Hij Ha Hb'.
    assert (∀ j' b', <[k:=m']> l !! j' = Some b' →
              ∃ b0, l !! j' = Some b0 ∧ base_offset b' = base_offset b0 ∧
                ((j' ≠ k ∧ b' = b0) ∨ (j' = k ∧ b' = m' ∧ b0 = m))) as Hget.
    { intros j' b' [(-> & -> & Hlt)|(Hne & Hb0)]%list_lookup_insert_Some.
      - exists m. split_and!; [done|done|by right].
      - exists b'. split_and!; [done|done|by left]. }
    destruct (Hget _ _ Ha) as (a0 & Ha0 & Ea & Ca), (Hget _ _ Hb') as (b0 & Hb0 & Eb & Cb).
    pose proof (sorted_before l i j a0 b0 Hs Hij Ha0 Hb0) as [H1 H2].
    pose proof (lookup_lt_Some _ _ _ Hb0).
    unfold before, get_end_offset in *. destruct Ca as [[? ->]|(-> & -> & ->)]; lia. }
  clear -H. revert H. generalize (<[k:=m']> l). intros l0 H.
  induction l0 as [|x l0 IH]; constructor.
  - apply IH. intros i j a b Hij Ha Hb. by apply (H (S i) (S j) a b); [lia|..].
  - apply Forall_lookup. intros i y Hy. by apply (H 0%nat (S i) x y); [lia|..].
Qed.

Lemma segs_ok_delete t l k : segs_ok t l → segs_ok t (delete k l).
Proof.
  intros [He Hs]. split; [by apply Forall_delete|].
  revert k. induction Hs as [|x l Hl IH Hx]; intros [|k]; cbn; [constructor..|done|].
  apply Forall_cons_1 in He as [_ He].
  constructor; [by apply IH|]. by apply Forall_delete.
Qed.

(** The registry after [r !! t] becomes [l]. *)
Lemma registry_ok_insert r t l :
  registry_ok r → segs_ok t l → registry_ok (set_registry <[t := l]> r).
Proof.
  intros Hr Hl t' l' H. cbn in H. apply lookup_insert_Some in H as [[<- <-]|[_ H]]; [done|].
  by apply Hr.
Qed.

Lemma create_segment_ok t b r : 0 ≤ b → registry_ok r → registry_ok (create_segment t b r).2.
Proof.
  intros Hb Hr. unfold create_segment. run.
  destruct (_build_segment_path _ _ _) as [p|]; [|done].
  set (m := mkSegmentMeta t b p ACTIVE (import_time r) 0). cbv zeta.
  assert (seg_ok t m) as Hm by (split_and!; cbn; (done || lia)).
  destruct (registry r !! t) as [l|] eqn:Hl; run.
  - rewrite py_index_last. destruct (last l) as [x|] eqn:Hx; [|done].
    cbn [or_raise]. destruct (_ || _) eqn:E; run; [done|]. zbool.
    apply registry_ok_insert; [done|]. apply (segs_ok_snoc t l x); [by apply Hr|done..|cbn; lia|].
    cbn. pose proof (Hr _ _ Hl) as [He _]. rewrite Forall_forall in He.
    pose proof (He x) as (_ & _ & ? & _); [by apply last_Some_elem_of|].
    unfold get_end_offset in *. lia.
  - apply registry_ok_insert; [done|]. by repeat constructor.
Qed.

(** [advance_offset] on the last segment only: growing an earlier one could make
    it overlap its successor. *)
Lemma advance_offset_ok meta n r x l :
  0 ≤ n → registry r !! topic meta = Some l → last l = Some x →
  base_offset meta = base_offset x →
  registry_ok r → registry_ok (advance_offset meta n r).2.
Proof.
  intros Hn Hl Hx Hb Hr. pose proof (Hr _ _ Hl) as Hok.
  rewrite last_lookup in Hx. pose proof (lookup_lt_Some _ _ _ Hx).
  unfold advance_offset. run. rewrite Hl. cbn [or_raise]. run.
  rewrite Hb, (find_segment_base l _ x (segs_sorted _ _ Hok) Hx).
  rewrite (py_index_nonneg l _ x) by (lia || by rewrite Nat2Z.id). run.
  rewrite py_setitem_nonneg by lia. run. rewrite Nat2Z.id.
  apply registry_ok_insert; [done|]. eapply segs_ok_insert; [done..| |done|].
  - destruct Hok as [He _]. rewrite Forall_forall in He.
    pose proof (He x) as (? & ? & ? & ?); [by eapply list_elem_of_lookup_2|].
    split_and!; cbn; (done || lia).
  - right. cbn. lia.
Qed.

Lemma progress_state_ok m s r : registry_ok r → registry_ok (progress_state m s r).2.
Proof.
  intros Hr. unfold progress_state. run.
  destruct (registry r !! topic m) as [l|] eqn:Hl; cbn [or_raise]; [|done].
  cbv zeta. case_bool_decide as Hi; [|done]. pose proof (Hr _ _ Hl) as Hok.
  destruct (allowed_transition (state m) s) eqn:Ht; cbn [negb]; [|done].
  case_bool_decide as Hd; run; apply registry_ok_insert; try done.
  - by apply segs_ok_delete.
  - eapply segs_ok_insert; [done..| |done|by left].
    destruct Hok as [He _]. rewrite Forall_forall in He.
    pose proof (He m) as (? & ? & ? & ?); [by eapply list_elem_of_lookup_2|].
    by split_and!.
Qed.
