(* ===== verification/RegistryTheorems.v ===== *)
(** * What the segment registry promises *)
From Stdlib Require Import String.
From stdpp Require Import sorting.
From S2P Require Import Prelude PyData Bisect Segment SegmentRegistry RegistryFacts.

(** ** Histories of calls *)

(** One public call.  [advance_offset] is called by the writer only, with the
    topic's last segment. *)
Inductive registry_call : Registry → Registry → Prop :=
| call_create t b r x r' :
    0 ≤ b → create_segment t b r = (x, r') → registry_call r r'
| call_advance meta n l active r x r' :
    0 ≤ n → registry r !! topic meta = Some l → last l = Some active →
    base_offset meta = base_offset active →
    advance_offset meta n r = (x, r') → registry_call r r'
| call_progress m st r x r' :
    progress_state m st r = (x, r') → registry_call r r'
| call_remove m r x r' :
    remove_segment m r = (x, r') → registry_call r r'.

Lemma registry_call_ok r r' : registry_call r r' → registry_ok r → registry_ok r'.
Proof.
  destruct 1; intros Hr.
  - pose proof (create_segment_ok t b r) as Hc. rewrite H0 in Hc. auto.
  - pose proof (advance_offset_ok meta n r active l) as Hc. rewrite H3 in Hc. auto.
  - pose proof (progress_state_ok m st r) as Hc. rewrite H in Hc. auto.
  - pose proof (progress_state_ok m DELETED r) as Hc. unfold remove_segment in H.
    rewrite H in Hc. auto.
Qed.

(** After any sequence of calls the segments of every topic are live, belong to
    the topic, have sizes that are not negative, strictly increasing base offsets
    and disjoint ranges in ascending order. *)
Theorem registry_invariant dir now r :
  rtc registry_call (new_registry dir now) r → registry_ok r.
Proof.
  intros H. assert (registry_ok (new_registry dir now)) as H0.
  { intros t l Hl. cbn in Hl. by rewrite lookup_empty in Hl. }
  induction H; eauto using registry_call_ok.
Qed.

Definition sample_registry0 : Registry := new_registry (py "d") 0.
Definition sample_registry1 : Registry := (create_segment (py "t") 0 sample_registry0).2.
Definition sample_first : SegmentMeta :=
  mkSegmentMeta (py "t") 0 (py "d/t/00000000000000000000.log") ACTIVE 0 0.
Definition sample_registry2 : Registry := (advance_offset sample_first 10 sample_registry1).2.
Definition sample_active : SegmentMeta :=
  mkSegmentMeta (py "t") 0 (py "d/t/00000000000000000000.log") ACTIVE 0 10.

Lemma sample_registry2_calls : rtc registry_call sample_registry0 sample_registry2.
Proof.
  eapply rtc_l; [eapply (call_create (py "t") 0); vm_compute; [discriminate|reflexivity]|].
  eapply rtc_l; [|reflexivity].
  eapply (call_advance sample_first 10); vm_compute; try reflexivity. discriminate.
Qed.

Lemma registry_invariant_witness : registry_ok sample_registry2.
Proof. apply (registry_invariant (py "d") 0), sample_registry2_calls. Defined.

(** [get_segment] with an offset other than -1 answers the stabbing query: it
    returns a segment exactly when that segment is registered for the topic and its
    half-open range contains the offset, and raises [ValueError] when none does;
    -1 returns the last segment, an unknown topic raises [TopicDoesntExistsError]. *)
Theorem get_segment_correct r t offset :
  registry_ok r →
  match registry r !! t with
  | None => get_segment r t offset = Raise (TopicDoesntExistsError t)
  | Some l =>
      (offset ≠ -1 → ∀ m, get_segment r t offset = Ok m ↔ m ∈ l ∧ contains m offset) ∧
      (∀ x, last l = Some x → get_segment r t (-1) = Ok x) ∧
      (∀ e, get_segment r t offset = Raise e → e = ValueError)
  end.
Proof.
  intros Hr. destruct (registry r !! t) as [l|] eqn:Hl; [|by apply get_segment_unknown].
  pose proof (Hr t l Hl) as Hok. split_and!.
  - intros Hne m. by apply get_segment_Ok.
  - intros x Hx. by eapply get_segment_latest.
  - intros e He. by eapply get_segment_error.
Qed.

Lemma get_segment_correct_witness :
  get_segment sample_registry2 (py "t") 9 = Ok sample_active ∧
  get_segment sample_registry2 (py "u") 0 = Raise (TopicDoesntExistsError (py "u")).
Proof.
  pose proof (registry_invariant (py "d") 0 _ sample_registry2_calls) as Hok. split.
  - pose proof (get_segment_correct sample_registry2 (py "t") 9 Hok) as H.
    assert (registry sample_registry2 !! py "t" = Some [sample_active]) as E by by vm_compute.
    rewrite E in H. destruct H as [H _]. apply (H ltac:(lia)). split; [left|by vm_compute].
  - exact (get_segment_correct sample_registry2 (py "u") 0 Hok).
Defined.

(** The binary search ends within one round per segment and returns the greatest
    index whose base offset does not exceed the offset, or -1. *)
Theorem find_segment_index_correct l offset :
  StronglySorted before l →
  ∃ i, _find_segment_index l offset = Ok i ∧
    -1 ≤ i < zlen l ∧
    (∀ k m, l !! k = Some m → Z.of_nat k ≤ i → base_offset m ≤ offset) ∧
    (∀ k m, l !! k = Some m → i < Z.of_nat k → offset < base_offset m).
Proof. apply find_segment_index_spec. Qed.

Lemma find_segment_index_correct_witness :
  ∃ i, _find_segment_index [sample_active] 9 = Ok i ∧
    -1 ≤ i < zlen [sample_active] ∧
    (∀ k m, [sample_active] !! k = Some m → Z.of_nat k ≤ i → base_offset m ≤ 9) ∧
    (∀ k m, [sample_active] !! k = Some m → i < Z.of_nat k → 9 < base_offset m).
Proof. apply find_segment_index_correct. repeat constructor. Defined.

(** ** The life of a segment *)

Definition with_state (m : SegmentMeta) (st : SegmentState) : SegmentMeta :=
  mkSegmentMeta (topic m) (base_offset m) (path m) st (created_at m) (size m).

Lemma lookup_registered r m :
  registry_ok r → registered r m →
  ∃ l, registry r !! topic m = Some l ∧
    l !! bisect_left (map base_offset l) (base_offset m) = Some m.
Proof.
  intros Hr (l & Hl & [k Hk]%list_elem_of_lookup_1). exists l. split; [done|].
  by rewrite (bisect_segment l k m (segs_sorted _ _ (Hr _ _ Hl)) Hk).
Qed.

(** [progress_state] moves exactly the given registered segment along
    active, sealed, expired, deleted: a legal move replaces (or, to deleted,
    removes) it at its place and touches no other segment or topic; any other move
    of a registered segment raises [IllegalTransitionError] and a descriptor the
    registry does not hold raises [ValueError], both without a change. *)
Theorem progress_state_correct r m st :
  registry_ok r →
  (registered r m → allowed_transition (state m) st = true →
   ∃ l i r', registry r !! topic m = Some l ∧ l !! i = Some m ∧
     progress_state m st r
     = (Ok (if decide (st = DELETED) then m else with_state m st), r') ∧
     r' = set_registry <[topic m :=
            if decide (st = DELETED) then delete i l else <[i := with_state m st]> l]> r) ∧
  (registered r m → allowed_transition (state m) st = false →
   progress_state m st r = (Raise IllegalTransitionError, r)) ∧
  (¬ registered r m → progress_state m st r = (Raise ValueError, r)).
Proof.
  intros Hr. split_and!.
  - intros Hm Ha. destruct (lookup_registered r m Hr Hm) as (l & Hl & Hi).
    do 3 eexists. split; [done|]. split; [exact Hi|]. split; [|reflexivity].
    unfold progress_state. run. rewrite Hl. cbn [or_raise]. run. cbv zeta.
    rewrite Hi, bool_decide_eq_true_2, Ha by done. cbn [negb].
    destruct (decide (st = DELETED)) as [->|Hne].
    + by rewrite bool_decide_eq_true_2.
    + by rewrite bool_decide_eq_false_2.
  - intros Hm Ha. destruct (lookup_registered r m Hr Hm) as (l & Hl & Hi).
    unfold progress_state. run. rewrite Hl. cbn [or_raise]. run. cbv zeta.
    by rewrite Hi, bool_decide_eq_true_2, Ha by done.
  - intros Hm. unfold progress_state. run.
    destruct (registry r !! topic m) as [l|] eqn:Hl; cbn [or_raise]; run; [|done]. cbv zeta.
    rewrite bool_decide_eq_false_2; [done|]. intros Hi. apply Hm. exists l. split; [done|].
    by eapply list_elem_of_lookup_2.
Qed.

Lemma progress_state_correct_witness :
  progress_state sample_active EXPIRED sample_registry2
  = (Raise IllegalTransitionError, sample_registry2).
Proof.
  apply (progress_state_correct sample_registry2 sample_active EXPIRED).
  - apply (registry_invariant (py "d") 0), sample_registry2_calls.
  - exists [sample_active]. split; [by vm_compute|left].
  - done.
Defined.
