(* ===== verification/SegmentMemory.v ===== *)
(** * [segment_memory.py]

    The cache of memory-mapped segment files.  The heap of [Entry] objects, the
    LRU cache, the queue of the clean-up thread and the files themselves are one
    state; a [SegmentHandle] is the entry it stands for.  A mapping is shared
    with its file, so it is kept as the number of bytes it shows: reading goes
    through to the file's contents.  The file system does not fail. *)
From Stdlib Require Import String.
From S2P Require Import Prelude PyData PyDict Segment.

Record Entry := mkEntry {
  e_filepath : pystr;
  e_mutable : bool;
  _refcount : Z;
  (** the mapped length; [None] when nothing is mapped *)
  e_mapped : option Z }.

Record Memory := mkMemory {
  capacity : Z;
  init_segment_size : Z;
  segment_size_inc : Z;
  (** least recently used first *)
  cache : list (list Z * nat);
  entries : gmap nat Entry;
  next_entry : nat;
  cleanup_queue : list nat;
  files : gmap (list Z) (list Z) }.

Definition new_memory (capacity init_segment_size segment_size_inc : Z)
    (files : gmap (list Z) (list Z)) : Memory :=
  mkMemory capacity init_segment_size segment_size_inc [] ∅ 0 [] files.

Definition set_cache c m :=
  mkMemory (capacity m) (init_segment_size m) (segment_size_inc m) c (entries m)
    (next_entry m) (cleanup_queue m) (files m).
Definition set_entries es m :=
  mkMemory (capacity m) (init_segment_size m) (segment_size_inc m) (cache m) es
    (next_entry m) (cleanup_queue m) (files m).
Definition set_next n m :=
  mkMemory (capacity m) (init_segment_size m) (segment_size_inc m) (cache m) (entries m)
    n (cleanup_queue m) (files m).
Definition set_queue q m :=
  mkMemory (capacity m) (init_segment_size m) (segment_size_inc m) (cache m) (entries m)
    (next_entry m) q (files m).
Definition set_files f m :=
  mkMemory (capacity m) (init_segment_size m) (segment_size_inc m) (cache m) (entries m)
    (next_entry m) (cleanup_queue m) f.

Definition set_refcount n x := mkEntry (e_filepath x) (e_mutable x) n (e_mapped x).
Definition set_mapped o x := mkEntry (e_filepath x) (e_mutable x) (_refcount x) o.

(** ** [AtomicInt] *)

(** Every method runs under the integer's own lock. *)
Module AtomicInt.
Definition increment (val : Z) : Z := val + 1.
Definition decrement (val : Z) : Z := val - 1.
(** [wait_until_zero] returns in exactly the states where this holds. *)
Definition is_zero (val : Z) : bool := val =? 0.
End AtomicInt.

(** ** [Entry] *)

(** The file an entry maps. *)
Definition content (m : Memory) (x : Entry) : bytes := default [] (files m !! e_filepath x).

(** The object behind a reference; references never dangle. *)
Definition entry (e : nat) : M Memory Entry :=
  reads (λ m, or_raise (entries m !! e) AttributeError).
Definition set_entry (e : nat) (x : Entry) : M Memory unit :=
  modify (λ m, set_entries (<[e := x]> (entries m)) m).
Definition set_content (x : Entry) (b : bytes) : M Memory unit :=
  modify (λ m, set_files (<[e_filepath x := b]> (files m)) m).

(** [Entry.load]: an empty or missing file gets its initial size first. *)
Definition load (e : nat) : M Memory unit :=
  x ← entry e;
  match e_mapped x with
  | Some _ => mret tt
  | None =>
      m ← get;
      let old := content m x in
      new ← (if zlen old =? 0 then
               if init_segment_size m <? 0 then raise OSError
               else mret (replicate (Z.to_nat (init_segment_size m)) 0)
             else mret old);
      set_content x new;;
      if zlen new =? 0 then raise ValueError (* mmap refuses an empty file *)
      else set_entry e (set_mapped (Some (zlen new)) x)
  end.

Definition read_bytes (e : nat) (offset length : Z) : M Memory bytes :=
  x ← entry e;
  match e_mapped x with
  | None => raise AssertionError
  | Some n => reads (λ m, Ok (py_slice (take (Z.to_nat n) (content m x))
                                offset (offset + length)))
  end.

(** [file.truncate(n)] on the contents *)
Definition truncate (n : Z) (b : bytes) : bytes := resize (Z.to_nat n) 0 b.

Definition _increase_capacity_locked (e : nat) (capacity : Z) : M Memory unit :=
  x ← entry e;
  match e_mapped x with
  | None => raise AssertionError
  | Some n =>
      if n <? capacity then
        m ← get;
        let new_capacity := Z.max capacity (segment_size_inc m + n) in
        set_content x (truncate new_capacity (content m x));;
        set_entry e (set_mapped (Some new_capacity) x)
      else mret tt
  end.

(** [mv[i:j] = msg] on a view of the first [n] bytes of [b]: the slice and the
    message must have the same length. *)
Definition assign_slice (n i j : Z) (msg b : bytes) : result bytes :=
  let view := take (Z.to_nat n) b in
  let i' := clip (zlen view) i in
  if zlen (py_slice view i j) =? zlen msg
  then Ok (take (Z.to_nat i') b ++ msg ++ drop (Z.to_nat (i' + zlen msg)) b)
  else Raise ValueError.

Definition write (e : nat) (offset : Z) (msg : bytes) : M Memory unit :=
  x ← entry e;
  match e_mapped x with
  | None => raise AssertionError
  | Some n =>
      if negb (e_mutable x) then raise Exception
      else
        let required_capacity := offset + zlen msg in
        (if n <? required_capacity then _increase_capacity_locked e required_capacity
         else mret tt);;
        x ← entry e;
        n ← lift (or_raise (e_mapped x) AssertionError);
        m ← get;
        b ← lift (assign_slice n offset required_capacity msg (content m x));
        set_content x b
  end.

Definition release (e : nat) : M Memory unit :=
  x ← entry e; set_entry e (set_mapped None x).

(** ** [SegmentMemory] *)

Definition add_refcount (f : Z → Z) (e : nat) : M Memory unit :=
  x ← entry e; set_entry e (set_refcount (f (_refcount x)) x).

Definition _release_entry (e : nat) : M Memory unit := add_refcount AtomicInt.decrement e.

(** [while len(cache) > capacity: popitem(last=False)]; one round per cached
    entry and a last one that finds the cache empty. *)
Fixpoint cleanup_loop (fuel : nat) : M Memory unit :=
  match fuel with
  | O => mret tt
  | S fuel =>
      m ← get;
      if zlen (cache m) >? capacity m then
        match cache m with
        | [] => raise KeyError
        | (_, oldest_entry) :: rest =>
            modify (set_cache rest);;
            modify (λ m, set_queue (cleanup_queue m ++ [oldest_entry]) m);;
            cleanup_loop fuel
        end
      else mret tt
  end.
Definition __cleanup_locked : M Memory unit :=
  m ← get; cleanup_loop (S (length (cache m))).

(** The part of [acquire] under the cache lock. *)
Definition acquire_locked (meta : SegmentMeta) : M Memory nat :=
  key ← lift (get_id meta);
  m ← get;
  e ← match dict_get (cache m) key with
      | None =>
          let e := next_entry m in
          set_entry e (mkEntry (get_filepath meta) (is_mutable meta)
                         (AtomicInt.increment 0) None);;
          modify (set_next (S e));;
          modify (λ m, set_cache (dict_set (cache m) key e) m);;
          mret e
      | Some e => add_refcount AtomicInt.increment e;; mret e
      end;
  modify (λ m, set_cache (dict_move_to_end (cache m) key) m);;
  __cleanup_locked;;
  mret e.

Definition acquire (meta : SegmentMeta) : M Memory nat :=
  e ← acquire_locked meta;
  load e;;
  mret e.

(** [with memory.acquire(meta) as handle: f(handle)] *)
Definition with_handle {A} (meta : SegmentMeta) (f : nat → M Memory A) : M Memory A :=
  handle ← acquire meta;
  finally (f handle) (λ m, (_release_entry handle m).2).

(** The part of [force_evict] under the cache lock: [cache[key]] raises for an
    unknown key. *)
Definition force_evict_locked (meta : SegmentMeta) : M Memory nat :=
  key ← lift (get_id meta);
  m ← get;
  e ← lift (or_raise (dict_get (cache m) key) KeyError);
  modify (set_cache (dict_del (cache m) key));;
  mret e.

(** The part of [try_evict] under the cache lock: the entry to release, unless
    it is in use. *)
Definition try_evict_locked (meta : SegmentMeta) : M Memory (option nat) :=
  key ← lift (get_id meta);
  m ← get;
  e ← lift (or_raise (dict_get (cache m) key) KeyError);
  x ← entry e;
  if _refcount x >? 0 then mret None
  else modify (set_cache (dict_del (cache m) key));; mret (Some e).

(** [cleanup_queue.get(block=True)] *)
Definition queue_get : M Memory (option nat) :=
  m ← get;
  match cleanup_queue m with
  | [] => mret None
  | e :: q => modify (set_queue q);; mret (Some e)
  end.

(** [entry._refcount.wait_until_zero()] lets its caller through. *)
Definition unused (m : Memory) (e : nat) : bool :=
  match entries m !! e with Some x => AtomicInt.is_zero (_refcount x) | None => false end.

(** One round of the clean-up thread, run while no handle of the entry is in
    use; it waits ([false]) when the queue is empty or the entry is in use. *)
Definition cleanup_round : M Memory bool :=
  m ← get;
  match cleanup_queue m with
  | e :: _ => if unused m e then queue_get;; release e;; mret true else mret false
  | [] => mret false
  end.

(** [_force_evict_entry], once its wait lets it through. *)
Definition _force_evict_entry (e : nat) : M Memory bool :=
  m ← get;
  if unused m e then release e;; mret true else mret false.

(** [force_evict]; [false] when it has to wait for the handles in use. *)
Definition force_evict (meta : SegmentMeta) : M Memory bool :=
  e ← force_evict_locked meta;
  _force_evict_entry e.

Definition try_evict (meta : SegmentMeta) : M Memory bool :=
  o ← try_evict_locked meta;
  match o with
  | Some e => release e;; mret true
  | None => mret false
  end.
