(* ===== verification/MemoryFacts.v ===== *)
(** * Facts about the segment cache

    What its operations do, and the threads that share it as a step relation. *)
From stdpp Require Import gmultiset.
From S2P Require Import Prelude PyData PyDict Segment SegmentMemory.

(** ** Functional descriptions of the operations *)

Lemma run_entry {e m} x : entries m !! e = Some x → entry e m = (Ok x, m).
Proof. intros He. unfold entry. run. by rewrite He. Qed.

Lemma run_entry_None e m : entries m !! e = None → entry e m = (Raise AttributeError, m).
Proof. intros He. unfold entry. run. by rewrite He. Qed.

(** Evicting the first [ev] cached entries. *)
Definition evicted (ev rest : list (list Z * nat)) (m : Memory) : Memory :=
  set_queue (cleanup_queue m ++ ev.*2) (set_cache rest m).

Lemma cleanup_loop_evicts fuel m :
  ∃ ev rest, cache m = ev ++ rest ∧ (cleanup_loop fuel m).2 = evicted ev rest m.
Proof.
  revert m. induction fuel as [|fuel IH]; intros m; cbn [cleanup_loop].
  - exists [], (cache m). split; [done|]. unfold evicted. cbn. rewrite app_nil_r. by destruct m.
  - run. destruct (_ >? _).
    2: { exists [], (cache m). split; [done|]. unfold evicted. cbn. rewrite app_nil_r.
         by destruct m. }
    destruct (cache m) as [|[k e] rest] eqn:Hc; run.
    { exists [], []. split; [done|]. unfold evicted. cbn. rewrite app_nil_r, <-Hc. by destruct m. }
    match goal with |- context [cleanup_loop fuel ?m'] => destruct (IH m') as (ev & r & Hr & ->) end.
    cbn in Hr. exists ((k, e) :: ev), r. split; [by rewrite Hr|].
    unfold evicted. cbn. by rewrite <-app_assoc.
Qed.

(** With a non-negative capacity the loop ends normally, with the most recently
    used entries left. *)
Lemma cleanup_loop_Ok fuel m :
  0 ≤ capacity m → (length (cache m) < fuel)%nat →
  let k := (length (cache m) - Z.to_nat (capacity m))%nat in
  cleanup_loop fuel m = (Ok tt, evicted (take k (cache m)) (drop k (cache m)) m).
Proof.
  revert m. induction fuel as [|fuel IH]; intros m Hc Hf; cbn [cleanup_loop]; [lia|].
  cbv zeta. run. destruct (Z.gtb_spec (zlen (cache m)) (capacity m)) as [Hgt|Hle].
  - destruct (cache m) as [|[k e] rest] eqn:E; [cbn in Hgt; lia|]. run.
    rewrite IH; [|done|cbn in *; lia]. cbn [cache set_queue set_cache capacity length].
    rewrite Nat.sub_succ_l by (cbn in Hgt; lia). cbn [take drop].
    unfold evicted. cbn. by rewrite <-app_assoc.
  - replace (_ - _)%nat with 0%nat by lia. unfold evicted. cbn. rewrite app_nil_r.
    by destruct m.
Qed.

(** The entry [acquire] hands out, and the cache before clean-up. *)
Definition acquired (meta : SegmentMeta) (key : pystr) (e : nat) (m m1 : Memory) : Prop :=
  (dict_get (cache m) key = None ∧ e = next_entry m ∧
   m1 = set_cache (dict_move_to_end (dict_set (cache m) key e) key)
          (set_next (S e) (set_entries
             (<[e := mkEntry (get_filepath meta) (is_mutable meta) 1 None]> (entries m)) m))) ∨
  (∃ x, dict_get (cache m) key = Some e ∧ entries m !! e = Some x ∧
   m1 = set_cache (dict_move_to_end (cache m) key)
          (set_entries (<[e := set_refcount (_refcount x + 1) x]> (entries m)) m)).

(** Every cached reference is allocated. *)
Definition cache_live (m : Memory) : Prop :=
  ∀ k e, dict_get (cache m) k = Some e → is_Some (entries m !! e).

Lemma acquire_locked_run meta key m :
  get_id meta = Ok key → cache_live m →
  ∃ e m1, acquired meta key e m m1 ∧
    acquire_locked meta m
    = match __cleanup_locked m1 with
      | (Ok _, m2) => (Ok e, m2)
      | (Raise x, m2) => (Raise x, m2)
      end.
Proof.
  intros Hk Hl. unfold acquire_locked. run. rewrite Hk. run.
  destruct (dict_get (cache m) key) as [e|] eqn:Hg.
  - destruct (Hl _ _ Hg) as [x Hx]. do 2 eexists. split; [right; eauto|].
    unfold add_refcount, set_entry. run. rewrite (run_entry x) by done. run.
    by destruct (__cleanup_locked _) as [[]].
  - do 2 eexists. split; [left; eauto|].
    unfold set_entry. run. by destruct (__cleanup_locked _) as [[]].
Qed.

(** With a capacity that is not negative, acquiring evicts the oldest entries. *)
Lemma acquire_locked_Ok meta key m :
  get_id meta = Ok key → cache_live m → 0 ≤ capacity m →
  ∃ e m1, acquired meta key e m m1 ∧
    let k := (length (cache m1) - Z.to_nat (capacity m))%nat in
    acquire_locked meta m
    = (Ok e, evicted (take k (cache m1)) (drop k (cache m1)) m1).
Proof.
  intros Hk Hl Hc. destruct (acquire_locked_run _ _ _ Hk Hl) as (e & m1 & Ha & E).
  exists e, m1. split; [done|]. cbv zeta. rewrite E. unfold __cleanup_locked. run.
  assert (capacity m1 = capacity m) as Hm by (destruct Ha as [(_ & _ & ->)|(x & _ & _ & ->)]; done).
  rewrite cleanup_loop_Ok by lia. by rewrite Hm.
Qed.

(** ** Operations on one entry *)

(** Only the mapping of [e] and the files change. *)
Definition remaps (e : nat) (x : Entry) (o : option Z) (m m' : Memory) : Prop :=
  entries m !! e = Some x ∧
  ∃ fl, m' = set_files fl (set_entries (<[e := set_mapped o x]> (entries m)) m).

Lemma remaps_same e x m : entries m !! e = Some x → remaps e x (e_mapped x) m m.
Proof.
  intros He. split; [done|]. exists (files m). destruct m, x. cbn in *.
  unfold set_mapped. cbn. by rewrite insert_id.
Qed.

Lemma load_remaps e m r m' :
  load e m = (r, m') →
  match entries m !! e with
  | None => m' = m ∧ r = Raise AttributeError
  | Some x => ∃ o, remaps e x o m m' ∧ (r = Ok tt → is_Some o) ∧ (is_Some (e_mapped x) → is_Some o)
  end.
Proof.
  unfold load. run. destruct (entries m !! e) as [x|] eqn:He.
  2: { rewrite run_entry_None by done. by intros [= <- <-]. }
  rewrite (run_entry x) by done. destruct (e_mapped x) as [n|] eqn:Hx; run.
  { intros [= <- <-]. exists (Some n). rewrite <-Hx at 1. split; [by apply remaps_same|]. by split. }
  assert (∀ r' m'', (r', m'') = (r, m') → r' ≠ Ok tt →
            (∃ fl, m'' = set_files fl m) →
            ∃ o, remaps e x o m m' ∧ (r = Ok tt → is_Some o) ∧ (is_Some (@None Z) → is_Some o)) as E.
  { intros r' m'' [= <- <-] Hr [fl ->]. exists None. split; [|split; [done|by intros [? ?]]].
    split; [done|]. exists fl. destruct m, x. cbn in *. unfold set_mapped. cbn.
    rewrite insert_id; [done|]. by rewrite <-Hx. }
  destruct (_ =? 0); [destruct (_ <? 0)|]; run; unfold set_content, set_entry; run.
  - intros H'. eapply E; [exact H'|done|]. exists (files m). by destruct m.
  - destruct (_ =? 0); run; [|intros [= <- <-]; eexists; by (split; [split; [done|by eexists]|])].
    intros H'. eapply E; [exact H'|done|]. by eexists.
  - destruct (_ =? 0); run; [|intros [= <- <-]; eexists; by (split; [split; [done|by eexists]|])].
    intros H'. eapply E; [exact H'|done|]. by eexists.
Qed.

Lemma release_remaps e m m' :
  release e m = (Ok tt, m') → ∃ x, remaps e x None m m'.
Proof.
  unfold release, set_entry. run. destruct (entries m !! e) as [x|] eqn:He.
  2: by rewrite run_entry_None.
  rewrite (run_entry x) by done. run. intros [= <-]. exists x. split; [done|].
  exists (files m). by destruct m.
Qed.

Lemma write_remaps e offset msg m r m' :
  write e offset msg m = (r, m') →
  match entries m !! e with
  | None => m' = m
  | Some x => ∃ o, remaps e x o m m' ∧ (is_Some (e_mapped x) → is_Some o)
  end.
Proof.
  unfold write. run. destruct (entries m !! e) as [x|] eqn:He.
  2: { rewrite run_entry_None by done. by intros [= <- <-]. }
  rewrite (run_entry x) by done. destruct (e_mapped x) as [n|] eqn:Hx; run.
  2: { intros [= <- <-]. exists None. rewrite <-Hx at 1. split; [by apply remaps_same|done]. }
  destruct (e_mutable x); cbn [negb]; run.
  2: { intros [= <- <-]. exists (Some n). rewrite <-Hx at 1. split; [by apply remaps_same|done]. }
  cbv zeta. destruct (n <? offset + zlen msg) eqn:Hn.
  - unfold _increase_capacity_locked, set_content, set_entry. run.
    rewrite (run_entry x) by done. run. rewrite Hx, Hn. run.
    erewrite run_entry by (cbn; by rewrite lookup_insert_eq). run.
    cbn [e_mapped set_mapped or_raise]. run.
    destruct (assign_slice _ _ _ _ _); run; intros [= <- <-];
      (eexists; split; [split; [done|]; eexists; destruct m; reflexivity|done]).
  - run. rewrite (run_entry x) by done. run. rewrite Hx. cbn [or_raise]. run.
    assert (∀ fl, remaps e x (Some n) m (set_files fl m)) as Hfl.
    { intros fl. rewrite <-Hx. destruct (remaps_same e x m He) as [_ [fl' E]].
      split; [done|]. exists fl. by rewrite E at 1. }
    destruct (assign_slice _ _ _ _ _); run; intros [= <- <-]; exists (Some n).
    + split; [apply Hfl|done].
    + split; [|done]. replace m with (set_files (files m) m) at 2 by by destruct m. apply Hfl.
Qed.

(** ** What a write does to the file *)

(** The mapped length and the file after room is made for [required] bytes. *)
Definition grown (m : Memory) (n required : Z) : Z :=
  if n <? required then Z.max required (segment_size_inc m + n) else n.
Definition enlarged (m : Memory) (n required : Z) (b : bytes) : bytes :=
  if n <? required then truncate (grown m n required) b else b.

Lemma enlarged_length m n required b :
  n ≤ zlen b → required ≤ grown m n required ≤ zlen (enlarged m n required b).
Proof.
  intros Hn. unfold enlarged, grown, truncate.
  destruct (Z.ltb_spec n required); [rewrite length_resize|]; lia.
Qed.

Lemma enlarged_take m n required b k :
  (k ≤ length b)%nat → Z.of_nat k ≤ required → take k (enlarged m n required b) = take k b.
Proof.
  intros Hk Hr. unfold enlarged, grown, truncate. destruct (Z.ltb_spec n required); [|done].
  by rewrite take_resize_le, resize_le by lia.
Qed.

(** [msg] written over [b] at [offset]. *)
Definition overwrite (offset : Z) (msg b : bytes) : bytes :=
  take (Z.to_nat offset) b ++ msg ++ drop (Z.to_nat (offset + zlen msg)) b.

Lemma assign_slice_Ok n offset msg b :
  0 ≤ offset → offset + zlen msg ≤ n → n ≤ zlen b →
  assign_slice n offset (offset + zlen msg) msg b = Ok (overwrite offset msg b).
Proof.
  intros Ho Hm Hn. unfold assign_slice.
  assert (zlen (take (Z.to_nat n) b) = n) as Hl by (rewrite length_take; lia).
  rewrite length_py_slice, Hl by lia. unfold clip. repeat lia_if. by rewrite Z.min_l by lia.
Qed.

Lemma set_files_twice f g m : set_files f (set_files g m) = set_files f m.
Proof. done. Qed.

Lemma write_Ok e x n offset msg m :
  entries m !! e = Some x → e_mapped x = Some n → e_mutable x = true →
  0 ≤ offset → n ≤ zlen (content m x) →
  let required := offset + zlen msg in
  write e offset msg m
  = (Ok tt,
     set_files (<[e_filepath x := overwrite offset msg (enlarged m n required (content m x))]>
                  (files m))
       (set_entries (<[e := set_mapped (Some (grown m n required)) x]> (entries m)) m)).
Proof.
  intros He Hx Hmut Ho Hn required.
  pose proof (enlarged_length m n required (content m x) Hn) as Hg.
  unfold write. run. rewrite (run_entry x) by done. rewrite Hx, Hmut. cbn [negb]. cbv zeta.
  fold required. unfold enlarged, grown in *. destruct (n <? required) eqn:E.
  - unfold _increase_capacity_locked, set_content, set_entry. run.
    rewrite (run_entry x) by done. run. rewrite Hx, E. run.
    erewrite run_entry by (cbn; by rewrite lookup_insert_eq). run.
    cbn [e_mapped set_mapped or_raise]. run.
    unfold content at 1. cbn [files set_entries set_files e_filepath set_mapped].
    rewrite lookup_insert_eq. cbn [default from_option id].
    unfold required at 2. rewrite assign_slice_Ok by (unfold required in *; lia). run.
    unfold set_files, set_entries. cbn. by rewrite insert_insert_eq.
  - run. rewrite (run_entry x) by done. run. rewrite Hx. cbn [or_raise]. run.
    unfold required at 1. rewrite assign_slice_Ok by (unfold required in *; lia). run.
    unfold set_content. run.
    replace (set_mapped (Some n) x) with x by (rewrite <-Hx; by destruct x).
    rewrite (insert_id (entries m)) by done. by destruct m.
Qed.

Lemma overwrite_length offset msg b :
  0 ≤ offset → offset + zlen msg ≤ zlen b → zlen (overwrite offset msg b) = zlen b.
Proof.
  intros. unfold overwrite. rewrite !zlen_app, length_take, length_drop. lia.
Qed.

(** Bytes before the written range are untouched; the range reads back. *)
Lemma overwrite_before offset msg b k :
  0 ≤ offset ≤ zlen b → (Z.of_nat k ≤ offset) → take k (overwrite offset msg b) = take k b.
Proof.
  intros Ho Hk. unfold overwrite. rewrite take_app_le by (rewrite length_take; lia).
  rewrite take_take. f_equal. lia.
Qed.
Lemma overwrite_at offset msg b :
  0 ≤ offset ≤ zlen b →
  take (length msg) (drop (Z.to_nat offset) (overwrite offset msg b)) = msg.
Proof.
  intros Ho. unfold overwrite. rewrite drop_app_length' by (rewrite length_take; lia).
  apply take_app_length.
Qed.
Lemma overwrite_prefix offset msg b :
  0 ≤ offset ≤ zlen b →
  take (Z.to_nat (offset + zlen msg)) (overwrite offset msg b) = take (Z.to_nat offset) b ++ msg.
Proof.
  intros Ho. unfold overwrite. rewrite app_assoc. apply take_app_length'.
  rewrite length_app, length_take. lia.
Qed.

(** ** What a read sees *)
Lemma read_bytes_Ok e x n offset len m :
  entries m !! e = Some x → e_mapped x = Some n →
  read_bytes e offset len m
  = (Ok (py_slice (take (Z.to_nat n) (content m x)) offset (offset + len)), m).
Proof.
  intros He Hx. unfold read_bytes. run. rewrite (run_entry x) by done. run. by rewrite Hx.
Qed.

(** A non-negative range inside the mapping is that range of the file. *)
Lemma read_bytes_range e x n offset len m :
  entries m !! e = Some x → e_mapped x = Some n → 0 ≤ offset → 0 ≤ len →
  offset + len ≤ n → n ≤ zlen (content m x) →
  read_bytes e offset len m
  = (Ok (take (Z.to_nat len) (drop (Z.to_nat offset) (content m x))), m).
Proof.
  intros He Hx Ho Hl Hn Hc. rewrite (read_bytes_Ok e x n) by done. do 2 f_equal.
  rewrite py_slice_nonneg by lia. rewrite length_take.
  replace (Z.to_nat _) with (Z.to_nat len) by lia.
  rewrite !take_drop_commute, take_take. do 2 f_equal. lia.
Qed.

Record Threads := mkThreads {
  mem : Memory;
  loading : gmultiset nat;
  held : gmultiset nat;
  evicting : list nat;
  releasing : list nat }.

Inductive step : Threads → Threads → Prop :=
| step_acquire m m' l h ev re meta e :
    acquire_locked meta m = (Ok e, m') →
    step (mkThreads m l h ev re) (mkThreads m' ({[+ e +]} ⊎ l) h ev re)
| step_acquire_raises m m' l h ev re meta x :
    acquire_locked meta m = (Raise x, m') →
    step (mkThreads m l h ev re) (mkThreads m' l h ev re)
| step_load m m' l h ev re e :
    load e m = (Ok tt, m') →
    step (mkThreads m ({[+ e +]} ⊎ l) h ev re) (mkThreads m' l ({[+ e +]} ⊎ h) ev re)
| step_load_raises m m' l h ev re e x :
    load e m = (Raise x, m') →
    step (mkThreads m ({[+ e +]} ⊎ l) h ev re) (mkThreads m' l h ev re)
| step_write m m' l h ev re e offset msg r :
    e ∈ h → write e offset msg m = (r, m') →
    step (mkThreads m l h ev re) (mkThreads m' l h ev re)
| step_release m m' l h ev re e :
    _release_entry e m = (Ok tt, m') →
    step (mkThreads m l ({[+ e +]} ⊎ h) ev re) (mkThreads m' l h ev re)
| step_force_evict m m' l h ev re meta e :
    force_evict_locked meta m = (Ok e, m') →
    step (mkThreads m l h ev re) (mkThreads m' l h (e :: ev) re)
| step_try_evict m m' l h ev re meta e :
    try_evict_locked meta m = (Ok (Some e), m') →
    step (mkThreads m l h ev re) (mkThreads m' l h ev (e :: re))
| step_queue_get m m' l h ev re e :
    queue_get m = (Ok (Some e), m') →
    step (mkThreads m l h ev re) (mkThreads m' l h (e :: ev) re)
| step_wait_until_zero m l h ev1 ev2 re e :
    unused m e = true →
    step (mkThreads m l h (ev1 ++ e :: ev2) re) (mkThreads m l h (ev1 ++ ev2) (e :: re))
| step_evict m m' l h ev re1 re2 e :
    release e m = (Ok tt, m') →
    step (mkThreads m l h ev (re1 ++ e :: re2)) (mkThreads m' l h ev (re1 ++ re2)).

(** No thread has started yet. *)
Definition initial (s : Threads) : Prop :=
  cache (mem s) = [] ∧ entries (mem s) = ∅ ∧ next_entry (mem s) = 0%nat ∧
  cleanup_queue (mem s) = [] ∧ loading s = ∅ ∧ held s = ∅ ∧ evicting s = [] ∧ releasing s = [].

Definition reachable (s : Threads) : Prop := ∃ s0, initial s0 ∧ rtc step s0 s.

(** ** The invariant *)

(** Every place that holds a reference for later eviction. *)
Definition owners (m : Memory) (ev re : list nat) : list nat :=
  dict_values (cache m) ++ cleanup_queue m ++ ev ++ re.

Record inv (m : Memory) (l h : gmultiset nat) (ev re : list nat) : Prop := {
  inv_fresh : ∀ e x, entries m !! e = Some x → (e < next_entry m)%nat;
  inv_keys : dict_ok (cache m);
  inv_owners : NoDup (owners m ev re);
  inv_alloc : Forall (λ e, is_Some (entries m !! e)) (owners m ev re);
  inv_count : ∀ e x, entries m !! e = Some x →
    Z.of_nat (multiplicity e (l ⊎ h)) ≤ _refcount x;
  inv_users : ∀ e, e ∈ l ⊎ h → is_Some (entries m !! e);
  inv_releasing : ∀ e, e ∈ re → e ∉ l ⊎ h;
  inv_held : ∀ e, e ∈ h → ∃ x, entries m !! e = Some x ∧ is_Some (e_mapped x) }.

Definition threads_inv (s : Threads) : Prop :=
  inv (mem s) (loading s) (held s) (evicting s) (releasing s).

Lemma inv_initial s : initial s → threads_inv s.
Proof.
  destruct s as [m l h ev re]. intros (Hc & He & Hn & Hq & Hl & Hh & Hev & Hre).
  unfold threads_inv. cbn [mem loading held evicting releasing] in *. subst.
  split; unfold owners, dict_ok; rewrite ?Hc, ?Hq, ?He; cbn [dict_keys dict_values fmap list_fmap app].
  - by intros e x ?%lookup_empty_Some.
  - apply NoDup_nil_2.
  - apply NoDup_nil_2.
  - constructor.
  - by intros e x ?%lookup_empty_Some.
  - multiset_solver.
  - by intros e ?%not_elem_of_nil.
  - multiset_solver.
Qed.

(** Only the order of the references changes. *)
Lemma inv_reorder m m' l h ev re ev' re' :
  entries m' = entries m → next_entry m' = next_entry m → dict_ok (cache m') →
  owners m' ev' re' ≡ₚ owners m ev re →
  (∀ e, e ∈ re' → e ∉ l ⊎ h) → inv m l h ev re → inv m' l h ev' re'.
Proof.
  intros He Hn Hd Hp Hr [F K O A C U R H]. split; rewrite ?He, ?Hn; auto.
  - by rewrite Hp.
  - by rewrite Hp.
Qed.

Lemma evicted_inv ev0 rest m l h ev re :
  cache m = ev0 ++ rest → inv m l h ev re → inv (evicted ev0 rest m) l h ev re.
Proof.
  intros Hc Hi. eapply (inv_reorder m); [done..| | | |done].
  - pose proof (inv_keys _ _ _ _ _ Hi) as Hk. unfold dict_ok, dict_keys in *.
    cbn. rewrite Hc, fmap_app in Hk. by apply NoDup_app in Hk as (_ & _ & ?).
  - unfold owners, dict_values, evicted. cbn. rewrite Hc, fmap_app. solve_Permutation.
  - apply (inv_releasing _ _ _ _ _ Hi).
Qed.

(** ** Preservation *)

Lemma owner_alloc m l h ev re e :
  inv m l h ev re → e ∈ owners m ev re → is_Some (entries m !! e).
Proof. intros [_ _ _ A _ _ _ _]. rewrite Forall_forall in A. apply A. Qed.

Lemma cached_owner m ev re k e : dict_get (cache m) k = Some e → e ∈ owners m ev re.
Proof.
  intros Hk%dict_get_elem%(list_elem_of_fmap_2 snd). cbn in Hk. unfold owners, dict_values.
  apply elem_of_app. by left.
Qed.

Lemma inv_values m l h ev re : inv m l h ev re → NoDup (dict_values (cache m)).
Proof. intros [_ _ O _ _ _ _ _]. unfold owners in O. by apply NoDup_app in O as [? _]. Qed.

Lemma releasing_owner m ev re e : e ∈ re → e ∈ owners m ev re.
Proof. unfold owners. rewrite !elem_of_app. tauto. Qed.

Lemma cached_not_releasing m l h ev re k e :
  inv m l h ev re → dict_get (cache m) k = Some e → e ∉ re.
Proof.
  intros Hi Hk Hre. pose proof (inv_owners _ _ _ _ _ Hi) as HN. unfold owners in HN.
  apply NoDup_app in HN as (_ & HN & _). apply (HN e).
  - apply dict_get_elem, (list_elem_of_fmap_2 snd) in Hk. done.
  - rewrite !elem_of_app. tauto.
Qed.

Lemma mult_elem (X Y : gmultiset nat) d :
  (multiplicity d X ≤ multiplicity d Y)%nat → d ∈ X → d ∈ Y.
Proof. rewrite !elem_of_multiplicity. lia. Qed.

(** One entry changes, and the threads that use it. *)
Lemma inv_update m m' l h l' h' ev re e x x' :
  entries m !! e = Some x → entries m' = <[e := x']> (entries m) →
  next_entry m' = next_entry m → dict_ok (cache m') → owners m' ev re ≡ₚ owners m ev re →
  (∀ d, d ≠ e → (multiplicity d (l' ⊎ h') ≤ multiplicity d (l ⊎ h))%nat) →
  Z.of_nat (multiplicity e (l' ⊎ h')) ≤ _refcount x' →
  (e ∈ l' ⊎ h' → e ∉ re) →
  (∀ d, d ∈ h' → d ≠ e → d ∈ h) → (e ∈ h' → is_Some (e_mapped x')) →
  inv m l h ev re → inv m' l' h' ev re.
Proof.
  intros He Hes Hn Hk Hp Hmul Hcnt Hre Hh Hmap [F K O A C U R H].
  split; rewrite ?Hn, ?Hes, ?Hp; auto.
  - intros d y [[<- _]|[_ Hd]]%lookup_insert_Some; eauto.
  - eapply Forall_impl; [exact A|]. intros d. cbn. rewrite lookup_insert_is_Some'. tauto.
  - intros d y [[<- <-]|[Hne Hd]]%lookup_insert_Some; [done|].
    specialize (Hmul d ltac:(done)). specialize (C d y Hd). lia.
  - intros d Hd. rewrite lookup_insert_is_Some'. destruct (decide (d = e)) as [->|Hne]; [by left|].
    right. by eapply U, mult_elem, Hd; auto.
  - intros d Hd Hin. destruct (decide (d = e)) as [->|Hne]; [by apply (Hre Hin)|].
    by eapply (R d Hd), mult_elem, Hin; auto.
  - intros d Hd. destruct (decide (d = e)) as [->|Hne].
    + exists x'. rewrite lookup_insert_eq. auto.
    + rewrite lookup_insert_ne by done. auto.
Qed.

Lemma inv_drop_loading m l h ev re e :
  inv m ({[+ e +]} ⊎ l) h ev re → inv m l h ev re.
Proof.
  intros [F K O A C U R H].
  assert (∀ d, (multiplicity d (l ⊎ h) ≤ multiplicity d ({[+ e +]} ⊎ l ⊎ h))%nat) as Hle.
  { intros d. rewrite !multiplicity_disj_union. lia. }
  split; auto.
  - intros d y Hd. specialize (C d y Hd). specialize (Hle d). lia.
  - intros d Hd. by eapply U, mult_elem, Hd.
  - intros d Hd Hin. by eapply (R d Hd), mult_elem, Hin.
Qed.

Lemma acquired_new_inv meta key e m m1 l h ev re :
  dict_get (cache m) key = None → e = next_entry m →
  m1 = set_cache (dict_move_to_end (dict_set (cache m) key e) key)
         (set_next (S e) (set_entries
            (<[e := mkEntry (get_filepath meta) (is_mutable meta) 1 None]> (entries m)) m)) →
  inv m l h ev re → inv m1 ({[+ e +]} ⊎ l) h ev re.
Proof.
  intros Hk He -> Hi.
  assert (entries m !! e = None) as Hnew.
  { subst e. destruct (entries m !! next_entry m) eqn:E; [|done].
    apply (inv_fresh _ _ _ _ _ Hi) in E. lia. }
  destruct Hi as [F K O A C U R H].
  assert (e ∉ l ⊎ h) as Hn by (intros [? ?]%U; congruence).
  assert (multiplicity e (l ⊎ h) = 0)%nat as Hz.
  { destruct (multiplicity e (l ⊎ h)) eqn:E; [done|]. exfalso. apply Hn, elem_of_multiplicity. lia. }
  assert (e ∉ h) as Hh by (intros ?; apply Hn, gmultiset_elem_of_disj_union; by right).
  assert (dict_move_to_end (dict_set (cache m) key e) key ≡ₚ (key, e) :: cache m) as Hp.
  { rewrite dict_move_perm. by apply dict_set_new. }
  assert (∀ d, d ≠ e → multiplicity d ({[+ e +]} ⊎ l ⊎ h) = multiplicity d (l ⊎ h)) as Hm.
  { intros d Hd. rewrite !multiplicity_disj_union, multiplicity_singleton_ne by done. lia. }
  assert (owners (set_cache (dict_move_to_end (dict_set (cache m) key e) key)
         (set_next (S e) (set_entries
            (<[e := mkEntry (get_filepath meta) (is_mutable meta) 1 None]> (entries m)) m)))
            ev re ≡ₚ e :: owners m ev re) as Ho.
  { unfold owners, dict_values. cbn. by rewrite Hp. }
  rewrite Forall_forall in A.
  split; cbn [entries next_entry cache set_cache set_next set_entries].
  - intros d y [[<- _]|[_ Hd]]%lookup_insert_Some; [lia|]. apply F in Hd. lia.
  - eapply dict_ok_perm; [symmetry; apply dict_move_perm|]. by apply dict_set_ok.
  - rewrite Ho. apply NoDup_cons. split; [|done]. intros [? ?]%A. congruence.
  - rewrite Ho. constructor; [rewrite lookup_insert_eq; eauto|].
    apply Forall_forall. intros d Hd. rewrite lookup_insert_is_Some'. auto.
  - intros d y [[<- <-]|[Hne Hd]]%lookup_insert_Some.
    + cbn [_refcount]. rewrite !multiplicity_disj_union, multiplicity_singleton_eq in *. lia.
    + rewrite Hm by done. auto.
  - intros d Hd. rewrite lookup_insert_is_Some'. destruct (decide (d = e)) as [->|Hne]; [by left|].
    right. apply U. eapply mult_elem, Hd. by rewrite Hm.
  - intros d Hd Hin. destruct (decide (d = e)) as [->|Hne].
    + destruct (A e) as [? ?]; [by apply releasing_owner|congruence].
    + apply (R d Hd). eapply mult_elem, Hin. by rewrite Hm.
  - intros d Hd. rewrite lookup_insert_ne by (by intros ->). auto.
Qed.

Lemma acquired_inv meta key e m m1 l h ev re :
  acquired meta key e m m1 → inv m l h ev re → inv m1 ({[+ e +]} ⊎ l) h ev re.
Proof.
  intros [(Hk & He & E)|(x & Hk & Hx & ->)] Hi; [by eapply acquired_new_inv|].
  eapply (inv_update m _ l h); [exact Hx|done|done| | | | | | | |exact Hi].
  - eapply dict_ok_perm; [symmetry; apply dict_move_perm|]. apply (inv_keys _ _ _ _ _ Hi).
  - unfold owners, dict_values. cbn. by rewrite dict_move_perm.
  - intros d Hd. rewrite !multiplicity_disj_union, multiplicity_singleton_ne by done. lia.
  - pose proof (inv_count _ _ _ _ _ Hi _ _ Hx) as Hc. cbn [_refcount set_refcount].
    rewrite !multiplicity_disj_union, multiplicity_singleton_eq in *. lia.
  - intros _. by eapply cached_not_releasing.
  - done.
  - intros Hin. destruct (inv_held _ _ _ _ _ Hi _ Hin) as (y & Hy & ?). by simplify_eq.
Qed.

(** Mapping or unmapping one entry. *)
Lemma remaps_inv e x o m m' l h l' h' ev re :
  remaps e x o m m' → l' ⊎ h' = l ⊎ h →
  (∀ d, d ∈ h' → d ≠ e → d ∈ h) → (e ∈ h' → is_Some o) →
  inv m l h ev re → inv m' l' h' ev re.
Proof.
  intros [Hx [fl ->]] Hlh Hh Ho Hi.
  eapply (inv_update m _ l h); [exact Hx|done|done|apply Hi|done| | | |done|done|exact Hi].
  - intros d _. by rewrite Hlh.
  - rewrite Hlh. apply (inv_count _ _ _ _ _ Hi _ _ Hx).
  - rewrite Hlh. intros Hin Hre. by apply (inv_releasing _ _ _ _ _ Hi e Hre).
Qed.

Lemma acquire_locked_inv meta m r m' l h ev re :
  acquire_locked meta m = (r, m') → inv m l h ev re →
  match r with Ok e => inv m' ({[+ e +]} ⊎ l) h ev re | Raise _ => inv m' l h ev re end.
Proof.
  intros Hr Hi. destruct (get_id meta) as [key|y] eqn:Hk.
  - destruct (acquire_locked_run meta key m Hk) as (e & m1 & Ha & E).
    { intros k d Hd. eapply owner_alloc; [exact Hi|by eapply cached_owner]. }
    pose proof (acquired_inv _ _ _ _ _ _ _ _ _ Ha Hi) as H1. rewrite E in Hr.
    unfold __cleanup_locked in Hr. run_in Hr.
    destruct (cleanup_loop_evicts (S (length (cache m1))) m1) as (ev0 & rest & Hc & Hm).
    pose proof (evicted_inv _ _ _ _ _ _ _ Hc H1) as H2. rewrite <-Hm in H2.
    destruct (cleanup_loop _ m1) as [[u|y] m2]; injection Hr as <- <-; cbn in H2; [done|].
    by apply inv_drop_loading in H2.
  - unfold acquire_locked in Hr. run_in Hr. rewrite Hk in Hr. run_in Hr. by injection Hr as <- <-.
Qed.

Lemma disj_union_swap e (l h : gmultiset nat) :
  ({[+ e +]} ⊎ l) ⊎ h = l ⊎ ({[+ e +]} ⊎ h).
Proof. multiset_solver. Qed.

Lemma load_inv e m r m' l h ev re :
  load e m = (r, m') → inv m ({[+ e +]} ⊎ l) h ev re →
  match r with
  | Ok _ => inv m' l ({[+ e +]} ⊎ h) ev re
  | Raise _ => inv m' l h ev re
  end.
Proof.
  intros Hr%load_remaps Hi.
  destruct (inv_users _ _ _ _ _ Hi e) as [x Hx]; [multiset_solver|].
  rewrite Hx in Hr. destruct Hr as (o & Hm & Hok & Hmap).
  assert (e ∈ h → is_Some o) as Hh.
  { intros Hin. apply Hmap. destruct (inv_held _ _ _ _ _ Hi _ Hin) as (y & Hy & ?). by simplify_eq. }
  destruct r as [[]|y].
  - eapply remaps_inv; [exact Hm|symmetry; apply disj_union_swap| |auto|exact Hi].
    intros d Hd Hne. multiset_solver.
  - eapply inv_drop_loading, remaps_inv; [exact Hm|done|done|exact Hh|exact Hi].
Qed.

Lemma write_inv e offset msg m r m' l h ev re :
  e ∈ h → write e offset msg m = (r, m') → inv m l h ev re → inv m' l h ev re.
Proof.
  intros Hin Hr%write_remaps Hi. destruct (inv_held _ _ _ _ _ Hi _ Hin) as (x & Hx & Hs).
  rewrite Hx in Hr. destruct Hr as (o & Hm & Ho).
  eapply remaps_inv; [exact Hm|done|done|auto|exact Hi].
Qed.

Lemma release_entry_inv e m m' l h ev re :
  _release_entry e m = (Ok tt, m') → inv m l ({[+ e +]} ⊎ h) ev re → inv m' l h ev re.
Proof.
  intros Hr Hi. destruct (inv_users _ _ _ _ _ Hi e) as [x Hx]; [multiset_solver|].
  unfold _release_entry, add_refcount, set_entry in Hr. run_in Hr.
  rewrite (run_entry x) in Hr by done. run_in Hr. injection Hr as <-.
  eapply (inv_update m _ l ({[+ e +]} ⊎ h));
    [exact Hx|done|done|apply Hi|done| | | | | |exact Hi].
  - intros d _. rewrite !multiplicity_disj_union. lia.
  - pose proof (inv_count _ _ _ _ _ Hi _ _ Hx) as Hc. cbn [_refcount set_refcount].
    unfold AtomicInt.decrement.
    rewrite !multiplicity_disj_union, multiplicity_singleton_eq in *. lia.
  - intros Hin Hre. apply (inv_releasing _ _ _ _ _ Hi e Hre). multiset_solver.
  - intros d Hd _. multiset_solver.
  - intros Hin. destruct (inv_held _ _ _ _ _ Hi e) as (y & Hy & ?); [multiset_solver|].
    by simplify_eq.
Qed.

(** A cached entry leaves the cache for one of the lists. *)
Lemma evict_key_inv key e m l h ev re ev' re' :
  dict_get (cache m) key = Some e → ev' ++ re' ≡ₚ e :: ev ++ re →
  (∀ d, d ∈ re' → d ∉ l ⊎ h) →
  inv m l h ev re → inv (set_cache (dict_del (cache m) key) m) l h ev' re'.
Proof.
  intros Hk Hp Hre Hi. eapply (inv_reorder m); [done|done| | |exact Hre|exact Hi].
  - apply dict_del_ok, Hi.
  - unfold owners, dict_values. cbn. rewrite Hp.
    rewrite <-(dict_del_perm _ _ _ Hk) at 2. cbn. by rewrite !Permutation_middle.
Qed.

Lemma force_evict_locked_inv meta e m m' l h ev re :
  force_evict_locked meta m = (Ok e, m') → inv m l h ev re → inv m' l h (e :: ev) re.
Proof.
  unfold force_evict_locked. run. destruct (get_id meta) as [key|]; run; [|done].
  destruct (dict_get (cache m) key) eqn:Hk; cbn [or_raise]; run; [|done].
  intros [= -> <-] Hi. apply (evict_key_inv key e m l h ev re); [done..|apply Hi|done].
Qed.

Lemma try_evict_locked_inv meta e m m' l h ev re :
  try_evict_locked meta m = (Ok (Some e), m') → inv m l h ev re → inv m' l h ev (e :: re).
Proof.
  unfold try_evict_locked. run. destruct (get_id meta) as [key|]; run; [|done].
  destruct (dict_get (cache m) key) as [d|] eqn:Hk; cbn [or_raise]; run; [|done].
  intros H Hi. destruct (owner_alloc _ _ _ _ _ d Hi) as [x Hx]; [by eapply cached_owner|].
  rewrite (run_entry x) in H by done. destruct (Z.gtb_spec (_refcount x) 0); [done|].
  run_in H. injection H as -> <-.
  apply (evict_key_inv key e m l h ev re); [done|by rewrite Permutation_middle| |done].
  intros d [->|Hd]%elem_of_cons; [|by apply Hi].
  rewrite elem_of_multiplicity. pose proof (inv_count _ _ _ _ _ Hi _ _ Hx). lia.
Qed.

Lemma queue_get_inv e m m' l h ev re :
  queue_get m = (Ok (Some e), m') → inv m l h ev re → inv m' l h (e :: ev) re.
Proof.
  unfold queue_get. run. destruct (cleanup_queue m) as [|d q] eqn:Hq; run; [done|].
  intros [= -> <-] Hi. eapply (inv_reorder m); [done|done|apply Hi| |apply Hi|exact Hi].
  unfold owners, dict_values. cbn. rewrite Hq. cbn. solve_Permutation.
Qed.

Lemma wait_inv e m l h ev1 ev2 re :
  unused m e = true → inv m l h (ev1 ++ e :: ev2) re → inv m l h (ev1 ++ ev2) (e :: re).
Proof.
  intros Hu Hi. eapply (inv_reorder m); [done|done|apply Hi| | |exact Hi].
  - unfold owners. rewrite <-!app_assoc. cbn. by rewrite Permutation_middle.
  - intros d [->|Hd]%elem_of_cons; [|by apply Hi]. unfold unused, AtomicInt.is_zero in Hu.
    destruct (entries m !! e) as [x|] eqn:Hx; [|done].
    rewrite elem_of_multiplicity. pose proof (inv_count _ _ _ _ _ Hi _ _ Hx). lia.
Qed.

Lemma evict_inv e m m' l h ev re1 re2 :
  release e m = (Ok tt, m') → inv m l h ev (re1 ++ e :: re2) → inv m' l h ev (re1 ++ re2).
Proof.
  intros [x Hm]%release_remaps Hi.
  assert (e ∉ l ⊎ h) as Hn by (apply Hi; rewrite elem_of_app, elem_of_cons; tauto).
  assert (inv m' l h ev (re1 ++ e :: re2)) as [F K O A C U R H].
  { eapply remaps_inv; [exact Hm|done|done| |exact Hi].
    intros Hin. exfalso. apply Hn. multiset_solver. }
  assert (owners m' ev (re1 ++ e :: re2) ≡ₚ e :: owners m' ev (re1 ++ re2)) as Ho.
  { unfold owners. by rewrite !Permutation_middle. }
  rewrite Ho in O, A. apply NoDup_cons in O as [_ O]. apply Forall_cons_1 in A as [_ A].
  split; auto. intros d Hd. apply R. rewrite elem_of_app, elem_of_cons in *. tauto.
Qed.

Lemma step_inv s s' : step s s' → threads_inv s → threads_inv s'.
Proof.
  unfold threads_inv. destruct 1; cbn [mem loading held evicting releasing].
  - intros Hi. by eapply acquire_locked_inv in Hi; [|eassumption].
  - intros Hi. by eapply acquire_locked_inv in Hi; [|eassumption].
  - intros Hi. by eapply load_inv in Hi; [|eassumption].
  - intros Hi. by eapply load_inv in Hi; [|eassumption].
  - by eapply write_inv.
  - by eapply release_entry_inv.
  - by eapply force_evict_locked_inv.
  - by eapply try_evict_locked_inv.
  - by eapply queue_get_inv.
  - by eapply wait_inv.
  - by eapply evict_inv.
Qed.

Lemma reachable_inv s : reachable s → threads_inv s.
Proof.
  intros (s0 & H0 & Hs). apply inv_initial in H0. induction Hs; eauto using step_inv.
Qed.
