(* ===== verification/MemoryTheorems.v ===== *)
(** * What the segment cache promises

    Mapped files stay mapped while handles are in use, whatever the threads do;
    eviction waits for the handles; the cache is least-recently-used and
    bounded; a write is read back and leaves the bytes before it alone. *)
From Stdlib Require Import String.
From stdpp Require Import gmultiset.
From S2P Require Import Prelude PyData PyDict Segment SegmentMemory MemoryFacts.

(** ** Sample objects for the witnesses *)

Definition sample_segment : SegmentMeta :=
  mkSegmentMeta (py "t") 0 (py "d/t/0.log") ACTIVE 0 0.
Definition sample_memory : Memory := new_memory 1 16 16 ∅.
Definition sample_locked : Memory := (acquire_locked sample_segment sample_memory).2.
Definition sample_loaded : Memory := (load 0 sample_locked).2.
Definition sample_threads : Threads :=
  mkThreads sample_loaded ∅ ({[+ 0%nat +]} ⊎ ∅) [] [].

Lemma sample_reachable : reachable sample_threads.
Proof.
  exists (mkThreads sample_memory ∅ ∅ [] []). split; [by repeat split|].
  eapply rtc_l.
  { apply (step_acquire _ sample_locked _ _ _ _ sample_segment 0). by vm_compute. }
  eapply rtc_l; [|reflexivity].
  apply step_load. by vm_compute.
Qed.

(** ** The properties *)

(** C17: whatever the interleaving of acquiring, loading, writing, releasing, evicting
    and clean-up, the segment behind a handle in use is mapped: reading through it
    returns bytes and writing through it never meets an unloaded entry. *)
Theorem held_entry_loaded s e offset len :
  reachable s → e ∈ held s →
  (∃ b, read_bytes e offset len (mem s) = (Ok b, mem s)) ∧
  (∀ msg, (write e offset msg (mem s)).1 ≠ Raise AssertionError).
Proof.
  intros Hr%reachable_inv He.
  destruct (inv_held _ _ _ _ _ Hr e He) as (x & Hx & [n Hn]). split.
  - eexists. by apply (read_bytes_Ok e x n).
  - intros msg. unfold write. run. rewrite (run_entry x) by done. rewrite Hn.
    destruct (e_mutable x); cbn [negb]; run; [|done]. cbv zeta.
    destruct (n <? _) eqn:E.
    + unfold _increase_capacity_locked, set_content, set_entry. run.
      rewrite (run_entry x) by done. run. rewrite Hn, E. run.
      erewrite run_entry by (cbn; by rewrite lookup_insert_eq). run.
      cbn [e_mapped set_mapped or_raise]. run. unfold assign_slice. by destruct (_ =? _); run.
    + run. rewrite (run_entry x) by done. run. rewrite Hn. cbn [or_raise]. run.
      unfold assign_slice. by destruct (_ =? _); run.
Qed.

Lemma held_entry_loaded_witness :
  (∃ b, read_bytes 0 0 4 (mem sample_threads) = (Ok b, mem sample_threads)) ∧
  (∀ msg, (write 0 0 msg (mem sample_threads)).1 ≠ Raise AssertionError).
Proof.
  apply (held_entry_loaded sample_threads 0 0 4); [apply sample_reachable|].
  apply elem_of_multiplicity. vm_compute. lia.
Defined.

(** Eviction waits: an entry whose mapping is about to be released is not
    cached any more, no thread holds it and none is loading it, so releasing it
    unmaps nothing that is in use. *)
Theorem eviction_waits s e :
  reachable s → e ∈ releasing s →
  e ∉ held s ∧ e ∉ loading s ∧ (∀ k, dict_get (cache (mem s)) k ≠ Some e).
Proof.
  intros Hr%reachable_inv He. pose proof (inv_releasing _ _ _ _ _ Hr e He) as Hn.
  rewrite gmultiset_elem_of_disj_union in Hn. split_and!; [tauto|tauto|].
  intros k Hk. by eapply cached_not_releasing.
Qed.

Definition sample_released : Memory := (_release_entry 0 sample_loaded).2.
Definition sample_evicting : Memory :=
  (try_evict_locked sample_segment sample_released).2.

Lemma eviction_waits_witness :
  (0%nat ∉ (∅ : gmultiset nat)) ∧ (0%nat ∉ (∅ : gmultiset nat)) ∧
  (∀ k, dict_get (cache sample_evicting) k ≠ Some 0%nat).
Proof.
  apply (eviction_waits (mkThreads sample_evicting ∅ ∅ [] [0%nat]) 0).
  - destruct sample_reachable as (s0 & H0 & Hs). exists s0. split; [done|].
    eapply rtc_r.
    { eapply rtc_r; [exact Hs|]. apply (step_release _ sample_released). by vm_compute. }
    apply (step_try_evict _ _ _ _ _ _ sample_segment). by vm_compute.
  - left.
Defined.

(** The keys of a least-recently-used cache after [key] was used. *)
Definition lru (capacity : nat) (key : pystr) (keys : list (list Z)) : list (list Z) :=
  let used := filter (λ k, k ≠ key) keys ++ [key] in
  drop (length used - capacity) used.

(** [acquire] is least-recently-used: the acquired segment becomes the most
    recent key, the oldest keys beyond the capacity are dropped, their entries are
    queued for clean-up and the cache never exceeds its capacity. *)
Theorem acquire_lru meta key m :
  get_id meta = Ok key → dict_ok (cache m) → cache_live m → 0 ≤ capacity m →
  ∃ e m' ev, acquire_locked meta m = (Ok e, m') ∧
    dict_keys (cache m') = lru (Z.to_nat (capacity m)) key (dict_keys (cache m)) ∧
    zlen (cache m') ≤ capacity m ∧
    cleanup_queue m' = cleanup_queue m ++ ev ∧
    e ∈ dict_values (cache m') ++ ev.
Proof.
  intros Hk Hd Hl Hc. destruct (acquire_locked_Ok _ _ _ Hk Hl Hc) as (e & m1 & Ha & E).
  assert (dict_keys (cache m1) = filter (λ k, k ≠ key) (dict_keys (cache m)) ++ [key] ∧
          cleanup_queue m1 = cleanup_queue m ∧ e ∈ dict_values (cache m1)) as (H1 & H2 & H3).
  { destruct Ha as [(Hg & -> & ->)|(x & Hg & Hx & ->)]; cbn [cache set_cache cleanup_queue
      set_next set_entries]; unfold dict_values; (split_and!; [|done|rewrite dict_move_perm]).
    - by apply dict_keys_set_move.
    - rewrite dict_set_new by done. left.
    - by eapply dict_keys_move.
    - apply dict_get_elem, (list_elem_of_fmap_2 snd) in Hg. done. }
  do 3 eexists. split; [apply E|]. cbn [evicted cache cleanup_queue set_queue set_cache].
  rewrite H2. split_and!; [| |done|].
  - unfold lru. rewrite <-H1. unfold dict_keys at 1. rewrite fmap_drop.
    unfold dict_keys. by rewrite length_fmap.
  - rewrite length_drop. lia.
  - rewrite (comm (++)). unfold dict_values in *. by rewrite <-fmap_app, take_drop.
Qed.

Lemma acquire_lru_witness :
  ∃ e m' ev, acquire_locked sample_segment sample_memory = (Ok e, m') ∧
    dict_keys (cache m') = [py "t0"] ∧ zlen (cache m') ≤ 1 ∧
    cleanup_queue m' = [] ++ ev ∧ e ∈ dict_values (cache m') ++ ev.
Proof.
  apply (acquire_lru sample_segment (py "t0") sample_memory).
  - by vm_compute.
  - apply NoDup_nil_2.
  - by intros k e Hk.
  - by vm_compute.
Defined.

(** Writing through a mapped, mutable entry at a position inside the file
    succeeds, grows the file when it has to, reads back, and keeps every byte in
    front of the position. *)
Theorem write_reads_back e x n offset msg m :
  entries m !! e = Some x → e_mapped x = Some n → e_mutable x = true →
  n ≤ zlen (content m x) → 0 ≤ offset ≤ n →
  ∃ m', write e offset msg m = (Ok tt, m') ∧
    read_bytes e offset (zlen msg) m' = (Ok msg, m') ∧
    (∀ i len, 0 ≤ i → 0 ≤ len → i + len ≤ offset →
       (read_bytes e i len m').1 = (read_bytes e i len m).1).
Proof.
  intros He Hx Hmut Hn Ho. eexists. split; [by apply (write_Ok e x n); [..|lia|]|].
  set (c := enlarged _ _ _ _).
  pose proof (enlarged_length m n (offset + zlen msg) _ Hn) as Hlen. fold c in Hlen.
  set (g := grown _ _ _) in *. set (x' := set_mapped (Some g) x).
  match goal with |- context [read_bytes e offset _ ?m'] => set (m1 := m') end.
  assert (entries m1 !! e = Some x') as He' by (cbn; by rewrite lookup_insert_eq).
  assert (content m1 x' = overwrite offset msg c) as Hc.
  { unfold content. cbn. by rewrite lookup_insert_eq. }
  assert (zlen (content m1 x') = zlen c) as Hl by (rewrite Hc; apply overwrite_length; lia).
  split.
  - rewrite (read_bytes_range e x' g) by (done || lia). do 2 f_equal.
    rewrite Hc, Nat2Z.id. apply overwrite_at. lia.
  - intros i len Hi Hl' Hil.
    assert (n ≤ g) by (unfold g, grown; destruct (Z.ltb_spec n (offset + zlen msg)); lia).
    rewrite (read_bytes_range e x' g), (read_bytes_range e x n) by (done || lia).
    cbn. f_equal. rewrite !take_drop_commute. f_equal. rewrite Hc, overwrite_before by lia.
    apply enlarged_take; lia.
Qed.

Lemma write_reads_back_witness :
  ∃ m', write 0 10 (py "0123456789") sample_loaded = (Ok tt, m') ∧
    read_bytes 0 10 10 m' = (Ok (py "0123456789"), m') ∧
    (∀ i len, 0 ≤ i → 0 ≤ len → i + len ≤ 10 →
       (read_bytes 0 i len m').1 = (read_bytes 0 i len sample_loaded).1).
Proof.
  eapply (write_reads_back 0 (mkEntry (py "d/t/0.log") true 1 (Some 16)) 16);
    by vm_compute.
Defined.
