(* ===== verification/Log.v ===== *)
(** * [log_writer.py], [log_reader.py] and [log_manager.py]

    The log of a broker: the registry of segments and the cache of their files
    as one state.  A call of [write] holds the topic's writer lock from its
    beginning to its end; the theorems interleave whole calls with the steps of
    the clean-up thread.  [now] is the clock a call reads. *)
From Stdlib Require Import String.
From S2P Require Import Prelude PyData Framer Segment SegmentRegistry SegmentMemory.

Record LogConfig := mkLogConfig {
  cfg_log_dir : pystr;
  cfg_retension_ms : Z;
  cfg_rollover_ms : Z;
  cfg_max_segment_size : Z;
  cfg_init_segment_size : Z;
  cfg_segment_size_inc : Z;
  (** the default is 100 *)
  cfg_segment_cache_size : Z }.

Record Log := mkLog { reg : Registry; memory : Memory }.

Definition on_reg {A} : M Registry A → M Log A := zoom reg (λ r s, mkLog r (memory s)).
Definition on_mem {A} : M Memory A → M Log A := zoom memory (λ m s, mkLog (reg s) m).

(** [try: ... except TopicDoesntExistsError: k] *)
Definition unless_topic {A S} (m k : M S A) : M S A :=
  catch m (λ x, match x with TopicDoesntExistsError _ => Some k | _ => None end).

(** ** [LogWriter] *)

Definition _rollover (topic : pystr) : M Log SegmentMeta :=
  base_offset ← unless_topic
    (meta ← on_reg (reads (λ r, get_segment r topic (-1)));
     on_reg (progress_state meta SEALED);;
     mret (get_end_offset meta))
    (mret 0);
  on_reg (create_segment topic base_offset).

Definition write (policy : SegmentPolicy) (now : Z) (topic : pystr) (data : bytes)
    : M Log Z :=
  meta ← unless_topic (on_reg (reads (λ r, get_segment r topic (-1))))
           (on_reg (create_segment topic 0));
  let required_size := 4 + zlen data in
  prefix ← lift (to_bytes (zlen data) 4);
  let msg := prefix ++ data in
  meta ← (if should_rollover policy now meta required_size && negb (size meta =? 0)
          then _rollover topic else mret meta);
  let write_offset := get_end_offset meta in
  on_mem (with_handle meta (λ handle,
    SegmentMemory.write handle (get_file_end_offset meta) msg));;
  on_reg (advance_offset meta (zlen msg));;
  mret write_offset.

(** [now i] is the clock at the [i]-th message. *)
Fixpoint write_batch (policy : SegmentPolicy) (now : nat → Z) (topic : pystr)
    (batch : list (list Z)) : M Log (list Z) :=
  match batch with
  | [] => mret []
  | msg :: batch =>
      offset ← write policy (now 0%nat) topic msg;
      offsets ← write_batch policy (λ i, now (S i)) topic batch;
      mret (offset :: offsets)
  end.

(** ** [LogReader] *)

Record FileSlice := mkFileSlice { fs_filepath : pystr; fs_offset : Z; fs_batch_size : Z }.

(** [_release] is the entry whose handle the result still holds. *)
Record ReadResult := mkReadResult {
  next_offset : Z; high_watermark : Z; file_slice : FileSlice; _release : nat }.

Record ReadResultBytes := mkReadResultBytes {
  rb_data : bytes; rb_next_offset : Z; rb_high_watermark : Z }.

(** The loop of [_calc_read_size] at [roffset]; [stop] is [offset +
    max_batch_size].  Every round advances by at least four. *)
Fixpoint calc_loop (fuel : nat) (handle : nat) (stop max_batch_size roffset batch_size : Z)
    : M Memory Z :=
  match fuel with
  | O => mret batch_size
  | S fuel =>
      if roffset <? stop then
        b ← SegmentMemory.read_bytes handle roffset 4;
        let sz := from_bytes b in
        calc_loop fuel handle stop max_batch_size (roffset + (sz + 4))
          (if batch_size + sz + 4 <=? max_batch_size then batch_size + (sz + 4) else batch_size)
      else mret batch_size
  end.
Definition _calc_read_size (handle : nat) (offset max_batch_size : Z) : M Memory Z :=
  batch_size ← calc_loop (Z.to_nat max_batch_size) handle (offset + max_batch_size)
                 max_batch_size offset 0;
  if batch_size =? 0 then
    b ← SegmentMemory.read_bytes handle offset 4;
    mret (from_bytes b + 4)
  else mret batch_size.

Definition read (topic : pystr) (offset size : Z) : M Log ReadResult :=
  meta ← on_reg (reads (λ r, get_segment r topic offset));
  let filepath := get_filepath meta in
  let segment_offset := offset - base_offset meta in
  let max_batch_size := Z.min size (Segment.size meta - segment_offset) in
  handle ← on_mem (acquire meta);
  batch_size ← on_mem (_calc_read_size handle segment_offset max_batch_size);
  let next_offset := offset + batch_size in
  max_offset ← on_reg (reads (λ r, get_latest_offset r topic));
  mret (mkReadResult next_offset max_offset
          (mkFileSlice filepath segment_offset batch_size) handle).

Definition read_bytes (topic : pystr) (offset size : Z) : M Log ReadResultBytes :=
  meta ← on_reg (reads (λ r, get_segment r topic offset));
  let segment_offset := offset - base_offset meta in
  let max_batch_size := Z.min size (Segment.size meta - segment_offset) in
  '(batch_size, data) ← on_mem (with_handle meta (λ handle,
    batch_size ← _calc_read_size handle segment_offset max_batch_size;
    data ← SegmentMemory.read_bytes handle segment_offset batch_size;
    mret (batch_size, data)));
  let next_offset := offset + batch_size in
  max_offset ← on_reg (reads (λ r, get_latest_offset r topic));
  mret (mkReadResultBytes data next_offset max_offset).

(** ** [LogManager] *)

Module LogManager.
(** [policy] and the fresh state of the constructor, over the files on disk *)
Definition policy (c : LogConfig) : SegmentPolicy :=
  mkSegmentPolicy (cfg_retension_ms c) (cfg_rollover_ms c) (cfg_max_segment_size c).
Definition init (c : LogConfig) (import_time : Z) (files : gmap (list Z) (list Z)) : Log :=
  mkLog (new_registry (cfg_log_dir c) import_time)
    (new_memory (cfg_segment_cache_size c) (cfg_init_segment_size c)
       (cfg_segment_size_inc c) files).

Definition create_topic (topic : pystr) : M Log unit :=
  unless_topic (on_reg (reads (λ r, get_segment r topic (-1)));; mret tt)
    (on_reg (create_segment topic 0);; mret tt).

Definition read := Log.read.
Definition read_bytes := Log.read_bytes.
Definition append (c : LogConfig) (now : Z) (topic : pystr) (data : bytes) : M Log Z :=
  write (policy c) now topic data.
Definition append_batch (c : LogConfig) (now : nat → Z) (topic : pystr)
    (data : list (list Z)) : M Log (list Z) :=
  write_batch (policy c) now topic data.
Definition get_latest_offset (topic : pystr) : M Log Z :=
  on_reg (reads (λ r, SegmentRegistry.get_latest_offset r topic)).
End LogManager.
