(* ===== verification/LogNames.v ===== *)
(** * Names of segments and files

    The cache finds a segment by the text [topic + str(base_offset)], and the
    file system by the path.  The path determines the segment; the key does so
    only for topics that do not end in a digit. *)
From Stdlib Require Import String.
From S2P Require Import Prelude PyData Segment SegmentRegistry.

(** A topic that is one plain component of a path and does not end in a digit. *)
Definition topic_ok (t : pystr) : Prop :=
  t ≠ [] ∧ t ≠ py "." ∧ t ≠ py ".." ∧ 47 ∉ t ∧ (∀ c, last t = Some c → ¬ 48 ≤ c ≤ 57).

#[export] Instance topic_ok_dec t : Decision (topic_ok t).
Proof.
  unfold topic_ok. do 4 (apply and_dec; [apply _|]).
  destruct (last t) as [c|].
  - destruct (decide (¬ 48 ≤ c ≤ 57)) as [H|H]; [left; by intros ? [= <-]|right; naive_solver].
  - by left.
Defined.

(** ** Digits *)

(** The text of [n >= 0] in digits, possibly with leading zeros. *)
Definition decimal (n : Z) (s : pystr) : Prop :=
  ∃ ds, Forall is_digit ds ∧ ds ≠ [] ∧ s = map (Z.add 48) ds ∧ from_digits ds = n.

Lemma from_digits_zeros k ds : from_digits (replicate k 0 ++ ds) = from_digits ds.
Proof.
  induction k as [|k IH]; [done|]. unfold from_digits in *. cbn. apply IH.
Qed.

Lemma decimal_py_str n s : 0 ≤ n → py_str n = Ok s → decimal n s.
Proof.
  unfold py_str. intros Hn. case_match; [done|]. intros [= <-]. lia_if.
  exists (digits n). split_and!; auto using digits_digits, digits_nonempty.
  rewrite from_digits_digits. lia.
Qed.

Lemma decimal_py_str_020 n s : 0 ≤ n → py_str_020 n = Ok s → decimal n s.
Proof.
  unfold py_str_020. intros Hn. case_match; [done|]. cbv zeta. intros [= <-]. lia_if.
  cbn [app length]. set (k := Z.to_nat _).
  exists (replicate k 0 ++ digits n). split_and!.
  - apply Forall_app; split; [|apply digits_digits]. by apply Forall_replicate.
  - pose proof (digits_nonempty n). by intros [_ ?]%app_eq_nil.
  - rewrite map_app. f_equal. symmetry. apply (fmap_replicate (Z.add 48) k 0).
  - rewrite from_digits_zeros, from_digits_digits. lia.
Qed.

Lemma decimal_inj n m s : decimal n s → decimal m s → n = m.
Proof.
  intros (ds & _ & _ & -> & <-) (ds' & _ & _ & E & <-). f_equal.
  apply (list_fmap_eq_inj (Z.add 48)); [intros x y; lia|exact E].
Qed.

Lemma decimal_chars n s : decimal n s → Forall (λ c, 48 ≤ c ≤ 57) s.
Proof.
  intros (ds & Hd & _ & -> & _). induction Hd as [|d ds Hd _ IH]; cbn; constructor; [|done].
  unfold is_digit in Hd. lia.
Qed.

(** ** Keys *)

Lemma digit_suffix (t1 t2 s1 s2 : pystr) :
  (∀ c, last t1 = Some c → ¬ 48 ≤ c ≤ 57) → Forall (λ c, 48 ≤ c ≤ 57) s2 →
  t1 ≠ [] → t1 ++ s1 = t2 ++ s2 → ∃ k, t2 = t1 ++ k ∧ s1 = k ++ s2.
Proof.
  intros Ht Hs Hne [(k & -> & ->)|(k & -> & ->)]%app_eq_inv; [|by exists k].
  destruct (last k) as [c|] eqn:Hk.
  - exfalso. apply (Ht c); [by rewrite last_app, Hk|].
    apply Forall_app in Hs as [Hs _]. rewrite Forall_forall in Hs.
    by apply Hs, last_Some_elem_of.
  - apply last_None in Hk as ->. exists []. by rewrite !app_nil_r.
Qed.

Lemma get_id_inj m m' k :
  topic_ok (topic m) → topic_ok (topic m') → 0 ≤ base_offset m → 0 ≤ base_offset m' →
  get_id m = Ok k → get_id m' = Ok k → topic m = topic m' ∧ base_offset m = base_offset m'.
Proof.
  unfold get_id. intros Ht Ht' Hb Hb' Hk Hk'. inv_ok.
  destruct Ht as (Hn & _ & _ & _ & Hd), Ht' as (Hn' & _ & _ & _ & Hd').
  apply decimal_py_str in Ha; [|done]. apply decimal_py_str in Ha0; [|done].
  pose proof (decimal_chars _ _ Ha) as Hc. pose proof (decimal_chars _ _ Ha0) as Hc'.
  destruct (digit_suffix _ _ _ _ Hd Hc Hn (eq_sym Hk')) as (k & E1 & E2); [done..|].
  destruct (digit_suffix _ _ _ _ Hd' Hc' Hn' Hk') as (k' & E1' & E2').
  assert (k = []) as ->.
  { rewrite E1 in E1'. rewrite <-app_assoc in E1'. rewrite <-(app_nil_r (topic m)) in E1' at 1.
    apply app_inv_head in E1'. by destruct k. }
  cbn in E2. rewrite app_nil_r in E1. split; [done|]. subst. by eapply decimal_inj.
Qed.

(** ** Paths *)

Lemma slash_inj (t1 t2 r1 r2 : pystr) :
  47 ∉ t1 → 47 ∉ t2 → t1 ++ 47 :: r1 = t2 ++ 47 :: r2 → t1 = t2 ∧ r1 = r2.
Proof.
  revert t2. induction t1 as [|c t1 IH]; intros [|c' t2] H1 H2 E; cbn in E;
    rewrite ?not_elem_of_cons in *; simplify_eq; try naive_solver.
Qed.

Lemma path_inj dir t t' b b' p :
  47 ∉ t → 47 ∉ t' → 0 ≤ b → 0 ≤ b' →
  _build_segment_path dir t b = Ok p → _build_segment_path dir t' b' = Ok p → t = t' ∧ b = b'.
Proof.
  unfold _build_segment_path. intros Ht Ht' Hb Hb' Hp Hp'. inv_ok.
  apply decimal_py_str_020 in Ha; [|done]. apply decimal_py_str_020 in Ha0; [|done].
  apply app_inv_head in Hp'. injection Hp' as Hp'.
  apply (slash_inj t' t) in Hp' as [-> Hp']; [|done..]. apply app_inv_tail in Hp' as ->.
  split; [done|]. by eapply decimal_inj.
Qed.

(** ** Totality *)

Lemma digits_fit n : 0 ≤ n < 2 ^ 63 → zlen (digits n) ≤ 20.
Proof.
  intros Hn. apply (digits_length n 20); [|lia].
  change (10 ^ Z.of_nat 20) with 100000000000000000000. lia.
Qed.

Lemma build_path_Ok dir t b : 0 ≤ b < 2 ^ 63 → is_Ok (_build_segment_path dir t b).
Proof.
  intros Hb%digits_fit. unfold _build_segment_path, py_str_020.
  replace (_ <? zlen _) with false by (unfold max_str_digits; lia). by eexists.
Qed.

Lemma get_id_path dir m p :
  _build_segment_path dir (topic m) (base_offset m) = Ok p → is_Ok (get_id m).
Proof.
  unfold _build_segment_path, get_id, py_str_020, py_str. case_match; [done|].
  by eexists.
Qed.
