(* ===== verification/LogInv.v ===== *)
(** * The invariant of the log

    A registered segment's file starts with the length-prefixed messages the
    registry counts; the cached entry of a segment maps its file; the segments
    of a topic are contiguous, all but the last sealed. *)
From Stdlib Require Import String.
From stdpp Require Import sorting gmultiset.
From S2P Require Import Prelude PyData PyDict Framer Parser RecordFacts Segment SegmentRegistry RegistryFacts SegmentMemory MemoryFacts Log LogNames.

(** ** The data *)

Definition file (fl : gmap (list Z) (list Z)) (p : pystr) : bytes := default [] (fl !! p).

(** The bytes of a segment and the messages they hold. *)
Definition seg_bytes (fl : gmap (list Z) (list Z)) (m : SegmentMeta) : bytes :=
  take (Z.to_nat (size m)) (file fl (path m)).
Definition seg_msgs fl (m : SegmentMeta) : list (list Z) := parse_records (seg_bytes fl m).

(** The messages of a topic, oldest first, and the offset behind the last. *)
Definition topic_log (s : Log) (t : pystr) : list (list Z) :=
  concat (map (seg_msgs (files (memory s))) (default [] (registry (reg s) !! t))).
Definition log_end (r : Registry) (t : pystr) : Z :=
  match registry r !! t with
  | Some l => match last l with Some m => get_end_offset m | None => 0 end
  | None => 0
  end.

(** The segment's file holds whole messages, as many bytes as registered. *)
Definition stored fl (m : SegmentMeta) : Prop :=
  zlen (seg_bytes fl m) = size m ∧ frames (seg_msgs fl m) = Ok (seg_bytes fl m).

(** ** The registry *)

Fixpoint chained (b : Z) (l : list SegmentMeta) : Prop :=
  match l with
  | [] => True
  | m :: l => base_offset m = b ∧ chained (get_end_offset m) l
  end.

(** A topic's segments: sealed ones and the active one. *)
Definition topic_segs (l : list SegmentMeta) (active : SegmentMeta) : Prop :=
  ∃ old, l = old ++ [active] ∧ Forall (λ m, state m = SEALED) old ∧
         state active = ACTIVE ∧ chained 0 l.

Definition path_ok (r : Registry) (m : SegmentMeta) : Prop :=
  _build_segment_path (log_dir r) (topic m) (base_offset m) = Ok (path m).

Record reg_inv (r : Registry) : Prop := {
  ri_segs : registry_ok r;
  ri_topics : ∀ t l, registry r !! t = Some l →
    topic_ok t ∧ (∃ active, topic_segs l active) ∧ Forall (path_ok r) l }.

(** ** The memory *)

(** The entry [x] is one for segment [m]. *)
Definition backs (mem : Memory) (x : Entry) (m : SegmentMeta) : Prop :=
  e_filepath x = path m ∧ (state m = ACTIVE → e_mutable x = true) ∧
  ∀ n, e_mapped x = Some n → size m ≤ n ≤ zlen (content mem x).

Record mem_inv (r : Registry) (mem : Memory) (h : gmultiset nat) : Prop := {
  mi_capacity : 0 ≤ capacity mem;
  mi_init : 0 < init_segment_size mem;
  mi_threads : inv mem ∅ h [] [];
  mi_keys : ∀ key, key ∈ dict_keys (cache mem) → ∃ m, registered r m ∧ get_id m = Ok key;
  mi_stored : ∀ m, registered r m → stored (files mem) m;
  mi_cached : ∀ m key e, registered r m → get_id m = Ok key →
    dict_get (cache mem) key = Some e → ∃ x, entries mem !! e = Some x ∧ backs mem x m }.

(** [h] are the handles that are still in use. *)
Definition log_inv (s : Log) (h : gmultiset nat) : Prop :=
  reg_inv (reg s) ∧ mem_inv (reg s) (memory s) h.

(** ** Registered segments *)

Lemma registered_ok r m :
  reg_inv r → registered r m →
  topic_ok (topic m) ∧ 0 ≤ base_offset m ∧ 0 ≤ size m ∧ path_ok r m.
Proof.
  intros [Hs Ht] (l & Hl & Hm). destruct (Ht _ _ Hl) as (Hok & _ & Hp).
  destruct (Hs _ _ Hl) as [He _]. rewrite Forall_forall in He, Hp.
  destruct (He m Hm) as (_ & ? & ? & _). auto.
Qed.

Lemma registered_lookup r t l m :
  reg_inv r → registry r !! t = Some l → m ∈ l → topic m = t ∧ registered r m.
Proof.
  intros Hr Hl Hm. destruct (ri_segs _ Hr _ _ Hl) as [He _]. rewrite Forall_forall in He.
  destruct (He m Hm) as (<- & _). split; [done|]. by exists l.
Qed.

Lemma base_unique r m m' :
  reg_inv r → registered r m → registered r m' →
  topic m = topic m' → base_offset m = base_offset m' → m = m'.
Proof.
  intros Hr (l & Hl & Hm) (l' & Hl' & Hm') Ht Hb. rewrite Ht in Hl. assert (l' = l) as -> by congruence.
  apply list_elem_of_lookup_1 in Hm as [i Hi]. apply list_elem_of_lookup_1 in Hm' as [j Hj].
  destruct (ri_segs _ Hr _ _ Hl) as [_ Hs].
  pose proof (find_segment_base _ _ _ Hs Hi) as E. rewrite Hb in E.
  rewrite (find_segment_base _ _ _ Hs Hj) in E. injection E as E.
  assert (i = j) as -> by lia. by simplify_eq.
Qed.

Lemma id_unique r m m' k :
  reg_inv r → registered r m → registered r m' →
  get_id m = Ok k → get_id m' = Ok k → m = m'.
Proof.
  intros Hr Hm Hm' Hk Hk'.
  destruct (registered_ok r m Hr Hm) as (? & ? & _ & _).
  destruct (registered_ok r m' Hr Hm') as (? & ? & _ & _).
  destruct (get_id_inj m m' k) as [? ?]; [done..|]. by eapply base_unique.
Qed.

Lemma path_unique r m m' :
  reg_inv r → registered r m → registered r m' → path m = path m' → m = m'.
Proof.
  intros Hr Hm Hm' Hp.
  destruct (registered_ok r m Hr Hm) as ((_ & _ & _ & ? & _) & ? & _ & Hk).
  destruct (registered_ok r m' Hr Hm') as ((_ & _ & _ & ? & _) & ? & _ & Hk').
  unfold path_ok in Hk, Hk'. rewrite <-Hp in Hk'.
  destruct (path_inj (log_dir r) (topic m) (topic m') (base_offset m) (base_offset m') (path m));
    [done..|].
  by eapply base_unique.
Qed.

Lemma registered_id r m : reg_inv r → registered r m → is_Ok (get_id m).
Proof.
  intros Hr Hm. destruct (registered_ok r m Hr Hm) as (_ & _ & _ & Hp).
  by eapply get_id_path.
Qed.

Lemma registry_active r t l :
  reg_inv r → registry r !! t = Some l →
  ∃ active, topic_segs l active ∧ last l = Some active ∧ registered r active ∧
    topic active = t ∧ log_end r t = get_end_offset active.
Proof.
  intros Hr Hl. destruct (ri_topics _ Hr _ _ Hl) as (_ & [active Ha] & _).
  exists active. assert (last l = Some active) as Hlast.
  { destruct Ha as (old & -> & _). by rewrite last_snoc. }
  destruct (registered_lookup r t l active Hr Hl) as [? ?]; [by apply last_Some_elem_of|].
  split_and!; try done. unfold log_end. by rewrite Hl, Hlast.
Qed.

(** ** Files that only grow *)

(** Every file keeps its bytes; new ones may follow. *)
Definition grows (fl fl' : gmap (list Z) (list Z)) : Prop :=
  ∀ p, ∃ more, file fl' p = file fl p ++ more.

Lemma grows_refl fl : grows fl fl.
Proof. intros p. exists []. by rewrite app_nil_r. Qed.

Lemma stored_length fl m : 0 ≤ size m → stored fl m → size m ≤ zlen (file fl (path m)).
Proof. unfold stored, seg_bytes. rewrite length_take. lia. Qed.

Lemma grows_bytes fl fl' m :
  grows fl fl' → zlen (seg_bytes fl m) = size m → seg_bytes fl' m = seg_bytes fl m.
Proof.
  intros Hg Hl. unfold seg_bytes in *. destruct (Hg (path m)) as [more ->].
  rewrite length_take in Hl. apply take_app_le. lia.
Qed.

Lemma grows_stored fl fl' m : grows fl fl' → stored fl m → stored fl' m.
Proof.
  unfold stored, seg_msgs. intros Hg [Hl Hf]. by rewrite (grows_bytes fl) by done.
Qed.

Lemma grows_backs mem mem' x m :
  grows (files mem) (files mem') → backs mem x m → backs mem' x m.
Proof.
  intros Hg (Hp & Ha & Hm). split_and!; [done..|]. intros n Hn. specialize (Hm n Hn).
  unfold content in *. fold (file (files mem) (e_filepath x)) in Hm.
  fold (file (files mem') (e_filepath x)). destruct (Hg (e_filepath x)) as [more ->].
  rewrite zlen_app. lia.
Qed.
