(* ===== verification/LogMemory.v ===== *)
(** * Acquiring, writing and releasing a registered segment *)
From Stdlib Require Import String.
From stdpp Require Import sorting gmultiset.
From S2P Require Import Prelude PyData PyDict Framer Parser RecordFacts Segment SegmentRegistry RegistryFacts SegmentMemory MemoryFacts Log LogNames LogInv.

Lemma load_Ok e x m :
  entries m !! e = Some x → 0 < init_segment_size m →
  ∃ n fl, load e m = (Ok tt, set_files fl (set_entries
              (<[e := set_mapped (Some n) x]> (entries m)) m)) ∧
    grows (files m) fl ∧
    (e_mapped x = Some n ∧ fl = files m ∨ n = zlen (file fl (e_filepath x))).
Proof.
  intros He Hi. unfold load. run. rewrite (run_entry x) by done.
  destruct (e_mapped x) as [n|] eqn:Hx; run.
  { exists n, (files m). split_and!; [|apply grows_refl|by left].
    replace (set_mapped (Some n) x) with x by (rewrite <-Hx; by destruct x).
    rewrite insert_id by done. by destruct m. }
  assert (∀ new more, new = content m x ++ more → 0 < zlen new →
    ∃ n fl, (if zlen new =? 0 then (raise ValueError : M Memory unit)
             else set_entry e (set_mapped (Some (zlen new)) x))
              (set_files (<[e_filepath x := new]> (files m)) m)
            = (Ok tt, set_files fl (set_entries (<[e := set_mapped (Some n) x]> (entries m)) m)) ∧
    grows (files m) fl ∧ (@None Z = Some n ∧ fl = files m ∨ n = zlen (file fl (e_filepath x))))
    as E.
  { intros new more Hnew Hl. replace (zlen new =? 0) with false by lia.
    exists (zlen new), (<[e_filepath x := new]> (files m)). split_and!.
    - unfold set_entry. run. by destruct m.
    - intros p. unfold file. destruct (decide (p = e_filepath x)) as [->|Hp].
      + rewrite lookup_insert_eq. exists more. exact Hnew.
      + rewrite lookup_insert_ne by done. exists []. by rewrite app_nil_r.
    - right. unfold file. by rewrite lookup_insert_eq. }
  destruct (Z.eqb_spec (zlen (content m x)) 0) as [H0|H0].
  - lia_if. run. unfold set_content. run.
    apply (E (replicate (Z.to_nat (init_segment_size m)) 0)
             (replicate (Z.to_nat (init_segment_size m)) 0));
      [|rewrite length_replicate; lia].
    by destruct (content m x).
  - run. unfold set_content. run. apply (E _ []); [by rewrite app_nil_r|lia].
Qed.

(** The handle [e] shows the segment [m]: its entry and the mapped length. *)
Definition shows (mem : Memory) (e : nat) (x : Entry) (n : Z) (m : SegmentMeta) : Prop :=
  entries mem !! e = Some x ∧ e_mapped x = Some n ∧ backs mem x m.

(** ** The locked part of [acquire] *)

Lemma acquired_entry r mem h meta key e m1 :
  mem_inv r mem h → registered r meta → get_id meta = Ok key →
  acquired meta key e mem m1 →
  (∃ x, entries m1 !! e = Some x ∧ backs m1 x meta) ∧
  (∀ d, d ≠ e → entries m1 !! d = entries mem !! d) ∧ files m1 = files mem ∧
  (∀ k d, dict_get (cache m1) k = Some d → (k = key ∧ d = e) ∨ (k ≠ key ∧ d ≠ e ∧ dict_get (cache mem) k = Some d)).
Proof.
  intros Hi Hm Hk Ha.
  assert (dict_ok (cache mem)) as Hd by apply (mi_threads _ _ _ Hi).
  destruct Ha as [(Hg & He & ->)|(x & Hg & Hx & ->)]; cbn [cache entries files set_cache set_next set_entries].
  - split_and!; [|by intros d Hne; rewrite lookup_insert_ne|done|].
    + eexists. rewrite lookup_insert_eq. split; [done|]. split_and!; [done| |done].
      intros Ha. cbn. unfold is_mutable. by rewrite bool_decide_eq_true_2.
    + intros k d Hkd. rewrite dict_get_move in Hkd by auto using dict_set_ok.
      destruct (decide (k = key)) as [->|Hne].
      * rewrite dict_get_set_eq in Hkd. injection Hkd as <-. by left.
      * rewrite dict_get_set_ne in Hkd by done. right. split_and!; [done| |done].
        intros ->. apply (cached_owner _ [] []) in Hkd.
        eapply (owner_alloc _ _ _ _ _ _ (mi_threads _ _ _ Hi)) in Hkd as [y Hy].
        apply (inv_fresh _ _ _ _ _ (mi_threads _ _ _ Hi)) in Hy. lia.
  - split_and!; [|by intros d Hne; rewrite lookup_insert_ne|done|].
    + eexists. rewrite lookup_insert_eq. split; [done|].
      destruct (mi_cached _ _ _ Hi _ _ _ Hm Hk Hg) as (y & Hy & Hb). simplify_eq. exact Hb.
    + intros k d Hkd. rewrite dict_get_move in Hkd by done.
      destruct (decide (k = key)) as [->|Hne]; [simplify_eq; by left|].
      right. split_and!; [done| |done]. intros ->. apply Hne.
      by eapply (dict_values_inj (cache mem)); [apply (inv_values _ _ _ _ _ (mi_threads _ _ _ Hi))|..].
Qed.

Lemma acquire_locked_spec r mem h meta key :
  mem_inv r mem h → registered r meta → get_id meta = Ok key →
  ∃ e x mem', acquire_locked meta mem = (Ok e, mem') ∧
    entries mem' !! e = Some x ∧ backs mem' x meta ∧ files mem' = files mem ∧
    inv mem' ({[+ e +]} ⊎ ∅) h [] [] ∧
    capacity mem' = capacity mem ∧ init_segment_size mem' = init_segment_size mem ∧
    segment_size_inc mem' = segment_size_inc mem ∧
    (∀ d, d ≠ e → entries mem' !! d = entries mem !! d) ∧
    (∀ k d, dict_get (cache mem') k = Some d →
       (k = key ∧ d = e) ∨ (k ≠ key ∧ d ≠ e ∧ dict_get (cache mem) k = Some d)).
Proof.
  intros Hi Hm Hk.
  assert (cache_live mem) as Hl.
  { intros k d Hd. eapply owner_alloc; [apply Hi|]. by eapply (cached_owner _ [] []). }
  destruct (acquire_locked_Ok _ _ _ Hk Hl (mi_capacity _ _ _ Hi)) as (e & m1 & Ha & E).
  destruct (acquired_entry _ _ _ _ _ _ _ Hi Hm Hk Ha) as ((x & Hx & Hb) & Hne & Hf & Hc).
  cbv zeta in E. set (m2 := evicted _ _ _) in E.
  pose proof (acquire_locked_inv _ _ _ _ _ _ _ _ E (mi_threads _ _ _ Hi)) as Hi2. cbn in Hi2.
  exists e, x, m2. split_and!; try done.
  1-3: by destruct Ha as [(_ & _ & ->)|(? & _ & _ & ->)].
  intros k d Hkd. apply Hc. subst m2. cbn [evicted cache set_queue set_cache] in Hkd.
  apply dict_elem_get.
  - assert (inv m1 ({[+ e +]} ⊎ ∅) h [] []) as H1 by (eapply acquired_inv; [exact Ha|apply Hi]).
    apply H1.
  - apply dict_get_elem in Hkd. set (n := (_ - _)%nat) in Hkd.
    rewrite <-(take_drop n (cache m1)), elem_of_app. by right.
Qed.

Lemma key_cached d (k : pystr) (v : list (list Z * nat)) :
  k ∈ dict_keys v → dict_get v k = d → is_Some d.
Proof.
  intros Hk <-. destruct (dict_get v k) eqn:E; [eauto|]. by apply dict_get_None in E.
Qed.

(** ** [acquire] *)

Lemma acquire_spec r mem h meta key :
  reg_inv r → mem_inv r mem h → registered r meta → get_id meta = Ok key →
  ∃ e x n mem', acquire meta mem = (Ok e, mem') ∧
    shows mem' e x n meta ∧ mem_inv r mem' ({[+ e +]} ⊎ h) ∧
    grows (files mem) (files mem') ∧
    segment_size_inc mem' = segment_size_inc mem ∧
    (∀ k d, dict_get (cache mem') k = Some d → (k = key ↔ d = e)).
Proof.
  intros Hr Hi Hm Hk.
  destruct (acquire_locked_spec _ _ _ _ _ Hi Hm Hk)
    as (e & x & m2 & E & Hx & Hb & Hf & Hi2 & Hcap & Hinit & Hinc & Hne & Hc).
  destruct (load_Ok e x m2 Hx) as (n & fl & El & Hg & Hn).
  { rewrite Hinit. apply Hi. }
  pose proof (load_inv _ _ _ _ _ _ _ _ El Hi2) as Hi3. cbn in Hi3.
  set (m3 := set_files fl _) in *. set (x' := set_mapped (Some n) x) in *.
  assert (grows (files mem) (files m3)) as Hg' by (rewrite <-Hf; exact Hg).
  assert (registered r meta → stored (files m3) meta) as Hst.
  { intros _. apply (grows_stored (files mem)); [exact Hg'|]. by apply Hi. }
  assert (backs m3 x' meta) as Hb'.
  { destruct (grows_backs m2 m3 x meta Hg Hb) as (Hp & Ha & Hmap).
    split_and!; [done..|]. intros n' [= <-].
    destruct Hn as [[Hn _]|Hn]; [by apply Hmap|].
    destruct (registered_ok r meta Hr Hm) as (_ & _ & Hs & _).
    pose proof (stored_length _ _ Hs (Hst Hm)) as Hle. rewrite <-Hp in Hle.
    change (content m3 x') with (file fl (e_filepath x)).
    change (files m3) with fl in Hle. lia. }
  exists e, x', n, m3. split_and!.
  - unfold acquire. run. rewrite E. run. by rewrite El.
  - split_and!; [|done|done]. cbn. by rewrite lookup_insert_eq.
  - split; try done.
    + change (capacity m3) with (capacity m2). rewrite Hcap. apply Hi.
    + change (init_segment_size m3) with (init_segment_size m2). rewrite Hinit. apply Hi.
    + intros k Hin. destruct (key_cached _ _ _ Hin eq_refl) as [d Hd].
      destruct (Hc _ _ Hd) as [[-> _]|(_ & _ & Hd')]; [by exists meta|].
      apply (mi_keys _ _ _ Hi). apply dict_get_elem, (list_elem_of_fmap_2 fst) in Hd'. done.
    + intros m Hm'. apply (grows_stored (files mem)); [exact Hg'|]. by apply Hi.
    + intros m k d Hm' Hk' Hd. destruct (Hc _ _ Hd) as [[-> ->]|(Hkk & Hde & Hd')].
      * assert (m = meta) as -> by by eapply id_unique.
        exists x'. cbn. by rewrite lookup_insert_eq.
      * destruct (mi_cached _ _ _ Hi _ _ _ Hm' Hk' Hd') as (y & Hy & Hby).
        exists y. split; [|by apply (grows_backs mem)].
        change (entries m3) with (<[e := x']> (entries m2)).
        rewrite lookup_insert_ne by done. by rewrite Hne.
  - exact Hg'.
  - exact Hinc.
  - intros k d Hd. destruct (Hc _ _ Hd) as [[-> ->]|(? & ? & _)]; tauto.
Qed.

(** ** Releasing a handle *)

Lemma release_spec r mem h e x :
  mem_inv r mem ({[+ e +]} ⊎ h) → entries mem !! e = Some x →
  ∃ mem', _release_entry e mem = (Ok tt, mem') ∧ mem_inv r mem' h ∧
    files mem' = files mem.
Proof.
  intros Hi Hx.
  assert (_release_entry e mem = (Ok tt, set_entries
            (<[e := set_refcount (AtomicInt.decrement (_refcount x)) x]> (entries mem)) mem)) as E.
  { unfold _release_entry, add_refcount, set_entry. run. by rewrite (run_entry x). }
  eexists. split; [exact E|]. split; [|done].
  pose proof (release_entry_inv _ _ _ _ _ _ _ E (mi_threads _ _ _ Hi)) as Hi'.
  destruct Hi as [Hcap Hinit _ Hkeys Hst Hc]. split; try done.
  intros m k d Hm Hk Hd. destruct (Hc m k d Hm Hk Hd) as (y & Hy & Hb).
  cbn [entries set_entries]. destruct (decide (d = e)) as [->|Hne].
  - rewrite lookup_insert_eq. simplify_eq. by eexists.
  - rewrite lookup_insert_ne by done. by exists y.
Qed.

(** ** Writing behind the registered end *)

(** The registry with [meta] replaced by [meta']. *)
Definition replaces (r r' : Registry) (meta meta' : SegmentMeta) : Prop :=
  ∀ m, registered r' m ↔ m = meta' ∨ (registered r m ∧ m ≠ meta).

Lemma write_spec r mem h e x n meta msg :
  reg_inv r → mem_inv r mem h → registered r meta → state meta = ACTIVE →
  shows mem e x n meta →
  ∃ mem' g, SegmentMemory.write e (get_file_end_offset meta) msg mem = (Ok tt, mem') ∧
    mem' = set_files (files mem') (set_entries (<[e := set_mapped (Some g) x]> (entries mem)) mem) ∧
    size meta + zlen msg ≤ g ≤ zlen (file (files mem') (path meta)) ∧
    take (Z.to_nat (size meta + zlen msg)) (file (files mem') (path meta))
    = seg_bytes (files mem) meta ++ msg ∧
    (∀ p, p ≠ path meta → file (files mem') p = file (files mem) p).
Proof.
  intros Hr Hi Hm Ha (Hx & Hn & Hp & Hmut & Hmap). specialize (Hmap n Hn).
  destruct (registered_ok r meta Hr Hm) as (_ & _ & Hs & _).
  unfold get_file_end_offset.
  pose proof (write_Ok e x n (size meta) msg mem Hx Hn (Hmut Ha) Hs ltac:(lia)) as E.
  cbv zeta in E. set (b := content mem x) in *.
  pose proof (enlarged_length mem n (size meta + zlen msg) b ltac:(lia)) as Hlen.
  do 2 eexists. split; [exact E|]. cbn [files set_files].
  unfold file. rewrite Hp, lookup_insert_eq. cbn [default from_option id].
  split; [done|]. split; [|split].
  - rewrite overwrite_length by lia. lia.
  - rewrite overwrite_prefix by lia. f_equal.
    rewrite enlarged_take by lia. unfold seg_bytes. f_equal. unfold b, content. by rewrite Hp.
  - intros p Hne. by rewrite lookup_insert_ne.
Qed.

(** The write through a fresh handle: what is left behind when it is released. *)
Lemma shown_write_spec r mem h e x n meta key msg :
  reg_inv r → mem_inv r mem ({[+ e +]} ⊎ h) → registered r meta → state meta = ACTIVE →
  get_id meta = Ok key → shows mem e x n meta →
  (∀ k d, dict_get (cache mem) k = Some d → (k = key ↔ d = e)) →
  ∃ mem' g, SegmentMemory.write e (get_file_end_offset meta) msg mem = (Ok tt, mem') ∧
    mem_inv r mem' ({[+ e +]} ⊎ h) ∧ cache mem' = cache mem ∧
    entries mem' !! e = Some (set_mapped (Some g) x) ∧
    size meta + zlen msg ≤ g ≤ zlen (file (files mem') (path meta)) ∧
    take (Z.to_nat (size meta + zlen msg)) (file (files mem') (path meta))
    = seg_bytes (files mem) meta ++ msg ∧
    (∀ m, registered r m → m ≠ meta → seg_bytes (files mem') m = seg_bytes (files mem) m).
Proof.
  intros Hr Hi Hm Ha Hk Hsh Hkey.
  destruct (write_spec r mem _ e x n meta msg Hr Hi Hm Ha Hsh) as (mem' & g & E & Em & Hg & Ht & Hp).
  destruct Hsh as (Hx & Hn & Hb).
  destruct (registered_ok r meta Hr Hm) as (_ & _ & Hs & _).
  assert (∀ m, registered r m → m ≠ meta → seg_bytes (files mem') m = seg_bytes (files mem) m) as Ho.
  { intros m Hm' Hne. unfold seg_bytes. rewrite Hp; [done|].
    intros Hpath. apply Hne. by eapply path_unique. }
  assert (seg_bytes (files mem') meta = seg_bytes (files mem) meta) as Hsame.
  { destruct (mi_stored _ _ _ Hi _ Hm) as [Hl _]. unfold seg_bytes at 1.
    replace (Z.to_nat (size meta))
      with (Z.to_nat (size meta) `min` Z.to_nat (size meta + zlen msg))%nat by lia.
    rewrite <-take_take, Ht. apply take_app_length'. lia. }
  exists mem', g. split_and!; try done; try lia; [|by rewrite Em|by rewrite Em; cbn; rewrite lookup_insert_eq].
  pose proof (write_inv e _ _ _ _ _ ∅ ({[+ e +]} ⊎ h) [] [] ltac:(multiset_solver) E (mi_threads _ _ _ Hi)) as Hinv.
  destruct Hi as [Hcap Hinit _ Hkeys Hst Hc]. split; try (by rewrite Em).
  - exact Hinv.
  - intros m Hm'. destruct (decide (m = meta)) as [->|Hne].
    + unfold stored, seg_msgs. rewrite Hsame. by apply Hst.
    + unfold stored, seg_msgs. rewrite Ho by done. by apply Hst.
  - intros m k d Hm' Hk' Hd. rewrite Em in Hd. cbn in Hd.
    destruct (Hc _ _ _ Hm' Hk' Hd) as (y & Hy & Hyp & Hyb).
    destruct (decide (d = e)) as [->|Hne].
    + assert (m = meta) as ->.
      { apply (Hkey k e) in Hd. assert (k = key) as -> by tauto. by eapply id_unique. }
      simplify_eq. exists (set_mapped (Some g) x). split.
      { rewrite Em. cbn. by rewrite lookup_insert_eq. }
      split_and!; [done|apply Hyb|]. intros n' [= <-]. unfold content.
      cbn [e_filepath set_mapped]. rewrite Hyp. fold (file (files mem') (path meta)). lia.
    + exists y. split; [rewrite Em; cbn; by rewrite lookup_insert_ne|].
      split_and!; [done|apply Hyb|]. intros n' Hn'. destruct Hyb as [_ Hmap].
      specialize (Hmap n' Hn'). unfold content in *. fold (file (files mem') (e_filepath y)).
      fold (file (files mem) (e_filepath y)) in Hmap. rewrite Hp; [done|].
      rewrite Hyp. intros Hpath. apply Hne, (Hkey k d Hd).
      assert (m = meta) as -> by by eapply path_unique. congruence.
Qed.

Lemma handle_write_spec r mem h meta key msg :
  reg_inv r → mem_inv r mem h → registered r meta → state meta = ACTIVE →
  get_id meta = Ok key →
  ∃ mem', with_handle meta (λ e, SegmentMemory.write e (get_file_end_offset meta) msg) mem
          = (Ok tt, mem') ∧
    mem_inv r mem' h ∧
    size meta + zlen msg ≤ zlen (file (files mem') (path meta)) ∧
    take (Z.to_nat (size meta + zlen msg)) (file (files mem') (path meta))
    = seg_bytes (files mem) meta ++ msg ∧
    (∀ m, registered r m → m ≠ meta → seg_bytes (files mem') m = seg_bytes (files mem) m) ∧
    (∀ d, dict_get (cache mem') key = Some d → ∃ y n, entries mem' !! d = Some y ∧
       e_mapped y = Some n ∧ size meta + zlen msg ≤ n).
Proof.
  intros Hr Hi Hm Ha Hk.
  destruct (acquire_spec r mem h meta key) as (e & x & n & m1 & E1 & Hsh & Hi1 & Hg1 & _ & Hkey);
    [done..|].
  destruct (shown_write_spec r m1 h e x n meta key msg Hr Hi1 Hm Ha Hk Hsh Hkey)
    as (m2 & g & E2 & Hi2 & Hc2 & Hx2 & Hg2 & Ht2 & Ho2).
  destruct (release_spec r m2 h e _ Hi2 Hx2) as (m3 & E3 & Hi3 & Hf3).
  assert (∀ m, registered r m → seg_bytes (files m1) m = seg_bytes (files mem) m) as H1.
  { intros m Hm'. apply grows_bytes; [done|]. by apply (mi_stored _ _ _ Hi). }
  exists m3. rewrite Hf3. split_and!; try done.
  - unfold with_handle. run. rewrite E1. run. rewrite E2, E3. done.
  - lia.
  - by rewrite <-H1 by done.
  - intros m Hm' Hne. rewrite Ho2, H1 by done. done.
  - unfold _release_entry, add_refcount, set_entry in E3. run_in E3.
    rewrite (run_entry _ Hx2) in E3. run_in E3. injection E3 as <-.
    cbn [cache set_entries entries]. rewrite Hc2. intros d Hd.
    assert (d = e) as -> by by apply (Hkey _ _ Hd).
    do 2 eexists. rewrite lookup_insert_eq. split; [done|]. split; [done|]. lia.
Qed.
