(* ===== verification/LogWrite.v ===== *)
(** * Appending refines appending to a list of messages *)
From Stdlib Require Import String.
From stdpp Require Import sorting gmultiset.
From S2P Require Import Prelude PyData PyDict Bisect Framer Parser RecordFacts Segment SegmentRegistry RegistryFacts SegmentMemory MemoryFacts Log LogNames LogInv LogMemory.

(** ** The registry operations on the active segment *)

Lemma chained_snoc b l m :
  chained b (l ++ [m]) ↔
  chained b l ∧ base_offset m = match last l with Some x => get_end_offset x | None => b end.
Proof.
  revert b. induction l as [|x l IH]; intros b; cbn [app chained]; [naive_solver|].
  rewrite IH. rewrite last_cons. destruct (last l); naive_solver.
Qed.

Definition fresh_segment (r : Registry) (t : pystr) (b : Z) (p : pystr) : SegmentMeta :=
  mkSegmentMeta t b p ACTIVE (import_time r) 0.

Lemma create_segment_run r t b p :
  _build_segment_path (log_dir r) t b = Ok p →
  (∀ l, registry r !! t = Some l →
     ∃ x, last l = Some x ∧ get_end_offset x ≤ b ∧ base_offset x ≠ b) →
  create_segment t b r
  = (Ok (fresh_segment r t b p),
     set_registry <[t := default [] (registry r !! t) ++ [fresh_segment r t b p]]> r).
Proof.
  intros Hp Hl. unfold create_segment. run. rewrite Hp. run. cbv zeta.
  destruct (registry r !! t) as [l|] eqn:E; run; [|done].
  destruct (Hl l eq_refl) as (x & Hx & He & Hb). rewrite py_index_last, Hx.
  cbn [or_raise]. run. by replace (_ || _) with false by lia.
Qed.

Definition sealed (m : SegmentMeta) : SegmentMeta :=
  mkSegmentMeta (topic m) (base_offset m) (path m) SEALED (created_at m) (size m).
Definition advanced (m : SegmentMeta) (n : Z) : SegmentMeta :=
  mkSegmentMeta (topic m) (base_offset m) (path m) (state m) (created_at m) (size m + n).

Lemma seal_run r old m :
  registry_ok r → registry r !! topic m = Some (old ++ [m]) → state m = ACTIVE →
  progress_state m SEALED r
  = (Ok (sealed m), set_registry <[topic m := old ++ [sealed m]]> r).
Proof.
  intros Hr Hl Ha. destruct (Hr _ _ Hl) as [_ Hs]. unfold progress_state. run. rewrite Hl.
  cbn [or_raise]. run. cbv zeta.
  assert ((old ++ [m]) !! length old = Some m) as Hi by by apply list_lookup_middle.
  rewrite (bisect_segment _ _ _ Hs Hi), Hi, bool_decide_eq_true_2 by done.
  rewrite Ha. cbn [allowed_transition negb].
  rewrite bool_decide_eq_false_2 by done. run. unfold sealed.
  by rewrite insert_app_r_alt, Nat.sub_diag by done.
Qed.

Lemma advance_run r old m n :
  registry_ok r → registry r !! topic m = Some (old ++ [m]) →
  advance_offset m n r
  = (Ok (advanced m n), set_registry <[topic m := old ++ [advanced m n]]> r).
Proof.
  intros Hr Hl. destruct (Hr _ _ Hl) as [_ Hs]. unfold advance_offset. run. rewrite Hl.
  cbn [or_raise]. run.
  assert ((old ++ [m]) !! length old = Some m) as Hi by by apply list_lookup_middle.
  rewrite (find_segment_base _ _ _ Hs Hi). run.
  unfold py_index, py_setitem. repeat lia_if. rewrite Nat2Z.id, Hi. cbn [or_raise]. run.
  rewrite length_app. cbn [length]. lia_if. run. unfold advanced.
  by rewrite insert_app_r_alt, Nat.sub_diag by done.
Qed.

(** ** Changing the registry under the memory *)

Lemma registered_insert r t l m :
  registry_ok (set_registry <[t := l]> r) →
  registered (set_registry <[t := l]> r) m ↔
  (topic m = t ∧ m ∈ l) ∨ (topic m ≠ t ∧ registered r m).
Proof.
  intros Hr. unfold registered. cbn [registry set_registry]. destruct (decide (topic m = t)) as [<-|Hne].
  - rewrite lookup_insert_eq. naive_solver.
  - rewrite lookup_insert_ne by done. naive_solver.
Qed.

Lemma mem_inv_registry r r' mem h :
  (∀ m', registered r' m' →
     (∃ m, registered r m ∧ get_id m' = get_id m ∧ path m' = path m ∧ size m' = size m ∧
           (state m' = ACTIVE → state m = ACTIVE)) ∨
     (size m' = 0 ∧ ∀ k, get_id m' = Ok k → k ∉ dict_keys (cache mem))) →
  (∀ m, registered r m → ∃ m', registered r' m' ∧ get_id m' = get_id m) →
  mem_inv r mem h → mem_inv r' mem h.
Proof.
  intros Hold Hnew [Hcap Hinit Hth Hkeys Hst Hc]. split; try done.
  - intros k Hk. destruct (Hkeys k Hk) as (m & Hm & Hid).
    destruct (Hnew m Hm) as (m' & Hm' & E). exists m'. by rewrite E.
  - intros m' Hm'. destruct (Hold m' Hm') as [(m & Hm & _ & Hp & Hs & _)|[Hs _]].
    + specialize (Hst m Hm). unfold stored, seg_msgs, seg_bytes in *. by rewrite Hp, Hs.
    + unfold stored, seg_msgs, seg_bytes. by rewrite Hs.
  - intros m' k d Hm' Hk Hd. destruct (Hold m' Hm') as [(m & Hm & Hid & Hp & Hs & Ha)|[_ Hn]].
    + rewrite Hid in Hk. destruct (Hc m k d Hm Hk Hd) as (x & Hx & Hb1 & Hb2 & Hb3).
      exists x. split; [done|]. split_and!; [by rewrite Hp|by auto|by rewrite Hs].
    + exfalso. apply (Hn k Hk). by apply dict_get_elem, (list_elem_of_fmap_2 fst) in Hd.
Qed.

(** A new segment is not cached: its base lies behind every registered one. *)
Lemma fresh_key r mem h t b p k :
  reg_inv r → mem_inv r mem h → topic_ok t → 0 ≤ b →
  (∀ m, registered r m → topic m = t → base_offset m ≠ b) →
  get_id (fresh_segment r t b p) = Ok k → k ∉ dict_keys (cache mem).
Proof.
  intros Hr Hi Ht Hb Hne Hk Hin. destruct (mi_keys _ _ _ Hi k Hin) as (m & Hm & Hid).
  destruct (registered_ok r m Hr Hm) as (Hmt & Hmb & _ & _).
  destruct (get_id_inj m (fresh_segment r t b p) k) as [E1 E2]; [done..|].
  by apply (Hne m Hm).
Qed.

Lemma set_registry_twice f g r : set_registry f (set_registry g r) = set_registry (f ∘ g) r.
Proof. done. Qed.

Lemma reg_inv_insert r t l active :
  reg_inv r → topic_ok t → registry_ok (set_registry <[t := l]> r) →
  topic_segs l active → Forall (path_ok r) l → reg_inv (set_registry <[t := l]> r).
Proof.
  intros Hr Ht Hok Hl Hp. split; [done|]. intros t' l' H. cbn in H.
  apply lookup_insert_Some in H as [[<- <-]|[_ H]].
  - split_and!; [done|by eexists|done].
  - destruct (ri_topics _ Hr _ _ H) as (? & ? & ?). auto.
Qed.

(** The first segment of a new topic. *)
Lemma create_topic_spec r mem h t :
  reg_inv r → mem_inv r mem h → topic_ok t → registry r !! t = None →
  ∃ p, let m := fresh_segment r t 0 p in let r' := set_registry <[t := [m]]> r in
    create_segment t 0 r = (Ok m, r') ∧ reg_inv r' ∧ mem_inv r' mem h.
Proof.
  intros Hr Hi Ht Hn. destruct (build_path_Ok (log_dir r) t 0) as [p Hp]; [lia|].
  exists p. cbv zeta. set (m := fresh_segment r t 0 p).
  assert (create_segment t 0 r = (Ok m, set_registry <[t := [m]]> r)) as E.
  { rewrite (create_segment_run r t 0 p Hp); rewrite Hn; done. }
  assert (registry_ok (set_registry <[t := [m]]> r)) as Hok.
  { pose proof (create_segment_ok t 0 r ltac:(lia) (ri_segs _ Hr)) as H. by rewrite E in H. }
  split_and!; [done| |].
  - apply (reg_inv_insert _ _ _ m); [done..| |by repeat constructor].
    exists []. split_and!; (done || constructor).
  - apply (mem_inv_registry r); [| |done].
    + intros m'. rewrite registered_insert by done. intros [[_ ->%list_elem_of_singleton]|[_ Hm]].
      * right. split; [done|]. intros k Hk. apply (fresh_key r mem h t 0 p k); try done.
        intros x (l & Hl & _) Htx. by rewrite Htx, Hn in Hl.
      * left. by exists m'.
    + intros x Hx. exists x. rewrite registered_insert by done. split; [|done]. right.
      split; [|done]. destruct Hx as (l & Hl & _). intros Htx. by rewrite Htx, Hn in Hl.
Qed.

(** Sealing the active segment and opening the next one: the two registry calls. *)
Lemma seal_and_create_run r t old m p :
  registry_ok r → registry r !! t = Some (old ++ [m]) → topic m = t → state m = ACTIVE →
  0 < size m → 0 ≤ base_offset m →
  _build_segment_path (log_dir r) t (get_end_offset m) = Ok p →
  let x := fresh_segment r t (get_end_offset m) p in
  let r1 := set_registry <[t := old ++ [sealed m]]> r in
  let r' := set_registry <[t := old ++ [sealed m; x]]> r in
  progress_state m SEALED r = (Ok (sealed m), r1) ∧
  create_segment t (get_end_offset m) r1 = (Ok x, r') ∧ registry_ok r'.
Proof.
  intros Hr Hl Ht Hact Hs Hb Hp x r1 r'.
  assert (progress_state m SEALED r = (Ok (sealed m), r1)) as E1 by (subst t; by apply seal_run).
  assert (registry_ok r1) as Hok1.
  { pose proof (progress_state_ok m SEALED r Hr) as H. by rewrite E1 in H. }
  assert (create_segment t (get_end_offset m) r1 = (Ok x, r')) as E2.
  { rewrite (create_segment_run r1 t _ p Hp); unfold r1; cbn [registry set_registry];
      rewrite lookup_insert_eq.
    - cbn [default from_option id]. rewrite <-app_assoc. cbn [app].
      unfold r', set_registry. cbn. by rewrite insert_insert_eq.
    - intros l [= <-]. exists (sealed m). rewrite last_snoc. split; [done|].
      unfold get_end_offset in *. cbn. lia. }
  split_and!; [done|done|].
  pose proof (create_segment_ok t (get_end_offset m) r1) as H. rewrite E2 in H.
  apply H; [unfold get_end_offset; lia|done].
Qed.

Lemma topic_segs_roll old m x :
  topic_segs (old ++ [m]) m → state x = ACTIVE → base_offset x = get_end_offset m →
  topic_segs (old ++ [sealed m; x]) x.
Proof.
  intros (old' & [<- _]%app_inj_tail & Hold & Hact & Hch) Hx Hb.
  change (old ++ [sealed m; x]) with (old ++ [sealed m] ++ [x]). rewrite app_assoc.
  exists (old ++ [sealed m]). split_and!; [done| |done|].
  - apply Forall_app. split; [done|by repeat constructor].
  - apply chained_snoc. rewrite last_snoc. apply chained_snoc in Hch as [Hc1 Hc2].
    split; [by apply chained_snoc|done].
Qed.

(** The segments of a topic lie below the end of its active one. *)
Lemma below_end r t old m y :
  registry_ok r → registry r !! t = Some (old ++ [m]) → 0 < size m →
  registered r y → topic y = t → base_offset y < get_end_offset m.
Proof.
  intros Hr Hl Hs (l & Hyl & Hy) Hty. rewrite Hty, Hl in Hyl. injection Hyl as <-.
  destruct (Hr _ _ Hl) as [_ Hsorted]. unfold get_end_offset.
  apply elem_of_app in Hy as [Hy|Hy%list_elem_of_singleton]; [|subst; lia].
  apply list_elem_of_lookup_1 in Hy as [i Hy]. pose proof (lookup_lt_Some _ _ _ Hy).
  pose proof (sorted_before _ i (length old) y m Hsorted ltac:(lia)
    ltac:(by rewrite lookup_app_l) ltac:(by apply list_lookup_middle)) as [_ ?]. lia.
Qed.

Lemma seal_and_create_mem r mem h t old m p :
  reg_inv r → mem_inv r mem h → registry r !! t = Some (old ++ [m]) →
  topic m = t → registered r m → 0 < size m →
  let x := fresh_segment r t (get_end_offset m) p in
  let r' := set_registry <[t := old ++ [sealed m; x]]> r in
  registry_ok r' → mem_inv r' mem h.
Proof.
  intros Hr Hi Hl Htm Hm Hs x r' Hok.
  destruct (registered_ok r m Hr Hm) as (Ht & Hb & _ & _). rewrite Htm in Ht.
  assert (∀ y, y ∈ old ++ [sealed m; x] ↔ y ∈ old ∨ y = sealed m ∨ y = x) as Hin.
  { intros y. rewrite elem_of_app, !elem_of_cons, elem_of_nil. naive_solver. }
  apply (mem_inv_registry r); [| |done].
  - intros y. unfold r'. rewrite registered_insert by done.
    intros [[Hty [Hy|[->| ->]]%Hin]|[_ Hy]]; [left; exists y|left; by exists m| |left; by exists y].
    + split; [|done]. exists (old ++ [m]). rewrite Hty, elem_of_app. split; [done|by left].
    + right. split; [done|]. intros k Hk.
      apply (fresh_key r mem h t (get_end_offset m) p k); try done.
      { unfold get_end_offset. lia. }
      intros y Hy Hty'. pose proof (below_end r t old m y (ri_segs _ Hr) Hl Hs Hy Hty'). lia.
  - intros y Hy. unfold r'. destruct (decide (y = m)) as [->|Hne].
    + exists (sealed m). rewrite registered_insert by done. split; [left|done].
      split; [done|]. apply Hin. naive_solver.
    + exists y. rewrite registered_insert by done. split; [|done].
      destruct (decide (topic y = t)) as [Hty|]; [left|by right]. split; [done|].
      destruct Hy as (l & Hyl & Hy). rewrite Hty, Hl in Hyl. injection Hyl as <-.
      apply Hin. apply elem_of_app in Hy as [?|?%list_elem_of_singleton]; naive_solver.
Qed.

Lemma seal_and_create r mem h t old m :
  reg_inv r → mem_inv r mem h → registry r !! t = Some (old ++ [m]) →
  topic_segs (old ++ [m]) m → 0 < size m → get_end_offset m < 2 ^ 63 →
  ∃ p, let x := fresh_segment r t (get_end_offset m) p in
    let r1 := set_registry <[t := old ++ [sealed m]]> r in
    let r' := set_registry <[t := old ++ [sealed m; x]]> r in
    progress_state m SEALED r = (Ok (sealed m), r1) ∧
    create_segment t (get_end_offset m) r1 = (Ok x, r') ∧ reg_inv r' ∧ mem_inv r' mem h.
Proof.
  intros Hr Hi Hl Hseg Hs Hend.
  destruct (registered_lookup r t _ m Hr Hl) as [Htm Hm]; [apply elem_of_app; right; left|].
  destruct (registered_ok r m Hr Hm) as (Ht & Hb & _ & Hpath). rewrite Htm in Ht.
  destruct (ri_topics _ Hr _ _ Hl) as (_ & _ & [Hp1 _]%Forall_app).
  destruct (build_path_Ok (log_dir r) t (get_end_offset m)) as [p Hp].
  { unfold get_end_offset in *. lia. }
  assert (state m = ACTIVE) as Hact by (destruct Hseg as (? & _ & _ & ? & _); done).
  exists p. destruct (seal_and_create_run r t old m p (ri_segs _ Hr) Hl Htm Hact Hs Hb Hp)
    as (E1 & E2 & Hok).
  split_and!; [done|done| |by eapply seal_and_create_mem].
  apply (reg_inv_insert _ _ _ (fresh_segment r t (get_end_offset m) p)); try done.
  - by apply topic_segs_roll.
  - apply Forall_app. split; [done|]. constructor; [exact Hpath|by repeat constructor].
Qed.

(** ** Appending to the active segment *)

Lemma seg_msgs_eq fl fl' m :
  seg_bytes fl' m = seg_bytes fl m → seg_msgs fl' m = seg_msgs fl m.
Proof. unfold seg_msgs. by intros ->. Qed.

Lemma advanced_bytes fl fl' m msg :
  take (Z.to_nat (size m + zlen msg)) (file fl' (path m)) = seg_bytes fl m ++ msg →
  seg_bytes fl' (advanced m (zlen msg)) = seg_bytes fl m ++ msg.
Proof. done. Qed.

Lemma advanced_stored fl fl' m data msg :
  stored fl m → encode_frame data = Ok msg →
  seg_bytes fl' (advanced m (zlen msg)) = seg_bytes fl m ++ msg →
  stored fl' (advanced m (zlen msg)) ∧
  seg_msgs fl' (advanced m (zlen msg)) = seg_msgs fl m ++ [data].
Proof.
  intros [Hl Hf] Hd Hb.
  pose proof (frames_app _ _ _ _ Hf (frames_one _ _ Hd)) as Hf'.
  assert (seg_msgs fl' (advanced m (zlen msg)) = seg_msgs fl m ++ [data]) as E.
  { unfold seg_msgs at 1. rewrite Hb. by apply parse_records_frames. }
  split; [|done]. split; rewrite ?E, Hb; [|done]. rewrite zlen_app, Hl. done.
Qed.

Lemma append_mem r mem mem' h t old m key data msg :
  let r' := set_registry <[t := old ++ [advanced m (zlen msg)]]> r in
  reg_inv r → registry_ok r' → registry r !! t = Some (old ++ [m]) → topic m = t →
  registered r m → Forall (λ y, y ≠ m) old → get_id m = Ok key →
  mem_inv r mem' h → encode_frame data = Ok msg → stored (files mem) m →
  size m + zlen msg ≤ zlen (file (files mem') (path m)) →
  take (Z.to_nat (size m + zlen msg)) (file (files mem') (path m)) = seg_bytes (files mem) m ++ msg →
  (∀ d, dict_get (cache mem') key = Some d → ∃ y n, entries mem' !! d = Some y ∧
       e_mapped y = Some n ∧ size m + zlen msg ≤ n) →
  mem_inv r' mem' h.
Proof.
  intros r' Hr Hok Hl Ht Hm Hold Hk Hi Hd Hst0 Hlen Htake Hmap.
  assert (∀ y, registered r' y → y = advanced m (zlen msg) ∨ registered r y ∧ y ≠ m) as Hreg.
  { intros y. unfold r'. rewrite registered_insert by done. rewrite Forall_forall in Hold.
    intros [[Hty [Hy|Hy%list_elem_of_singleton]%elem_of_app]|[Hty Hy]]; [|by left|].
    - right. split; [|by apply Hold]. exists (old ++ [m]). rewrite Hty, elem_of_app. auto.
    - right. split; [done|]. by intros ->. }
  destruct Hi as [Hcap Hinit Hth Hkeys Hst Hc]. split; try done.
  - intros k Hin. destruct (Hkeys k Hin) as (y & Hy & Hid). destruct (decide (y = m)) as [->|Hne].
    + exists (advanced m (zlen msg)). split; [|done]. unfold r'. rewrite registered_insert by done.
      left. split; [done|]. rewrite elem_of_app, list_elem_of_singleton. auto.
    + exists y. split; [|done]. unfold r'. rewrite registered_insert by done.
      destruct (decide (topic y = t)) as [Hty|]; [left|by right]. split; [done|].
      destruct Hy as (l & Hyl & Hy). rewrite Hty, Hl in Hyl. injection Hyl as <-.
      apply elem_of_app in Hy as [?|?%list_elem_of_singleton]; [|done].
      apply elem_of_app. by left.
  - intros y [->|[Hy Hne]]%Hreg; [|by apply Hst].
    by eapply advanced_stored, advanced_bytes.
  - intros y k d [->|[Hy Hne]]%Hreg Hyk Hkd; [|by eapply Hc].
    assert (k = key) as ->.
    { unfold get_id in *. cbn in Hyk. congruence. }
    destruct (Hc m key d Hm Hk Hkd) as (x & Hx & Hp & Ha & Hb).
    destruct (Hmap d Hkd) as (x' & n & Hx' & Hn & Hle). simplify_eq.
    exists x. split; [done|]. split_and!; [done|done|].
    intros n' Hn'. simplify_eq. destruct (Hb _ Hn). cbn [size advanced]. lia.
Qed.

Lemma topic_segs_advance old m n :
  topic_segs (old ++ [m]) m → topic_segs (old ++ [advanced m n]) (advanced m n).
Proof.
  intros (old' & [<- _]%app_inj_tail & Hold & Hact & Hch). exists old. split_and!; try done.
  apply chained_snoc in Hch as [? ?]. by apply chained_snoc.
Qed.

(** The last part of [write]: the write through a handle and the new size. *)
Definition append_to (meta : SegmentMeta) (msg : bytes) : M Log unit :=
  on_mem (with_handle meta (λ e, SegmentMemory.write e (get_file_end_offset meta) msg));;
  on_reg (advance_offset meta (zlen msg));;
  mret tt.

Lemma append_spec s h t old m data msg :
  log_inv s h → registry (reg s) !! t = Some (old ++ [m]) → topic_segs (old ++ [m]) m →
  encode_frame data = Ok msg →
  ∃ mem', let r' := set_registry <[t := old ++ [advanced m (zlen msg)]]> (reg s) in
    append_to m msg s = (Ok tt, mkLog r' mem') ∧ log_inv (mkLog r' mem') h ∧
    seg_msgs (files mem') (advanced m (zlen msg)) = seg_msgs (files (memory s)) m ++ [data] ∧
    (∀ y, registered (reg s) y → y ≠ m →
       seg_msgs (files mem') y = seg_msgs (files (memory s)) y).
Proof.
  intros [Hr Hi] Hl Hseg Hd.
  destruct (registered_lookup _ t _ m Hr Hl) as [Htm Hm]; [apply elem_of_app; right; left|].
  destruct (registered_id _ _ Hr Hm) as [key Hk].
  assert (state m = ACTIVE) as Hact by (destruct Hseg as (? & _ & _ & ? & _); done).
  destruct (handle_write_spec _ _ h m key msg Hr Hi Hm Hact Hk)
    as (mem' & E & Hi' & Hlen & Htake & Hother & Hmap).
  exists mem'. set (r' := set_registry _ _).
  assert (advance_offset m (zlen msg) (reg s) = (Ok (advanced m (zlen msg)), r')) as Ea.
  { unfold r'. rewrite <-Htm. apply advance_run; [apply Hr|]. by rewrite Htm. }
  assert (registry_ok r') as Hok.
  { pose proof (advance_offset_ok m (zlen msg) (reg s) m (old ++ [m])) as H. rewrite Ea in H.
    apply H; [lia|by rewrite Htm|by rewrite last_snoc|done|apply Hr]. }
  assert (Forall (λ y, y ≠ m) old) as Hne.
  { destruct Hseg as (old' & [<- _]%app_inj_tail & Hold & _). eapply Forall_impl; [exact Hold|].
    intros y Hy ->. congruence. }
  cbv zeta. split_and!.
  - unfold append_to, on_mem, on_reg. run. rewrite E. run. cbn [reg]. by rewrite Ea.
  - split; cbn [reg memory].
    + destruct (ri_topics _ Hr _ _ Hl) as (Ht & _ & Hp).
      eapply reg_inv_insert; [done..|by apply topic_segs_advance|].
      apply Forall_app in Hp as [Hp1 Hp2]. apply Forall_app. split; [done|].
      inversion Hp2; subst. by constructor.
    + eapply append_mem; try done. by apply Hi.
  - by eapply advanced_stored, advanced_bytes; [apply Hi| |].
  - intros y Hy Hym. apply seg_msgs_eq. by apply Hother.
Qed.

(** ** [write] *)

Lemma get_active r t l m :
  reg_inv r → registry r !! t = Some l → last l = Some m → get_segment r t (-1) = Ok m.
Proof. intros Hr Hl Hm. eapply get_segment_latest; [done|by apply (ri_segs _ Hr)|done]. Qed.

Lemma topic_log_lookup s t l :
  registry (reg s) !! t = Some l →
  topic_log s t = concat (map (seg_msgs (files (memory s))) l).
Proof. unfold topic_log. by intros ->. Qed.

(** Where [write] puts the message: the active segment, after a possible roll. *)
Definition target (p : SegmentPolicy) (now : Z) (t : pystr) (len : Z) : M Log SegmentMeta :=
  meta ← unless_topic (on_reg (reads (λ r, get_segment r t (-1))))
           (on_reg (create_segment t 0));
  if should_rollover p now meta (4 + len) && negb (size meta =? 0)
  then _rollover t else mret meta.

Lemma write_run p now t data s msg :
  encode_frame data = Ok msg →
  write p now t data s
  = (target p now t (zlen data) ≫= λ meta, append_to meta msg;; mret (get_end_offset meta)) s.
Proof.
  intros (pre & Hpre & ->)%encode_frame_Ok. unfold write, target. run.
  destruct (unless_topic _ _ s) as [[meta|x] s1]; [|done].
  run. rewrite Hpre. run. cbv zeta. destruct (_ && _); run.
  - destruct (_rollover t s1) as [[m|x] s2]; [|done]. unfold append_to, on_mem, on_reg. run.
    destruct (with_handle _ _ _) as [[u|x] m2]; run; [|done].
    by destruct (advance_offset _ _ _) as [[u'|x] r2]; run.
  - unfold append_to, on_mem, on_reg. run.
    destruct (with_handle _ _ _) as [[u|x] m2]; run; [|done].
    by destruct (advance_offset _ _ _) as [[u'|x] r2]; run.
Qed.

Lemma run_unless_topic {A} (m k : M Log A) s :
  unless_topic m k s = match m s with
    | (Ok a, s') => (Ok a, s')
    | (Raise (TopicDoesntExistsError _), s') => k s'
    | (Raise x, s') => (Raise x, s')
    end.
Proof. unfold unless_topic. run. by destruct (m s) as [[a|[]] s']. Qed.

(** Everything [target] may change: the registry gets an empty active segment. *)
Definition opened (s s1 : Log) (t : pystr) (old : list SegmentMeta) (m : SegmentMeta) : Prop :=
  memory s1 = memory s ∧ registry (reg s1) !! t = Some (old ++ [m]) ∧
  topic_segs (old ++ [m]) m ∧ get_end_offset m = log_end (reg s) t ∧
  concat (map (seg_msgs (files (memory s))) (old ++ [m])) = topic_log s t ∧
  (∀ t', t' ≠ t → registry (reg s1) !! t' = registry (reg s) !! t').

Lemma rollover_spec s h t old m :
  log_inv s h → registry (reg s) !! t = Some (old ++ [m]) → topic_segs (old ++ [m]) m →
  0 < size m → get_end_offset m < 2 ^ 63 →
  ∃ old' m' s1, _rollover t s = (Ok m', s1) ∧ log_inv s1 h ∧ opened s s1 t old' m'.
Proof.
  intros [Hr Hi] Hl Hseg Hs Hend.
  destruct (seal_and_create _ _ _ _ _ _ Hr Hi Hl Hseg Hs Hend) as (p & E1 & E2 & Hr' & Hi').
  set (x := fresh_segment _ _ _ _) in *. set (r' := set_registry <[t := old ++ [sealed m; x]]> _) in *.
  exists (old ++ [sealed m]), x, (mkLog r' (memory s)). split_and!.
  - unfold _rollover. run. rewrite run_unless_topic. run. unfold on_reg. run.
    rewrite (get_active _ t _ m Hr Hl) by by rewrite last_snoc. run.
    cbn [reg memory]. rewrite E1. run. cbn [reg memory]. by rewrite E2.
  - by split.
  - split_and!; try done; rewrite <-?app_assoc; cbn [app].
    + unfold r'. cbn. by rewrite lookup_insert_eq.
    + by apply topic_segs_roll.
    + unfold log_end. rewrite Hl, last_snoc. unfold get_end_offset at 1. cbn. lia.
    + rewrite (topic_log_lookup _ _ _ Hl), !map_app, !concat_app. cbn [map concat].
      by rewrite !app_nil_r.
    + intros t' Hne. unfold r'. cbn. by rewrite lookup_insert_ne.
Qed.

Lemma target_spec p now t len s h :
  log_inv s h → topic_ok t → log_end (reg s) t < 2 ^ 63 →
  ∃ old m s1, target p now t len s = (Ok m, s1) ∧ log_inv s1 h ∧ opened s s1 t old m.
Proof.
  intros [Hr Hi] Ht Hend. unfold target. run. rewrite run_unless_topic. unfold on_reg. run.
  destruct (registry (reg s) !! t) as [l|] eqn:Hl.
  - destruct (registry_active _ _ _ Hr Hl) as (m & Hseg & Hlast & Hm & Htm & Hle).
    rewrite (get_active _ t l m) by done. run.
    pose proof Hseg as (old & -> & _).
    destruct (_ && _) eqn:E; run.
    + replace (mkLog (reg s) (memory s)) with s by by destruct s.
      apply (rollover_spec s h t old m); try done; [|by rewrite <-Hle].
      destruct (registered_ok _ _ Hr Hm) as (_ & _ & ? & _). lia.
    + exists old, m, s. split; [by destruct s|]. split; [by split|].
      split_and!; try done. by rewrite (topic_log_lookup _ _ _ Hl).
  - rewrite get_segment_unknown by done.
    destruct (create_topic_spec _ _ h t Hr Hi Ht Hl) as (pth & E & Hr' & Hi'). run. cbn [reg memory]. rewrite E. run.
    set (m := fresh_segment _ _ _ _) in *.
    cbn [size m fresh_segment]. rewrite andb_false_r. run.
    exists [], m, (mkLog (set_registry <[t := [m]]> (reg s)) (memory s)).
    split; [done|]. split; [by split|]. split_and!; try done.
    + cbn. by rewrite lookup_insert_eq.
    + exists []. split_and!; (done || constructor).
    + unfold log_end. by rewrite Hl.
    + unfold topic_log. by rewrite Hl.
    + intros t' Hne. cbn. by rewrite lookup_insert_ne.
Qed.

Lemma map_seg_msgs_ext fl fl' l :
  (∀ y, y ∈ l → seg_msgs fl' y = seg_msgs fl y) → map (seg_msgs fl') l = map (seg_msgs fl) l.
Proof. intros H. apply map_ext_in. intros y Hy. apply H. by apply list_elem_of_In. Qed.

Lemma write_full p now t data s h :
  log_inv s h → topic_ok t → zlen data < 2 ^ 32 → log_end (reg s) t < 2 ^ 63 →
  ∃ s', write p now t data s = (Ok (log_end (reg s) t), s') ∧ log_inv s' h ∧
    topic_log s' t = topic_log s t ++ [data] ∧
    log_end (reg s') t = log_end (reg s) t + (4 + zlen data) ∧
    ∀ t', t' ≠ t → topic_log s' t' = topic_log s t' ∧
      registry (reg s') !! t' = registry (reg s) !! t'.
Proof.
  intros Hi Ht Hd Hend. destruct (encode_frame_total data Hd) as [msg Hmsg].
  destruct (target_spec p now t (zlen data) s h Hi Ht Hend)
    as (old & m & s1 & E1 & Hi1 & Hmem & Hl & Hseg & He & Hlog & Hother).
  destruct (append_spec s1 h t old m data msg Hi1 Hl Hseg Hmsg) as (mem' & E2 & Hi2 & Hm & Hy).
  cbv zeta in *. set (r' := set_registry <[t := old ++ [advanced m (zlen msg)]]> (reg s1)) in *.
  assert (∀ y, y ∈ old → seg_msgs (files mem') y = seg_msgs (files (memory s)) y) as Hold.
  { intros y Hin. rewrite Hy, Hmem; [done| |].
    - eapply (registered_lookup _ t _ y); [apply Hi1|exact Hl|]. apply elem_of_app. by left.
    - destruct Hseg as (old' & [<- _]%app_inj_tail & Hs & Ha & _). rewrite Forall_forall in Hs.
      intros ->. specialize (Hs m Hin). congruence. }
  exists (mkLog r' mem'). split; [|split; [done|split; [|split]]].
  - rewrite (write_run _ _ _ _ _ msg) by done. run. rewrite E1. run. rewrite E2. run. by rewrite He.
  - rewrite <-Hlog, (topic_log_lookup _ t (old ++ [advanced m (zlen msg)]))
      by (cbn; by rewrite lookup_insert_eq).
    rewrite !map_app, !concat_app. cbn [map concat memory]. rewrite !app_nil_r, Hm, Hmem.
    rewrite (map_seg_msgs_ext (files (memory s))) by done. by rewrite app_assoc.
  - unfold log_end at 1. cbn [reg]. unfold r'. cbn [registry set_registry].
    rewrite lookup_insert_eq, last_snoc, <-He. pose proof (encode_frame_length _ _ Hmsg).
    unfold get_end_offset. cbn [base_offset size advanced]. lia.
  - intros t' Hne. assert (registry r' !! t' = registry (reg s) !! t') as Hr.
    { unfold r'. cbn. rewrite lookup_insert_ne by done. by apply Hother. }
    split; [|done].
    unfold topic_log. cbn [reg memory]. rewrite Hr. f_equal.
    destruct (registry (reg s) !! t') as [l|] eqn:Hl'; [|done]. cbn.
    apply map_seg_msgs_ext. intros y Hin. rewrite Hy, Hmem; [done| |].
    + eapply (registered_lookup _ t' l y); [apply Hi1| |done]. by rewrite Hother.
    + destruct (registered_lookup _ t' l y (proj1 Hi) Hl' Hin) as [Hty _].
      destruct (registered_lookup _ t _ m (proj1 Hi1) Hl) as [Htm _];
        [apply elem_of_app; right; left|]. congruence.
Qed.

Lemma write_ok p now t data s h :
  log_inv s h → topic_ok t → zlen data < 2 ^ 32 → log_end (reg s) t < 2 ^ 63 →
  ∃ s', write p now t data s = (Ok (log_end (reg s) t), s') ∧ log_inv s' h ∧
    topic_log s' t = topic_log s t ++ [data] ∧
    log_end (reg s') t = log_end (reg s) t + (4 + zlen data) ∧
    ∀ t', t' ≠ t → topic_log s' t' = topic_log s t' ∧ log_end (reg s') t' = log_end (reg s) t'.
Proof.
  intros Hi Ht Hd He. destruct (write_full p now t data s h Hi Ht Hd He) as (s' & E & ? & ? & ? & H).
  exists s'. split_and!; [done..|]. intros t' Hne. destruct (H t' Hne) as [? Hr].
  split; [done|]. unfold log_end. by rewrite Hr.
Qed.

(** ** The initial state *)

Lemma init_inv c now fl :
  0 ≤ cfg_segment_cache_size c → 0 < cfg_init_segment_size c →
  log_inv (LogManager.init c now fl) ∅.
Proof.
  intros Hc Hi. split.
  - by split; intros t l; cbn; rewrite lookup_empty.
  - assert (∀ m, ¬ registered (reg (LogManager.init c now fl)) m) as Hn.
    { intros m (l & Hl & _). cbn in Hl. by rewrite lookup_empty in Hl. }
    split; cbn; try done.
    + apply (inv_initial (mkThreads (memory (LogManager.init c now fl)) ∅ ∅ [] [])). by repeat split.
    + by intros key ?%not_elem_of_nil.
    + intros m Hm. by apply Hn in Hm.
Qed.
