(* ===== verification/LogRead.v ===== *)
(** * Reading whole messages at a message boundary *)
From Stdlib Require Import String.
From stdpp Require Import sorting gmultiset.
From S2P Require Import Prelude PyData PyDict Framer Parser RecordFacts Segment SegmentRegistry RegistryFacts SegmentMemory MemoryFacts Log LogNames LogInv LogMemory.

(** ** Lengths of message lists *)

(** The bytes a list of messages takes in the log. *)
Definition recs_len (msgs : list (list Z)) : Z := foldr (λ m n, 4 + zlen m + n) 0 msgs.

Lemma recs_len_app l k : recs_len (l ++ k) = recs_len l + recs_len k.
Proof. induction l as [|m l IH]; cbn; [done|]. unfold recs_len in *. lia. Qed.

Lemma recs_len_nonneg l : 0 ≤ recs_len l.
Proof. induction l as [|m l IH]; cbn; [done|]. unfold recs_len in IH. lia. Qed.

Lemma frames_recs_len l b : frames l = Ok b → zlen b = recs_len l.
Proof.
  revert b. induction l as [|m l IH]; intros b Hb; [by injection Hb as <-|].
  apply frames_cons in Hb as (f & r & Hf%encode_frame_length & Hr & ->).
  rewrite zlen_app, (IH r Hr). cbn. unfold recs_len. lia.
Qed.

(** The longest prefix of [msgs] that takes at most [size] bytes, and what a
    fetch returns: that prefix, or the first message when it is empty. *)
Fixpoint fit (size : Z) (msgs : list (list Z)) : list (list Z) :=
  match msgs with
  | [] => []
  | m :: msgs => if 4 + zlen m <=? size then m :: fit (size - (4 + zlen m)) msgs else []
  end.
Definition batch (size : Z) (msgs : list (list Z)) : list (list Z) :=
  match fit size msgs with [] => take 1 msgs | l => l end.

Lemma fit_prefix size msgs : ∃ rest, msgs = fit size msgs ++ rest.
Proof.
  revert size. induction msgs as [|m msgs IH]; intros size; cbn; [by exists []|].
  destruct (_ <=? _); [|by eexists]. destruct (IH (size - (4 + zlen m))) as [rest E].
  exists rest. cbn. by rewrite <-E.
Qed.

Lemma fit_len size msgs : 0 ≤ size → recs_len (fit size msgs) ≤ size.
Proof.
  revert size. induction msgs as [|m msgs IH]; intros size Hs; cbn; [done|].
  destruct (Z.leb_spec (4 + zlen m) size); cbn; [|lia].
  specialize (IH (size - (4 + zlen m)) ltac:(lia)). unfold recs_len in *. lia.
Qed.

(** Nothing more fits. *)
Lemma fit_maximal size msgs m rest :
  msgs = fit size msgs ++ m :: rest → size < recs_len (fit size msgs) + (4 + zlen m).
Proof.
  revert size. induction msgs as [|x msgs IH]; intros size; cbn; [done|].
  destruct (Z.leb_spec (4 + zlen x) size); cbn.
  - intros [= E]. specialize (IH _ E). unfold recs_len in *. lia.
  - intros [= -> _]. lia.
Qed.

Lemma fit_min size msgs : fit (Z.min size (recs_len msgs)) msgs = fit size msgs.
Proof.
  revert size. induction msgs as [|m msgs IH]; intros size; cbn; [done|].
  fold (recs_len msgs). pose proof (recs_len_nonneg msgs).
  destruct (Z.leb_spec (4 + zlen m) size).
  - lia_if. f_equal. rewrite <-(IH (size - _)). f_equal. lia.
  - by replace (_ <=? _) with false by lia.
Qed.

Lemma batch_prefix size msgs :
  msgs ≠ [] → ∃ rest, msgs = batch size msgs ++ rest ∧ batch size msgs ≠ [] ∧
    (recs_len (batch size msgs) ≤ size ∨ length (batch size msgs) = 1%nat).
Proof.
  intros Hne. unfold batch. destruct (fit_prefix size msgs) as [rest E].
  destruct (fit size msgs) as [|m l] eqn:Hf.
  - destruct msgs as [|m msgs]; [done|]. exists msgs. split_and!; auto.
  - exists rest. split_and!; [done|done|]. left. rewrite <-Hf. apply fit_len.
    destruct msgs as [|x msgs]; cbn in Hf; [done|].
    destruct (Z.leb_spec (4 + zlen x) size); [lia|done].
Qed.

(** ** [_calc_read_size] on a mapped segment *)

(** The entry [e] shows the messages [pre ++ rest] from the file's start. *)
Definition shows_msgs (mem : Memory) (e : nat) (n : Z) (msgs : list (list Z)) : Prop :=
  ∃ x b, entries mem !! e = Some x ∧ e_mapped x = Some n ∧ frames msgs = Ok b ∧
    take (length b) (content mem x) = b ∧ zlen b ≤ n ≤ zlen (content mem x).

Lemma read_range mem e n msgs b i len :
  shows_msgs mem e n msgs → frames msgs = Ok b → 0 ≤ i → 0 ≤ len → i + len ≤ zlen b →
  SegmentMemory.read_bytes e i len mem = (Ok (take (Z.to_nat len) (drop (Z.to_nat i) b)), mem).
Proof.
  intros (x & b' & Hx & Hn & Hb & Ht & Hl) Hb' Hi Hlen Hle.
  assert (b' = b) as -> by congruence.
  rewrite (read_bytes_range e x n) by (done || lia). do 2 f_equal.
  rewrite <-Ht at 1. rewrite !take_drop_commute, take_take. do 2 f_equal. lia.
Qed.

(** The length prefix of the message at a boundary. *)
Lemma read_prefix mem e n pre m rest :
  shows_msgs mem e n (pre ++ m :: rest) →
  ∃ b, SegmentMemory.read_bytes e (recs_len pre) 4 mem = (Ok b, mem) ∧ from_bytes b = zlen m.
Proof.
  intros Hs. pose proof Hs as (x & b & _ & _ & Hb & _).
  pose proof Hb as (b1 & b2 & H1 & H2 & ->)%frames_app_inv.
  apply frames_cons in H2 as (f & r & Hf & Hr & ->).
  pose proof (frames_recs_len _ _ H1) as Hl1. pose proof (encode_frame_length _ _ Hf) as Hlf.
  rewrite (read_range _ _ _ _ _ (recs_len pre) 4 Hs Hb);
    [|apply recs_len_nonneg|lia|rewrite !zlen_app; lia].
  eexists. split; [done|]. rewrite drop_app_length' by lia.
  apply encode_frame_Ok in Hf as (p & Hp & ->). pose proof (to_bytes_length _ _ _ Hp).
  rewrite <-app_assoc, take_app_length' by lia. by apply (from_to_bytes _ 4).
Qed.

Lemma calc_loop_spec mem e n pre rest fuel size done_ todo :
  shows_msgs mem e n (pre ++ rest) → rest = done_ ++ todo →
  size ≤ recs_len rest → recs_len done_ ≤ Z.max 0 size →
  size - recs_len done_ ≤ Z.of_nat fuel →
  calc_loop fuel e (recs_len pre + size) size (recs_len (pre ++ done_)) (recs_len done_) mem
  = (Ok (recs_len (done_ ++ fit (size - recs_len done_) todo)), mem).
Proof.
  intros Hs Hrest Hsize. revert done_ todo Hrest.
  induction fuel as [|fuel IH]; intros done_ todo Hrest Hd Hf; cbn [calc_loop];
    rewrite !recs_len_app.
  - assert (fit (size - recs_len done_) todo = []) as ->.
    { destruct todo as [|m todo]; [done|]. cbn. by replace (_ <=? _) with false by lia. }
    run. rewrite Z.add_0_r. done.
  - destruct (Z.ltb_spec (recs_len pre + recs_len done_) (recs_len pre + size)) as [Hlt|Hge].
    + destruct todo as [|m todo].
      { rewrite app_nil_r in Hrest. subst. lia. }
      destruct (read_prefix mem e n (pre ++ done_) m todo) as (b & E & Hb).
      { rewrite <-app_assoc. by rewrite <-Hrest. }
      run. rewrite <-recs_len_app, E. run. cbv zeta. rewrite Hb. cbn [fit].
      destruct (Z.leb_spec (recs_len done_ + zlen m + 4) size) as [Hle|Hgt].
      * lia_if.
        assert (recs_len (done_ ++ [m]) = recs_len done_ + (zlen m + 4)) as Hm
          by (rewrite recs_len_app; cbn; lia).
        replace (recs_len (pre ++ done_) + (zlen m + 4)) with (recs_len (pre ++ (done_ ++ [m])))
          by (rewrite !recs_len_app in *; lia).
        rewrite <-Hm, (IH (done_ ++ [m]) todo); [|by rewrite <-app_assoc|lia|lia].
        rewrite <-app_assoc. cbn [app]. rewrite Hm, !recs_len_app. cbn [recs_len foldr].
        replace (size - (recs_len done_ + (zlen m + 4)))
          with (size - recs_len done_ - (4 + zlen m)) by lia. done.
      * replace (4 + zlen m <=? _) with false by lia. cbn [recs_len foldr]. rewrite Z.add_0_r.
        destruct fuel; cbn [calc_loop]; [done|].
        replace (_ <? _) with false; [done|]. rewrite recs_len_app. lia.
    + run. assert (fit (size - recs_len done_) todo = []) as ->; [|by rewrite Z.add_0_r].
      destruct todo as [|m todo]; [done|]. cbn. by replace (_ <=? _) with false by lia.
Qed.

Lemma calc_read_size_spec mem e n pre rest size :
  shows_msgs mem e n (pre ++ rest) → rest ≠ [] → size ≤ recs_len rest →
  _calc_read_size e (recs_len pre) size mem = (Ok (recs_len (batch size rest)), mem).
Proof.
  intros Hs Hne Hsize. unfold _calc_read_size. run.
  pose proof (calc_loop_spec mem e n pre rest (Z.to_nat size) size [] rest Hs eq_refl Hsize) as E.
  rewrite app_nil_r in E. cbn [recs_len foldr app] in E.
  change (foldr (λ m n, 4 + zlen m + n) 0 pre) with (recs_len pre) in E.
  rewrite E by lia. rewrite Z.sub_0_r. run. unfold batch.
  destruct (fit size rest) as [|m l] eqn:Hf.
  - cbn [recs_len foldr Z.eqb]. destruct rest as [|m rest]; [done|].
    destruct (read_prefix _ _ _ _ _ _ Hs) as (b & E' & Hb). run. rewrite E'. run.
    rewrite Hb. cbn. by replace (zlen m + 4) with (4 + zlen m + 0) by lia.
  - replace (_ =? 0) with false; [done|]. cbn. pose proof (recs_len_nonneg l).
    unfold recs_len in *. lia.
Qed.

(** ** Reading through a fresh handle *)

Lemma shows_stored mem e x n m :
  0 ≤ size m → shows mem e x n m → stored (files mem) m →
  shows_msgs mem e n (seg_msgs (files mem) m).
Proof.
  intros Hs (Hx & Hn & Hp & _ & Hmap) [Hl Hf]. specialize (Hmap n Hn).
  assert (content mem x = file (files mem) (path m)) as Hc by (unfold content; by rewrite Hp).
  exists x, (seg_bytes (files mem) m). split_and!; try done; [|lia|lia].
  rewrite Hc. unfold seg_bytes at 2. f_equal. lia.
Qed.

Lemma seg_msgs_len fl m : stored fl m → recs_len (seg_msgs fl m) = size m.
Proof. intros [Hl Hf]. by rewrite <-(frames_recs_len _ _ Hf). Qed.

(** What a reader gets at the boundary behind [pre] in segment [m]. *)
Lemma segment_read_spec r mem h m key pre rest size :
  reg_inv r → mem_inv r mem h → registered r m → get_id m = Ok key →
  seg_msgs (files mem) m = pre ++ rest → rest ≠ [] →
  let max := Z.min size (Segment.size m - recs_len pre) in
  ∃ e mem' data, acquire m mem = (Ok e, mem') ∧ mem_inv r mem' ({[+ e +]} ⊎ h) ∧
    (∃ x, entries mem' !! e = Some x) ∧ grows (files mem) (files mem') ∧
    _calc_read_size e (recs_len pre) max mem' = (Ok (zlen data), mem') ∧
    SegmentMemory.read_bytes e (recs_len pre) (zlen data) mem' = (Ok data, mem') ∧
    frames (batch size rest) = Ok data.
Proof.
  intros Hr Hi Hm Hk Hmsgs Hne max.
  destruct (acquire_spec r mem h m key) as (e & x & n & mem' & E & Hsh & Hi' & Hg & _); [done..|].
  pose proof (mi_stored _ _ _ Hi _ Hm) as Hst. pose proof (mi_stored _ _ _ Hi' _ Hm) as Hst'.
  destruct (registered_ok r m Hr Hm) as (_ & _ & Hs & _).
  assert (seg_msgs (files mem') m = pre ++ rest) as Hmsgs'.
  { rewrite <-Hmsgs. unfold seg_msgs. f_equal. apply grows_bytes; [done|apply Hst]. }
  pose proof (shows_stored _ _ _ _ _ Hs Hsh Hst') as Hsm. rewrite Hmsgs' in Hsm.
  pose proof (seg_msgs_len _ _ Hst) as Hlen. rewrite Hmsgs, recs_len_app in Hlen.
  assert (batch max rest = batch size rest) as Hb.
  { unfold batch, max. replace (Segment.size m - recs_len pre) with (recs_len rest) by lia.
    by rewrite fit_min. }
  destruct Hst' as [_ Hf]. rewrite Hmsgs' in Hf.
  destruct (frames_app_inv _ _ _ Hf) as (b1 & b2 & H1 & H2 & Eb).
  destruct (batch_prefix size rest Hne) as (rest' & Hrest & _).
  pose proof H2 as Hfr. rewrite Hrest in Hfr. apply frames_app_inv in Hfr as (data & b3 & Hd & _ & ->).
  pose proof (frames_recs_len _ _ H1). pose proof (frames_recs_len _ _ Hd) as Hdl.
  exists e, mem', data. split_and!; try done.
  - destruct Hsh as (Hx & _). by exists x.
  - rewrite (calc_read_size_spec _ _ _ _ _ _ Hsm Hne) by (unfold max; lia).
    by rewrite Hb, Hdl.
  - rewrite (read_range _ _ _ _ _ _ _ Hsm Hf); [|apply recs_len_nonneg|lia|].
    + do 2 f_equal. rewrite Eb, drop_app_length' by lia. apply take_app_length'. lia.
    + rewrite Eb, !zlen_app. lia.
Qed.

(** ** The state after a read *)

Lemma topic_log_grows r mem mem' t :
  (∀ l m, registry r !! t = Some l → m ∈ l → stored (files mem) m) →
  grows (files mem) (files mem') →
  topic_log (mkLog r mem') t = topic_log (mkLog r mem) t.
Proof.
  intros Hst Hg. unfold topic_log. cbn [reg memory]. f_equal.
  destruct (registry r !! t) as [l|] eqn:Hl; [|done]. cbn.
  apply map_ext_in. intros y Hy%list_elem_of_In. unfold seg_msgs. f_equal.
  apply grows_bytes; [done|]. by apply (Hst l).
Qed.

Lemma registered_stored r mem h t l m :
  reg_inv r → mem_inv r mem h → registry r !! t = Some l → m ∈ l → stored (files mem) m.
Proof. intros Hr Hi Hl Hm. apply (mi_stored _ _ _ Hi). by eapply registered_lookup. Qed.

Lemma log_end_latest r t l :
  reg_inv r → registry r !! t = Some l → get_latest_offset r t = Ok (log_end r t).
Proof.
  intros Hr Hl. destruct (registry_active _ _ _ Hr Hl) as (m & _ & Hm & _ & _ & He).
  unfold get_latest_offset. rewrite Hl. cbn [or_raise mbind result_bind].
  rewrite py_index_last, Hm. cbn. by rewrite He.
Qed.

(** The boundary lies in the segment. *)
Lemma boundary_segment r mem h t l m pre rest :
  reg_inv r → mem_inv r mem h → registry r !! t = Some l → m ∈ l →
  seg_msgs (files mem) m = pre ++ rest → rest ≠ [] →
  get_segment r t (base_offset m + recs_len pre) = Ok m.
Proof.
  intros Hr Hi Hl Hm Hmsgs Hne. pose proof (registered_stored _ _ _ _ _ _ Hr Hi Hl Hm) as Hst.
  pose proof (seg_msgs_len _ _ Hst) as Hlen. rewrite Hmsgs, recs_len_app in Hlen.
  pose proof (recs_len_nonneg pre).
  assert (0 < recs_len rest).
  { destruct rest as [|x rest]; [done|]. cbn. pose proof (recs_len_nonneg rest).
    unfold recs_len in *. lia. }
  destruct (registered_lookup _ _ _ _ Hr Hl Hm) as [_ Hreg].
  destruct (registered_ok r m Hr Hreg) as (_ & ? & _ & _).
  apply (get_segment_Ok r t l); [done|by apply (ri_segs _ Hr)|lia|].
  split; [done|]. unfold contains, get_end_offset. lia.
Qed.

Lemma read_bytes_ok s h t l m pre rest size :
  log_inv s h → registry (reg s) !! t = Some l → m ∈ l →
  seg_msgs (files (memory s)) m = pre ++ rest → rest ≠ [] →
  let offset := base_offset m + recs_len pre in
  ∃ data s', Log.read_bytes t offset size s
             = (Ok (mkReadResultBytes data (offset + zlen data) (log_end (reg s) t)), s') ∧
    frames (batch size rest) = Ok data ∧ log_inv s' h ∧ reg s' = reg s ∧
    ∀ t', topic_log s' t' = topic_log s t'.
Proof.
  intros [Hr Hi] Hl Hm Hmsgs Hne offset.
  destruct (registered_lookup _ _ _ _ Hr Hl Hm) as [_ Hreg].
  destruct (registered_id _ _ Hr Hreg) as [key Hk].
  destruct (segment_read_spec _ _ h m key pre rest size Hr Hi Hreg Hk Hmsgs Hne)
    as (e & mem1 & data & E1 & Hi1 & [x Hx] & Hg & E2 & E3 & Hd).
  destruct (release_spec _ _ _ _ _ Hi1 Hx) as (mem2 & E4 & Hi2 & Hf2).
  exists data, (mkLog (reg s) mem2). split_and!; try done.
  - unfold Log.read_bytes, on_reg, on_mem, with_handle. run.
    rewrite (boundary_segment _ (memory s) h t l m pre rest) by done. run. cbv zeta. cbn [reg memory].
    replace (offset - base_offset m) with (recs_len pre) by (unfold offset; lia).
    rewrite E1. run. rewrite E2. run. rewrite E3. run. rewrite E4. cbn [snd]. run.
    cbn [reg memory]. rewrite (log_end_latest _ _ l) by done. run. done.
  - intros t'. destruct s as [r mem]. cbn [reg memory] in *.
    apply topic_log_grows; [|by rewrite Hf2]. intros l' y. by eapply registered_stored.
Qed.

Lemma read_ok s h t l m pre rest size :
  log_inv s h → registry (reg s) !! t = Some l → m ∈ l →
  seg_msgs (files (memory s)) m = pre ++ rest → rest ≠ [] →
  let offset := base_offset m + recs_len pre in
  ∃ data e s', Log.read t offset size s
             = (Ok (mkReadResult (offset + zlen data) (log_end (reg s) t)
                      (mkFileSlice (path m) (recs_len pre) (zlen data)) e), s') ∧
    frames (batch size rest) = Ok data ∧
    take (length data) (drop (Z.to_nat (recs_len pre)) (file (files (memory s')) (path m))) = data ∧
    log_inv s' ({[+ e +]} ⊎ h) ∧ reg s' = reg s ∧ ∀ t', topic_log s' t' = topic_log s t'.
Proof.
  intros [Hr Hi] Hl Hm Hmsgs Hne offset.
  destruct (registered_lookup _ _ _ _ Hr Hl Hm) as [_ Hreg].
  destruct (registered_id _ _ Hr Hreg) as [key Hk].
  destruct (segment_read_spec _ _ h m key pre rest size Hr Hi Hreg Hk Hmsgs Hne)
    as (e & mem1 & data & E1 & Hi1 & [x Hx] & Hg & E2 & E3 & Hd).
  exists data, e, (mkLog (reg s) mem1). split_and!; try done.
  - unfold Log.read, on_reg, on_mem. run.
    rewrite (boundary_segment _ (memory s) h t l m pre rest) by done. run. cbv zeta. cbn [reg memory].
    replace (offset - base_offset m) with (recs_len pre) by (unfold offset; lia).
    rewrite E1. run. cbn [reg memory]. rewrite E2. run.
    cbn [reg memory]. rewrite (log_end_latest _ _ l) by done. run. done.
  - pose proof (mi_stored _ _ _ Hi _ Hreg) as Hst. pose proof (mi_stored _ _ _ Hi1 _ Hreg) as [Hl1 Hf1].
    assert (seg_msgs (files mem1) m = pre ++ rest) as Hmsgs1.
    { rewrite <-Hmsgs. unfold seg_msgs. f_equal. apply grows_bytes; [done|apply Hst]. }
    rewrite Hmsgs1 in Hf1. cbn [memory].
    destruct (batch_prefix size rest Hne) as (rest' & Hrest & _). rewrite Hrest in Hf1.
    apply frames_app_inv in Hf1 as (b1 & b2 & H1 & (b3 & b4 & H3 & _ & ->)%frames_app_inv & Eb).
    assert (b3 = data) as -> by congruence. pose proof (frames_recs_len _ _ H1) as Hb1.
    rewrite <-(take_drop (Z.to_nat (Segment.size m)) (file (files mem1) (path m))).
    fold (seg_bytes (files mem1) m). rewrite Eb, <-!app_assoc, drop_app_length' by lia.
    apply take_app_length.
  - intros t'. destruct s as [r mem]. cbn [reg memory] in *.
    apply topic_log_grows; [|done]. intros l' y. by eapply registered_stored.
Qed.

(** ** Positions in a topic *)

(** The segments of a chain that starts at [b] hold the bytes from [b] on. *)
Lemma chained_len fl b l :
  chained b l → Forall (stored fl) l →
  match last l with Some m => get_end_offset m | None => b end
  = b + recs_len (concat (map (seg_msgs fl) l)).
Proof.
  revert b. induction l as [|m l IH]; intros b Hc Hs; [cbn; lia|].
  destruct Hc as [Hb Hc]. apply Forall_cons_1 in Hs as [Hm Hs].
  specialize (IH _ Hc Hs). rewrite last_cons. cbn [map concat].
  rewrite recs_len_app, (seg_msgs_len _ _ Hm). unfold get_end_offset in *.
  destruct (last l); lia.
Qed.

(** The segment that holds the first message behind a boundary of the topic. *)
Lemma locate fl b l pre rest :
  chained b l → Forall (stored fl) l → concat (map (seg_msgs fl) l) = pre ++ rest → rest ≠ [] →
  ∃ m pre1 rest1 rest2, m ∈ l ∧ seg_msgs fl m = pre1 ++ rest1 ∧ rest1 ≠ [] ∧
    rest = rest1 ++ rest2 ∧ base_offset m + recs_len pre1 = b + recs_len pre.
Proof.
  revert b pre. induction l as [|m l IH]; intros b pre Hc Hs E Hne.
  - cbn in E. by destruct pre, rest.
  - destruct Hc as [Hb Hc]. apply Forall_cons_1 in Hs as [Hm Hs]. cbn [map concat] in E.
    assert (∀ k, pre = seg_msgs fl m ++ k → concat (map (seg_msgs fl) l) = k ++ rest →
      ∃ m' pre1 rest1 rest2, m' ∈ m :: l ∧ seg_msgs fl m' = pre1 ++ rest1 ∧ rest1 ≠ [] ∧
        rest = rest1 ++ rest2 ∧ base_offset m' + recs_len pre1 = b + recs_len pre) as Hlater.
    { intros k -> Ek. destruct (IH _ k Hc Hs Ek Hne) as (m' & p1 & r1 & r2 & ? & ? & ? & ? & Ho).
      exists m', p1, r1, r2. split_and!; try done; [by right|].
      rewrite recs_len_app, (seg_msgs_len _ _ Hm). unfold get_end_offset in Ho. lia. }
    apply app_eq_inv in E as [(k & E1 & E2)|(k & E1 & E2)]; [|by apply (Hlater k)].
    destruct k as [|x k].
    + rewrite app_nil_r in E1. apply (Hlater []); [by rewrite app_nil_r|done].
    + exists m, pre, (x :: k), (concat (map (seg_msgs fl) l)). split_and!; try done; [left|lia].
Qed.

Lemma topic_end_len s h t :
  log_inv s h → log_end (reg s) t = recs_len (topic_log s t).
Proof.
  intros [Hr Hi]. unfold log_end, topic_log. destruct (registry (reg s) !! t) as [l|] eqn:Hl; [|done].
  cbn. destruct (registry_active _ _ _ Hr Hl) as (a & (old & _ & _ & _ & Hc) & Ha & _).
  assert (Forall (stored (files (memory s))) l) as Hst.
  { apply Forall_forall. intros y Hy. by eapply registered_stored. }
  pose proof (chained_len _ 0 l Hc Hst) as E. rewrite Ha in *. by rewrite E.
Qed.

Lemma topic_chain s h t l :
  log_inv s h → registry (reg s) !! t = Some l →
  chained 0 l ∧ Forall (stored (files (memory s))) l.
Proof.
  intros [Hr Hi] Hl. destruct (registry_active _ _ _ Hr Hl) as (a & (old & _ & _ & _ & Hc) & _).
  split; [done|]. apply Forall_forall. intros y Hy. by eapply registered_stored.
Qed.

(** A fetch at a message boundary of the topic. *)
Lemma fetch_full s h t pre rest size :
  log_inv s h → topic_log s t = pre ++ rest → rest ≠ [] →
  ∃ data got more s', Log.read_bytes t (recs_len pre) size s
      = (Ok (mkReadResultBytes data (recs_len (pre ++ got)) (recs_len (pre ++ rest))), s') ∧
    parse_records data = got ∧ rest = got ++ more ∧ got ≠ [] ∧
    (recs_len got ≤ size ∨ length got = 1%nat) ∧ log_inv s' h ∧
    (∀ t', topic_log s' t' = topic_log s t') ∧ zlen data = recs_len got.
Proof.
  intros Hi Hlog Hne. destruct (registry (reg s) !! t) as [l|] eqn:Hl.
  2: { unfold topic_log in Hlog. rewrite Hl in Hlog. cbn in Hlog. by destruct pre, rest. }
  destruct (topic_chain _ _ _ _ Hi Hl) as [Hc Hst]. pose proof Hlog as Hmsgs.
  unfold topic_log in Hmsgs. rewrite Hl in Hmsgs. cbn [default from_option id] in Hmsgs.
  destruct (locate _ _ _ _ _ Hc Hst Hmsgs Hne) as (m & p1 & r1 & r2 & Hm & Hseg & Hr1 & -> & Ho).
  destruct (read_bytes_ok s h t l m p1 r1 size Hi Hl Hm Hseg Hr1)
    as (data & s' & E & Hf & Hi' & _ & Hsame).
  destruct (batch_prefix size r1 Hr1) as (more & Hrest & Hgot & Hsz).
  exists data, (batch size r1), (more ++ r2), s'. split_and!; try done.
  - rewrite Ho, Z.add_0_l in E. rewrite E. do 2 f_equal. f_equal.
    + rewrite (frames_recs_len _ _ Hf), recs_len_app. lia.
    + by rewrite (topic_end_len s h t Hi), Hlog.
  - by apply parse_records_frames.
  - by rewrite app_assoc, <-Hrest.
  - by apply frames_recs_len.
Qed.

(** The same for a slice of a file. *)
Lemma fetch_file s h t pre rest size :
  log_inv s h → topic_log s t = pre ++ rest → rest ≠ [] →
  ∃ r data got more s', Log.read t (recs_len pre) size s = (Ok r, s') ∧
    let fs := file_slice r in
    take (Z.to_nat (fs_batch_size fs)) (drop (Z.to_nat (fs_offset fs)) (file (files (memory s')) (fs_filepath fs))) = data ∧
    fs_batch_size fs = zlen data ∧ 0 ≤ fs_offset fs ∧
    parse_records data = got ∧ rest = got ++ more ∧ got ≠ [] ∧ zlen data = recs_len got.
Proof.
  intros Hi Hlog Hne. destruct (registry (reg s) !! t) as [l|] eqn:Hl.
  2: { unfold topic_log in Hlog. rewrite Hl in Hlog. cbn in Hlog. by destruct pre, rest. }
  destruct (topic_chain _ _ _ _ Hi Hl) as [Hc Hst]. pose proof Hlog as Hmsgs.
  unfold topic_log in Hmsgs. rewrite Hl in Hmsgs. cbn [default from_option id] in Hmsgs.
  destruct (locate _ _ _ _ _ Hc Hst Hmsgs Hne) as (m & p1 & r1 & r2 & Hm & Hseg & Hr1 & -> & Ho).
  destruct (read_ok s h t l m p1 r1 size Hi Hl Hm Hseg Hr1) as (data & e & s' & E & Hf & Hfile & _).
  destruct (batch_prefix size r1 Hr1) as (more & Hrest & Hgot & _). rewrite Ho, Z.add_0_l in E.
  eexists _, data, (batch size r1), (more ++ r2), s'. split; [exact E|]. cbn.
  rewrite Nat2Z.id. split_and!; [done|done|apply recs_len_nonneg|by apply parse_records_frames| |done|].
  - by rewrite app_assoc, <-Hrest.
  - by apply frames_recs_len.
Qed.

Lemma fetch_ok s h t pre rest size :
  log_inv s h → topic_log s t = pre ++ rest → rest ≠ [] →
  ∃ data got more s', Log.read_bytes t (recs_len pre) size s
      = (Ok (mkReadResultBytes data (recs_len (pre ++ got)) (recs_len (pre ++ rest))), s') ∧
    parse_records data = got ∧ rest = got ++ more ∧ got ≠ [] ∧
    (recs_len got ≤ size ∨ length got = 1%nat) ∧ log_inv s' h ∧
    ∀ t', topic_log s' t' = topic_log s t'.
Proof.
  intros Hi Hlog Hne. destruct (fetch_full s h t pre rest size Hi Hlog Hne)
    as (data & got & more & s' & ? & ? & ? & ? & ? & ? & ? & _).
  by exists data, got, more, s'.
Qed.
