(* ===== verification/LogSteps.v ===== *)
(** * Histories of a broker's log

    Calls of the log manager interleaved with releases of read results and with
    rounds of the clean-up thread, starting from an empty registry over any
    files.  Every state of such a history satisfies the invariant. *)
From Stdlib Require Import String.
From stdpp Require Import sorting gmultiset.
From S2P Require Import Prelude PyData PyDict Framer Parser RecordFacts Segment SegmentRegistry RegistryFacts SegmentMemory MemoryFacts Log LogNames LogInv LogMemory LogWrite LogRead.

(** One call; the multiset holds the handles of read results not yet released. *)
Inductive log_call (c : LogConfig) : Log * gmultiset nat → Log * gmultiset nat → Prop :=
| call_append now t data s s' h off :
    topic_ok t → zlen data < 2 ^ 32 → log_end (reg s) t < 2 ^ 63 →
    LogManager.append c now t data s = (Ok off, s') → log_call c (s, h) (s', h)
| call_create_topic t s s' h r :
    topic_ok t → LogManager.create_topic t s = (r, s') → log_call c (s, h) (s', h)
| call_read t off size s s' h r :
    LogManager.read t off size s = (Ok r, s') →
    log_call c (s, h) (s', {[+ _release r +]} ⊎ h)
| call_read_bytes t off size s s' h r :
    LogManager.read_bytes t off size s = (r, s') → log_call c (s, h) (s', h)
| call_release e s s' h r :
    on_mem (_release_entry e) s = (r, s') → log_call c (s, {[+ e +]} ⊎ h) (s', h)
| call_cleanup s s' h r :
    on_mem cleanup_round s = (r, s') → log_call c (s, h) (s', h).

(** The configurations the code works with. *)
Definition config_ok (c : LogConfig) : Prop :=
  0 ≤ cfg_segment_cache_size c ∧ 0 < cfg_init_segment_size c.

Definition log_reachable (c : LogConfig) (s : Log) (h : gmultiset nat) : Prop :=
  config_ok c ∧ ∃ now fl, rtc (log_call c) (LogManager.init c now fl, ∅) (s, h).

(** ** Reading leaves the state alone but for the handle *)

Lemma read_bytes_pure e o n m : (SegmentMemory.read_bytes e o n m).2 = m.
Proof.
  unfold SegmentMemory.read_bytes. run. destruct (entries m !! e) as [x|] eqn:He.
  - rewrite (run_entry x) by done. by destruct (e_mapped x); run.
  - by rewrite run_entry_None.
Qed.

Lemma calc_loop_pure fuel e stop mx ro bs m : (calc_loop fuel e stop mx ro bs m).2 = m.
Proof.
  revert ro bs. induction fuel as [|fuel IH]; intros ro bs; cbn [calc_loop]; [done|].
  destruct (_ <? _); [|done]. run. pose proof (read_bytes_pure e ro 4 m) as E.
  destruct (SegmentMemory.read_bytes _ _ _ _) as [[b|x] m']; cbn in E; subst; [|done]. apply IH.
Qed.

Lemma calc_read_size_pure e o mx m : (_calc_read_size e o mx m).2 = m.
Proof.
  unfold _calc_read_size. run. pose proof (calc_loop_pure (Z.to_nat mx) e (o + mx) mx o 0 m) as E.
  destruct (calc_loop _ _ _ _ _ _ _) as [[b|x] m']; cbn in E; subst; [|done].
  destruct (_ =? 0); run; [|done]. pose proof (read_bytes_pure e o 4 m) as E.
  by destruct (SegmentMemory.read_bytes _ _ _ _) as [[b'|x] m']; cbn in E; subst.
Qed.

Lemma get_segment_registered r t off m :
  reg_inv r → get_segment r t off = Ok m → registered r m.
Proof.
  intros Hr Hg. destruct (registry r !! t) as [l|] eqn:Hl.
  2: by rewrite get_segment_unknown in Hg.
  assert (m ∈ l) as Hm; [|by eapply registered_lookup].
  destruct (decide (off = -1)) as [->|Hne].
  - destruct (registry_active _ _ _ Hr Hl) as (a & _ & Ha & _).
    rewrite (get_active r t l a) in Hg by done. injection Hg as <-. by apply last_Some_elem_of.
  - enough (m ∈ l ∧ contains m off) by tauto.
    by apply (get_segment_Ok r t l off m); [| apply (ri_segs _ Hr) | |].
Qed.

(** The logs and the registry are the same. *)
Definition same_logs (s s' : Log) : Prop :=
  reg s' = reg s ∧ ∀ t, topic_log s' t = topic_log s t.

Lemma same_logs_refl s : same_logs s s.
Proof. done. Qed.

Lemma acquire_log s h m :
  log_inv s h → registered (reg s) m →
  ∃ e mem', acquire m (memory s) = (Ok e, mem') ∧ log_inv (mkLog (reg s) mem') ({[+ e +]} ⊎ h) ∧
    (∃ x, entries mem' !! e = Some x) ∧ same_logs s (mkLog (reg s) mem').
Proof.
  intros [Hr Hi] Hm. destruct (registered_id _ _ Hr Hm) as [key Hk].
  destruct (acquire_spec _ _ h m key Hr Hi Hm Hk) as (e & x & n & mem' & E & [Hx _] & Hi' & Hg & _).
  exists e, mem'. split; [done|]. split; [by split|]. split; [by exists x|]. split; [done|].
  intros t. destruct s as [r mem]. cbn [reg memory] in *.
  apply topic_log_grows; [|done]. intros l y. by eapply registered_stored.
Qed.

Lemma release_log r mem e h x :
  log_inv (mkLog r mem) ({[+ e +]} ⊎ h) → entries mem !! e = Some x →
  ∃ mem', _release_entry e mem = (Ok tt, mem') ∧ log_inv (mkLog r mem') h ∧
    same_logs (mkLog r mem) (mkLog r mem').
Proof.
  intros [Hr Hi] Hx. destruct (release_spec _ _ h e x Hi Hx) as (mem' & E & Hi' & Hf).
  exists mem'. split; [done|]. split; [by split|]. split; [done|]. intros t. unfold topic_log. cbn. by rewrite Hf.
Qed.

(** ** Every call preserves the invariant *)

Lemma read_bytes_inv t off size s s' h r :
  log_inv s h → Log.read_bytes t off size s = (r, s') → log_inv s' h ∧ same_logs s s'.
Proof.
  intros Hi. unfold Log.read_bytes, on_reg, on_mem, with_handle. run.
  destruct (get_segment (reg s) t off) as [m|x] eqn:Hg; run.
  2: { intros [= _ <-]. by destruct s. }
  destruct (acquire_log s h m Hi (get_segment_registered _ _ _ _ (proj1 Hi) Hg))
    as (e & mem1 & E1 & Hi1 & [x Hx] & Hs1).
  cbv zeta. cbn [reg memory]. rewrite E1. run.
  match goal with |- context [_calc_read_size e ?o ?n mem1] =>
    pose proof (calc_read_size_pure e o n mem1) as E2;
    destruct (_calc_read_size e o n mem1) as [[b|y] m2]; cbn in E2; subst m2; run end.
  - match goal with |- context [SegmentMemory.read_bytes e ?o b mem1] =>
      pose proof (read_bytes_pure e o b mem1) as E3;
      destruct (SegmentMemory.read_bytes e o b mem1) as [[d|y] m3]; cbn in E3; subst m3; run end;
      destruct (release_log _ _ _ _ _ Hi1 Hx) as (mem2 & E4 & Hi2 & Hs2);
      rewrite E4; cbn [snd]; run; cbn [reg memory];
      try destruct (get_latest_offset _ _); run; intros [= _ <-];
      (split; [done|]; destruct Hs1, Hs2; split; [done|]; intros t'; congruence).
  - destruct (release_log _ _ _ _ _ Hi1 Hx) as (mem2 & E4 & Hi2 & Hs2). rewrite E4.
    cbn [snd]. run. intros [= _ <-]. split; [done|]. destruct Hs1, Hs2. split; [done|].
    intros t'; congruence.
Qed.

Lemma read_inv t off size s s' h r :
  log_inv s h → Log.read t off size s = (Ok r, s') →
  log_inv s' ({[+ _release r +]} ⊎ h) ∧ same_logs s s'.
Proof.
  intros Hi. unfold Log.read, on_reg, on_mem. run.
  destruct (get_segment (reg s) t off) as [m|x] eqn:Hg; run; [|done].
  destruct (acquire_log s h m Hi (get_segment_registered _ _ _ _ (proj1 Hi) Hg))
    as (e & mem1 & E1 & Hi1 & [x Hx] & Hs1).
  cbv zeta. cbn [reg memory]. rewrite E1. run.
  match goal with |- context [_calc_read_size e ?o ?n _] =>
    pose proof (calc_read_size_pure e o n mem1) as E2; cbn [reg memory];
    destruct (_calc_read_size e o n mem1) as [[b|y] m2]; cbn in E2; subst m2; run end; [|done].
  cbn [reg memory]. destruct (get_latest_offset _ _); run; [|done].
  by intros [= <- <-].
Qed.

(** A read that raises may leave a handle behind. *)
Lemma read_any_inv t off size s s' h r :
  log_inv s h → Log.read t off size s = (r, s') → ∃ k, log_inv s' (h ⊎ k) ∧ same_logs s s'.
Proof.
  intros Hi. unfold Log.read, on_reg, on_mem. run.
  destruct (get_segment (reg s) t off) as [m|x] eqn:Hg; run.
  2: { intros [= _ <-]. exists ∅. rewrite (right_id_L ∅ _). by destruct s. }
  destruct (acquire_log s h m Hi (get_segment_registered _ _ _ _ (proj1 Hi) Hg))
    as (e & mem1 & E1 & Hi1 & [x Hx] & Hs1).
  cbv zeta. cbn [reg memory]. rewrite E1. run.
  match goal with |- context [_calc_read_size e ?o ?n _] =>
    pose proof (calc_read_size_pure e o n mem1) as E2; cbn [reg memory];
    destruct (_calc_read_size e o n mem1) as [[b|y] m2]; cbn in E2; subst m2; run end.
  - cbn [reg memory]. destruct (get_latest_offset _ _); run; intros [= _ <-]; exists {[+ e +]}; by rewrite (comm_L (⊎)).
  - intros [= _ <-]. exists {[+ e +]}. by rewrite (comm_L (⊎)).
Qed.

Lemma release_any_inv e s h :
  log_inv s ({[+ e +]} ⊎ h) →
  log_inv (on_mem (_release_entry e) s).2 h ∧ same_logs s (on_mem (_release_entry e) s).2.
Proof.
  intros Hi.
  destruct (inv_users _ _ _ _ _ (mi_threads _ _ _ (proj2 Hi)) e) as [x Hx]; [multiset_solver|].
  destruct s as [r mem]. destruct (release_log _ _ _ _ _ Hi Hx) as (mem' & E & Hi' & Hs).
  unfold on_mem. run. cbn [reg memory]. rewrite E. cbn [snd]. done.
Qed.

Lemma release_files e s h :
  log_inv s ({[+ e +]} ⊎ h) → files (memory (on_mem (_release_entry e) s).2) = files (memory s).
Proof.
  intros [_ Hi]. destruct (inv_users _ _ _ _ _ (mi_threads _ _ _ Hi) e) as [x Hx]; [multiset_solver|].
  destruct (release_spec _ _ h e x Hi Hx) as (mem' & E & _ & Hf).
  unfold on_mem. run. rewrite E. exact Hf.
Qed.

Lemma cleanup_inv s s' h r :
  log_inv s h → on_mem cleanup_round s = (r, s') → log_inv s' h ∧ same_logs s s'.
Proof.
  intros [Hr Hi]. unfold on_mem, cleanup_round. run.
  destruct (cleanup_queue (memory s)) as [|e q] eqn:Hq; run.
  { intros [= _ <-]. destruct s. done. }
  destruct (unused (memory s) e) eqn:Hu; run.
  2: { intros [= _ <-]. destruct s. done. }
  assert (queue_get (memory s) = (Ok (Some e), set_queue q (memory s))) as E1.
  { unfold queue_get. run. rewrite Hq. done. }
  rewrite E1. run. set (m1 := set_queue q (memory s)) in *.
  pose proof (queue_get_inv _ _ _ _ _ _ _ E1 (mi_threads _ _ _ Hi)) as H1.

  assert (is_Some (entries m1 !! e)) as [y Hy].
  { eapply owner_alloc; [exact H1|]. unfold owners. rewrite !elem_of_app, elem_of_cons. tauto. }
  assert (release e m1 = (Ok tt, set_entries (<[e := set_mapped None y]> (entries m1)) m1)) as E2.
  { unfold release, set_entry. run. by rewrite (run_entry y). }
  rewrite E2. run. intros [= _ <-]. split; [|done].
  pose proof (wait_inv e m1 ∅ h [] [] [] Hu H1) as H2.
  pose proof (evict_inv e _ _ ∅ h [] [] [] E2 H2) as H3.
  assert (∀ k, dict_get (cache (memory s)) k ≠ Some e) as Hnc.
  { intros k Hk. by eapply (cached_not_releasing m1); [exact H2|exact Hk|left]. }
  destruct Hi as [Hcap Hinit _ Hkeys Hst Hc]. split; [done|]. split; try done.
  intros m k d Hm Hk Hd. destruct (Hc m k d Hm Hk Hd) as (z & Hz & Hb).
  exists z. split; [|done]. cbn. rewrite lookup_insert_ne; [done|]. intros <-. by apply (Hnc k).
Qed.

Lemma create_topic_inv t s s' h r :
  log_inv s h → topic_ok t → LogManager.create_topic t s = (r, s') →
  log_inv s' h ∧ ∀ t', topic_log s' t' = topic_log s t'.
Proof.
  intros [Hr Hi] Ht. unfold LogManager.create_topic. rewrite run_unless_topic. unfold on_reg. run.
  destruct (registry (reg s) !! t) as [l|] eqn:Hl.
  - destruct (registry_active _ _ _ Hr Hl) as (a & _ & Ha & _).
    rewrite (get_active _ t l a) by done. run. intros [= _ <-]. by destruct s.
  - rewrite get_segment_unknown by done. run. cbn [reg memory].
    destruct (create_topic_spec _ _ h t Hr Hi Ht Hl) as (p & E & Hr' & Hi'). rewrite E. run.
    intros [= _ <-]. split; [by split|]. intros t'. unfold topic_log. cbn.
    destruct (decide (t' = t)) as [->|Hne].
    + by rewrite lookup_insert_eq, Hl.
    + by rewrite lookup_insert_ne.
Qed.

Lemma log_call_inv c s h s' h' :
  log_call c (s, h) (s', h') → log_inv s h → log_inv s' h'.
Proof.
  intros Hc Hi. inversion Hc; subst; clear Hc.
  - unfold LogManager.append in *.
    destruct (write_ok (LogManager.policy c) now t data s h') as (s1 & E & ? & _); [done..|].
    congruence.
  - by eapply create_topic_inv.
  - by eapply read_inv.
  - by eapply read_bytes_inv.
  - destruct (inv_users _ _ _ _ _ (mi_threads _ _ _ (proj2 Hi)) e) as [x Hx]; [multiset_solver|].
    destruct s as [r0 mem]. destruct (release_log _ _ _ _ _ Hi Hx) as (mem' & E & Hi' & _).
    unfold on_mem in *. match goal with H : zoom _ _ _ _ = _ |- _ => run_in H; cbn [reg memory] in H;
      rewrite E in H; by injection H as _ <- end.
  - by eapply cleanup_inv.
Qed.

Lemma reachable_log_inv c s h : log_reachable c s h → log_inv s h.
Proof.
  intros ([Hc Hi] & now & fl & Hs).
  assert (∀ x y, rtc (log_call c) x y → log_inv x.1 x.2 → log_inv y.1 y.2) as H.
  { induction 1 as [|[s1 h1] [s2 h2] y Hxy Hyz IH]; [done|]. cbn. intros H1.
    apply IH. by eapply log_call_inv. }
  apply (H _ _ Hs). by apply init_inv.
Qed.
