(* ===== verification/LogTheorems.v ===== *)
(** * What the log promises

    Over every history of calls: appending refines appending to a list of
    messages per topic, offsets are byte positions in the concatenated frames,
    fetching at a message boundary returns the next whole messages and the
    position behind them, and nothing but appending changes what a topic holds. *)
From Stdlib Require Import String.
From stdpp Require Import sorting gmultiset.
From S2P Require Import Prelude PyData PyDict Framer Parser RecordFacts Segment SegmentRegistry RegistryFacts SegmentMemory MemoryFacts Log LogNames LogInv LogMemory LogWrite LogRead LogSteps.

(** ** A sample history *)

(** Segments of at most 20 bytes, files of 8, one cached segment. *)
Definition sample_config : LogConfig := mkLogConfig (py "data") 1000 1000 20 8 4 1.
Definition orders : pystr := py "orders".
Definition log0 : Log := LogManager.init sample_config 0 ∅.
Definition log1 : Log := (LogManager.append sample_config 0 orders (py "first") log0).2.
Definition log2 : Log := (LogManager.append sample_config 0 orders (py "second") log1).2.
Definition log3 : Log := (LogManager.append sample_config 0 orders (py "third") log2).2.

Lemma topic_ok_orders : topic_ok orders.
Proof. apply (bool_decide_unpack _). by vm_compute. Qed.

(** The call of an append whose result is known. *)
Lemma appended c now t data s off h :
  topic_ok t → zlen data < 2 ^ 32 → log_end (reg s) t < 2 ^ 63 →
  (LogManager.append c now t data s).1 = Ok off →
  log_call c (s, h) ((LogManager.append c now t data s).2, h).
Proof.
  intros Ht Hd He Hr. apply (call_append c now t data s _ h off); [done..|].
  rewrite <-Hr. by destruct (LogManager.append c now t data s).
Qed.

Lemma log1_call : log_call sample_config (log0, ∅) (log1, ∅).
Proof.
  apply (appended _ 0 orders (py "first") log0 0); [apply topic_ok_orders|by vm_compute..].
Qed.
Lemma log2_call : log_call sample_config (log1, ∅) (log2, ∅).
Proof.
  apply (appended _ 0 orders (py "second") log1 9); [apply topic_ok_orders|by vm_compute..].
Qed.
Lemma log3_call : log_call sample_config (log2, ∅) (log3, ∅).
Proof.
  apply (appended _ 0 orders (py "third") log2 19); [apply topic_ok_orders|by vm_compute..].
Qed.

Lemma log3_reachable : log_reachable sample_config log3 ∅.
Proof.
  split; [by vm_compute|]. exists 0, ∅.
  eapply rtc_l; [exact log1_call|]. eapply rtc_l; [exact log2_call|].
  eapply rtc_l; [exact log3_call|]. reflexivity.
Qed.

(** ** The properties *)

(** C13: [append] returns the topic's end offset, adds exactly the message to the
    topic's list, advances the end by the framed length and leaves every other
    topic alone, whether or not the active segment had to be rolled over, its file
    grown, or its mapping loaded again. *)
Theorem append_refines c now t data s h :
  log_reachable c s h → topic_ok t → zlen data < 2 ^ 32 → log_end (reg s) t < 2 ^ 63 →
  ∃ s', LogManager.append c now t data s = (Ok (log_end (reg s) t), s') ∧
    log_reachable c s' h ∧
    topic_log s' t = topic_log s t ++ [data] ∧
    log_end (reg s') t = log_end (reg s) t + (4 + zlen data) ∧
    ∀ t', t' ≠ t → topic_log s' t' = topic_log s t' ∧ log_end (reg s') t' = log_end (reg s) t'.
Proof.
  intros Hr Ht Hd He.
  destruct (write_ok (LogManager.policy c) now t data s h (reachable_log_inv _ _ _ Hr) Ht Hd He)
    as (s' & E & _ & Hs). exists s'. split; [exact E|]. split; [|exact Hs].
  destruct Hr as (Hc & t0 & fl & Hr). split; [done|]. exists t0, fl.
  eapply rtc_r; [exact Hr|]. by eapply call_append.
Qed.

Lemma append_refines_witness :
  ∃ s', LogManager.append sample_config 7 orders (py "fourth") log3 = (Ok 28, s') ∧
    log_reachable sample_config s' ∅ ∧
    topic_log s' orders = topic_log log3 orders ++ [py "fourth"] ∧
    log_end (reg s') orders = 28 + (4 + 6) ∧
    ∀ t', t' ≠ orders → topic_log s' t' = topic_log log3 t' ∧
      log_end (reg s') t' = log_end (reg log3) t'.
Proof.
  apply (append_refines sample_config 7 orders (py "fourth") log3 ∅).
  - apply log3_reachable.
  - apply topic_ok_orders.
  - by vm_compute.
  - by vm_compute.
Defined.

(** The offsets a batch gets: the running sum of the framed lengths. *)
Fixpoint batch_offsets (start : Z) (msgs : list (list Z)) : list Z :=
  match msgs with
  | [] => []
  | m :: msgs => start :: batch_offsets (start + (4 + zlen m)) msgs
  end.

(** [append_batch] appends the messages in order and returns the position of
    each. *)
Theorem append_batch_refines c now t msgs s h :
  log_reachable c s h → topic_ok t → Forall (λ m, zlen m < 2 ^ 32) msgs →
  log_end (reg s) t + recs_len msgs < 2 ^ 63 →
  ∃ s', LogManager.append_batch c now t msgs s
        = (Ok (batch_offsets (log_end (reg s) t) msgs), s') ∧
    log_inv s' h ∧ topic_log s' t = topic_log s t ++ msgs ∧
    log_end (reg s') t = log_end (reg s) t + recs_len msgs.
Proof.
  intros Hr%reachable_log_inv Ht Hm. revert now s Hr. unfold LogManager.append_batch.
  induction Hm as [|m msgs Hm Hms IH]; intros now s Hi He; cbn [write_batch].
  - exists s. cbn. rewrite app_nil_r, Z.add_0_r. done.
  - cbn [recs_len foldr] in He. fold (recs_len msgs) in He. pose proof (recs_len_nonneg msgs).
    destruct (write_ok (LogManager.policy c) (now 0%nat) t m s h Hi Ht Hm ltac:(lia))
      as (s1 & E1 & Hi1 & Hl1 & He1 & _).
    destruct (IH (λ i, now (S i)) s1 Hi1 ltac:(lia)) as (s2 & E2 & Hi2 & Hl2 & He2).
    exists s2. split; [|split; [done|split]].
    + run. rewrite E1. run. rewrite E2. run. by rewrite He1.
    + by rewrite Hl2, Hl1, <-app_assoc.
    + rewrite He2, He1. cbn. unfold recs_len. lia.
Qed.

Lemma append_batch_refines_witness :
  ∃ s', LogManager.append_batch sample_config (λ _, 0) orders [py "a"; py "bb"] log3
        = (Ok [28; 33], s') ∧
    log_inv s' ∅ ∧ topic_log s' orders = topic_log log3 orders ++ [py "a"; py "bb"] ∧
    log_end (reg s') orders = 28 + 11.
Proof.
  apply (append_batch_refines sample_config (λ _, 0) orders [py "a"; py "bb"] log3 ∅).
  - apply log3_reachable.
  - apply topic_ok_orders.
  - by repeat constructor.
  - by vm_compute.
Defined.

(** C14: a fetch at a message boundary returns the next whole messages: at least
    one, as many as fit in the requested size unless the first alone is larger, the
    offset behind them, and the end of the topic; it changes no topic. *)
Theorem fetch_refines c s h t pre rest size :
  log_reachable c s h → topic_log s t = pre ++ rest → rest ≠ [] →
  ∃ data got more s', LogManager.read_bytes t (recs_len pre) size s
      = (Ok (mkReadResultBytes data (recs_len (pre ++ got)) (recs_len (pre ++ rest))), s') ∧
    parse_records data = got ∧ rest = got ++ more ∧ got ≠ [] ∧
    (recs_len got ≤ size ∨ length got = 1%nat) ∧ log_inv s' h ∧
    ∀ t', topic_log s' t' = topic_log s t'.
Proof. intros Hr. apply fetch_ok, (reachable_log_inv c), Hr. Qed.

Lemma fetch_refines_witness :
  ∃ data got more s', LogManager.read_bytes orders 9 100 log3
      = (Ok (mkReadResultBytes data (recs_len ([py "first"] ++ got)) 28), s') ∧
    parse_records data = got ∧ [py "second"; py "third"] = got ++ more ∧ got ≠ [] ∧
    (recs_len got ≤ 100 ∨ length got = 1%nat) ∧ log_inv s' ∅ ∧
    ∀ t', topic_log s' t' = topic_log log3 t'.
Proof.
  apply (fetch_refines sample_config log3 ∅ orders [py "first"] [py "second"; py "third"] 100).
  - apply log3_reachable.
  - by vm_compute.
  - done.
Defined.

(** Within a segment the batch is exact: from the boundary behind [pre], [read]
    and [read_bytes] select the longest run of the segment's messages that fits in
    [size] bytes, or the first message when not even that one fits; the file slice
    [read] describes holds exactly these messages' frames. *)
Theorem batch_exact c s h t l m pre rest size :
  log_reachable c s h → registry (reg s) !! t = Some l → m ∈ l →
  seg_msgs (files (memory s)) m = pre ++ rest → rest ≠ [] →
  ∃ data, frames (batch size rest) = Ok data ∧
    (∃ s', LogManager.read_bytes t (base_offset m + recs_len pre) size s
       = (Ok (mkReadResultBytes data (base_offset m + recs_len pre + zlen data)
                (log_end (reg s) t)), s')) ∧
    (∃ e s', LogManager.read t (base_offset m + recs_len pre) size s
       = (Ok (mkReadResult (base_offset m + recs_len pre + zlen data) (log_end (reg s) t)
                (mkFileSlice (path m) (recs_len pre) (zlen data)) e), s') ∧
       take (length data) (drop (Z.to_nat (recs_len pre)) (file (files (memory s')) (path m)))
       = data ∧ log_inv s' ({[+ e +]} ⊎ h)).
Proof.
  intros Hr%reachable_log_inv Hl Hm Hseg Hne.
  destruct (read_bytes_ok s h t l m pre rest size Hr Hl Hm Hseg Hne) as (d1 & s1 & E1 & H1 & _).
  destruct (read_ok s h t l m pre rest size Hr Hl Hm Hseg Hne)
    as (d2 & e & s2 & E2 & H2 & Hf & Hi & _).
  assert (d2 = d1) as -> by congruence. exists d1. split; [done|]. split; eauto 10.
Qed.

Lemma batch_exact_witness :
  ∃ data, frames (batch 12 [py "second"]) = Ok data ∧
    (∃ s', LogManager.read_bytes orders 9 12 log3
       = (Ok (mkReadResultBytes data (9 + zlen data) 28), s')) ∧
    (∃ e s', LogManager.read orders 9 12 log3
       = (Ok (mkReadResult (9 + zlen data) 28
                (mkFileSlice (py "data/orders/00000000000000000000.log") 9 (zlen data)) e), s') ∧
       take (length data) (drop 9 (file (files (memory s'))
         (py "data/orders/00000000000000000000.log"))) = data ∧
       log_inv s' ({[+ e +]} ⊎ ∅)).
Proof.
  eapply (batch_exact sample_config log3 ∅ orders _
            (mkSegmentMeta orders 0 (py "data/orders/00000000000000000000.log") SEALED 0 19)
            [py "first"] [py "second"] 12).
  - apply log3_reachable.
  - vm_compute. reflexivity.
  - left.
  - by vm_compute.
  - done.
Defined.

(** All topics have the messages they had. *)
Definition same_messages (s s' : Log) : Prop := ∀ t, topic_log s' t = topic_log s t.

Lemma release_same s h e s' r :
  log_inv s h → e ∈ h → on_mem (_release_entry e) s = (r, s') → same_messages s s'.
Proof.
  intros Hr He E. assert (h = {[+ e +]} ⊎ (h ∖ {[+ e +]})) as Eh by multiset_solver. rewrite Eh in Hr.
  destruct (release_any_inv _ _ _ Hr) as [_ [_ Hl]]. rewrite E in Hl. exact Hl.
Qed.

Lemma call_grows c s h s' h' :
  log_reachable c s h → log_call c (s, h) (s', h') →
  log_reachable c s' h' ∧ ∀ t, topic_log s t `prefix_of` topic_log s' t.
Proof.
  intros Hr Hc. split.
  { destruct Hr as (Hcfg & now & fl & Hs). split; [done|]. exists now, fl. by eapply rtc_r. }
  apply reachable_log_inv in Hr. intros t'. inversion Hc; subst; clear Hc.
  - unfold LogManager.append in *.
    destruct (write_ok (LogManager.policy c) now t data s h' Hr) as (s1 & E & _ & Hl & _ & Ho); [done..|].
    assert (s1 = s') as -> by congruence.
    destruct (decide (t' = t)) as [->|Hne]; [rewrite Hl; by eexists|]. by destruct (Ho t' Hne) as [-> _].
  - destruct (create_topic_inv t s s' h' r Hr) as [_ Hl]; [done..|]. by rewrite Hl.
  - destruct (read_inv t off size s s' h r Hr) as [_ [_ Hl]]; [done..|]. by rewrite Hl.
  - destruct (read_bytes_inv t off size s s' h' r Hr) as [_ [_ Hl]]; [done..|]. by rewrite Hl.
  - assert (e ∈ ({[+ e +]} ⊎ h' : gmultiset nat)) as He by multiset_solver.
    match goal with E : on_mem _ s = _ |- _ => by rewrite (release_same _ _ _ _ _ Hr He E t') end.
  - destruct (cleanup_inv s s' h' r Hr) as [_ [_ Hl]]; [done..|]. by rewrite Hl.
Qed.

Lemma calls_grow c x y t :
  rtc (log_call c) x y → log_reachable c x.1 x.2 → topic_log x.1 t `prefix_of` topic_log y.1 t.
Proof.
  induction 1 as [x|[s h] [s' h'] z Hc _ IH]; intros Hr; [done|].
  destruct (call_grows _ _ _ _ _ Hr Hc) as [Hn Hp]. etrans; [apply Hp|by apply IH].
Qed.

(** C15: published messages are never lost or changed.  In every state that a history of
    calls leads to, an append adds exactly its message to its own topic and nothing to
    any other; creating a topic, fetching with any offset and size, whether that returns
    or raises, giving back a handle and cleaning up change the messages of no topic; and
    whatever calls follow, the messages of a topic extend those it has. *)
Theorem messages_are_stable c s h :
  log_reachable c s h →
  (∀ now t data off s', topic_ok t → zlen data < 2 ^ 32 → log_end (reg s) t < 2 ^ 63 →
     LogManager.append c now t data s = (Ok off, s') →
     topic_log s' t = topic_log s t ++ [data] ∧ ∀ t', t' ≠ t → topic_log s' t' = topic_log s t') ∧
  (∀ t r s', topic_ok t → LogManager.create_topic t s = (r, s') → same_messages s s') ∧
  (∀ t off size r s', LogManager.read t off size s = (r, s') → same_messages s s') ∧
  (∀ t off size r s', LogManager.read_bytes t off size s = (r, s') → same_messages s s') ∧
  (∀ e r s', e ∈ h → on_mem (_release_entry e) s = (r, s') → same_messages s s') ∧
  (∀ r s', on_mem cleanup_round s = (r, s') → same_messages s s') ∧
  ∀ s' h' t, rtc (log_call c) (s, h) (s', h') → topic_log s t `prefix_of` topic_log s' t.
Proof.
  intros Hreach. pose proof (reachable_log_inv _ _ _ Hreach) as Hr. split_and!.
  - intros now t data off s' Ht Hd He E. unfold LogManager.append in E.
    destruct (write_ok (LogManager.policy c) now t data s h Hr Ht Hd He) as (s1 & E1 & _ & Hl & _ & Ho).
    assert (s1 = s') as -> by congruence. split; [done|]. intros t' Hne. by destruct (Ho t' Hne).
  - intros t r s' Ht E. by destruct (create_topic_inv t s s' h r Hr Ht E).
  - intros t off size r s' E. by destruct (read_any_inv t off size s s' h r Hr E) as (_ & _ & _ & ?).
  - intros t off size r s' E. by destruct (read_bytes_inv t off size s s' h r Hr E) as [_ [_ ?]].
  - intros e r s' He E. by apply (release_same s h e s' r).
  - intros r s' E. by destruct (cleanup_inv s s' h r Hr E) as [_ [_ ?]].
  - intros s' h' t Hrun. exact (calls_grow c (s, h) (s', h') t Hrun Hreach).
Qed.

Definition log4 : Log := (LogManager.read_bytes orders (-1) 64 log3).2.
Definition log5 : Log := (LogManager.append sample_config 9 orders (py "fourth") log3).2.

Lemma messages_are_stable_witness :
  same_messages log3 log4 ∧ topic_log log5 orders = [py "first"; py "second"; py "third"; py "fourth"].
Proof.
  destruct (messages_are_stable sample_config log3 ∅ log3_reachable) as (Happend & _ & _ & Hread & _).
  split.
  - apply (Hread orders (-1) 64 (LogManager.read_bytes orders (-1) 64 log3).1). apply surjective_pairing.
  - destruct (Happend 9 orders (py "fourth") 28 log5) as [E _]; [apply topic_ok_orders|by vm_compute|by vm_compute| |].
    + vm_compute. reflexivity.
    + rewrite E. vm_compute. reflexivity.
Defined.

(** C16: the segments of a topic partition it: they start at 0, each begins where
    the one before ends, all but the last are sealed and the last is active, their
    files hold exactly the registered number of bytes of whole messages, and the
    topic's end offset is the length of all its frames. *)
Theorem segments_partition c s h t l :
  log_reachable c s h → registry (reg s) !! t = Some l →
  chained 0 l ∧ (∃ active, topic_segs l active) ∧ Forall (stored (files (memory s))) l ∧
  get_latest_offset (reg s) t = Ok (recs_len (topic_log s t)) ∧
  ∃ b, frames (topic_log s t) = Ok b.
Proof.
  intros Hr%reachable_log_inv Hl. destruct (topic_chain _ _ _ _ Hr Hl) as [Hc Hst].
  destruct (registry_active _ _ _ (proj1 Hr) Hl) as (a & Ha & _).
  split_and!; [done|by exists a|done| |].
  - by rewrite (log_end_latest _ _ _ (proj1 Hr) Hl), (topic_end_len s h).
  - rewrite (topic_log_lookup _ _ _ Hl). clear -Hst.
    induction Hst as [|m l [_ Hm] Hl IH]; [by exists []|]. destruct IH as [b Hb].
    cbn [map concat]. eexists. by apply frames_app.
Qed.

Lemma segments_partition_witness :
  (∃ l, registry (reg log3) !! orders = Some l ∧ chained 0 l ∧ length l = 2%nat) ∧
  get_latest_offset (reg log3) orders = Ok (recs_len (topic_log log3 orders)).
Proof.
  assert (∃ l, registry (reg log3) !! orders = Some l ∧ length l = 2%nat) as (l & Hl & Hn).
  { eexists. split; [vm_compute; reflexivity|done]. }
  destruct (segments_partition sample_config log3 ∅ orders l log3_reachable Hl)
    as (Hc & _ & _ & He & _).
  split; [exists l; auto|exact He].
Defined.

(** ** A collision of cache keys *)

(** Messages of six bytes in segments of 14 bytes: the second segment of ["a"]
    starts at 10 and has the key ["a10"], which is also that of the first segment
    of ["a1"]. *)
Definition collision_config : LogConfig := mkLogConfig (py "data") 1000 1000 14 64 64 10.
Definition collision : M Log bytes :=
  LogManager.append collision_config 0 (py "a1") (py "secret");;
  LogManager.append collision_config 0 (py "a") (py "000000");;
  LogManager.append collision_config 0 (py "a") (py "public");;
  r ← LogManager.read_bytes (py "a1") 0 100;
  mret (rb_data r).

(** Without the restriction on topic names the log is wrong: the cache key
    [topic + str(base_offset)] is ambiguous, so appending to topic "a" overwrites
    the message of topic "a1". *)
Theorem cache_key_collision :
  parse_records <$> (collision (LogManager.init collision_config 0 ∅)).1
  = Ok [py "public"].
Proof. by vm_compute. Qed.
