(* ===== verification/LogApi.v ===== *)
(** * The log as replication and the broker see it

    The operations other components call on a log manager, as a class with the
    laws their theorems rely on, and the log of [Log.v] as its instance. *)
From Stdlib Require Import String.
From stdpp Require Import sorting gmultiset.
From S2P Require Import Prelude PyData Parser RecordFacts Segment SegmentRegistry RegistryFacts SegmentMemory Log LogNames LogInv LogMemory LogWrite LogRead LogSteps.

(** [log_manager.get_latest_offset], [read_bytes], [read] and the [__exit__] of
    its result, [append] and [create_topic]. *)
Class LogApi (S : Type) := {
  api_latest : pystr → M S Z;
  api_read_bytes : pystr → Z → Z → M S ReadResultBytes;
  api_read : pystr → Z → Z → M S ReadResult;
  api_release : nat → S → S }.

(** What a state of the log holds, and what the operations promise about it.
    [api_holds h] says that the handles [h] that [read] returned are open, and maybe
    others. *)
Class LogLaws (S : Type) `{LogApi S} := {
  api_holds : gmultiset nat → S → Prop;
  api_log : S → pystr → list (list Z);
  api_exists : S → pystr → Prop;
  (** the bytes of the file at a path *)
  api_file : S → pystr → bytes;
  api_ok s := api_holds ∅ s;
  api_kept s s' := ∀ h, api_holds h s → api_holds h s';
  api_content s s' :=
    (∀ t, api_log s' t = api_log s t) ∧ (∀ t, api_exists s' t ↔ api_exists s t);
  api_same s s' := api_content s s' ∧ api_kept s s';
  api_holds_less h k s : api_holds (h ⊎ k) s → api_holds h s;
  (** the end of the topic is where its messages end *)
  api_latest_ok s t :
    api_ok s → api_exists s t → api_latest t s = (Ok (recs_len (api_log s t)), s);
  api_latest_unknown s t :
    api_ok s → ¬ api_exists s t → api_latest t s = (Raise (TopicDoesntExistsError t), s);
  (** a fetch at a boundary returns whole messages *)
  api_read_bytes_ok s t pre rest size :
    api_ok s → api_log s t = pre ++ rest → rest ≠ [] →
    ∃ data got more s', api_read_bytes t (recs_len pre) size s
        = (Ok (mkReadResultBytes data (recs_len (pre ++ got)) (recs_len (pre ++ rest))), s') ∧
      parse_records data = got ∧ rest = got ++ more ∧ got ≠ [] ∧ api_ok s' ∧
      zlen data = recs_len got;
  (** a fetch of a file slice does so as well: the slice is whole messages *)
  api_read_ok s t pre rest size :
    api_ok s → api_log s t = pre ++ rest → rest ≠ [] →
    ∃ r data got more s', api_read t (recs_len pre) size s = (Ok r, s') ∧
      let fs := file_slice r in
      take (Z.to_nat (fs_batch_size fs)) (drop (Z.to_nat (fs_offset fs)) (api_file s' (fs_filepath fs))) = data ∧
      fs_batch_size fs = zlen data ∧ 0 ≤ fs_offset fs ∧
      parse_records data = got ∧ rest = got ++ more ∧ got ≠ [] ∧ zlen data = recs_len got;
  (** a fetch at the end of the topic is refused *)
  api_read_bytes_end s t size :
    api_ok s → api_exists s t →
    api_read_bytes t (recs_len (api_log s t)) size s = (Raise ValueError, s);
  (** fetches and releases change no topic *)
  api_read_bytes_same s t off size r s' :
    api_ok s → api_read_bytes t off size s = (r, s') → api_same s s';
  api_read_same s t off size r s' :
    api_ok s → api_read t off size s = (r, s') → api_same s s';
  (** a fetch that returns opens a handle *)
  api_read_opens s t off size r s' h :
    api_holds h s → api_read t off size s = (Ok r, s') → api_holds ({[+ _release r +]} ⊎ h) s';
  api_release_ok s e h :
    api_holds ({[+ e +]} ⊎ h) s → api_holds h (api_release e s) ∧ api_content s (api_release e s);
  (** closing a handle writes to no file *)
  api_release_file s e h p : api_holds ({[+ e +]} ⊎ h) s → api_file (api_release e s) p = api_file s p }.

Section laws.
Context {S : Type} `{LogLaws S}.
Implicit Types s : S.

Lemma holds_ok h s : api_holds h s → api_ok s.
Proof. intros Hs. apply (api_holds_less ∅ h). by rewrite (left_id_L ∅ _). Qed.

Lemma kept_ok s s' : api_ok s → api_kept s s' → api_ok s'.
Proof. intros Hs Hk. by apply Hk. Qed.

#[export] Instance api_kept_preorder : PreOrder api_kept.
Proof. split; [by intros s h|]. intros a b c H1 H2 h Hh. auto. Qed.

#[export] Instance api_content_equiv : Equivalence api_content.
Proof.
  split.
  - by intros s.
  - intros s s' [Hl He]. split; intros t; symmetry; auto.
  - intros a b c [L1 E1] [L2 E2]. split; intros t; [by rewrite L2|by rewrite E2].
Qed.

#[export] Instance api_same_preorder : PreOrder api_same.
Proof. split; [by intros s|]. intros a b c [C1 K1] [C2 K2]. split; by etrans. Qed.

(** A handle that is released at once. *)
Lemma api_read_release s t off size r s' :
  api_ok s → api_read t off size s = (Ok r, s') → api_same s (api_release (_release r) s').
Proof.
  intros Hs E. destruct (api_read_same _ _ _ _ _ _ Hs E) as [Hc _].
  assert (∀ h, api_holds h s → api_holds h (api_release (_release r) s') ∧
    api_content s' (api_release (_release r) s')) as Hr.
  { intros h Hh. by apply api_release_ok, (api_read_opens _ _ _ _ _ _ _ Hh E). }
  split; [|intros h Hh; by apply Hr]. etrans; [exact Hc|]. by apply (Hr ∅).
Qed.
End laws.

#[export] Instance log_api : LogApi Log := {
  api_latest := LogManager.get_latest_offset;
  api_read_bytes := LogManager.read_bytes;
  api_read := LogManager.read;
  api_release e s := (on_mem (_release_entry e) s).2 }.

Lemma get_segment_end r t l :
  reg_inv r → registry r !! t = Some l → get_segment r t (log_end r t) = Raise ValueError.
Proof.
  intros Hr Hl. destruct (registry_active _ _ _ Hr Hl) as (a & _ & Ha & Hreg & _ & He).
  destruct (registered_ok r a Hr Hreg) as (_ & ? & ? & _).
  pose proof (ri_segs _ Hr _ _ Hl) as Hok.
  destruct (get_segment r t (log_end r t)) as [m|e] eqn:E.
  - exfalso. apply (get_segment_Ok r t l) in E as [Hm [_ Hlt]]; [|done..|].
    + apply list_elem_of_lookup_1 in Hm as [k Hk].
      destruct (last_end l k m t Hok Hk) as (x & Hx & Hle & _). simplify_eq. lia.
    + rewrite He. unfold get_end_offset. lia.
  - f_equal. by eapply get_segment_error.
Qed.

#[export] Instance log_laws : LogLaws Log.
Proof.
  refine {| api_holds := λ h s, ∃ k, log_inv s (h ⊎ k); api_log := topic_log;
            api_exists := λ s t, is_Some (registry (reg s) !! t);
            api_file := λ s, file (files (memory s)) |}.
  - intros h k s [k' Hi]. exists (k ⊎ k'). by rewrite (assoc_L (⊎)).
  - intros s t [h Hi] [l Hl]. cbn. unfold LogManager.get_latest_offset, on_reg. run.
    rewrite (log_end_latest _ _ l) by (done || apply Hi).
    rewrite (topic_end_len s (∅ ⊎ h)) by done. by destruct s.
  - intros s t _ Hn. cbn. unfold LogManager.get_latest_offset, on_reg. run.
    unfold SegmentRegistry.get_latest_offset.
    destruct (registry (reg s) !! t) eqn:Hl; [exfalso; apply Hn; eauto|]. by destruct s.
  - intros s t pre rest size [h Hi] Hl Hne.
    destruct (fetch_full s _ t pre rest size Hi Hl Hne)
      as (d & g & m & s' & E & ? & ? & ? & _ & Hi' & _ & ?).
    exists d, g, m, s'. split_and!; try done. by exists h.
  - intros s t pre rest size [h Hi] Hl Hne.
    destruct (fetch_file s _ t pre rest size Hi Hl Hne)
      as (r & data & got & more & s' & E & ? & ? & ? & ? & ? & ? & ?).
    by exists r, data, got, more, s'.
  - intros s t size [h Hi] [l Hl]. cbn. unfold LogManager.read_bytes, Log.read_bytes, on_reg. run.
    rewrite <-(topic_end_len s (∅ ⊎ h)) by done. rewrite (get_segment_end _ _ l) by (done || apply Hi).
    run. by destruct s.
  - intros s t off size r s' [h Hi] E. destruct (read_bytes_inv _ _ _ _ _ _ _ Hi E) as [_ [Hr Hl]].
    split; [split; [done|intros t'; by rewrite Hr]|].
    intros k [k' Hk]. exists k'. by destruct (read_bytes_inv _ _ _ _ _ _ _ Hk E).
  - intros s t off size r s' [h Hi] E.
    destruct (read_any_inv _ _ _ _ _ _ _ Hi E) as (_ & _ & Hr & Hl).
    split; [split; [done|intros t'; by rewrite Hr]|].
    intros k [k' Hk]. destruct (read_any_inv _ _ _ _ _ _ _ Hk E) as (h' & Hi' & _).
    exists (k' ⊎ h'). by rewrite (assoc_L (⊎)).
  - intros s t off size r s' h [k Hi] E.
    destruct (read_inv _ _ _ _ _ _ _ Hi E) as [Hi' _]. exists k. by rewrite <-(assoc_L (⊎)).
  - intros s e h [k Hi]. rewrite <-(assoc_L (⊎)) in Hi.
    destruct (release_any_inv _ _ _ Hi) as [Hi2 [Hr2 Hl2]]. cbn [api_release log_api].
    split; [by exists k|]. split; [done|]. intros t'. by rewrite Hr2.
  - intros s e h p [k Hi]. rewrite <-(assoc_L (⊎)) in Hi. cbn [api_release log_api].
    by rewrite (release_files _ _ _ Hi).
Defined.

Lemma log_ok s h : log_inv s h → api_ok s.
Proof. intros Hi. exists h. by rewrite (left_id_L ∅ _). Qed.

(** ** Appending *)

(** [log_manager.append], at the time given, and [log_manager.create_topic]. *)
Class LogAppend (S : Type) := {
  api_append : Z → pystr → bytes → M S Z;
  api_create_topic : pystr → M S unit }.

Class LogAppendLaws (S : Type) `{LogLaws S} `{LogAppend S} := {
  (** the topics and the messages the log takes *)
  api_topic : pystr → Prop;
  api_message (data : bytes) := zlen data < 2 ^ 32;
  (** an append adds exactly the message and returns where it starts *)
  api_append_ok s now t data :
    api_ok s → api_topic t → api_message data → recs_len (api_log s t) < 2 ^ 63 →
    ∃ s', api_append now t data s = (Ok (recs_len (api_log s t)), s') ∧ api_kept s s' ∧
      api_exists s' t ∧ api_log s' t = api_log s t ++ [data] ∧
      ∀ t', t' ≠ t → api_log s' t' = api_log s t' ∧ (api_exists s' t' ↔ api_exists s t');
  (** creating a topic makes it exist and changes no message *)
  api_create_topic_ok s t :
    api_ok s → api_topic t →
    ∃ s', api_create_topic t s = (Ok tt, s') ∧ api_kept s s' ∧
      (∀ t', api_log s' t' = api_log s t') ∧
      ∀ t', api_exists s' t' ↔ t' = t ∨ api_exists s t' }.

(** The log of a broker with configuration [c]. *)
Definition log_append (c : LogConfig) : LogAppend Log := {|
  api_append := LogManager.append c;
  api_create_topic := LogManager.create_topic |}.

#[export] Instance log_append_laws (c : LogConfig) : @LogAppendLaws Log _ _ (log_append c).
Proof.
  refine {| api_topic := topic_ok |}.
  - intros s now t data [h Hi] Ht Hd He. rewrite <-(topic_end_len s (∅ ⊎ h)) in * by done.
    destruct (write_full (LogManager.policy c) now t data s _ Hi Ht Hd He)
      as (s' & E & Hi' & Hl & Hend & Hother).
    exists s'. cbn. unfold LogManager.append. split_and!; [done| | |done|].
    + intros k [k' Hk]. exists k'.
      destruct (write_full (LogManager.policy c) now t data s _ Hk Ht Hd He) as (s2 & E2 & ? & _).
      rewrite E in E2. by injection E2 as <-.
    + destruct (registry (reg s') !! t) as [l|] eqn:Hr; [by exists l|]. exfalso.
      unfold log_end at 1 in Hend. rewrite Hr, (topic_end_len s (∅ ⊎ h)) in Hend by done.
      pose proof (recs_len_nonneg (topic_log s t)). lia.
    + intros t' Hne. destruct (Hother t' Hne) as [? Hr]. split; [done|]. by rewrite Hr.
  - intros s t [h [Hr Hi]] Ht. cbn. unfold LogManager.create_topic. rewrite run_unless_topic.
    unfold on_reg. run. destruct (registry (reg s) !! t) as [l|] eqn:Hl.
    + destruct (registry_active _ _ _ Hr Hl) as (a & _ & Ha & _).
      rewrite (get_active _ t l a) by done. run. exists s. split_and!; [by destruct s|done|done|].
      intros t'. split; [by right|]. intros [->|?]; [by rewrite Hl|done].
    + rewrite get_segment_unknown by done. run. cbn [reg memory].
      destruct (create_topic_spec _ _ _ t Hr Hi Ht Hl) as (p & E & Hr' & Hi'). rewrite E. run.
      eexists. split_and!; [reflexivity| | |].
      * intros k [k' [_ Hk]]. exists k'. destruct (create_topic_spec _ _ _ t Hr Hk Ht Hl) as (q & E2 & Hq).
        cbv zeta in *. rewrite E2 in E. injection E as <- _. exact Hq.
      * intros t'. unfold topic_log. cbn. destruct (decide (t' = t)) as [->|Hne].
        -- by rewrite lookup_insert_eq, Hl.
        -- by rewrite lookup_insert_ne.
      * intros t'. cbn. rewrite lookup_insert_is_Some'. naive_solver.
Defined.
