(* ===== verification/Leader.v ===== *)
(** * [replication/leader.py]

    The leader of a topic: what its followers have fetched, which of them are in
    sync, and the high watermark.  The log manager is any state with [LogApi];
    times are in microseconds.  A [defaultdict] that is read only by key is a
    finite map with the default on the outside.  [wait_for_hw] is a coroutine; the
    numbers in [hw_waiter_queue] are its futures. *)
From Stdlib Require Import String.
From S2P Require Import Prelude Coroutine Heapq PyData Messages Segment Log LogApi.

Record ReplicaLeader := mkReplicaLeader {
  topic : pystr;
  id : pystr;
  replica_list : list (list Z);
  min_isr_count : Z;
  max_isr_lag_ms : Z;
  in_sync_replica : list (list Z);
  replica_offset : gmap (list Z) Z;
  _high_watermark : Z;
  replica_last_caughtup : gmap (list Z) Z;
  hw_waiter_queue : list (Z * nat) }.

Definition offset_of (l : ReplicaLeader) (r : pystr) : Z := default 0 (replica_offset l !! r).
Definition caughtup_of (l : ReplicaLeader) (r : pystr) : Z :=
  default 0 (replica_last_caughtup l !! r).

Definition set_isr (isr : list (list Z)) (l : ReplicaLeader) : ReplicaLeader :=
  mkReplicaLeader (topic l) (id l) (replica_list l) (min_isr_count l) (max_isr_lag_ms l)
    isr (replica_offset l) (_high_watermark l) (replica_last_caughtup l)
    (hw_waiter_queue l).
Definition set_offset (r : pystr) (o : Z) (l : ReplicaLeader) : ReplicaLeader :=
  mkReplicaLeader (topic l) (id l) (replica_list l) (min_isr_count l) (max_isr_lag_ms l)
    (in_sync_replica l) (<[r := o]> (replica_offset l)) (_high_watermark l)
    (replica_last_caughtup l) (hw_waiter_queue l).
Definition set_hw (hw : Z) (l : ReplicaLeader) : ReplicaLeader :=
  mkReplicaLeader (topic l) (id l) (replica_list l) (min_isr_count l) (max_isr_lag_ms l)
    (in_sync_replica l) (replica_offset l) hw (replica_last_caughtup l) (hw_waiter_queue l).
Definition set_caughtup (r : pystr) (t : Z) (l : ReplicaLeader) : ReplicaLeader :=
  mkReplicaLeader (topic l) (id l) (replica_list l) (min_isr_count l) (max_isr_lag_ms l)
    (in_sync_replica l) (replica_offset l) (_high_watermark l)
    (<[r := t]> (replica_last_caughtup l)) (hw_waiter_queue l).
Definition set_waiters (q : list (Z * nat)) (l : ReplicaLeader) : ReplicaLeader :=
  mkReplicaLeader (topic l) (id l) (replica_list l) (min_isr_count l) (max_isr_lag_ms l)
    (in_sync_replica l) (replica_offset l) (_high_watermark l) (replica_last_caughtup l) q.

(** [min] of a non-empty list. *)
Definition py_min (x : Z) (l : list Z) : Z := foldr Z.min x l.

Section leader.
Context {S : Type} `{LogApi S}.

Definition on_leader {A} : M ReplicaLeader A → M (ReplicaLeader * S) A :=
  zoom fst (λ l x, (l, x.2)).
Definition on_log {A} : M S A → M (ReplicaLeader * S) A := zoom snd (λ s x, (x.1, s)).

Definition get_log_end_offset : M (ReplicaLeader * S) Z :=
  x ← get; on_log (api_latest (topic x.1)).

Definition _compute_high_watermark : M (ReplicaLeader * S) Z :=
  x ← get;
  match in_sync_replica x.1 with
  | [] => mret 0
  | _ :: _ =>
      leo ← get_log_end_offset;
      on_leader (modify (set_offset (id x.1) leo));;
      x ← get;
      match map (offset_of x.1) (in_sync_replica x.1) with
      | [] => raise ValueError
      | o :: os => mret (py_min o os)
      end
  end.

Definition get_high_watermark : M (ReplicaLeader * S) Z :=
  x ← get;
  computed ← _compute_high_watermark;
  let hw := Z.max (_high_watermark x.1) computed in
  on_leader (modify (set_hw hw));;
  mret hw.

(** The constructor, over the log it is given. *)
Definition new_leader (topic id : pystr) (replica_list : list (list Z))
    (min_isr_count max_isr_lag_ms : Z) : M S ReplicaLeader :=
  leo ← api_latest topic;
  (λ s : S,
     let l := mkReplicaLeader topic id replica_list min_isr_count max_isr_lag_ms [id]
                {[ id := leo ]} 0 ∅ [] in
     match _compute_high_watermark (l, s) with
     | (Ok hw, (l, s)) => (Ok (set_hw hw l), s)
     | (Raise e, (_, s)) => (Raise e, s)
     end) : M S ReplicaLeader.

(** [handle]: the answer to a follower's fetch. *)
Definition handle (now : Z) (cmd : Command) : M (ReplicaLeader * S) Response :=
  match cmd with
  | ReplicaFetchCommand topic offset size replica_id =>
      x ← get;
      if negb (bool_decide (replica_id ∈ replica_list x.1)) then raise UnauthorisedReplica
      else
        log_end_offset ← get_log_end_offset;
        high_watermark ← get_high_watermark;
        (if offset =? log_end_offset then on_leader (modify (set_caughtup replica_id now))
         else mret tt);;
        on_leader (modify (set_offset replica_id offset));;
        if size <=? 1024 then
          res ← on_log (api_read_bytes topic offset size);
          mret (ReplicaFetchBytesResponse topic log_end_offset high_watermark
                  (zlen (rb_data res)) (rb_data res))
        else
          res ← on_log (api_read topic offset size);
          finally
            (let fs := file_slice res in
             mret (ReplicaFetchFileResponse topic log_end_offset high_watermark
                     (fs_batch_size fs) (fs_filepath fs) (fs_offset fs) (fs_batch_size fs)))
            (λ x, (x.1, api_release (_release res) x.2))
  | _ => raise Exception
  end.
End leader.

(** ** The in-sync replicas *)

(** [list.remove(x)] *)
Fixpoint py_remove (x : pystr) (l : list (list Z)) : result (list (list Z)) :=
  match l with
  | [] => Raise ValueError
  | y :: l => if decide (x = y) then Ok l else r ← py_remove x l; Ok (y :: r)
  end.

(** [l.sort(key=key, reverse=True)]: descending, equal keys keep their order. *)
Fixpoint insert_desc (key : pystr → Z) (x : pystr) (l : list (list Z)) : list (list Z) :=
  match l with
  | [] => [x]
  | y :: l' => if key y <=? key x then x :: l else y :: insert_desc key x l'
  end.
Definition sort_desc (key : pystr → Z) (l : list (list Z)) : list (list Z) :=
  foldr (insert_desc key) [] l.

(** [while len(replica_list) and needed > 0]: the list is taken from its end, so
    it is given reversed. *)
Fixpoint fill_minimum (needed : nat) (rev_list new_isr_list : list (list Z))
    : list (list Z) * list (list Z) :=
  match rev_list, needed with
  | r :: rev_list, S needed => fill_minimum needed rev_list (new_isr_list ++ [r])
  | _, _ => (rev_list, new_isr_list)
  end.

(** [for replica_id in reversed(replica_list)]: up to the first that lags. *)
Fixpoint add_eligible (eligible : pystr → bool) (rev_list new_isr_list : list (list Z))
    : list (list Z) :=
  match rev_list with
  | r :: rev_list =>
      if eligible r then add_eligible eligible rev_list (new_isr_list ++ [r]) else new_isr_list
  | [] => new_isr_list
  end.

Definition _update_isr (now : Z) : M ReplicaLeader unit :=
  l ← get;
  let lag r := now - caughtup_of l r in
  rest ← lift (py_remove (id l) (replica_list l));
  let needed := Z.max 0 (min_isr_count l - 1) in
  let sorted := sort_desc lag rest in
  let '(remaining, new_isr_list) := fill_minimum (Z.to_nat needed) (rev sorted) [id l] in
  let new_isr_list :=
    add_eligible (λ r, lag r <=? max_isr_lag_ms l * second) remaining new_isr_list in
  modify (set_isr new_isr_list).

(** ** Producers that wait for the high watermark *)

(** The order of the tuples [(offset, fut)]: futures cannot be compared. *)
Definition waiter_lt (a b : Z * nat) : result bool :=
  if a.1 =? b.1 then if (a.2 =? b.2)%nat then Ok false else Raise TypeError else Ok (a.1 <? b.1).

(** [_notify_hw_waiters]; each round takes a waiter from the queue. *)
Fixpoint notify_loop (fuel : nat) (high_watermark : Z) : M (ReplicaLeader * Futures) unit :=
  match fuel with
  | O => mret tt
  | S fuel =>
      x ← get;
      match hw_waiter_queue x.1 with
      | (offset, _) :: _ =>
          if offset <=? high_watermark then
            p ← zoom fst (λ l x, (l, x.2)) (zoom hw_waiter_queue set_waiters (heappop waiter_lt));
            zoom snd (λ f x, (x.1, f)) (set_future p.2 (Ok tt));;
            notify_loop fuel high_watermark
          else mret tt
      | [] => mret tt
      end
  end.
Definition _notify_hw_waiters (high_watermark : Z) : M (ReplicaLeader * Futures) unit :=
  x ← get; notify_loop (length (hw_waiter_queue x.1)) high_watermark.

(** [close]: the waiters are told, in the order of the queue. *)
Fixpoint fail_waiters (q : list (Z * nat)) : M Futures unit :=
  match q with
  | [] => mret tt
  | (_, fut) :: q => set_future fut (Raise Exception);; fail_waiters q
  end.
Definition close_leader (l : ReplicaLeader) : M Futures unit := fail_waiters (hw_waiter_queue l).

Section waiting.
(** [self] is where the leader and its log are, [loop] where the futures are. *)
Context {S T : Type} `{LogApi S} (self : ∀ A, M (ReplicaLeader * S) A → M T A)
  (loop : ∀ A, M Futures A → M T A) (futures : T → Futures).

Definition wait_for_hw (offset : Z) : Co T unit :=
  hw ← atomic (self _ get_high_watermark);
  if offset <=? hw then mret tt
  else
    fut ← atomic (loop _ create_future);
    atomic (self _ (on_leader (zoom hw_waiter_queue set_waiters (heappush waiter_lt (offset, fut)))));;
    Await (λ x, is_done fut (futures x)) (atomic (loop _ (future_result fut))).
End waiting.
