(* ===== verification/LeaderTheorems.v ===== *)
(** * What the leader of a topic promises its followers and producers

    Proved against the interface of the log; the witnesses use the log itself. *)
From Stdlib Require Import String.
From stdpp Require Import sorting gmultiset.
From S2P Require Import Prelude PyData Messages Parser Segment SegmentRegistry SegmentMemory Log LogNames LogInv LogRead LogSteps LogTheorems LogApi Leader.

Lemma py_min_le x l y : y ∈ x :: l → py_min x l ≤ y.
Proof.
  unfold py_min. induction l as [|z l IH]; cbn; rewrite ?elem_of_cons, ?elem_of_nil.
  - naive_solver lia.
  - rewrite !elem_of_cons in IH. intros [->|[->|Hy]].
    + specialize (IH (or_introl eq_refl)). lia.
    + lia.
    + specialize (IH (or_intror Hy)). lia.
Qed.

Section leader_facts.
Context {S : Type} `{LogLaws S}.
Implicit Types (l : ReplicaLeader) (s : S).

(** The end of the leader's log. *)
Definition leo (l : ReplicaLeader) (s : S) : Z := recs_len (api_log s (topic l)).

Record leader_ok (l : ReplicaLeader) (s : S) : Prop := {
  lo_log : api_ok s;
  lo_topic : api_exists s (topic l);
  lo_isr : id l ∈ in_sync_replica l;
  lo_hw : _high_watermark l ≤ leo l s }.

Lemma log_end_run l s :
  leader_ok l s → get_log_end_offset (l, s) = (Ok (leo l s), (l, s)).
Proof.
  intros Hl. unfold get_log_end_offset, on_log. run. cbn [fst snd].
  by rewrite api_latest_ok by apply Hl.
Qed.

Lemma high_watermark_run l s :
  leader_ok l s →
  ∃ hw, get_high_watermark (l, s) = (Ok hw, (set_hw hw (set_offset (id l) (leo l s) l), s)) ∧
    _high_watermark l ≤ hw ≤ leo l s ∧
    (_high_watermark l < hw →
     ∀ r, r ∈ in_sync_replica l → hw ≤ offset_of (set_offset (id l) (leo l s) l) r).
Proof.
  intros Hl. unfold get_high_watermark, _compute_high_watermark. run. cbn [fst].
  destruct (in_sync_replica l) as [|r rs] eqn:Hisr.
  { exfalso. pose proof (lo_isr _ _ Hl) as Hi. rewrite Hisr in Hi. by apply not_elem_of_nil in Hi. }
  run. rewrite log_end_run by done. run. unfold on_leader. run. cbn [fst snd].
  set (l' := set_offset (id l) (leo l s) l).
  change (in_sync_replica l') with (in_sync_replica l). rewrite Hisr. cbn [map]. run.
  set (c := py_min _ _).
  assert (∀ x, x ∈ r :: rs → c ≤ offset_of l' x) as Hc.
  { intros x Hx. apply py_min_le. change (offset_of l' x ∈ map (offset_of l') (r :: rs)).
    apply list_elem_of_fmap_2. done. }
  assert (c ≤ leo l s) as Hle.
  { specialize (Hc (id l)). rewrite <-Hisr in Hc. specialize (Hc (lo_isr _ _ Hl)).
    unfold offset_of in Hc. cbn in Hc. by rewrite lookup_insert_eq in Hc. }
  pose proof (lo_hw _ _ Hl).
  eexists. split; [reflexivity|]. split; [lia|].
  intros Hlt x Hx. specialize (Hc x Hx). lia.
Qed.

(** ** Histories *)

(** The log of a topic only gets longer. *)
Definition extends (s s' : S) : Prop :=
  (∀ t, api_log s t `prefix_of` api_log s' t) ∧ (∀ t, api_exists s t → api_exists s' t).

Inductive leader_step : ReplicaLeader * S → ReplicaLeader * S → Prop :=
| leader_handle now cmd l s l' s' r :
    handle now cmd (l, s) = (r, (l', s')) → leader_step (l, s) (l', s')
| leader_high_watermark l s l' s' r :
    get_high_watermark (l, s) = (r, (l', s')) → leader_step (l, s) (l', s')
| leader_update_isr now l s l' r :
    _update_isr now l = (r, l') → leader_step (l, s) (l', s)
| leader_log l s s' :
    api_ok s' → extends s s' → leader_step (l, s) (l, s').

Lemma content_extends s s' : api_content s s' → extends s s'.
Proof. intros [Hl He]. split; [intros t; by rewrite Hl|intros t; apply He]. Qed.
Lemma same_extends s s' : api_same s s' → extends s s'.
Proof. intros [? _]. by apply content_extends. Qed.

Lemma leader_ok_extends l s s' :
  leader_ok l s → api_ok s' → extends s s' → leader_ok l s'.
Proof.
  intros [Hs Ht Hi Hw] Hs' [Hl He]. split; auto.
  destruct (Hl (topic l)) as [k E]. unfold leo in *. rewrite E, recs_len_app.
  pose proof (recs_len_nonneg k). lia.
Qed.

(** The fields a fetch may change do not matter to the invariant. *)
Lemma leader_ok_fields l l' s :
  topic l' = topic l → id l' = id l → in_sync_replica l' = in_sync_replica l →
  _high_watermark l' ≤ leo l s → leader_ok l s → leader_ok l' s.
Proof. intros Ht Hi Hr Hw [Hs He Hin _]. split; unfold leo in *; rewrite ?Ht, ?Hi, ?Hr; done. Qed.

Lemma update_isr_fields now l r l' :
  _update_isr now l = (r, l') →
  topic l' = topic l ∧ id l' = id l ∧ _high_watermark l' = _high_watermark l ∧
  (l' = l ∨ ∃ isr, in_sync_replica l' = id l :: isr).
Proof.
  unfold _update_isr. run. destruct (py_remove _ _) as [rest|e]; run; [|intros [= _ <-]; auto].
  cbv zeta.
  assert (∀ n rl acc, ∃ left more, fill_minimum n rl acc = (left, acc ++ more)) as H1.
  { induction n as [|n IH]; intros [|x rl] acc; cbn [fill_minimum];
      try (eexists _, []; by rewrite app_nil_r).
    destruct (IH rl (acc ++ [x])) as (a & b & ->). exists a, (x :: b). by rewrite <-app_assoc. }
  assert (∀ p rl acc, ∃ more, add_eligible p rl acc = acc ++ more) as H2.
  { intros p rl. induction rl as [|x rl IH]; intros acc; cbn; [exists []; by rewrite app_nil_r|].
    destruct (p x); [|exists []; by rewrite app_nil_r].
    destruct (IH (acc ++ [x])) as (b & ->). exists (x :: b). by rewrite <-app_assoc. }
  match goal with |- context [fill_minimum ?n ?rl ?acc] =>
    destruct (H1 n rl acc) as (rem & more & ->) end.
  run. intros [= _ <-]. cbn. split_and!; try done. right.
  match goal with |- context [add_eligible ?p ?rl ?acc] => destruct (H2 p rl acc) as (m2 & ->) end.
  by eexists.
Qed.

Lemma handle_fields now cmd l s r l' s' :
  leader_ok l s → handle now cmd (l, s) = (r, (l', s')) →
  leader_ok l' s' ∧ _high_watermark l ≤ _high_watermark l' ∧ topic l' = topic l ∧ api_same s s'.
Proof.
  intros Hl. assert (∀ x : ReplicaLeader * S, x = (l, s) →
    leader_ok x.1 x.2 ∧ _high_watermark l ≤ _high_watermark x.1 ∧ topic x.1 = topic l ∧ api_same s x.2)
    as Hsame.
  { intros _ ->. cbn. split; [done|]. split; [lia|]. by split. }
  destruct cmd as [| | | | | | | | |tp off size rid| | | | | |]; cbn [handle]; try (intros [= _ <- <-]; by apply (Hsame (l, s))).
  run. cbn [fst]. destruct (bool_decide _); cbn [negb]; [|intros [= _ <- <-]; by apply (Hsame (l, s))].
  run. rewrite log_end_run by done. run.
  destruct (high_watermark_run l s Hl) as (hw & E & Hhw & _). rewrite E. run.
  set (l1 := set_hw hw _) in *.
  assert (∀ l2 s2, topic l2 = topic l → id l2 = id l → in_sync_replica l2 = in_sync_replica l →
    _high_watermark l2 = hw → api_same s s2 →
    leader_ok l2 s2 ∧ _high_watermark l ≤ _high_watermark l2 ∧ topic l2 = topic l ∧ api_same s s2) as Hend.
  { intros l2 s2 ? ? ? Hw2 Hs2. pose proof (same_extends _ _ Hs2).
    split; [|split; [lia|auto]]. eapply leader_ok_extends; [|by eapply kept_ok; [apply Hl|apply Hs2]|done].
    eapply leader_ok_fields; [..|exact Hl]; auto. lia. }
  destruct (_ =? leo l s); unfold on_leader, on_log; run; cbn [fst snd];
    destruct (size <=? 1024); run; cbn [fst snd].
  1, 3: destruct (api_read_bytes _ _ _ _) as [[d|x] s2] eqn:Er; run; intros [= _ <- <-];
    apply Hend; try done; by eapply api_read_bytes_same; [apply Hl|].
  all: destruct (api_read _ _ _ _) as [[d|x] s2] eqn:Er; run; cbn [fst snd]; intros [= _ <- <-].
  1, 3: apply Hend; try done; by eapply api_read_release; [apply Hl|].
  all: apply Hend; try done; by eapply api_read_same; [apply Hl|].
Qed.

Lemma leader_step_ok l s l' s' :
  leader_step (l, s) (l', s') → leader_ok l s →
  leader_ok l' s' ∧ _high_watermark l ≤ _high_watermark l' ∧ topic l' = topic l ∧ extends s s'.
Proof.
  inversion 1 as [? ? ? ? ? ? ? E|? ? ? ? ? E|? ? ? ? ? E|? ? ? Ho He]; subst; intros Hl.
  - destruct (handle_fields _ _ _ _ _ _ _ Hl E) as (? & ? & ? & ?). by auto using same_extends.
  - destruct (high_watermark_run l s Hl) as (hw & E' & Hhw & _). rewrite E' in E.
    injection E as _ <- <-. split; [|split; [cbn; lia|split; [done|by split]]].
    eapply leader_ok_fields; [..|exact Hl]; auto. cbn. lia.
  - destruct (update_isr_fields _ _ _ _ E) as (Ht & Hi & Hw & [->|[isr Hr]]).
    + split; [done|]. split; [lia|]. split; [done|by split].
    + split; [|split; [lia|split; [done|by split]]]. destruct Hl as [Hs He Hin Hle].
      split; unfold leo in *; rewrite ?Ht, ?Hi, ?Hr, ?Hw; auto. left.
  - split; [by eapply leader_ok_extends|]. split; [lia|]. done.
Qed.
End leader_facts.

(** ** The in-sync list *)

Lemma insert_desc_perm key x l : insert_desc key x l ≡ₚ x :: l.
Proof.
  induction l as [|y l IH]; cbn; [done|]. case_match; [done|]. rewrite IH. apply Permutation_swap.
Qed.

Lemma sort_desc_perm key l : sort_desc key l ≡ₚ l.
Proof. induction l as [|x l IH]; cbn; [done|]. by rewrite insert_desc_perm, IH. Qed.

Definition desc (key : pystr → Z) (a b : list Z) : Prop := key b ≤ key a.

Lemma insert_desc_sorted key x l :
  StronglySorted (desc key) l → StronglySorted (desc key) (insert_desc key x l).
Proof.
  induction 1 as [|y l Hl IH Hy]; cbn; [repeat constructor|].
  destruct (Z.leb_spec (key y) (key x)).
  - constructor; [by constructor|]. constructor; [done|].
    eapply Forall_impl; [exact Hy|]. unfold desc. lia.
  - constructor; [done|]. rewrite insert_desc_perm. constructor; [unfold desc; lia|done].
Qed.

Lemma sort_desc_sorted key l : StronglySorted (desc key) (sort_desc key l).
Proof. induction l; cbn; [constructor|by apply insert_desc_sorted]. Qed.

Lemma py_remove_Ok x l r : py_remove x l = Ok r → l ≡ₚ x :: r.
Proof.
  revert r. induction l as [|y l IH]; intros r; cbn; [done|].
  case_decide as Hxy; [by intros [= <-]; subst|]. intros Hr. inv_ok.
  rewrite (IH _ Ha). apply Permutation_swap.
Qed.

Lemma py_remove_total x l : x ∈ l → is_Ok (py_remove x l).
Proof.
  induction l as [|y l IH]; [by intros ?%not_elem_of_nil|]. cbn.
  case_decide as Hxy; [by eexists|]. intros [?|Hx]%elem_of_cons; [done|].
  destruct (IH Hx) as [r ->]. by eexists.
Qed.

Lemma fill_minimum_eq n l acc :
  fill_minimum n l acc = (drop n l, acc ++ take n l).
Proof.
  revert l acc. induction n as [|n IH]; intros [|x l] acc; cbn [fill_minimum take drop];
    rewrite ?app_nil_r; try done. by rewrite IH, <-app_assoc.
Qed.

(** The longest prefix of eligible replicas. *)
Fixpoint take_while (p : pystr → bool) (l : list (list Z)) : list (list Z) :=
  match l with [] => [] | x :: l => if p x then x :: take_while p l else [] end.

Lemma add_eligible_eq p l acc : add_eligible p l acc = acc ++ take_while p l.
Proof.
  revert acc. induction l as [|x l IH]; intros acc; cbn; [by rewrite app_nil_r|].
  destruct (p x); [|by rewrite app_nil_r]. by rewrite IH, <-app_assoc.
Qed.

Definition asc (key : pystr → Z) (a b : list Z) : Prop := key a ≤ key b.

Lemma rev_desc_asc key l : StronglySorted (desc key) l → StronglySorted (asc key) (rev l).
Proof.
  induction 1 as [|x l Hl IH Hx]; cbn; [constructor|]. apply StronglySorted_app_2; [|done|by repeat constructor].
  intros a b Ha ->%list_elem_of_singleton. rewrite Forall_forall in Hx. apply Hx.
  apply list_elem_of_In, in_rev, list_elem_of_In. done.
Qed.

Lemma take_while_prefix p l : ∃ k, take_while p l = take k l ∧ (∀ x, x ∈ take k l → p x = true).
Proof.
  induction l as [|x l (k & Hk & Hp)]; cbn; [by exists 0%nat; split; [|intros ? ?%not_elem_of_nil]|].
  destruct (p x) eqn:E.
  - exists (S k). cbn. rewrite Hk. split; [done|]. intros y [->|?]%elem_of_cons; auto.
  - exists 0%nat. split; [done|]. by intros ? ?%not_elem_of_nil.
Qed.

(** On an ascending list, what [take_while] leaves out fails the test. *)
Lemma take_while_complete key mx l x :
  StronglySorted (asc key) l → x ∈ l → key x ≤ mx → x ∈ take_while (λ r, key r <=? mx) l.
Proof.
  induction 1 as [|y l Hl IH Hy]; [by intros ?%not_elem_of_nil|]. cbn.
  intros Hx Hk. assert (key y ≤ key x) as Hyx.
  { apply elem_of_cons in Hx as [->|Hx]; [lia|]. rewrite Forall_forall in Hy. by apply Hy. }
  replace (key y <=? mx) with true by lia. apply elem_of_cons in Hx as [->|Hx]; [left|right; auto].
Qed.

(** The new in-sync list in one formula. *)
Lemma update_isr_run now l :
  id l ∈ replica_list l →
  ∃ rest cand, replica_list l ≡ₚ id l :: rest ∧ cand ≡ₚ rest ∧
    let lag r := now - caughtup_of l r in
    let n := Z.to_nat (min_isr_count l - 1) in
    StronglySorted (asc lag) cand ∧
    _update_isr now l = (Ok tt, set_isr (id l :: take n cand ++
      take_while (λ r, lag r <=? max_isr_lag_ms l * second) (drop n cand)) l).
Proof.
  intros Hin. destruct (py_remove_total _ _ Hin) as [rest Hrest].
  set (lag := λ r, now - caughtup_of l r).
  exists rest, (rev (sort_desc lag rest)). split; [by apply py_remove_Ok|]. split.
  { etransitivity; [symmetry; apply Permutation_rev|apply sort_desc_perm]. }
  split; [apply rev_desc_asc, sort_desc_sorted|].
  unfold _update_isr. run. rewrite Hrest. run. cbv zeta. rewrite fill_minimum_eq. run.
  rewrite add_eligible_eq. fold lag.
  replace (Z.to_nat (Z.max 0 (min_isr_count l - 1))) with (Z.to_nat (min_isr_count l - 1)) by lia.
  by rewrite <-app_assoc.
Qed.

Lemma sorted_drop {A} (R : A → A → Prop) n (l : list A) :
  StronglySorted R l → StronglySorted R (drop n l).
Proof.
  intros Hl. revert n. induction Hl as [|x l Hl IH Hx]; intros [|n]; cbn; auto; by constructor.
Qed.

Lemma sorted_across {A} (R : A → A → Prop) n (l : list A) a b :
  StronglySorted R l → a ∈ take n l → b ∈ drop n l → R a b.
Proof.
  intros Hl. revert n. induction Hl as [|x l Hl IH Hx]; intros [|n]; cbn;
    try (intros ?%not_elem_of_nil; done).
  intros [->|Ha]%elem_of_cons Hb; [|by apply (IH n)]. rewrite Forall_forall in Hx. apply Hx.
  rewrite <-(take_drop n l), elem_of_app. by right.
Qed.

(** ** The properties *)

(** C30: recomputing the in-sync replicas puts the leader first and adds replicas of
    the topic without repetition: at least as many as the configured minimum asks
    for and the topic has, every one that caught up within the allowed lag, beyond
    the minimum only such ones, and never one that lags more than a replica left
    out. *)
Theorem update_isr_correct now l :
  NoDup (replica_list l) → id l ∈ replica_list l →
  let lag r := now - caughtup_of l r in
  ∃ chosen, _update_isr now l = (Ok tt, set_isr (id l :: chosen) l) ∧
    NoDup (id l :: chosen) ∧ (∀ r, r ∈ chosen → r ∈ replica_list l) ∧
    Z.min (min_isr_count l) (zlen (replica_list l)) ≤ zlen (id l :: chosen) ∧
    (∀ r, r ∈ replica_list l → r ≠ id l → lag r ≤ max_isr_lag_ms l * second → r ∈ chosen) ∧
    (∀ i r, chosen !! i = Some r → min_isr_count l - 1 ≤ Z.of_nat i →
       lag r ≤ max_isr_lag_ms l * second) ∧
    (∀ r q, r ∈ chosen → q ∈ replica_list l → q ∉ id l :: chosen → lag r ≤ lag q).
Proof.
  intros Hnd Hin lag. destruct (update_isr_run now l Hin) as (rest & cand & Hp & Hc & Hs & E).
  set (n := Z.to_nat (min_isr_count l - 1)) in *.
  set (elig := λ r, lag r <=? max_isr_lag_ms l * second).
  change (_update_isr now l = (Ok tt, set_isr (id l :: take n cand ++
            take_while elig (drop n cand)) l)) in E.
  destruct (take_while_prefix elig (drop n cand)) as (k & Hk & Hkp).
  assert (take n cand ++ take_while elig (drop n cand) = take (n + k) cand) as Ht.
  { by rewrite Hk, take_take_drop. }
  rewrite <-Hc in Hp. rewrite Hp in Hnd.
  assert (∀ r, r ∈ replica_list l ↔ r = id l ∨ r ∈ cand) as Hmem.
  { intros r. by rewrite Hp, elem_of_cons. }
  assert (∀ r, r ∈ take (n + k) cand → r ∈ cand) as Hsub.
  { intros r Hr. rewrite <-(take_drop (n + k) cand), elem_of_app. by left. }
  exists (take (n + k) cand). rewrite Ht in E. split; [exact E|].
  apply NoDup_cons in Hnd as [Hid Hnd].
  split_and!.
  - apply NoDup_cons. split; [by intros ?%Hsub|]. eapply sublist_NoDup; [exact Hnd|].
    apply sublist_take.
  - intros r Hr. apply Hmem. auto.
  - rewrite Hp. cbn [length]. rewrite length_take. lia.
  - intros r Hr Hne Hlag. apply Hmem in Hr as [?|Hr]; [done|]. rewrite <-Ht.
    rewrite <-(take_drop n cand) in Hr. apply elem_of_app in Hr as [Hr|Hr];
      apply elem_of_app; [by left|right].
    apply (take_while_complete lag); [by apply sorted_drop|done|done].
  - intros i r Hr Hi. rewrite <-Ht in Hr. rewrite lookup_app_r in Hr.
    2: { rewrite length_take. lia. }
    assert (elig r = true) as He; [|unfold elig in He; lia].
    apply Hkp. rewrite <-Hk. by eapply list_elem_of_lookup_2.
  - intros r q Hr Hq Hnq. apply Hmem in Hq as [->|Hq]; [exfalso; apply Hnq; left|].
    apply (sorted_across (asc lag) (n + k) cand); [done|done|].
    rewrite <-(take_drop (n + k) cand) in Hq. apply elem_of_app in Hq as [Hq|]; [|done].
    exfalso. apply Hnq. by right.
Qed.

Definition sample_leader : ReplicaLeader :=
  mkReplicaLeader orders (py "b1") [py "b1"; py "b2"; py "b3"; py "b4"] 2 10 [py "b1"]
    {[ py "b1" := 28 ]} 9 {[ py "b2" := 5 * second; py "b4" := 18 * second; py "b3" := 9 * second ]} [].

Lemma update_isr_correct_witness :
  ∃ chosen, _update_isr (20 * second) sample_leader
            = (Ok tt, set_isr (py "b1" :: chosen) sample_leader) ∧
    NoDup (py "b1" :: chosen) ∧ (∀ r, r ∈ chosen → r ∈ replica_list sample_leader) ∧
    Z.min 2 4 ≤ zlen (py "b1" :: chosen) ∧
    (∀ r, r ∈ replica_list sample_leader → r ≠ py "b1" →
       20 * second - caughtup_of sample_leader r ≤ 10 * second → r ∈ chosen) ∧
    (∀ i r, chosen !! i = Some r → 1 ≤ Z.of_nat i →
       20 * second - caughtup_of sample_leader r ≤ 10 * second) ∧
    (∀ r q, r ∈ chosen → q ∈ replica_list sample_leader → q ∉ py "b1" :: chosen →
       20 * second - caughtup_of sample_leader r ≤ 20 * second - caughtup_of sample_leader q).
Proof.
  apply (update_isr_correct (20 * second) sample_leader).
  - apply (bool_decide_unpack _). by vm_compute.
  - left.
Defined.

(** Over any history of fetches, recomputations of the in-sync list and growth of
    the log, the high watermark never goes back and never passes the end of the
    leader's log. *)
Theorem high_watermark_monotone {S} `{LogLaws S} (l l' : ReplicaLeader) (s s' : S) :
  leader_ok l s → rtc leader_step (l, s) (l', s') →
  _high_watermark l ≤ _high_watermark l' ≤ recs_len (api_log s' (topic l')).
Proof.
  intros Hl Hs. assert (∀ x y : ReplicaLeader * S, rtc leader_step x y → leader_ok x.1 x.2 →
    leader_ok y.1 y.2 ∧ _high_watermark x.1 ≤ _high_watermark y.1) as Hrtc.
  { induction 1 as [x|[l1 s1] [l2 s2] y Hxy Hyz IH]; intros Hx; [split; [done|lia]|].
    destruct (leader_step_ok _ _ _ _ Hxy Hx) as (H2 & Hw & _). destruct (IH H2) as [? ?].
    split; [done|]. cbn in *. lia. }
  destruct (Hrtc _ _ Hs Hl) as [Hl' Hw]. split; [exact Hw|]. apply (lo_hw _ _ Hl').
Qed.

Lemma log3_ok : api_ok log3.
Proof.
  eapply log_ok, (reachable_log_inv sample_config), log3_reachable.
Qed.

Lemma sample_leader_ok : leader_ok sample_leader log3.
Proof.
  split; [apply log3_ok| |left|by vm_compute].
  change (is_Some (registry (reg log3) !! orders)). eexists. vm_compute. reflexivity.
Qed.

Lemma high_watermark_monotone_witness :
  9 ≤ _high_watermark (set_isr [py "b1"; py "b4"; py "b3"] sample_leader)
    ≤ recs_len (api_log log3 orders).
Proof.
  apply (high_watermark_monotone sample_leader (set_isr [py "b1"; py "b4"; py "b3"] sample_leader) log3 log3).
  - apply sample_leader_ok.
  - eapply rtc_l; [|reflexivity].
    eapply (leader_update_isr (19 * second)). by vm_compute.
Defined.

(** C29: what the high watermark covers is replicated: whenever [get_high_watermark]
    advances it, every replica in sync has fetched up to it, and the leader has it
    in its own log. *)
Theorem high_watermark_replicated {S} `{LogLaws S} (l : ReplicaLeader) (s : S) :
  leader_ok l s →
  ∃ hw l', get_high_watermark (l, s) = (Ok hw, (l', s)) ∧ _high_watermark l' = hw ∧
    hw ≤ recs_len (api_log s (topic l)) ∧ in_sync_replica l' = in_sync_replica l ∧
    (_high_watermark l < hw → ∀ r, r ∈ in_sync_replica l → hw ≤ offset_of l' r) ∧
    (∀ r, r ≠ id l → offset_of l' r = offset_of l r).
Proof.
  intros Hl. destruct (high_watermark_run l s Hl) as (hw & E & Hle & Hall).
  do 2 eexists. split; [exact E|]. split_and!; try done; [apply Hle|].
  intros r Hr. unfold offset_of. cbn. by rewrite lookup_insert_ne.
Qed.

Lemma high_watermark_replicated_witness :
  ∃ hw l', get_high_watermark (sample_leader, log3) = (Ok hw, (l', log3)) ∧
    _high_watermark l' = hw ∧ hw ≤ recs_len (api_log log3 orders) ∧
    in_sync_replica l' = [py "b1"] ∧
    (9 < hw → ∀ r, r ∈ [py "b1"] → hw ≤ offset_of l' r) ∧
    (∀ r, r ≠ py "b1" → offset_of l' r = offset_of sample_leader r).
Proof. apply (high_watermark_replicated sample_leader log3), sample_leader_ok. Defined.

Lemma rest_nonempty_len pre rest : rest ≠ [] → recs_len pre < recs_len (pre ++ rest).
Proof.
  intros Hne. rewrite recs_len_app. destruct rest as [|m rest]; [done|]. cbn.
  pose proof (recs_len_nonneg rest). unfold recs_len in *. lia.
Qed.

(** An authorised follower that fetches (up to a kilobyte) from a message boundary
    gets whole messages from there on, with the leader's log end and a high
    watermark that has not gone back; its offset is recorded and it is not yet
    counted as caught up. *)
Theorem follower_fetch {S} `{LogLaws S} now (l : ReplicaLeader) (s : S) pre rest size replica_id :
  leader_ok l s → replica_id ∈ replica_list l → size ≤ 1024 →
  api_log s (topic l) = pre ++ rest → rest ≠ [] →
  ∃ data got more hw l' s',
    handle now (ReplicaFetchCommand (topic l) (recs_len pre) size replica_id) (l, s)
    = (Ok (ReplicaFetchBytesResponse (topic l) (recs_len (pre ++ rest)) hw (zlen data) data),
       (l', s')) ∧
    parse_records data = got ∧ rest = got ++ more ∧ got ≠ [] ∧
    _high_watermark l ≤ hw ≤ recs_len (pre ++ rest) ∧ _high_watermark l' = hw ∧
    offset_of l' replica_id = recs_len pre ∧
    replica_last_caughtup l' = replica_last_caughtup l.
Proof.
  intros Hl Hr Hsize Hlog Hne.
  destruct (high_watermark_run l s Hl) as (hw & E & Hle & _).
  destruct (api_read_bytes_ok s (topic l) pre rest size (lo_log _ _ Hl) Hlog Hne)
    as (data & got & more & s' & Er & Hp & Hrest & Hgot & _).
  unfold leo in *. rewrite Hlog in *. pose proof (rest_nonempty_len pre rest Hne).
  do 6 eexists. split.
  - cbn [handle]. run. cbn [fst]. rewrite bool_decide_eq_true_2 by done. cbn [negb]. run.
    rewrite log_end_run by done. run. rewrite E. run. unfold leo. rewrite Hlog.
    replace (_ =? _) with false by lia. run. unfold on_leader, on_log. run. cbn [fst snd].
    replace (size <=? 1024) with true by lia. run. cbn [fst snd]. rewrite Er. run. reflexivity.
  - cbn. split_and!; try done; try lia. unfold offset_of. cbn. by rewrite lookup_insert_eq.
Qed.

Lemma follower_fetch_witness :
  ∃ data got more hw l' s',
    handle 0 (ReplicaFetchCommand orders 9 512 (py "b2")) (sample_leader, log3)
    = (Ok (ReplicaFetchBytesResponse orders 28 hw (zlen data) data), (l', s')) ∧
    parse_records data = got ∧ [py "second"; py "third"] = got ++ more ∧ got ≠ [] ∧
    9 ≤ hw ≤ 28 ∧ _high_watermark l' = hw ∧ offset_of l' (py "b2") = 9 ∧
    replica_last_caughtup l' = replica_last_caughtup sample_leader.
Proof.
  apply (follower_fetch 0 sample_leader log3 [py "first"] [py "second"; py "third"] 512 (py "b2")).
  - apply sample_leader_ok.
  - apply (bool_decide_unpack _). by vm_compute.
  - by vm_compute.
  - by vm_compute.
  - done.
Defined.

(** The fetches a leader refuses: a command that is not a fetch raises
    [Exception] and a replica outside the topic's list [UnauthorisedReplica], both
    without a change; a follower that has everything is recorded as caught up and
    then gets [ValueError] instead of an empty answer. *)
Theorem fetch_refused {S} `{LogLaws S} now (l : ReplicaLeader) (s : S) size replica_id off t :
  leader_ok l s →
  handle now PingCommand (l, s) = (Raise Exception, (l, s)) ∧
  (replica_id ∉ replica_list l →
   handle now (ReplicaFetchCommand t off size replica_id) (l, s)
   = (Raise UnauthorisedReplica, (l, s))) ∧
  (replica_id ∈ replica_list l → size ≤ 1024 →
   ∃ l', handle now (ReplicaFetchCommand (topic l) (recs_len (api_log s (topic l))) size replica_id)
           (l, s) = (Raise ValueError, (l', s)) ∧
     caughtup_of l' replica_id = now ∧
     offset_of l' replica_id = recs_len (api_log s (topic l))).
Proof.
  intros Hl. split; [done|]. split.
  - intros Hr. cbn [handle]. run. cbn [fst]. by rewrite bool_decide_eq_false_2.
  - intros Hr Hsize. destruct (high_watermark_run l s Hl) as (hw & E & _).
    eexists. split.
    + cbn [handle]. run. cbn [fst]. rewrite bool_decide_eq_true_2 by done. cbn [negb]. run.
      rewrite log_end_run by done. run. rewrite E. run. unfold leo. rewrite Z.eqb_refl.
      unfold on_leader, on_log. run. cbn [fst snd].
      replace (size <=? 1024) with true by lia. run. cbn [fst snd].
      rewrite api_read_bytes_end by apply Hl. run. reflexivity.
    + unfold caughtup_of, offset_of. cbn. by rewrite !lookup_insert_eq.
Qed.

Lemma fetch_refused_witness :
  ∃ l', handle 77 (ReplicaFetchCommand orders 28 512 (py "b2")) (sample_leader, log3)
        = (Raise ValueError, (l', log3)) ∧
    caughtup_of l' (py "b2") = 77 ∧ offset_of l' (py "b2") = 28.
Proof.
  apply (fetch_refused 77 sample_leader log3 512 (py "b2") 0 orders sample_leader_ok);
    [|by vm_compute].
  apply (bool_decide_unpack _). by vm_compute.
Defined.
