(* ===== verification/Fetcher.v ===== *)
(** * [replication/fetcher.py]

    The follower's side of replication: one connection to the leader, one fetch after
    the other.  What arrives on the connection is a list of bytes. *)
From Stdlib Require Import String.
From S2P Require Import Prelude Framer Messages Encoder Parser Segment Log LogApi.

Record ReplicaFetcher := mkReplicaFetcher {
  f_topic : pystr;
  f_log_end_offset : Z;
  f_fetch_size : Z;
  f_broker_id : pystr;
  f_pool_wait : Z;
  f_running : bool }.

Definition set_log_end_offset (o : Z) (f : ReplicaFetcher) : ReplicaFetcher :=
  mkReplicaFetcher (f_topic f) o (f_fetch_size f) (f_broker_id f) (f_pool_wait f) (f_running f).
(** [close]; the connection is not part of the state. *)
Definition close_fetcher (f : ReplicaFetcher) : ReplicaFetcher :=
  mkReplicaFetcher (f_topic f) (f_log_end_offset f) (f_fetch_size f) (f_broker_id f)
    (f_pool_wait f) false.

(** [fetch_data]: the request, and the payload behind the header of the answer. *)
Definition fetch_command (f : ReplicaFetcher) : Command :=
  ReplicaFetchCommand (f_topic f) (f_log_end_offset f) (f_fetch_size f) (f_broker_id f).
Definition fetch_request (f : ReplicaFetcher) : result EncodedFrame :=
  encode_command (packet (fetch_command f)) true.
Definition fetch_data (stream : bytes) : result (bytes * bytes) :=
  '(data, stream) ← read_packet stream;
  header_resp ← parse_response data;
  match body header_resp with
  | ReplicaFetchHeaderResponse _ _ _ payload_length => readexactly payload_length stream
  | _ => Raise AssertionError
  end.

Section fetcher.
Context {S : Type} `{LogApi S} `{LogAppend S}.

(** [__init__]: [self.log_manager] is used before it is assigned. *)
Definition new_fetcher (topic broker_id : pystr) (fetch_size pool_wait : Z) : M S ReplicaFetcher :=
  let self_log_manager : option unit := None in
  log_end_offset ← catch (lift (or_raise self_log_manager AttributeError);; api_latest topic)
    (λ e, match e with
          | KeyError => Some (mret 0)
          | _ => if is_ValueError e then Some (mret 0) else None
          end);
  mret (mkReplicaFetcher topic log_end_offset fetch_size broker_id pool_wait true).

(** One round of [run]: also an empty answer is appended, after a pause. *)
Definition fetch_round (now : Z) (stream : bytes) : M (ReplicaFetcher * S) bytes :=
  '(data, stream) ← lift (fetch_data stream);
  x ← get;
  res_offset ← zoom snd (λ s x, (x.1, s)) (api_append now (f_topic x.1) data);
  modify (λ x, (set_log_end_offset (res_offset + zlen data) x.1, x.2));;
  mret stream.
End fetcher.
