(* ===== verification/Replicas.v ===== *)
(** * [replication/manager.py]

    The roles of a broker: for every topic it leads it has a leader, for every other
    replica a fetcher.  [TopicState] objects are shared between the dictionary, the
    coroutine that changes roles and the requests that use a leader, so they live in
    a heap ([objects]).  An [await] that may suspend is a [pause]; the connection to
    another broker is a parameter. *)
From Stdlib Require Import String.
From S2P Require Import Prelude Coroutine PyData PyDict Messages Segment Log LogApi Leader Fetcher.

Record ReplicaConfig := mkReplicaConfig {
  rc_id : pystr;
  rc_fetch_size : Z;
  rc_pool_wait : Z;
  rc_min_isr_count : Z;
  rc_max_isr_lag_ms : Z }.

Inductive Role := LEADER | FOLLOWER.

#[export] Instance Role_eq_dec : EqDecision Role.
Proof. solve_decision. Defined.

(** The task of [_leader_loop]. *)
Inductive LoopTask := Looping | Cancelled | Died (e : exn).

#[export] Instance LoopTask_eq_dec : EqDecision LoopTask.
Proof. solve_decision. Defined.

Record TopicState := mkTopicState {
  ts_topic : pystr;
  ts_role : Role;
  ts_leader_id : pystr;
  ts_leader_addr : pystr;
  ts_leader_port : Z;
  ts_replicas : list (list Z);
  ts_version : Z;
  ts_leader : option ReplicaLeader;
  ts_fetcher : option ReplicaFetcher;
  ts_loop_task : option LoopTask;
  ts_running : bool }.

Definition set_leader (l : ReplicaLeader) (x : TopicState) : TopicState :=
  mkTopicState (ts_topic x) (ts_role x) (ts_leader_id x) (ts_leader_addr x) (ts_leader_port x)
    (ts_replicas x) (ts_version x) (Some l) (ts_fetcher x) (ts_loop_task x) (ts_running x).
Definition set_fetcher (f : ReplicaFetcher) (x : TopicState) : TopicState :=
  mkTopicState (ts_topic x) (ts_role x) (ts_leader_id x) (ts_leader_addr x) (ts_leader_port x)
    (ts_replicas x) (ts_version x) (ts_leader x) (Some f) (ts_loop_task x) (ts_running x).
Definition set_loop_task (t : LoopTask) (x : TopicState) : TopicState :=
  mkTopicState (ts_topic x) (ts_role x) (ts_leader_id x) (ts_leader_addr x) (ts_leader_port x)
    (ts_replicas x) (ts_version x) (ts_leader x) (ts_fetcher x) (Some t) (ts_running x).
Definition set_running (b : bool) (x : TopicState) : TopicState :=
  mkTopicState (ts_topic x) (ts_role x) (ts_leader_id x) (ts_leader_addr x) (ts_leader_port x)
    (ts_replicas x) (ts_version x) (ts_leader x) (ts_fetcher x) (ts_loop_task x) b.

Definition same_set (l k : list (list Z)) : bool :=
  forallb (λ x, bool_decide (x ∈ k)) l && forallb (λ x, bool_decide (x ∈ l)) k.

Definition compare_meta (x y : TopicState) : bool :=
  bool_decide (ts_topic x = ts_topic y) && bool_decide (ts_role x = ts_role y) &&
  bool_decide (ts_leader_id x = ts_leader_id y) &&
  bool_decide (ts_leader_addr x = ts_leader_addr y) &&
  (ts_leader_port x =? ts_leader_port y) && same_set (ts_replicas x) (ts_replicas y).

Record ReplicaManager := mkReplicaManager {
  config : ReplicaConfig;
  objects : list TopicState;
  topics : list (list Z * nat) }.

Definition broker_id (m : ReplicaManager) : pystr := rc_id (config m).

(** The manager with the futures of the event loop and the log. *)
Record Replication (S : Type) := mkReplication {
  manager : ReplicaManager;
  waits : Futures;
  log : S }.
Arguments mkReplication {S}.
Arguments manager {S}.
Arguments waits {S}.
Arguments log {S}.

Definition new_replication {S} (c : ReplicaConfig) (s : S) : Replication S :=
  mkReplication (mkReplicaManager c [] []) no_futures s.

Section manager.
Context {S : Type} `{LogApi S} `{LogAppend S}.
Context (open_connection : pystr → Z → result unit).

Definition on_manager {A} : M ReplicaManager A → M (Replication S) A :=
  zoom manager (λ m x, mkReplication m (waits x) (log x)).
Definition on_waits {A} : M Futures A → M (Replication S) A :=
  zoom waits (λ w x, mkReplication (manager x) w (log x)).
Definition on_log {A} : M S A → M (Replication S) A :=
  zoom log (λ s x, mkReplication (manager x) (waits x) s).

(** A reference is an index into [objects]; there are no dangling ones. *)
Definition deref (r : nat) : M (Replication S) TopicState :=
  reads (λ x, or_raise (objects (manager x) !! r) AttributeError).
Definition assign (r : nat) (f : TopicState → TopicState) : M (Replication S) unit :=
  on_manager (modify (λ m, mkReplicaManager (config m) (alter f r (objects m)) (topics m))).
Definition new_object (st : TopicState) : M (Replication S) nat :=
  x ← get;
  on_manager (modify (λ m, mkReplicaManager (config m) (objects m ++ [st]) (topics m)));;
  mret (length (objects (manager x))).
Definition set_topics (f : list (list Z * nat) → list (list Z * nat)) : M (Replication S) unit :=
  on_manager (modify (λ m, mkReplicaManager (config m) (objects m) (f (topics m)))).
Definition find_topic (t : pystr) : M (Replication S) (option nat) :=
  reads (λ x, Ok (dict_get (topics (manager x)) t)).

(** A method of the leader of [r]; [assert state.leader is not None]. *)
Definition on_leader_of (r : nat) (A : Type) (m : M (ReplicaLeader * S) A) : M (Replication S) A :=
  st ← deref r;
  l ← lift (or_raise (ts_leader st) AssertionError);
  x ← get;
  match m (l, log x) with
  | (a, (l, s)) => assign r (set_leader l);; on_log (put s);; lift a
  end.

(** ** Starting and closing *)

(** The background loop is stopped before the fetcher and the leader are closed. *)
Definition stop_loop (r : nat) : Co (Replication S) unit :=
  state ← atomic (deref r);
  match ts_loop_task state with
  | Some t =>
      atomic (match t with Looping => assign r (set_loop_task Cancelled) | _ => mret tt end);;
      pause;;
      state ← atomic (deref r);
      match ts_loop_task state with Some (Died e) => Done (Raise e) | _ => mret tt end
  | None => mret tt
  end.

Definition close_parts (r : nat) : Co (Replication S) unit :=
  state ← atomic (deref r);
  match ts_fetcher state with
  | Some f => atomic (assign r (set_fetcher (close_fetcher f)));; pause
  | None => mret tt
  end;;
  state ← atomic (deref r);
  match ts_leader state with Some l => atomic (on_waits (close_leader l)) | None => mret tt end.

Definition _close_state (r : nat) : Co (Replication S) unit :=
  atomic (assign r (set_running false));;
  stop_loop r;;
  close_parts r.

Definition del_topic (t : pystr) : M (Replication S) unit :=
  r ← find_topic t;
  match r with Some _ => set_topics (λ d, dict_del d t) | None => raise KeyError end.

Definition _remove_topic (t : pystr) : Co (Replication S) bool :=
  r ← atomic (find_topic t);
  match r with
  | None => mret false
  | Some r => _close_state r;; atomic (del_topic t);; mret true
  end.

Definition _start_topic (r : nat) : Co (Replication S) unit :=
  state ← atomic (deref r);
  atomic (on_log (api_create_topic (ts_topic state)));;
  c ← atomic (reads (λ x, Ok (config (manager x))));
  match ts_role state with
  | LEADER =>
      atomic (l ← on_log (new_leader (ts_topic state) (rc_id c) (ts_replicas state)
                            (rc_min_isr_count c) (rc_max_isr_lag_ms c));
              assign r (set_leader l);;
              assign r (set_running true);;
              assign r (set_loop_task Looping))
  | FOLLOWER =>
      co_catch
        (pause;;
         atomic (lift (open_connection (ts_leader_addr state) (ts_leader_port state)));;
         f ← atomic (on_log (new_fetcher (ts_topic state) (rc_id c) (rc_fetch_size c) (rc_pool_wait c)));
         atomic (assign r (set_fetcher f));;
         atomic (assign r (set_running true)))
        (λ _, Some (mret tt))
  end.

(** ** Metadata from the controller *)

Definition meta_state (broker_id : pystr) (meta : TopicMeta) : TopicState :=
  mkTopicState (tm_topic meta)
    (if bool_decide (tm_leader_id meta = broker_id) then LEADER else FOLLOWER)
    (tm_leader_id meta) (tm_leader_addr meta) (tm_leader_port meta) (tm_replica_list meta)
    (tm_version meta) None None None false.

Definition apply_metadata (meta : TopicMeta) : Co (Replication S) unit :=
  id ← atomic (reads (λ x, Ok (broker_id (manager x))));
  if negb (bool_decide (id ∈ tm_replica_list meta)) then
    _remove_topic (tm_topic meta);; mret tt
  else
    (* a value until it is stored: nobody else refers to it before *)
    let st := meta_state id meta in
    let replace :=
      r ← atomic (new_object st);
      atomic (set_topics (λ d, dict_set d (ts_topic st) r));;
      _start_topic r in
    old ← atomic (find_topic (ts_topic st));
    match old with
    | None => replace
    | Some old =>
        old_state ← atomic (deref old);
        if tm_version meta <=? ts_version old_state then mret tt
        else if compare_meta st old_state then mret tt
        else _close_state old;; replace
    end.

Fixpoint apply_all (metas : list TopicMeta) : Co (Replication S) unit :=
  match metas with
  | [] => mret tt
  | meta :: metas => apply_metadata meta;; apply_all metas
  end.

Fixpoint remove_all (ts : list (list Z)) : Co (Replication S) unit :=
  match ts with
  | [] => mret tt
  | t :: ts => _remove_topic t;; remove_all ts
  end.

Definition apply_metadata_list (metas : list TopicMeta) : Co (Replication S) unit :=
  old_topics ← atomic (reads (λ x, Ok (dict_keys (topics (manager x)))));
  remove_all (filter (λ t, t ∉ tm_topic <$> metas) old_topics);;
  apply_all metas.

Definition close_topic (t : pystr) : Co (Replication S) unit :=
  r ← atomic (find_topic t);
  match r with Some _ => _remove_topic t;; mret tt | None => mret tt end.

Definition close_all : Co (Replication S) unit :=
  topic_list ← atomic (reads (λ x, Ok (dict_keys (topics (manager x)))));
  remove_all topic_list.

(** ** Requests *)

(** [get_leader]: the object whose leader it returns. *)
Definition get_leader (t : pystr) : M (Replication S) nat :=
  r ← find_topic t;
  match r with
  | None => raise Exception
  | Some r =>
      state ← deref r;
      match ts_role state, ts_leader state with
      | LEADER, Some _ => mret r
      | _, _ => raise Exception
      end
  end.

(** The topic of a [ReplicaCommand]. *)
Definition replica_topic (cmd : Command) : option (list Z) :=
  match cmd with
  | ReplicaCommand t | ReplicaFetchCommand t _ _ _ => Some t
  | _ => None
  end.

Definition handle (now : Z) (cmd : Command) : M (Replication S) Response :=
  t ← lift (or_raise (replica_topic cmd) AttributeError);
  r ← find_topic t;
  match r with
  | None => raise Exception
  | Some r =>
      state ← deref r;
      match ts_role state with
      | FOLLOWER => raise Exception
      | LEADER => on_leader_of r _ (Leader.handle now cmd)
      end
  end.

(** One round of [_leader_loop]; the coroutine that [on_isr_change] makes is not
    awaited, so it never runs. *)
Definition leader_round (now : Z) (r : nat) : M (Replication S) unit :=
  state ← deref r;
  match ts_loop_task state, ts_role state with
  | Some Looping, LEADER =>
      if ts_running state then
        catch (on_leader_of r _ (Leader.on_leader (_update_isr now)))
              (λ e, Some (assign r (set_loop_task (Died e))))
      else mret tt
  | _, _ => mret tt
  end.

(** A producer waits for the high watermark of the leader of [r]. *)
Definition wait_hw (r : nat) (offset : Z) : Co (Replication S) unit :=
  wait_for_hw (on_leader_of r) (@on_waits) waits offset.
End manager.
