(* ===== verification/ReplicasFacts.v ===== *)
(** * The replica manager, one call at a time

    The invariant of the manager with its log, what may change while a coroutine is
    suspended, and that every call respects both, whatever runs in between. *)
From Stdlib Require Import String.
From stdpp Require Import sorting.
From S2P Require Import Prelude Coroutine Heapq PyData PyDict Messages Parser RecordFacts Segment SegmentMemory Log LogRead LogApi Leader LeaderTheorems Fetcher Replicas.

(** ** What the calls of a leader keep *)

Section leader.
Context {S : Type} `{LogApi S}.

Definition same_leader (l l' : ReplicaLeader) : Prop :=
  topic l' = topic l ∧ id l' = id l ∧ replica_list l' = replica_list l.

#[export] Instance same_leader_refl : Reflexive same_leader.
Proof. done. Qed.
#[export] Instance same_leader_trans : Transitive same_leader.
Proof. intros l1 l2 l3 (? & ? & ?) (? & ? & ?). repeat split; congruence. Qed.

Lemma get_high_watermark_same (l : ReplicaLeader) (s : S) r l' s' :
  get_high_watermark (l, s) = (r, (l', s')) → same_leader l l'.
Proof.
  unfold get_high_watermark, _compute_high_watermark, get_log_end_offset, Leader.on_log, Leader.on_leader. run.
  cbn [fst snd]. destruct (in_sync_replica l); run.
  - by intros [= _ <- _].
  - cbn [fst snd]. destruct (api_latest _ _) as [[o|e] s1]; run; cbn [fst snd]; [|by intros [= _ <- _]].
    destruct (map _ _); run; by intros [= _ <- _].
Qed.

Lemma handle_same now cmd (l : ReplicaLeader) (s : S) r l' s' :
  Leader.handle now cmd (l, s) = (r, (l', s')) → same_leader l l'.
Proof.
  destruct cmd as [| | | | | | | | |tp off size rid| | | | | |]; cbn [Leader.handle]; try (by intros [= _ <- _]).
  run. cbn [fst]. destruct (negb _); [by intros [= _ <- _]|].
  run. unfold get_log_end_offset. run. unfold Leader.on_log. run. cbn [fst snd].
  destruct (api_latest _ _) as [[o|e] s1]; run; cbn [fst snd]; [|by intros [= _ <- _]].
  destruct (get_high_watermark _) as [[hw|e] [l1 s2]] eqn:Ehw; run;
    apply get_high_watermark_same in Ehw; [|by intros [= _ <- _]].
  intros E. transitivity l1; [done|]. revert E. unfold Leader.on_leader.
  destruct (off =? o); run; cbn [fst snd]; destruct (size <=? 1024); run; cbn [fst snd].
  all: match goal with |- context [api_read_bytes ?a ?b ?c ?d] => destruct (api_read_bytes a b c d) as [[?|?] ?]
       | |- context [api_read ?a ?b ?c ?d] => destruct (api_read a b c d) as [[?|?] ?] end;
       run; by intros [= _ <- _].
Qed.
End leader.

Lemma update_isr_same now l r l' : _update_isr now l = (r, l') → same_leader l l'.
Proof.
  unfold _update_isr. run. destruct (py_remove _ _); run; [|by intros [= _ <-]].
  destruct (fill_minimum _ _ _). run. by intros [= _ <-].
Qed.

Section facts.
Context {S : Type} `{LogAppendLaws S}.
Implicit Types (x y : Replication S) (st : TopicState) (l : ReplicaLeader).

(** ** The invariant *)

Record state_ok (id : pystr) (s : S) st : Prop := {
  so_role : ts_role st = LEADER ↔ ts_leader_id st = id;
  so_member : id ∈ ts_replicas st;
  so_leader l : ts_leader st = Some l →
    leader_ok l s ∧ topic l = ts_topic st ∧ Leader.id l = id ∧
    replica_list l = ts_replicas st ∧ ts_role st = LEADER;
  so_fetcher : ts_fetcher st = None;
  so_loop e : ts_loop_task st ≠ Some (Died e);
  so_task : ts_loop_task st = Some Looping → is_Some (ts_leader st) }.

Record manager_ok x : Prop := {
  mo_log : api_ok (log x);
  mo_dict : dict_ok (topics (manager x));
  mo_objects r st :
    objects (manager x) !! r = Some st → state_ok (broker_id (manager x)) (log x) st;
  mo_topics t r : dict_get (topics (manager x)) t = Some r →
    ∃ st, objects (manager x) !! r = Some st ∧ ts_topic st = t ∧
      (ts_role st = LEADER → is_Some (ts_leader st));
  mo_names t r : dict_get (topics (manager x)) t = Some r → api_topic t }.

(** ** What changes with time *)

Definition leader_later (o o' : option ReplicaLeader) : Prop :=
  ∀ l, o = Some l → ∃ l', o' = Some l' ∧ _high_watermark l ≤ _high_watermark l'.

Record state_later st st' : Prop := {
  sl_topic : ts_topic st' = ts_topic st;
  sl_role : ts_role st' = ts_role st;
  sl_version : ts_version st' = ts_version st;
  sl_leader : leader_later (ts_leader st) (ts_leader st') }.

Record later x y : Prop := {
  la_config : config (manager y) = config (manager x);
  la_log : extends (log x) (log y);
  la_objects r st : objects (manager x) !! r = Some st →
    ∃ st', objects (manager y) !! r = Some st' ∧ state_later st st' }.

#[export] Instance extends_preorder : PreOrder (@extends S _ _).
Proof.
  split.
  - intros s. by split.
  - intros a b c [P1 E1] [P2 E2]. split; [intros t; etrans; [apply P1|apply P2]|auto].
Qed.

#[export] Instance leader_later_preorder : PreOrder leader_later.
Proof.
  split.
  - intros o l ->. exists l. split; [done|lia].
  - intros a b c L1 L2 l Hl. destruct (L1 l Hl) as (l1 & E & ?). destruct (L2 l1 E) as (l2 & ? & ?).
    exists l2. split; [done|lia].
Qed.

#[export] Instance state_later_preorder : PreOrder state_later.
Proof.
  split; [by intros st|]. intros a b c [] []. split; [congruence..|by etrans].
Qed.

#[export] Instance later_preorder : PreOrder later.
Proof.
  split.
  - intros x. split; [done..|]. intros r st Hst. exists st. by split.
  - intros x y z [C1 L1 O1] [C2 L2 O2]. split; [congruence|by etrans|].
    intros r st Hst. destruct (O1 r st Hst) as (st1 & E1 & ?). destruct (O2 r st1 E1) as (st2 & E2 & ?).
    exists st2. split; [done|by etrans].
Qed.

Lemma later_broker x y : later x y → broker_id (manager y) = broker_id (manager x).
Proof. intros Hl. unfold broker_id. by rewrite (la_config _ _ Hl). Qed.

Lemma state_ok_extends id s s' st :
  state_ok id s st → api_ok s' → extends s s' → state_ok id s' st.
Proof.
  intros [Hr Hm Hl Hf Hp Hk] Hs He. split; try done. intros l El.
  destruct (Hl l El) as (? & ?). split; [by eapply leader_ok_extends|done].
Qed.

(** What a part of a coroutine of the manager does: it may create topics, but no
    message comes or goes and open handles stay open. *)
Definition own x y : Prop :=
  later x y ∧ (∀ t, api_log (log y) t = api_log (log x) t) ∧ api_kept (log x) (log y).

#[export] Instance own_preorder : PreOrder own.
Proof.
  split; [by intros x|]. intros x y z (L1 & E1 & K1) (L2 & E2 & K2).
  split; [by etrans|]. split; [|by etrans]. intros t. by rewrite E2.
Qed.

Lemma own_later x y : own x y → later x y.
Proof. by intros [? _]. Qed.
Lemma later_trans x y z : later x y → later y z → later x z.
Proof. apply transitivity. Qed.
Lemma own_trans x y z : own x y → own y z → own x z.
Proof. apply transitivity. Qed.
Lemma own_refl x : own x x.
Proof. reflexivity. Qed.
Lemma later_refl x : later x x.
Proof. reflexivity. Qed.

(** Put the steps of a part and the suspensions together. *)
Ltac chain := solve [eauto 6 using own_trans, later_trans, own_later, own_refl, later_refl].
Ltac fin := first [done|chain].

(** ** Atomic steps *)

(** An object changes into one that is as good and later. *)
Lemma assign_ok x r f :
  manager_ok x →
  (∀ st, objects (manager x) !! r = Some st → state_later st (f st) ∧
     state_ok (broker_id (manager x)) (log x) (f st)) →
  ∃ x', assign r f x = (Ok tt, x') ∧ manager_ok x' ∧ own x x' ∧ log x' = log x ∧
    objects (manager x') = alter f r (objects (manager x)) ∧ topics (manager x') = topics (manager x).
Proof.
  intros [Hl Hd Ho Ht Hn] Hf. unfold assign, on_manager. run. eexists. split; [reflexivity|]. cbn.
  assert (∀ r' st, objects (manager x) !! r' = Some st →
    ∃ st', alter f r (objects (manager x)) !! r' = Some st' ∧ state_later st st' ∧
      state_ok (broker_id (manager x)) (log x) st') as Hall.
  { intros r' st Hst. destruct (decide (r = r')) as [->|Hne].
    - exists (f st). rewrite list_lookup_alter_eq, Hst. cbn. split; [done|]. by apply Hf.
    - exists st. rewrite list_lookup_alter_ne by done. split_and!; [done|done|by eapply Ho]. }
  split_and!; try done.
  - split; cbn; try done.
    + intros r' st' Hst'. destruct (objects (manager x) !! r') as [st|] eqn:E.
      * destruct (Hall r' st E) as (st2 & E2 & _ & ?).
        assert (st' = st2) as -> by congruence. done.
      * apply lookup_ge_None in E. apply lookup_lt_Some in Hst'. rewrite length_alter in Hst'. lia.
    + intros t r' Hr'. destruct (Ht t r' Hr') as (st & E & Et & Hlead).
      destruct (Hall r' st E) as (st' & E' & [Et' Er' _ Hl'] & _). exists st'.
      split_and!; [done|congruence|]. rewrite Er'. intros [l El]%Hlead.
      destruct (Hl' l El) as (? & ? & _). eauto.
  - split; [|done]. split; cbn; [done..|]. intros r' st E. destruct (Hall r' st E) as (st' & ? & ? & _). eauto.
Qed.

Lemma waits_ok x (w : Futures) :
  manager_ok x → manager_ok (mkReplication (manager x) w (log x)) ∧
  own x (mkReplication (manager x) w (log x)).
Proof.
  intros [Hl Hd Ho Ht Hn]. split; [by split|]. split; [|done]. split; [done..|]. intros r st Hst. exists st. by split.
Qed.

(** The log grows. *)
Lemma log_grows x s' :
  manager_ok x → api_ok s' → extends (log x) s' →
  manager_ok (mkReplication (manager x) (waits x) s') ∧
  later x (mkReplication (manager x) (waits x) s').
Proof.
  intros [Hl Hd Ho Ht Hn] Hs He. split.
  - split; cbn; try done. intros r st Hst. eapply state_ok_extends; eauto.
  - split; cbn; [done..|]. intros r st Hst. exists st. by split.
Qed.

Lemma topics_ok x d :
  manager_ok x → dict_ok d →
  (∀ t r, dict_get d t = Some r → dict_get (topics (manager x)) t = Some r ∨
     api_topic t ∧ ∃ st, objects (manager x) !! r = Some st ∧ ts_topic st = t ∧
       (ts_role st = LEADER → is_Some (ts_leader st))) →
  let x' := mkReplication (mkReplicaManager (config (manager x)) (objects (manager x)) d)
              (waits x) (log x) in
  manager_ok x' ∧ own x x'.
Proof.
  intros [Hl Hd Ho Ht Hn] Hd' Hnew. cbn. split.
  - split; cbn; try done; intros t r Hr; destruct (Hnew t r Hr) as [Hold|[? ?]];
      [by apply Ht|done|by eapply Hn|done].
  - split; [|done]. split; cbn; [done..|]. intros r st Hst. exists st. by split.
Qed.

(** ** Calls of a leader *)

Definition leader_call {A} (m : M (ReplicaLeader * S) A) : Prop :=
  ∀ l s a l' s', leader_ok l s → m (l, s) = (a, (l', s')) →
    leader_ok l' s' ∧ _high_watermark l ≤ _high_watermark l' ∧ same_leader l l' ∧ api_same s s'.

Lemma on_leader_of_ok {A} x r (m : M (ReplicaLeader * S) A) a x' :
  manager_ok x → leader_call m → on_leader_of r A m x = (a, x') → manager_ok x' ∧ own x x'.
Proof.
  intros Hx Hm. unfold on_leader_of, deref. run.
  destruct (objects (manager x) !! r) as [st|] eqn:Hst; cbn [or_raise]; [|by intros [= _ <-]]. run.
  destruct (ts_leader st) as [l|] eqn:Hl; cbn [or_raise]; run; [|by intros [= _ <-]].
  pose proof (mo_objects _ Hx _ _ Hst) as Hok. destruct (so_leader _ _ _ Hok l Hl) as (Hlo & Ht & Hid & Hrl & Hrole).
  destruct (m (l, log x)) as [b [l' s']] eqn:Em.
  destruct (Hm _ _ _ _ _ Hlo Em) as (Hlo' & Hhw & (Ht' & Hid' & Hrl') & Hex).
  destruct (log_grows x s' Hx (lo_log _ _ Hlo') (same_extends _ _ Hex)) as [G1 L1].
  destruct (assign_ok _ r (set_leader l') G1) as (x2 & E2 & G2 & L2 & _).
  { cbn. intros st2 Hst2. assert (st2 = st) as -> by congruence. split.
    - split; cbn; try done. intros l2 E. exists l'. split; [done|]. by simplify_eq.
    - pose proof (mo_objects _ G1 r st Hst) as [Hr Hmem Hle Hfe Hlt]. split; try done.
      cbn. intros l2 [= <-]. split_and!; [done|congruence..|done]. }
  unfold assign, on_manager in E2 |- *. run. run_in E2. unfold on_log. run.
  injection E2 as E2. cbn in E2 |- *. rewrite E2. intros [= _ <-]. split; [done|].
  etrans; [|exact L2]. split; [done|]. split; [apply Hex|apply Hex].
Qed.

Lemma leader_handle_call now cmd : leader_call (Leader.handle now cmd).
Proof.
  intros l s a l' s' Hl E. destruct (handle_fields _ _ _ _ _ _ _ Hl E) as (? & ? & _ & ?).
  split_and!; try done; by apply (handle_same _ _ _ _ _ _ _ E).
Qed.

Lemma leader_isr_call now : leader_call (Leader.on_leader (_update_isr now)).
Proof.
  intros l s a l' s' Hl. unfold Leader.on_leader. run. cbn [fst snd].
  destruct (_update_isr now l) as [b l2] eqn:E. intros [= _ <- <-].
  destruct (leader_step_ok _ _ _ _ (leader_update_isr now l s l2 b E) Hl) as (? & ? & _ & ?).
  split_and!; try done; by apply (update_isr_same _ _ _ _ E).
Qed.

Lemma leader_hw_call : leader_call get_high_watermark.
Proof.
  intros l s a l' s' Hl E.
  destruct (leader_step_ok _ _ _ _ (leader_high_watermark l s l' s' a E) Hl) as (? & ? & _ & _).
  destruct (high_watermark_run l s Hl) as (hw & E' & _). rewrite E' in E.
  pose proof (get_high_watermark_same _ _ _ _ _ E') as Hsame. injection E as _ <- <-. by split_and!.
Qed.

Lemma leader_queue_call w :
  leader_call (Leader.on_leader (zoom hw_waiter_queue set_waiters (heappush waiter_lt w))).
Proof.
  intros l s a l' s' Hl. unfold Leader.on_leader. run. cbn [fst snd].
  destruct (heappush _ _ _) as [b q]. intros [= _ <- <-].
  split_and!; [|cbn; lia|done..]. eapply leader_ok_fields; [..|exact Hl]; auto. apply Hl.
Qed.

(** The constructor: alone in sync, the watermark at the end of its log. *)
Lemma new_leader_ok s t id rl mi ml :
  api_ok s → api_exists s t →
  ∃ l, new_leader t id rl mi ml s = (Ok l, s) ∧ leader_ok l s ∧
    topic l = t ∧ Leader.id l = id ∧ replica_list l = rl ∧
    _high_watermark l = recs_len (api_log s t) ∧ in_sync_replica l = [id] ∧ hw_waiter_queue l = [].
Proof.
  intros Hs Ht. unfold new_leader. run. rewrite api_latest_ok by done.
  unfold _compute_high_watermark. run. cbn [fst snd in_sync_replica].
  unfold get_log_end_offset, Leader.on_log, Leader.on_leader. run. cbn [fst snd topic].
  rewrite api_latest_ok by done. run. cbn.
  eexists. split; [reflexivity|]. unfold set_hw, set_offset, offset_of. cbn.
  rewrite lookup_insert_eq. cbn. split; [|done].
  split; [done|done|by left|unfold leo; cbn; lia].
Qed.

(** ** Coroutines *)

(** A suspension, or the end of a part. *)
Lemma wp_pause_ok x0 x Q :
  manager_ok x → own x0 x → (∀ x', manager_ok x' → later x x' → Q x' (Ok tt) x') →
  wp manager_ok own later x0 pause x Q.
Proof. intros. apply wp_pause. auto. Qed.

Lemma deref_run x r st : objects (manager x) !! r = Some st → deref r x = (Ok st, x).
Proof. intros E. unfold deref. run. by rewrite E. Qed.

(** Marking an object closed. *)
Lemma mark_ok x r f :
  manager_ok x → is_Some (objects (manager x) !! r) →
  (∀ st, f st = set_running false st ∨ f st = set_loop_task Cancelled st) →
  ∃ x', assign r f x = (Ok tt, x') ∧ manager_ok x' ∧ own x x' ∧
    is_Some (objects (manager x') !! r).
Proof.
  intros Hx [st Hst] Hf. destruct (assign_ok x r f Hx) as (x' & E & Hx' & Hl & _ & Eo & _).
  { intros st2 Hst2. pose proof (mo_objects _ Hx _ _ Hst2) as [].
    destruct (Hf st2) as [-> | ->]; (split; [by split|by split]). }
  exists x'. split_and!; try done. rewrite Eo, list_lookup_alter_eq, Hst. by eexists.
Qed.

Lemma later_object x y r :
  later x y → is_Some (objects (manager x) !! r) → is_Some (objects (manager y) !! r).
Proof. intros [_ _ Ho] [st Hst]. destruct (Ho r st Hst) as (st' & ? & _). by exists st'. Qed.

(** What is known when a call returns. *)
Abbreviation wp_to x0 c x Q :=
  (manager_ok x → own x0 x →
   (∀ x1 a y, manager_ok y → own x1 y → later x y → Q x1 a y) → wp manager_ok own later x0 c x Q)
  (only parsing).

Lemma stop_loop_wp r x0 x Q : is_Some (objects (manager x) !! r) → wp_to x0 (stop_loop r) x Q.
Proof.
  intros [st Hst] Hx Hl HQ. unfold stop_loop.
  apply wp_bind. rewrite wp_atomic, (deref_run _ _ _ Hst). cbn [fst snd].
  destruct (ts_loop_task st) as [t|]; [|rewrite wp_ret; (apply HQ; fin)].
  apply wp_bind. rewrite wp_atomic.
  assert (∃ x2, (match t with Looping => assign r (set_loop_task Cancelled) | _ => mret tt end) x
            = (Ok tt, x2) ∧ manager_ok x2 ∧ own x x2) as (x2 & E2 & Hx2 & Hl2).
  { destruct t; [|by exists x..].
    destruct (mark_ok x r (set_loop_task Cancelled) Hx) as (x2 & ? & ? & ? & _); [by eexists|auto|].
    by exists x2. }
  rewrite E2. cbn [fst snd]. apply wp_bind. apply wp_pause_ok; [done|chain|].
  intros y Hy Hly. assert (later x y) as Hxy by chain.
  destruct (later_object x y r Hxy) as [st2 Hst2]; [by eexists|].
  apply wp_bind. rewrite wp_atomic, (deref_run _ _ _ Hst2). cbn [fst snd].
  pose proof (so_loop _ _ _ (mo_objects _ Hy _ _ Hst2)) as Hdied.
  destruct (ts_loop_task st2) as [[| |e]|]; try (by destruct (Hdied e)); rewrite wp_ret; (apply HQ; fin).
Qed.

Lemma close_parts_wp r x0 x Q : is_Some (objects (manager x) !! r) → wp_to x0 (close_parts r) x Q.
Proof.
  intros [st Hst] Hx Hl HQ. unfold close_parts.
  apply wp_bind. rewrite wp_atomic, (deref_run _ _ _ Hst). cbn [fst snd].
  rewrite (so_fetcher _ _ _ (mo_objects _ Hx _ _ Hst)).
  apply wp_bind. rewrite wp_ret. apply wp_bind. rewrite wp_atomic, (deref_run _ _ _ Hst). cbn [fst snd].
  destruct (ts_leader st) as [l|]; [|rewrite wp_ret; (apply HQ; fin)].
  rewrite wp_atomic. unfold on_waits. run. destruct (close_leader l (waits x)) as [a w]. cbn [fst snd].
  destruct (waits_ok x w Hx) as [? ?]. apply HQ; fin.
Qed.

Lemma close_state_wp r x0 x Q : is_Some (objects (manager x) !! r) → wp_to x0 (_close_state r) x Q.
Proof.
  intros Hr Hx Hl HQ. unfold _close_state. apply wp_bind. rewrite wp_atomic.
  destruct (mark_ok x r (set_running false) Hx Hr ltac:(auto)) as (x1 & E & Hx1 & Hl1 & Hr1).
  rewrite E. cbn [fst snd]. apply wp_bind. apply stop_loop_wp; [done|done|chain|].
  intros x2 [u|e] y Hy Hly Hxy; [|(apply HQ; fin)].
  apply close_parts_wp; [by eapply later_object|done|done|].
  intros x3 a z Hz ? ?. apply HQ; fin.
Qed.

Lemma find_topic_run t x : find_topic t x = (Ok (dict_get (topics (manager x)) t), x).
Proof. done. Qed.

Lemma topic_object x t r :
  manager_ok x → dict_get (topics (manager x)) t = Some r → is_Some (objects (manager x) !! r).
Proof. intros Hx Hr. destruct (mo_topics _ Hx t r Hr) as (st & ? & _). by exists st. Qed.

Lemma del_topic_ok x t a x' : manager_ok x → del_topic t x = (a, x') → manager_ok x' ∧ own x x'.
Proof.
  intros Hx. unfold del_topic. run. rewrite find_topic_run.
  destruct (dict_get _ t); run; intros [= _ <-]; [|done].
  pose proof (mo_dict _ Hx) as Hd. apply topics_ok; [done|by apply dict_del_ok|].
  intros t' r' E. left. destruct (decide (t = t')) as [->|]; [by rewrite dict_get_del_eq in E|].
  by rewrite dict_get_del_ne in E.
Qed.

Lemma remove_topic_wp t x0 x Q : wp_to x0 (_remove_topic t) x Q.
Proof.
  intros Hx Hl HQ. unfold _remove_topic. apply wp_bind. rewrite wp_atomic, find_topic_run. cbn [fst snd].
  destruct (dict_get _ t) as [r|] eqn:Hr; [|(apply HQ; fin)].
  apply wp_bind. apply close_state_wp; [by eapply topic_object|done|done|].
  intros x1 [u|e] y Hy Hly Hxy; [|(apply HQ; fin)].
  apply wp_bind. rewrite wp_atomic. destruct (del_topic t y) as [a z] eqn:E. cbn [fst snd].
  destruct (del_topic_ok _ _ _ _ Hy E) as [Hz ?].
  destruct a; [rewrite wp_ret|]; (apply HQ; fin).
Qed.

Lemma remove_all_wp ts x0 x Q : wp_to x0 (remove_all ts) x Q.
Proof.
  revert x0 x. induction ts as [|t ts IH]; intros x0 x Hx Hl HQ; cbn [remove_all].
  - rewrite wp_ret. (apply HQ; fin).
  - apply wp_bind. apply remove_topic_wp; [done|done|].
    intros x1 [b|e] y Hy Hly Hxy; [|(apply HQ; fin)]. apply IH; [done|done|].
    intros x2 a z Hz ? ?. apply HQ; fin.
Qed.

Lemma alter_snoc {A} (f : A → A) (l : list A) a : alter f (length l) (l ++ [a]) = l ++ [f a].
Proof. rewrite <-(Nat.add_0_r (length l)). by rewrite alter_app_r. Qed.

(** A new state enters the dictionary and is started. *)
Lemma replace_wp open id meta x0 x Q :
  id = broker_id (manager x) → id ∈ tm_replica_list meta → api_topic (tm_topic meta) →
  wp_to x0 (r ← atomic (new_object (meta_state id meta));
            atomic (set_topics (λ d, dict_set d (ts_topic (meta_state id meta)) r));;
            _start_topic open r) x Q.
Proof.
  intros Hid Hin Htop Hx Hl HQ. set (st := meta_state id meta).
  destruct (api_create_topic_ok (log x) (tm_topic meta)) as (s1 & Es & Hk & Hlog & Hex);
    [apply Hx|done|].
  pose proof (kept_ok _ _ (mo_log _ Hx) Hk) as Hs1.
  assert (extends (log x) s1) as Hext.
  { split; [intros t; by rewrite Hlog|intros t ?; apply Hex; by right]. }
  (* everything up to the first suspension, for each of the two roles *)
  set (r := length (objects (manager x))).
  assert (∀ st', ts_topic st' = tm_topic meta → state_ok (broker_id (manager x)) s1 st' →
    (ts_role st' = LEADER → is_Some (ts_leader st')) →
    let y := mkReplication (mkReplicaManager (config (manager x)) (objects (manager x) ++ [st'])
               (dict_set (topics (manager x)) (tm_topic meta) r)) (waits x) s1 in
    manager_ok y ∧ own x y) as Hnew.
  { intros st' Et Hst' Hlead y. destruct (log_grows x s1 Hx Hs1 Hext) as [Gx _].
    assert (objects (manager y) !! r = Some st') as Er by (cbn; by rewrite lookup_app_r, Nat.sub_diag).
    split.
    - split; cbn; [done|by apply dict_set_ok, Hx| | |].
      + intros r' st2. rewrite lookup_app_Some. intros [Ho|[? Ho]]; [by apply (mo_objects _ Gx r')|].
        by apply list_lookup_singleton_Some in Ho as [_ <-].
      + intros t r' E. destruct (decide (t = tm_topic meta)) as [->|Hne].
        * rewrite dict_get_set_eq in E. simplify_eq. exists st'. split_and!; done.
        * rewrite dict_get_set_ne in E by done. destruct (mo_topics _ Gx t r' E) as (st2 & E2 & ?).
          exists st2. split; [|done]. apply lookup_app_l_Some. done.
      + intros t r' E. destruct (decide (t = tm_topic meta)) as [->|Hne]; [done|].
        rewrite dict_get_set_ne in E by done. by apply (mo_names _ Hx t r').
    - split; [|by split]. split; cbn; [done..|]. intros r' st2 E2. exists st2. split; [|done].
      by apply lookup_app_l_Some. }
  apply wp_bind. rewrite wp_atomic. unfold new_object, on_manager. run. cbn [fst snd].
  apply wp_bind. rewrite wp_atomic. unfold set_topics, on_manager. run. cbn [fst snd].
  unfold _start_topic. apply wp_bind. rewrite wp_atomic.
  rewrite (deref_run _ _ st) by (cbn; by rewrite lookup_app_r, Nat.sub_diag). cbn [fst snd].
  apply wp_bind. rewrite wp_atomic. unfold on_log. run. cbn [log waits manager ts_topic st meta_state].
  rewrite Es. cbn [fst snd]. apply wp_bind. rewrite wp_atomic. run. cbn [fst snd manager config].
  destruct (ts_role st) eqn:Hrole.
  - rewrite wp_atomic. run. unfold on_log. run. cbn [log].
    destruct (new_leader_ok s1 (tm_topic meta) id (tm_replica_list meta)
      (rc_min_isr_count (config (manager x))) (rc_max_isr_lag_ms (config (manager x))))
      as (l & El & Hlo & Ht & Hi & Hrl & _); [done|apply Hex; by left|].
    cbn [ts_replicas st meta_state].
    replace (rc_id (config (manager x))) with id by done. rewrite El. run.
    unfold assign, on_manager. run. cbn [fst snd manager waits log objects config topics].
    rewrite !alter_snoc.
    destruct (Hnew (set_loop_task Looping (set_running true (set_leader l st)))) as [Hy Hxy]; [done| |done|].
    { split; [|by rewrite <-Hid| |done|done|by eexists].
      - rewrite <-Hid. cbn. by case_bool_decide.
      - cbn. intros l2 [= <-]. rewrite <-Hid. split_and!; try done. }
    apply HQ; fin.
  - destruct (Hnew st) as [Hy Hxy]; [done| |by rewrite Hrole|].
    { split; [|by rewrite <-Hid|done..]. rewrite <-Hid. cbn. by case_bool_decide. }
    apply wp_catch. apply wp_bind. apply wp_pause_ok; [done|chain|].
    intros z Hz Hyz. assert (later x z) as Hxz by chain.
    apply wp_bind. rewrite wp_atomic. run. cbn [fst snd].
    destruct (open _ _) as [u|e]; [|rewrite wp_ret; (apply HQ; fin)].
    apply wp_bind. rewrite wp_atomic. unfold new_fetcher, on_log. run. cbn [or_raise]. run. cbn.
    destruct z. (apply HQ; fin).
Qed.

(** The log takes the topics that the broker is a replica of. *)
Definition meta_ok (id : pystr) (meta : TopicMeta) : Prop :=
  id ∈ tm_replica_list meta → api_topic (tm_topic meta).

Lemma apply_metadata_wp open meta x0 x Q :
  meta_ok (broker_id (manager x)) meta → wp_to x0 (apply_metadata open meta) x Q.
Proof.
  intros Hmeta Hx Hl HQ. unfold apply_metadata. apply wp_bind. rewrite wp_atomic. run. cbn [fst snd].
  case_bool_decide as Hin; cbn [negb].
  - apply wp_bind. rewrite wp_atomic, find_topic_run. cbn [fst snd].
    destruct (dict_get _ _) as [old|] eqn:Hold; [|by apply replace_wp; auto].
    destruct (mo_topics _ Hx _ _ Hold) as (st & Hst & _).
    apply wp_bind. rewrite wp_atomic, (deref_run _ _ _ Hst). cbn [fst snd].
    destruct (_ <=? _); [rewrite wp_ret; (apply HQ; fin)|].
    destruct (compare_meta _ _); [rewrite wp_ret; (apply HQ; fin)|].
    apply wp_bind. apply close_state_wp; [by exists st|done|done|].
    intros x1 [u|e] y Hy Hly Hxy; [|(apply HQ; fin)].
    apply replace_wp; [by rewrite (later_broker _ _ Hxy)|done|by apply Hmeta|done|done|].
    intros x2 a z Hz ? ?. apply HQ; fin.
  - apply wp_bind. apply remove_topic_wp; [done|done|].
    intros x1 [b|e] y Hy Hly Hxy; (apply HQ; fin).
Qed.

Lemma apply_all_wp open metas x0 x Q :
  Forall (meta_ok (broker_id (manager x))) metas → wp_to x0 (apply_all open metas) x Q.
Proof.
  revert x0 x. induction metas as [|meta metas IH]; intros x0 x Hok Hx Hl HQ; cbn [apply_all].
  - rewrite wp_ret. (apply HQ; fin).
  - apply Forall_cons in Hok as [Hm Hok]. apply wp_bind. apply apply_metadata_wp; [done|done|done|].
    intros x1 [u|e] y Hy Hly Hxy; [|(apply HQ; fin)].
    apply IH; [by rewrite (later_broker _ _ Hxy)|done|done|].
    intros x2 a z Hz ? ?. apply HQ; fin.
Qed.

Lemma apply_metadata_list_wp open metas x0 x Q :
  Forall (meta_ok (broker_id (manager x))) metas → wp_to x0 (apply_metadata_list open metas) x Q.
Proof.
  intros Hok Hx Hl HQ. unfold apply_metadata_list. apply wp_bind. rewrite wp_atomic. run. cbn [fst snd].
  apply wp_bind. apply remove_all_wp; [done|done|].
  intros x1 [u|e] y Hy Hly Hxy; [|(apply HQ; fin)].
  apply apply_all_wp; [by rewrite (later_broker _ _ Hxy)|done|done|].
  intros x2 a z Hz ? ?. apply HQ; fin.
Qed.

Lemma close_topic_wp t x0 x Q : wp_to x0 (close_topic t) x Q.
Proof.
  intros Hx Hl HQ. unfold close_topic. apply wp_bind. rewrite wp_atomic, find_topic_run. cbn [fst snd].
  destruct (dict_get _ _); [|rewrite wp_ret; (apply HQ; fin)].
  apply wp_bind. apply remove_topic_wp; [done|done|]. intros x1 [b|e] y Hy ? ?; (apply HQ; fin).
Qed.

Lemma close_all_wp x0 x Q : wp_to x0 close_all x Q.
Proof.
  intros Hx Hl HQ. unfold close_all. apply wp_bind. rewrite wp_atomic. run. cbn [fst snd].
  by apply remove_all_wp.
Qed.

Lemma wait_hw_wp r offset x0 x Q : wp_to x0 (wait_hw r offset) x Q.
Proof.
  intros Hx Hl HQ. unfold wait_hw, wait_for_hw. apply wp_bind. rewrite wp_atomic.
  destruct (on_leader_of r _ _ x) as [a y] eqn:E. cbn [fst snd].
  destruct (on_leader_of_ok _ _ _ _ _ Hx leader_hw_call E) as [Hy Hxy].
  destruct a as [hw|e]; [|(apply HQ; fin)].
  destruct (offset <=? hw); [rewrite wp_ret; (apply HQ; fin)|].
  apply wp_bind. rewrite wp_atomic. unfold on_waits at 1. run. unfold create_future. run. cbn [fst snd].
  match goal with |- wp _ _ _ _ _ ?y' _ => set (y1 := y') end.
  assert (manager_ok y1 ∧ own y y1) as [Hy1 Hyy1] by by apply waits_ok.
  apply wp_bind. rewrite wp_atomic.
  destruct (on_leader_of r _ _ y1) as [a z] eqn:E2. cbn [fst snd].
  destruct (on_leader_of_ok _ _ _ _ _ Hy1 (leader_queue_call _) E2) as [Hz Hyz].
  assert (later x z) as Hxz by chain.
  destruct a as [u|e]; [|(apply HQ; fin)].
  cbn [wp]. split_and!; [done|chain|]. intros z' Hz' Hzz' _. rewrite wp_atomic. unfold on_waits. run.
  destruct (future_result _ _) as [b w]. cbn [fst snd].
  destruct (waits_ok z' w Hz') as [? ?]. apply HQ; fin.
Qed.

(** ** Requests *)

Lemma handle_ok now cmd x a x' :
  manager_ok x → handle now cmd x = (a, x') → manager_ok x' ∧ own x x'.
Proof.
  intros Hx. unfold handle. run. destruct (or_raise _ _) as [t|e]; run; [|by intros [= _ <-]].
  rewrite find_topic_run. destruct (dict_get _ _) as [r|] eqn:Hr; run; [|by intros [= _ <-]].
  destruct (mo_topics _ Hx _ _ Hr) as (st & Hst & _). rewrite (deref_run _ _ _ Hst).
  destruct (ts_role st); [|by intros [= _ <-]].
  by apply on_leader_of_ok, leader_handle_call.
Qed.

Lemma on_leader_of_run {A} x r (m : M (ReplicaLeader * S) A) st l :
  objects (manager x) !! r = Some st → ts_leader st = Some l →
  ∃ x', on_leader_of r A m x = ((m (l, log x)).1, x').
Proof.
  intros Hst Hl. unfold on_leader_of, assign, on_manager, on_log. run. rewrite (deref_run _ _ _ Hst).
  rewrite Hl. cbn [or_raise]. run. destruct (m (l, log x)) as [a [l' s']]. run. by eexists.
Qed.

(** The loop of a leader never dies. *)
Lemma leader_round_ok now r x a x' :
  manager_ok x → leader_round now r x = (a, x') → manager_ok x' ∧ own x x'.
Proof.
  intros Hx. unfold leader_round. run. unfold deref at 1. run.
  destruct (objects (manager x) !! r) as [st|] eqn:Hst; cbn [or_raise]; [|by intros [= _ <-]].
  destruct (ts_loop_task st) as [[| |]|] eqn:Htask; try by intros [= _ <-].
  destruct (ts_role st) eqn:Hrole; [|by intros [= _ <-]].
  destruct (ts_running st); [|by intros [= _ <-]]. run.
  pose proof (mo_objects _ Hx _ _ Hst) as Hok. destruct (so_task _ _ _ Hok Htask) as [l Hl].
  destruct (so_leader _ _ _ Hok l Hl) as (_ & _ & Hid & Hrl & _).
  destruct (on_leader_of_run x r (Leader.on_leader (_update_isr now)) st l Hst Hl) as [y E].
  assert ((Leader.on_leader (_update_isr now) (l, log x)).1 = Ok tt) as Hrun.
  { unfold Leader.on_leader. run. cbn [fst snd].
    destruct (update_isr_run now l) as (rest & cand & _ & _ & _ & ->); [|done].
    rewrite Hid, Hrl. apply Hok. }
  rewrite Hrun in E. rewrite E. intros [= _ <-].
  by apply (on_leader_of_ok _ _ _ _ _ Hx (leader_isr_call now) E).
Qed.

End facts.
