(* ===== verification/ReplicasRun.v ===== *)
(** * The replica manager without interruptions

    What applying metadata does when nothing else runs in between: it succeeds, and
    the roles of the broker are those that the metadata says. *)
From Stdlib Require Import String.
From S2P Require Import Prelude Coroutine Heapq PyData PyDict Messages Parser RecordFacts Segment SegmentMemory Log LogRead LogApi Leader LeaderTheorems Fetcher Replicas ReplicasFacts.

Lemma dict_set_perm {K V} `{EqDecision K} (d : list (K * V)) k v :
  dict_set d k v ≡ₚ (k, v) :: dict_del d k.
Proof.
  induction d as [|[k' v'] d IH]; cbn; [done|]. case_decide; [done|].
  rewrite IH. apply Permutation_swap.
Qed.

(** ** Producers that wait *)

Definition futs (st : TopicState) : list nat :=
  match ts_leader st with Some l => (hw_waiter_queue l).*2 | None => [] end.
Definition ref_futs (objs : list TopicState) (p : list Z * nat) : list nat :=
  match objs !! p.2 with Some st => futs st | None => [] end.
Definition waiting (d : list (list Z * nat)) (objs : list TopicState) : list nat :=
  flat_map (ref_futs objs) d.

Lemma fail_waiters_ok q w :
  NoDup (q.*2) → (∀ f, f ∈ q.*2 → results w !! f = None) →
  ∃ w', fail_waiters q w = (Ok tt, w') ∧
    ∀ f, results w' !! f = if decide (f ∈ q.*2) then Some (Raise Exception) else results w !! f.
Proof.
  revert w. induction q as [|[o f] q IH]; intros w Hnd Hp; cbn [fail_waiters].
  - run. exists w. split; [done|]. intros f. by rewrite decide_False by apply not_elem_of_nil.
  - rewrite fmap_cons in *. cbn in Hnd. apply NoDup_cons in Hnd as [Hf Hnd].
    unfold set_future at 1. run. rewrite (Hp f) by left. run.
    destruct (IH (mkFutures (next_future w) (<[f := Raise Exception]> (results w)))) as (w' & E & Hw').
    + done.
    + intros g Hg. cbn. rewrite lookup_insert_ne by set_solver. apply Hp. by right.
    + exists w'. split; [exact E|]. intros g. rewrite Hw'. cbn.
      destruct (decide (g = f)) as [->|Hne].
      * rewrite decide_False by done. rewrite lookup_insert_eq, decide_True; [done|left].
      * rewrite lookup_insert_ne by done.
        destruct (decide (g ∈ q.*2)); [rewrite decide_True; [done|by right]|].
        rewrite decide_False; [done|]. by intros [?|?]%elem_of_cons.
Qed.

Lemma waiting_split d objs t r :
  dict_get d t = Some r → waiting d objs ≡ₚ ref_futs objs (t, r) ++ waiting (dict_del d t) objs.
Proof.
  intros Hr. unfold waiting. change (ref_futs objs (t, r) ++ flat_map (ref_futs objs) (dict_del d t))
    with (flat_map (ref_futs objs) ((t, r) :: dict_del d t)).
  apply Permutation_flat_map. symmetry. by apply dict_del_perm.
Qed.

Lemma waiting_set d objs t r :
  waiting (dict_set d t r) objs ≡ₚ ref_futs objs (t, r) ++ waiting (dict_del d t) objs.
Proof. unfold waiting. rewrite (Permutation_flat_map _ (dict_set_perm d t r)). done. Qed.

Lemma waiting_objects d objs objs' :
  (∀ p, p ∈ d → ref_futs objs' p = ref_futs objs p) → waiting d objs' = waiting d objs.
Proof.
  induction d as [|p d IH]; intros Hd; cbn; [done|]. rewrite Hd by left. f_equal.
  apply IH. intros q Hq. apply Hd. by right.
Qed.

(** What closing does to an object. *)
Definition closing (st : TopicState) : TopicState :=
  let st := set_running false st in
  match ts_loop_task st with Some Looping => set_loop_task Cancelled st | _ => st end.

Lemma futs_closing st : futs (closing st) = futs st.
Proof. unfold closing. by destruct (ts_loop_task _) as [[]|]. Qed.

Lemma closing_looping st :
  ts_loop_task st = Some Looping → closing st = set_loop_task Cancelled (set_running false st).
Proof. unfold closing. cbn. by intros ->. Qed.
Lemma closing_other st : ts_loop_task st ≠ Some Looping → closing st = set_running false st.
Proof. unfold closing. cbn. by destruct (ts_loop_task st) as [[]|]. Qed.

Lemma alter_at {A} (f g : A → A) (l : list A) i a : l !! i = Some a → f a = g a → alter f i l = alter g i l.
Proof. intros Ha E. apply list_alter_ext; [|done]. intros b Hb. by simplify_eq. Qed.

Section run.
Context {S : Type} `{LogAppendLaws S}.
Implicit Types (x y : Replication S) (st : TopicState) (l : ReplicaLeader).

(** Every producer that waits at a leader in charge has a future of its own, which
    is not done. *)
Record quiet x : Prop := {
  qu_nodup : NoDup (waiting (topics (manager x)) (objects (manager x)));
  qu_pending f : f ∈ waiting (topics (manager x)) (objects (manager x)) → results (waits x) !! f = None }.

Lemma close_parts_run x r st :
  objects (manager x) !! r = Some st → ts_fetcher st = None → NoDup (futs st) →
  (∀ f, f ∈ futs st → results (waits x) !! f = None) →
  ∃ w, run (close_parts r) x = (Ok tt, mkReplication (manager x) w (log x)) ∧
    ∀ f, results w !! f = if decide (f ∈ futs st) then Some (Raise Exception) else results (waits x) !! f.
Proof.
  intros Hst Hf Hnd Hp. unfold close_parts. run_co. rewrite (deref_run _ _ _ Hst), Hf. run_co.
  rewrite (deref_run _ _ _ Hst). unfold futs in *. destruct (ts_leader st) as [l|].
  - rewrite run_atomic. unfold on_waits. run.
    destruct (fail_waiters_ok (hw_waiter_queue l) (waits x) Hnd Hp) as (w & E & Hw).
    unfold close_leader. rewrite E. by exists w.
  - run_co. exists (waits x). split; [by destruct x|]. intros f. by rewrite decide_False by apply not_elem_of_nil.
Qed.

Abbreviation at_objects x o :=
  (mkReplication (mkReplicaManager (config (manager x)) o (topics (manager x))) (waits x) (log x)).

Lemma assign_run x r f : assign r f x = (Ok tt, at_objects x (alter f r (objects (manager x)))).
Proof. done. Qed.

Lemma stop_loop_run x r st :
  manager_ok x → objects (manager x) !! r = Some st →
  run (atomic (assign r (set_running false));; stop_loop r) x
  = (Ok tt, at_objects x (alter closing r (objects (manager x)))).
Proof.
  intros Hx Hst. pose proof (so_loop _ _ _ (mo_objects _ Hx r st Hst)) as Hdied.
  run_co. rewrite assign_run. unfold stop_loop. run_co.
  rewrite (deref_run _ _ (set_running false st)) by (cbn; by rewrite list_lookup_alter_eq, Hst).
  cbn [ts_loop_task set_running]. destruct (decide (ts_loop_task st = Some Looping)) as [Ht|Ht].
  - rewrite Ht. run_co. rewrite assign_run. cbn [manager waits log config objects topics].
    assert (alter (set_loop_task Cancelled) r (alter (set_running false) r (objects (manager x)))
            = alter closing r (objects (manager x))) as ->.
    { apply list_eq. intros i. destruct (decide (r = i)) as [->|]; [|by rewrite !list_lookup_alter_ne].
      rewrite !list_lookup_alter_eq, Hst. cbn. by rewrite closing_looping. }
    run_co. rewrite (deref_run _ _ (closing st)) by (cbn; by rewrite list_lookup_alter_eq, Hst).
    by rewrite closing_looping by done.
  - rewrite (alter_at (set_running false) closing _ _ st) by (done || by rewrite closing_other).
    destruct (ts_loop_task st) as [[| |e]|] eqn:E; [done| |by destruct (Hdied e)|done]. run_co. run. run_co.
    rewrite (deref_run _ _ (closing st)) by (cbn; by rewrite list_lookup_alter_eq, Hst).
    rewrite closing_other by (by rewrite E). cbn. by rewrite E.
Qed.

Lemma close_state_run x r st :
  manager_ok x → objects (manager x) !! r = Some st → NoDup (futs st) →
  (∀ f, f ∈ futs st → results (waits x) !! f = None) →
  ∃ w, run (_close_state r) x
      = (Ok tt, mkReplication (mkReplicaManager (config (manager x)) (alter closing r (objects (manager x)))
                  (topics (manager x))) w (log x)) ∧
    ∀ f, results w !! f = if decide (f ∈ futs st) then Some (Raise Exception) else results (waits x) !! f.
Proof.
  intros Hx Hst Hnd Hp. pose proof (stop_loop_run x r st Hx Hst) as Hstop.
  destruct (close_parts_run (at_objects x (alter closing r (objects (manager x)))) r (closing st))
    as (w & E & Hw).
  - cbn. by rewrite list_lookup_alter_eq, Hst.
  - unfold closing. pose proof (so_fetcher _ _ _ (mo_objects _ Hx r st Hst)).
    by destruct (ts_loop_task _) as [[]|].
  - by rewrite futs_closing.
  - by rewrite futs_closing.
  - exists w. rewrite futs_closing in Hw. split; [|exact Hw].
    unfold _close_state. revert Hstop. rewrite !run_co_bind.
    destruct (run (atomic _) x) as [[u|e] x1]; [|done]. rewrite run_co_bind. intros ->. exact E.
Qed.
Lemma quiet_topic x t r st :
  quiet x → dict_get (topics (manager x)) t = Some r → objects (manager x) !! r = Some st →
  NoDup (futs st) ∧ (∀ f, f ∈ futs st → results (waits x) !! f = None) ∧
  (∀ f, f ∈ waiting (dict_del (topics (manager x)) t) (objects (manager x)) → f ∉ futs st ∧
     results (waits x) !! f = None) ∧
  NoDup (waiting (dict_del (topics (manager x)) t) (objects (manager x))).
Proof.
  intros [Hnd Hp] Hr Hst. pose proof (waiting_split _ (objects (manager x)) t r Hr) as Hw.
  rewrite Hw in Hnd. assert (ref_futs (objects (manager x)) (t, r) = futs st) as E by (unfold ref_futs; cbn; by rewrite Hst).
  rewrite E in Hw, Hnd.
  apply NoDup_app in Hnd as (Hn1 & Hdis & Hn2). split_and!; [done| | |done].
  - intros f Hf. apply Hp. rewrite Hw. apply elem_of_app. by left.
  - intros f Hf. split; [intros Hf'; by apply (Hdis f)|]. apply Hp. rewrite Hw. apply elem_of_app. by right.
Qed.

Lemma ref_futs_closing objs r p : ref_futs (alter closing r objs) p = ref_futs objs p.
Proof.
  unfold ref_futs. destruct (decide (r = p.2)) as [->|].
  - rewrite list_lookup_alter_eq. destruct (objs !! p.2); cbn; [by rewrite futs_closing|done].
  - by rewrite list_lookup_alter_ne.
Qed.

Lemma waiting_closing d objs r : waiting d (alter closing r objs) = waiting d objs.
Proof. apply waiting_objects. intros p _. apply ref_futs_closing. Qed.

Lemma prompt_close_state r : prompt (@_close_state S r).
Proof.
  unfold _close_state. apply prompt_bind; [done|intros _]. apply prompt_bind; [|intros _].
  - unfold stop_loop. apply prompt_bind; [done|]. intros st. destruct (ts_loop_task st); [|done].
    apply prompt_bind; [done|intros _]. apply prompt_bind; [done|intros _].
    apply prompt_bind; [done|]. intros st2. by destruct (ts_loop_task st2) as [[]|].
  - unfold close_parts. apply prompt_bind; [done|]. intros st.
    apply prompt_bind; [destruct (ts_fetcher st); [by apply prompt_bind|done]|intros _].
    apply prompt_bind; [done|]. intros st2. by destruct (ts_leader st2).
Qed.

Lemma prompt_remove_topic t : prompt (@_remove_topic S t).
Proof.
  unfold _remove_topic. apply prompt_bind; [done|]. intros [r|]; [|done].
  apply prompt_bind; [apply prompt_close_state|]. intros _. by apply prompt_bind.
Qed.

Lemma remove_topic_run x t :
  manager_ok x → quiet x →
  ∃ y b, run (_remove_topic t) x = (Ok b, y) ∧ manager_ok y ∧ quiet y ∧ later x y ∧
    topics (manager y) = dict_del (topics (manager x)) t ∧
    (∀ t' r, t' ≠ t → dict_get (topics (manager x)) t' = Some r →
       objects (manager y) !! r = objects (manager x) !! r).
Proof.
  intros Hx Hq.
  destruct (wp_run manager_ok own later (_remove_topic t) x x (λ _ _ y, manager_ok y ∧ later x y)) as [_ Hinv].
  { apply prompt_remove_topic. }
  { apply remove_topic_wp; [done|done|]. by intros ? ? y ? ? ?. }
  revert Hinv. unfold _remove_topic. run_co. rewrite find_topic_run.
  destruct (dict_get _ t) as [r|] eqn:Hr.
  2: { run_co. cbn [snd]. intros [? ?]. exists x, false. split_and!; try done. by rewrite dict_del_absent. }
  destruct (mo_topics _ Hx t r Hr) as (st & Hst & Ht & _).
  destruct (quiet_topic _ _ _ _ Hq Hr Hst) as (Hnd & Hp & Hrest & Hndr).
  destruct (close_state_run x r st Hx Hst Hnd Hp) as (w & E & Hw).
  run_co. rewrite E. run_co. unfold del_topic. run. rewrite find_topic_run. cbn [manager topics]. rewrite Hr.
  unfold set_topics, on_manager. run. run_co. cbn. intros [? ?].
  eexists _, true. split; [reflexivity|]. split_and!; try done; cbn [manager topics objects waits].
  - split; cbn [manager topics objects waits]; rewrite waiting_closing; [done|]. intros f Hf. destruct (Hrest f Hf) as [Hne ?].
    by rewrite Hw, decide_False.
  - intros t' r' Hne Hr'. rewrite list_lookup_alter_ne; [done|]. intros <-.
    destruct (mo_topics _ Hx t' r Hr') as (st' & Hst' & Ht' & _). congruence.
Qed.

(** The metadata that a state shows. *)
Definition shows st (meta : TopicMeta) : Prop :=
  ts_topic st = tm_topic meta ∧ ts_leader_id st = tm_leader_id meta ∧
  ts_leader_addr st = tm_leader_addr meta ∧ ts_leader_port st = tm_leader_port meta ∧
  ts_replicas st = tm_replica_list meta ∧ ts_version st = tm_version meta.

Lemma start_run open id meta x :
  id = broker_id (manager x) → api_ok (log x) → api_topic (tm_topic meta) →
  ∃ st s, run (r ← atomic (new_object (meta_state id meta));
               atomic (set_topics (λ d, dict_set d (ts_topic (meta_state id meta)) r));;
               _start_topic open r) x
    = (Ok tt, mkReplication (mkReplicaManager (config (manager x)) (objects (manager x) ++ [st])
                (dict_set (topics (manager x)) (tm_topic meta) (length (objects (manager x))))) (waits x) s) ∧
    shows st meta ∧ futs st = [].
Proof.
  intros Hid Hs Htop. set (st := meta_state id meta).
  destruct (api_create_topic_ok (log x) (tm_topic meta)) as (s1 & Es & Hs1 & Hlog & Hex); [done..|].
  run_co. unfold new_object, on_manager. run. run_co. unfold set_topics, on_manager. run.
  unfold _start_topic. run_co.
  rewrite (deref_run _ _ st) by (cbn; by rewrite lookup_app_r, Nat.sub_diag).
  run_co. unfold on_log. run. cbn [log waits manager ts_topic st meta_state]. rewrite Es. run_co. run.
  cbn [manager config]. destruct (ts_role st) eqn:Hrole.
  - destruct (new_leader_ok s1 (tm_topic meta) id (tm_replica_list meta)
      (rc_min_isr_count (config (manager x))) (rc_max_isr_lag_ms (config (manager x))))
      as (l & El & _ & _ & _ & _ & _ & _ & Hqueue); [by eapply kept_ok|apply Hex; by left|].
    exists (set_loop_task Looping (set_running true (set_leader l st))), s1.
    rewrite run_atomic. run. cbn [log]. cbn [ts_replicas st meta_state].
    replace (rc_id (config (manager x))) with id by done. rewrite El. run.
    repeat (rewrite assign_run; run).
    cbn [manager waits log objects config topics]. rewrite !alter_snoc.
    split; [done|]. split; [done|]. unfold futs. cbn. by rewrite Hqueue.
  - exists st, s1. rewrite run_co_catch. run_co. run. destruct (open _ _) as [u|e]; run_co; [|by split_and!].
    unfold new_fetcher. run. cbn [or_raise]. run. cbn. by split_and!.
Qed.
Lemma prompt_start open (st : TopicState) :
  prompt (r ← atomic (@new_object S st);
          atomic (set_topics (λ d, dict_set d (ts_topic st) r));;
          _start_topic open r).
Proof.
  apply prompt_bind; [done|intros r]. apply prompt_bind; [done|intros _].
  unfold _start_topic. apply prompt_bind; [done|intros st2]. apply prompt_bind; [done|intros _].
  apply prompt_bind; [done|intros c]. destruct (ts_role st2); [done|].
  apply prompt_catch; [|by intros ? ? [= <-]].
  repeat (apply prompt_bind; [done|intros ?]). done.
Qed.

Lemma prompt_apply open meta : prompt (@apply_metadata S _ _ open meta).
Proof.
  unfold apply_metadata. apply prompt_bind; [done|intros id].
  destruct (negb _).
  - apply prompt_bind; [apply prompt_remove_topic|done].
  - apply prompt_bind; [done|]. intros [old|]; [|apply prompt_start].
    apply prompt_bind; [done|intros st2]. destruct (_ <=? _); [done|]. destruct (compare_meta _ _); [done|].
    apply prompt_bind; [apply prompt_close_state|intros _]. apply prompt_start.
Qed.

(** The metadata changes nothing about the topic whose state is [st]. *)
Definition outdated (id : pystr) (meta : TopicMeta) st : Prop :=
  tm_version meta ≤ ts_version st ∨ compare_meta (meta_state id meta) st = true.

Record applied (meta : TopicMeta) x y : Prop := {
  ap_others t : t ≠ tm_topic meta → dict_get (topics (manager y)) t = dict_get (topics (manager x)) t;
  ap_states t r : t ≠ tm_topic meta → dict_get (topics (manager x)) t = Some r →
    objects (manager y) !! r = objects (manager x) !! r;
  ap_gone : broker_id (manager x) ∉ tm_replica_list meta →
    dict_get (topics (manager y)) (tm_topic meta) = None;
  ap_kept r st : broker_id (manager x) ∈ tm_replica_list meta →
    dict_get (topics (manager x)) (tm_topic meta) = Some r → objects (manager x) !! r = Some st →
    outdated (broker_id (manager x)) meta st → y = x;
  ap_shown : broker_id (manager x) ∈ tm_replica_list meta →
    (∀ r st, dict_get (topics (manager x)) (tm_topic meta) = Some r → objects (manager x) !! r = Some st →
       ¬ outdated (broker_id (manager x)) meta st) →
    ∃ r st, dict_get (topics (manager y)) (tm_topic meta) = Some r ∧
      objects (manager y) !! r = Some st ∧ shows st meta }.

Lemma refs_valid x p :
  manager_ok x → p ∈ topics (manager x) → (p.2 < length (objects (manager x)))%nat.
Proof.
  intros Hx Hp. destruct p as [t r]. apply (dict_elem_get _ _ _ (mo_dict _ Hx)) in Hp.
  destruct (mo_topics _ Hx t r Hp) as (st & Hst & _). by eapply lookup_lt_Some.
Qed.

Lemma refs_snoc (objs : list TopicState) st p :
  (p.2 < length objs)%nat → ref_futs (objs ++ [st]) p = ref_futs objs p.
Proof. intros Hp. unfold ref_futs. by rewrite lookup_app_l. Qed.

Lemma start_applied open meta x z :
  manager_ok x → api_ok (log z) → api_topic (tm_topic meta) →
  config (manager z) = config (manager x) → topics (manager z) = topics (manager x) →
  length (objects (manager z)) = length (objects (manager x)) →
  (∀ t r, t ≠ tm_topic meta → dict_get (topics (manager x)) t = Some r →
     objects (manager z) !! r = objects (manager x) !! r) →
  NoDup (waiting (dict_del (topics (manager x)) (tm_topic meta)) (objects (manager z))) →
  (∀ f, f ∈ waiting (dict_del (topics (manager x)) (tm_topic meta)) (objects (manager z)) →
     results (waits z) !! f = None) →
  let id := broker_id (manager x) in
  id ∈ tm_replica_list meta →
  (∀ r st, dict_get (topics (manager x)) (tm_topic meta) = Some r → objects (manager x) !! r = Some st →
     ¬ outdated id meta st) →
  ∃ y, run (r ← atomic (new_object (meta_state id meta));
            atomic (set_topics (λ d, dict_set d (ts_topic (meta_state id meta)) r));;
            _start_topic open r) z = (Ok tt, y) ∧ quiet y ∧ applied meta x y.
Proof.
  intros Hx Hs Htop Hc Ht Hlen Hobj Hnd Hp id Hin Hnew.
  destruct (start_run open id meta z) as (st & s & E & Hshow & Hfuts); [|done..|].
  { unfold id, broker_id. by rewrite Hc. }
  eexists. split; [exact E|]. rewrite Ht.
  set (r := length (objects (manager z))). split.
  - assert (waiting (dict_set (topics (manager x)) (tm_topic meta) r) (objects (manager z) ++ [st])
      ≡ₚ waiting (dict_del (topics (manager x)) (tm_topic meta)) (objects (manager z))) as Hw.
    { rewrite waiting_set. unfold ref_futs at 1. cbn [snd]. rewrite lookup_app_r, Nat.sub_diag by done.
      cbn. rewrite Hfuts. cbn. erewrite waiting_objects; [done|]. intros p Hp2. apply refs_snoc.
      rewrite Hlen. eapply refs_valid; [done|]. eapply elem_of_sublist; [exact Hp2|apply dict_del_sublist]. }
    split; cbn [manager topics objects waits]; [by rewrite Hw|]. intros f. rewrite Hw. apply Hp.
  - split; cbn [manager topics objects].
    + intros t Hne. by apply dict_get_set_ne.
    + intros t r' Hne Hr'. rewrite <-(Hobj t r' Hne Hr'). apply lookup_app_l. rewrite Hlen.
      apply dict_get_elem in Hr'. by apply (refs_valid _ _ Hx Hr').
    + intros Hn. by destruct Hn.
    + intros r' st' _ Hr' Hst' Ho. by destruct (Hnew r' st' Hr' Hst').
    + intros _ _. exists r, st. rewrite dict_get_set_eq. split; [done|]. split; [|done].
      rewrite lookup_app_r by done. by rewrite Nat.sub_diag.
Qed.

Lemma apply_metadata_run open meta x :
  manager_ok x → quiet x → meta_ok (broker_id (manager x)) meta →
  ∃ y, run (apply_metadata open meta) x = (Ok tt, y) ∧ quiet y ∧ applied meta x y.
Proof.
  intros Hx Hq Hmeta. unfold apply_metadata. run_co. run.
  set (id := broker_id (manager x)) in *. case_bool_decide as Hin; cbn [negb].
  2: { destruct (remove_topic_run x (tm_topic meta) Hx Hq) as (y & b & E & _ & Hqy & _ & Ht & Ho).
    run_co. rewrite E. run_co. exists y. split_and!; try done. split; try done.
    - intros t Hne. rewrite Ht. by apply dict_get_del_ne.
    - intros _. rewrite Ht. apply dict_get_del_eq, Hx. }
  run_co. rewrite find_topic_run. cbn [ts_topic meta_state].
  destruct (dict_get (topics (manager x)) (tm_topic meta)) as [old|] eqn:Hold.
  2: { destruct Hq as [Hnd Hp]. apply start_applied; try done; [apply Hx|by apply Hmeta| | |].
    - by rewrite dict_del_absent.
    - by rewrite dict_del_absent.
    - intros r st Hr. congruence. }
  destruct (mo_topics _ Hx _ _ Hold) as (st & Hst & Ht & _).
  run_co. rewrite (deref_run _ _ _ Hst).
  assert (outdated id meta st → ∃ y, (Ok tt, x) = (Ok tt, y) ∧ quiet y ∧ applied meta x y) as Hkept.
  { intros Ho. exists x. split_and!; try done. split; try done.
    intros _ Hn. by destruct (Hn old st Hold Hst). }
  destruct (Z.leb_spec (tm_version meta) (ts_version st)) as [Hle|Hlt]; [apply Hkept; by left|].
  destruct (compare_meta (meta_state id meta) st) eqn:Hcmp; [apply Hkept; by right|].
  destruct (quiet_topic _ _ _ _ Hq Hold Hst) as (Hnd & Hp & Hrest & Hndr).
  destruct (close_state_run x old st Hx Hst Hnd Hp) as (w & E & Hw).
  run_co. rewrite E. apply start_applied; try done; cbn [manager topics objects waits log config].
  - apply Hx.
  - by apply Hmeta.
  - by rewrite length_alter.
  - intros t r Hne Hr. rewrite list_lookup_alter_ne; [done|]. intros <-.
    destruct (mo_topics _ Hx t old Hr) as (st' & Hst' & Ht' & _). congruence.
  - by rewrite waiting_closing.
  - intros f. rewrite waiting_closing. intros Hf. destruct (Hrest f Hf). by rewrite Hw, decide_False.
  - intros r' st' Hr' Hst'. rewrite Hold in Hr'. injection Hr' as <-. assert (st' = st) as -> by congruence.
    intros [?|Ho]; [lia|]. fold id in Ho. congruence.
Qed.

Lemma apply_metadata_inv open meta x y u :
  manager_ok x → meta_ok (broker_id (manager x)) meta → run (apply_metadata open meta) x = (u, y) →
  manager_ok y ∧ later x y.
Proof.
  intros Hx Hmeta E.
  destruct (wp_run manager_ok own later (apply_metadata open meta) x x (λ _ _ y, manager_ok y ∧ later x y))
    as [_ Hinv]; [apply prompt_apply| |by rewrite E in Hinv].
  apply apply_metadata_wp; [done..|]. by intros ? ? ? ? ? ?.
Qed.
(** ** Lists of metadata *)

(** The state of the topic of [meta] afterwards. *)
Definition placed (meta : TopicMeta) x y : Prop :=
  if bool_decide (broker_id (manager x) ∈ tm_replica_list meta) then
    ∃ r st, dict_get (topics (manager y)) (tm_topic meta) = Some r ∧ objects (manager y) !! r = Some st ∧
      (shows st meta ∨
       dict_get (topics (manager x)) (tm_topic meta) = Some r ∧ objects (manager x) !! r = Some st ∧
         outdated (broker_id (manager x)) meta st)
  else dict_get (topics (manager y)) (tm_topic meta) = None.

#[export] Instance outdated_dec id meta st : Decision (outdated id meta st).
Proof. apply _. Defined.

Lemma applied_placed meta x y : manager_ok x → applied meta x y → placed meta x y.
Proof.
  intros Hx [Hoth Hobj Hgone Hkept Hshow]. unfold placed. case_bool_decide as Hin; [|by apply Hgone].
  destruct (dict_get (topics (manager x)) (tm_topic meta)) as [r|] eqn:Hr.
  - destruct (mo_topics _ Hx _ _ Hr) as (st & Hst & _).
    destruct (decide (outdated (broker_id (manager x)) meta st)) as [Ho|Hn].
    + rewrite (Hkept r st) by done. exists r, st. split_and!; [done..|]. right. by split_and!.
    + destruct Hshow as (r' & st' & ? & ? & ?); [done| |by exists r', st'; auto].
      intros r2 st2 [= <-] Hst2. by assert (st2 = st) as -> by congruence.
  - destruct Hshow as (r' & st' & ? & ? & ?); [done|done|]. exists r', st'. auto.
Qed.

(** Only the topics of [ts] have changed. *)
Record only (ts : list (list Z)) x y : Prop := {
  on_broker : broker_id (manager y) = broker_id (manager x);
  on_topic t : t ∉ ts → dict_get (topics (manager y)) t = dict_get (topics (manager x)) t;
  on_state t r : t ∉ ts → dict_get (topics (manager x)) t = Some r →
    objects (manager y) !! r = objects (manager x) !! r }.

Lemma only_trans ts ts' x y z : only ts x y → only ts' y z → only (ts ++ ts') x z.
Proof.
  intros [B1 T1 O1] [B2 T2 O2]. split; [congruence| |].
  - intros t [? ?]%not_elem_of_app. by rewrite T2, T1.
  - intros t r [? ?]%not_elem_of_app Hr. rewrite (O2 t), (O1 t); [done|done|done|done|]. by rewrite T1.
Qed.

Lemma applied_only meta x y : later x y → applied meta x y → only [tm_topic meta] x y.
Proof.
  intros Hl [Hoth Hobj _ _ _]. split; [by apply later_broker| |].
  - intros t Ht. apply Hoth. set_solver.
  - intros t r Ht. apply Hobj. set_solver.
Qed.

(** A later change of other topics leaves the state in place. *)
Lemma placed_only meta ts x y z :
  tm_topic meta ∉ ts → only ts y z → placed meta x y → placed meta x z.
Proof.
  intros Hn [_ Ht Ho]. unfold placed. case_bool_decide; [|by rewrite Ht].
  intros (r & st & Hr & Hst & Hcase). exists r, st. rewrite Ht, (Ho _ r) by done. done.
Qed.

(** An earlier one, too. *)
Lemma only_placed meta ts x y z :
  tm_topic meta ∉ ts → manager_ok x → only ts x y → placed meta y z → placed meta x z.
Proof.
  intros Hn Hx [Hb Ht Ho]. unfold placed. rewrite Hb. case_bool_decide; [|done].
  intros (r & st & Hr & Hst & [?|(Hr' & Hst' & ?)]); exists r, st; (split_and!; [done..|]); [by left|right].
  rewrite Ht in Hr' by done. rewrite (Ho (tm_topic meta)) in Hst' by done. done.
Qed.

Lemma apply_all_run open metas x :
  manager_ok x → quiet x → NoDup (tm_topic <$> metas) →
  Forall (meta_ok (broker_id (manager x))) metas →
  ∃ y, run (apply_all open metas) x = (Ok tt, y) ∧ manager_ok y ∧ quiet y ∧
    only (tm_topic <$> metas) x y ∧ ∀ meta, meta ∈ metas → placed meta x y.
Proof.
  revert x. induction metas as [|meta metas IH]; intros x Hx Hq Hnd Hok; cbn [apply_all].
  - exists x. split_and!; [done..| |by intros ? ?%not_elem_of_nil]. by split.
  - rewrite fmap_cons in Hnd |- *. apply NoDup_cons in Hnd as [Hn Hnd]. apply Forall_cons in Hok as [Hm Hok].
    destruct (apply_metadata_run open meta x Hx Hq Hm) as (y & E & Hqy & Ha).
    destruct (apply_metadata_inv open meta x y _ Hx Hm E) as [Hy Hl].
    pose proof (applied_only _ _ _ Hl Ha) as Hxy.
    destruct (IH y) as (z & E2 & Hz & Hqz & Hyz & Hall); [done|done|done|by rewrite (on_broker _ _ _ Hxy)|].
    run_co. rewrite E. exists z. split_and!; [done|done|done| |].
    + by apply (only_trans [_] _ x y z).
    + intros m [->|Hin]%elem_of_cons.
      * eapply placed_only; [exact Hn|exact Hyz|]. by apply applied_placed.
      * eapply only_placed; [|exact Hx|exact Hxy|by apply Hall].
        intros Heq%list_elem_of_singleton. apply Hn. rewrite <-Heq. by apply list_elem_of_fmap_2.
Qed.

Lemma remove_all_run ts x :
  manager_ok x → quiet x →
  ∃ y, run (remove_all ts) x = (Ok tt, y) ∧ manager_ok y ∧ quiet y ∧ only ts x y ∧
    ∀ t, t ∈ ts → dict_get (topics (manager y)) t = None.
Proof.
  revert x. induction ts as [|t ts IH]; intros x Hx Hq; cbn [remove_all].
  - exists x. split_and!; [done..| |by intros ? ?%not_elem_of_nil]. by split.
  - destruct (remove_topic_run x t Hx Hq) as (y & b & E & Hy & Hqy & Hl & Ht & Ho).
    destruct (IH y Hy Hqy) as (z & E2 & Hz & Hqz & Hyz & Hgone).
    assert (only [t] x y) as Hxy.
    { split; [by apply later_broker| |].
      - intros t' Ht'. rewrite Ht. apply dict_get_del_ne. set_solver.
      - intros t' r Ht'. apply Ho. set_solver. }
    run_co. rewrite E. exists z. split_and!; [done|done|done|by apply (only_trans [t] ts x y z)|].
    intros t' [->|Hin]%elem_of_cons; [|by apply Hgone].
    destruct (decide (t ∈ ts)); [by apply Hgone|]. rewrite (on_topic _ _ _ Hyz) by done.
    rewrite Ht. apply dict_get_del_eq, Hx.
Qed.

Lemma apply_metadata_list_run open metas x :
  manager_ok x → quiet x → NoDup (tm_topic <$> metas) →
  Forall (meta_ok (broker_id (manager x))) metas →
  ∃ y, run (apply_metadata_list open metas) x = (Ok tt, y) ∧ manager_ok y ∧ quiet y ∧
    broker_id (manager y) = broker_id (manager x) ∧
    (∀ t, t ∉ tm_topic <$> metas → dict_get (topics (manager y)) t = None) ∧
    ∀ meta, meta ∈ metas → placed meta x y.
Proof.
  intros Hx Hq Hnd Hok. unfold apply_metadata_list. run_co. run.
  set (old := filter _ _).
  destruct (remove_all_run old x Hx Hq) as (y & E & Hy & Hqy & Hxy & Hgone).
  destruct (apply_all_run open metas y) as (z & E2 & Hz & Hqz & Hyz & Hall);
    [done|done|done|by rewrite (on_broker _ _ _ Hxy)|].
  run_co. rewrite E. exists z. split_and!; [done|done|done| | |].
  - by rewrite (on_broker _ _ _ Hyz), (on_broker _ _ _ Hxy).
  - intros t Ht. rewrite (on_topic _ _ _ Hyz) by done. destruct (decide (t ∈ old)) as [Hin|Hn]; [by apply Hgone|].
    rewrite (on_topic _ _ _ Hxy) by done. apply dict_get_None. intros Hk. apply Hn.
    apply list_elem_of_filter. by split.
  - intros meta Hin. eapply only_placed; [|exact Hx|exact Hxy|by apply Hall].
    intros [Hn _]%list_elem_of_filter. apply Hn. by apply list_elem_of_fmap_2.
Qed.
End run.
