(* ===== verification/ReplicasTheorems.v ===== *)
(** * What the replica manager guarantees

    Whatever the order in which metadata arrives, topics are closed, followers fetch,
    leaders revise their in-sync lists and the log grows. *)
From Stdlib Require Import String.
From stdpp Require Import sorting.
From S2P Require Import Prelude Coroutine Heapq PyData PyDict Framer Messages Encoder Parser ProtocolFacts RecordFacts Segment SegmentRegistry SegmentMemory Log LogNames LogInv LogRead LogSteps LogTheorems LogApi Leader LeaderTheorems Fetcher Replicas ReplicasFacts ReplicasRun.

(** The first record of a batch is shorter than the batch. *)
Lemma first_record_shorter payload m ms : parse_records payload = m :: ms → zlen m < zlen payload.
Proof.
  unfold parse_records. destruct payload as [|x payload]; [done|]. cbn [parse_records_loop length].
  destruct (Z.ltb_spec 0 (zlen (x :: payload))) as [Hpos|]; [|done].
  intros [= <- _]. unfold py_slice. rewrite length_take, length_drop.
  change (clip (zlen (x :: payload)) (0 + 4)) with (Z.min 4 (zlen (x :: payload))).
  match goal with |- context [clip ?n (0 + 4 + ?e)] => generalize (clip n (0 + 4 + e)) end.
  intros c. cbn [length] in *. lia.
Qed.

Section theorems.
Context {S : Type} `{LogAppendLaws S}.
Context (open_connection : pystr → Z → result unit).
Implicit Types (x y : Replication S) (st : TopicState) (l : ReplicaLeader).

(** ** The event loop of a broker's replication *)

(** The coroutines that other components start. *)
Inductive task (x : Replication S) : Co (Replication S) unit → Prop :=
| task_apply meta : meta_ok (broker_id (manager x)) meta → task x (apply_metadata open_connection meta)
| task_apply_list metas :
    Forall (meta_ok (broker_id (manager x))) metas → task x (apply_metadata_list open_connection metas)
| task_close t : task x (close_topic t)
| task_close_all : task x close_all
| task_wait r offset : task x (wait_hw r offset).

(** What happens outside of them: requests of followers, the rounds of the leaders,
    producers that stop waiting, and appends. *)
Inductive event : Replication S → Replication S → Prop :=
| event_handle now cmd x a x' : handle now cmd x = (a, x') → event x x'
| event_round now r x a x' : leader_round now r x = (a, x') → event x x'
| event_futures x w : event x (mkReplication (manager x) w (log x))
| event_append x s : api_ok s → extends (log x) s → event x (mkReplication (manager x) (waits x) s).

Definition replication_run := rtc (sched task event).

Lemma task_ok x c :
  manager_ok x → task x c → wp manager_ok own later x c x (λ s0 _ s, manager_ok s ∧ own s0 s).
Proof.
  intros Hx. destruct 1; [apply apply_metadata_wp|apply apply_metadata_list_wp|apply close_topic_wp
    |apply close_all_wp|apply wait_hw_wp]; auto; reflexivity.
Qed.

Lemma event_ok x y : manager_ok x → event x y → manager_ok y ∧ later x y.
Proof.
  intros Hx Hev. assert (∀ z, manager_ok z ∧ own x z → manager_ok z ∧ later x z) as Hown.
  { intros z [? ?]. split; [done|by apply own_later]. }
  destruct Hev; [apply Hown; by eapply handle_ok|apply Hown; by eapply leader_round_ok
    |apply Hown; by apply waits_ok|by apply log_grows].
Qed.

Lemma new_replication_ok c s : api_ok s → manager_ok (new_replication c s).
Proof. intros Hs. split; cbn; [done|constructor|done..]. Qed.

Lemma run_ok a b : replication_run a b → sched_ok manager_ok own later a → sched_ok manager_ok own later b ∧ later a.2 b.2.
Proof. apply sched_rtc_ok; [apply _|apply own_later|apply task_ok|apply event_ok]. Qed.

Lemma started_ok c s a : api_ok s → replication_run ([], new_replication c s) a →
  sched_ok manager_ok own later a ∧ broker_id (manager a.2) = rc_id c.
Proof.
  intros Hs Hrun. destruct (run_ok _ _ Hrun) as [Ha Hl].
  { split; [by apply new_replication_ok|constructor]. }
  split; [done|]. by rewrite (later_broker _ _ Hl).
Qed.

(** C9: at every point of every interleaving a broker leads exactly the topics whose
    metadata names it as the leader: such a topic has a leader object with its
    replicas, the topic exists in the log and the high watermark is not beyond its
    end.  No round of a leader fails. *)
Theorem roles_consistent c s ts x t r :
  api_ok s → replication_run ([], new_replication c s) (ts, x) →
  dict_get (topics (manager x)) t = Some r →
  ∃ st, objects (manager x) !! r = Some st ∧ ts_topic st = t ∧ rc_id c ∈ ts_replicas st ∧
    (∀ e, ts_loop_task st ≠ Some (Died e)) ∧
    (ts_leader_id st = rc_id c →
     ∃ l, ts_leader st = Some l ∧ topic l = t ∧ Leader.id l = rc_id c ∧
       replica_list l = ts_replicas st ∧ api_exists (log x) t ∧
       _high_watermark l ≤ recs_len (api_log (log x) t)) ∧
    (ts_leader_id st ≠ rc_id c → ts_leader st = None ∧ get_leader t x = (Raise Exception, x)).
Proof.
  intros Hs Hrun Hr. destruct (started_ok _ _ _ Hs Hrun) as [[Hx _] Hid]. cbn [snd] in *.
  destruct (mo_topics _ Hx t r Hr) as (st & Hst & Ht & Hlead). exists st.
  pose proof (mo_objects _ Hx r st Hst) as Hok. rewrite Hid in Hok.
  split_and!; [done|done|apply Hok|apply Hok| |].
  - intros E. destruct (Hlead (proj2 (so_role _ _ _ Hok) E)) as [l Hl].
    destruct (so_leader _ _ _ Hok l Hl) as (Hlo & Htl & ? & ? & _). exists l.
    subst t. rewrite <-Htl. split_and!; try done; apply Hlo.
  - intros E. assert (ts_role st = FOLLOWER) as Hrole.
    { destruct (ts_role st) eqn:Er; [|done]. exfalso. by apply E, (so_role _ _ _ Hok). }
    split.
    + destruct (ts_leader st) as [l|] eqn:El; [|done].
      destruct (so_leader _ _ _ Hok l El) as (_ & _ & _ & _ & ?). congruence.
    + unfold get_leader. run. rewrite find_topic_run, Hr. run.
      by rewrite (deref_run _ _ _ Hst), Hrole.
Qed.

(** C12: a leader object that a request or a waiting producer holds stays a leader: its
    high watermark never goes back, its topic keeps its messages, also when the topic
    is closed or gets a new leader object meanwhile. *)
Theorem held_leader_monotone c s ts x ts' y r st l :
  api_ok s → replication_run ([], new_replication c s) (ts, x) →
  replication_run (ts, x) (ts', y) →
  objects (manager x) !! r = Some st → ts_leader st = Some l →
  ∃ st' l', objects (manager y) !! r = Some st' ∧ ts_leader st' = Some l' ∧
    ts_topic st' = ts_topic st ∧ _high_watermark l ≤ _high_watermark l' ∧
    _high_watermark l' ≤ recs_len (api_log (log y) (ts_topic st)) ∧
    api_log (log x) (ts_topic st) `prefix_of` api_log (log y) (ts_topic st).
Proof.
  intros Hs Hrun Hrun' Hst Hl. destruct (started_ok _ _ _ Hs Hrun) as [Hx _].
  destruct (run_ok _ _ Hrun' Hx) as [[Hy _] Hlater]. cbn [snd] in *.
  destruct (la_objects _ _ Hlater r st Hst) as (st' & Hst' & [Ht _ _ Hll]).
  destruct (Hll l Hl) as (l' & Hl' & Hhw). exists st', l'.
  destruct (so_leader _ _ _ (mo_objects _ Hy r st' Hst') l' Hl') as (Hlo & Htl & _).
  split_and!; try done.
  - rewrite <-Ht, <-Htl. apply Hlo.
  - apply Hlater.
Qed.

(** No follower ever fetches: whatever the connections to other brokers do, no
    topic has a fetcher at any point, since creating one fails. *)
Theorem followers_never_fetch c s ts x r st :
  api_ok s → replication_run ([], new_replication c s) (ts, x) →
  objects (manager x) !! r = Some st → ts_fetcher st = None.
Proof.
  intros Hs Hrun Hst. destruct (started_ok _ _ _ Hs Hrun) as [[Hx _] _]. cbn [snd] in *.
  apply (mo_objects _ Hx r st Hst).
Qed.

(** ** Applying metadata *)

(** C11: a metadata list that is applied without interruption always succeeds, however
    many producers wait, and the broker then has exactly the topics whose replica
    lists name it, each in the state the metadata describes unless what it had was at
    least as new or the same. *)
Theorem metadata_list_correct metas x :
  manager_ok x → quiet x → NoDup (tm_topic <$> metas) →
  Forall (meta_ok (broker_id (manager x))) metas →
  ∃ y, run (apply_metadata_list open_connection metas) x = (Ok tt, y) ∧ manager_ok y ∧ quiet y ∧
    (∀ t, is_Some (dict_get (topics (manager y)) t) ↔
       ∃ meta, meta ∈ metas ∧ tm_topic meta = t ∧ broker_id (manager x) ∈ tm_replica_list meta) ∧
    ∀ meta, meta ∈ metas → broker_id (manager x) ∈ tm_replica_list meta →
      ∃ r st, dict_get (topics (manager y)) (tm_topic meta) = Some r ∧ objects (manager y) !! r = Some st ∧
        (shows st meta ∨
         dict_get (topics (manager x)) (tm_topic meta) = Some r ∧ objects (manager x) !! r = Some st ∧
           outdated (broker_id (manager x)) meta st).
Proof.
  intros Hx Hq Hnd Hok.
  destruct (apply_metadata_list_run open_connection metas x Hx Hq Hnd Hok) as (y & E & Hy & Hqy & _ & Hgone & Hall).
  exists y. split_and!; try done.
  - intros t. split.
    + intros [r Hr]. destruct (decide (t ∈ tm_topic <$> metas)) as [Hin|Hn]; [|by rewrite Hgone in Hr].
      apply list_elem_of_fmap in Hin as (meta & -> & Hin). exists meta. split_and!; [done..|].
      pose proof (Hall meta Hin) as Hp. unfold placed in Hp. case_bool_decide; [done|congruence].
    + intros (meta & Hin & <- & Hmem). pose proof (Hall meta Hin) as Hp. unfold placed in Hp.
      rewrite bool_decide_eq_true_2 in Hp by done. destruct Hp as (r & st & ? & _). by exists r.
  - intros meta Hin Hmem. pose proof (Hall meta Hin) as Hp. unfold placed in Hp.
    by rewrite bool_decide_eq_true_2 in Hp by done.
Qed.

(** Newer metadata that changes nothing is dropped with its version, so metadata
    that is older than it is applied afterwards. *)
Theorem version_forgotten meta stale x r st :
  manager_ok x → quiet x → let id := broker_id (manager x) in
  dict_get (topics (manager x)) (tm_topic meta) = Some r → objects (manager x) !! r = Some st →
  id ∈ tm_replica_list meta → id ∈ tm_replica_list stale → tm_topic stale = tm_topic meta →
  api_topic (tm_topic meta) →
  ts_version st < tm_version stale < tm_version meta →
  compare_meta (meta_state id meta) st = true → compare_meta (meta_state id stale) st = false →
  ∃ y r' st', run (apply_all open_connection [meta; stale]) x = (Ok tt, y) ∧
    dict_get (topics (manager y)) (tm_topic meta) = Some r' ∧ objects (manager y) !! r' = Some st' ∧
    shows st' stale ∧ ts_version st' < tm_version meta.
Proof.
  intros Hx Hq id Hr Hst Hin Hin' Ht Htop Hv Hc Hc'.
  destruct (apply_metadata_run open_connection meta x Hx Hq (λ _, Htop)) as (y & E & _ & Ha).
  rewrite (ap_kept _ _ _ Ha r st Hin Hr Hst) in E by (by right).
  destruct (apply_metadata_run open_connection stale x Hx Hq) as (z & E2 & _ & Ha2); [intros _; by rewrite Ht|].
  destruct (ap_shown _ _ _ Ha2 Hin') as (r' & st' & Hr' & Hst' & Hshow).
  { intros r2 st2. rewrite Ht, Hr. intros [= <-] Hst2. assert (st2 = st) as -> by congruence.
    intros [?|Ho]; [lia|]. fold id in Ho. congruence. }
  exists z, r', st'. cbn [apply_all]. run_co. rewrite E. run_co. rewrite E2. run_co.
  rewrite <-Ht at 1. split_and!; try done. destruct Hshow as (_ & _ & _ & _ & _ & ->). lia.
Qed.

(** ** Following a leader *)

(** What a leader answers with is a batch of whole messages. *)
Lemma fetch_answer now l s size rid leo hw n batch l' s' pre rest :
  leader_ok l s → size ≤ 1024 → api_log s (topic l) = pre ++ rest →
  Leader.handle now (ReplicaFetchCommand (topic l) (recs_len pre) size rid) (l, s)
    = (Ok (ReplicaFetchBytesResponse (topic l) leo hw n batch), (l', s')) →
  ∃ got more, parse_records batch = got ∧ rest = got ++ more ∧ got ≠ [].
Proof.
  intros Hl Hsize Hlog. cbn [Leader.handle]. run. cbn [fst].
  destruct (bool_decide _); cbn [negb]; [|done]. run. rewrite log_end_run by done. run.
  destruct (high_watermark_run l s Hl) as (w & E & _). rewrite E. run.
  destruct (_ =? LeaderTheorems.leo l s); unfold Leader.on_leader, Leader.on_log; run; cbn [fst snd];
    (destruct (Z.leb_spec size 1024); [|lia]); run; cbn [fst snd].
  all: destruct (decide (rest = [])) as [->|Hne];
    [rewrite app_nil_r in Hlog; rewrite <-Hlog, api_read_bytes_end by apply Hl; done|].
  all: destruct (api_read_bytes_ok s (topic l) pre rest size (lo_log _ _ Hl) Hlog Hne)
      as (data & got & more & s2 & Er & Hp & Hrest & Hgot & _).
  all: rewrite Er; run; intros [= _ _ _ <- _ _]; by exists got, more.
Qed.

(** What a follower would store is not what the leader has: it appends the batch
    it fetched, the length-prefixed messages, as one message, and its next offset
    lies four bytes before the end of its own log. *)
Theorem fetched_batch_misplaced f l sl sf now leo hw n batch l' sl' frame tail :
  leader_ok l sl → api_ok sf → api_topic (topic l) → no_blank (topic l) →
  f_topic f = topic l → f_fetch_size f ≤ 1024 → f_log_end_offset f = recs_len (api_log sf (topic l)) →
  api_log sf (topic l) `prefix_of` api_log sl (topic l) →
  Leader.handle now (fetch_command f) (l, sl)
    = (Ok (ReplicaFetchBytesResponse (topic l) leo hw n batch), (l', sl')) →
  encode_response (packet (ReplicaFetchBytesResponse (topic l) leo hw n batch)) = Ok frame →
  zlen batch < 2 ^ 32 → recs_len (api_log sf (topic l)) < 2 ^ 63 →
  ∃ f' sf', fetch_round now (ef_header frame ++ batch ++ tail) (f, sf) = (Ok tail, (f', sf')) ∧
    api_log sf' (topic l) = api_log sf (topic l) ++ [batch] ∧
    ¬ api_log sf' (topic l) `prefix_of` api_log sl (topic l) ∧
    f_log_end_offset f' + 4 = recs_len (api_log sf' (topic l)).
Proof.
  intros Hl Hsf Htop Hblank Hft Hsize Hend [rest Hpre] Hh He Hn Hb.
  (* what the leader sends *)
  unfold fetch_command in Hh. rewrite Hft, Hend in Hh.
  destruct (fetch_answer _ _ _ _ _ _ _ _ _ _ _ _ rest Hl Hsize Hpre Hh) as (got & more & Hgot & Hrest & Hgne).
  (* what the follower receives *)
  destruct (response_roundtrip (packet (ReplicaFetchBytesResponse (topic l) leo hw n batch)) frame (batch ++ tail))
    as (d & Hread & Hparse); [done|done|exact He|].
  destruct (api_append_ok sf now (topic l) batch) as (sf' & Happ & _ & _ & Hlog & _); [done..|].
  unfold fetch_round. run. unfold fetch_data. rewrite Hread. cbn [mbind result_bind]. rewrite Hparse.
  cbn [mbind result_bind body packet announced]. rewrite readexactly_app by done. run. cbn [fst snd].
  rewrite Hft, Happ. run. eexists _, sf'. split; [reflexivity|]. cbn [f_log_end_offset set_log_end_offset fst].
  split_and!; [done| |].
  - rewrite Hlog, Hpre. intros [k Hk]. rewrite <-app_assoc in Hk. apply app_inv_head in Hk.
    destruct got as [|m got]; [done|]. rewrite Hrest in Hk. cbn in Hk. injection Hk as -> _.
    pose proof (first_record_shorter batch batch got Hgot). lia.
  - rewrite Hlog, recs_len_app. cbn. lia.
Qed.
End theorems.

(** ** Notifying producers *)

Lemma waiter_lt_ok x y : x.1 ≠ y.1 → waiter_lt x y = Ok (x.1 <? y.1).
Proof. intros Hne. unfold waiter_lt. by rewrite (proj2 (Z.eqb_neq _ _) Hne). Qed.

Lemma filter_all {A} (P : A → Prop) `{∀ x, Decision (P x)} (l : list A) :
  (∀ x, x ∈ l → P x) → filter P l = l.
Proof.
  induction l as [|x l IH]; intros Hl; [done|]. rewrite filter_cons_True by (apply Hl; left).
  f_equal. apply IH. intros y Hy. apply Hl. by right.
Qed.

Definition woken (hw : Z) (q : list (Z * nat)) : list nat := (filter (λ p, p.1 ≤ hw) q).*2.

Lemma woken_cons hw o f q : o ≤ hw → woken hw ((o, f) :: q) = f :: woken hw q.
Proof. intros Ho. unfold woken. by rewrite filter_cons_True. Qed.

Lemma woken_subset hw q f : f ∈ woken hw q → f ∈ q.*2.
Proof.
  unfold woken. intros (p & -> & [_ Hp]%list_elem_of_filter)%list_elem_of_fmap.
  by apply list_elem_of_fmap_2.
Qed.

#[export] Instance woken_perm hw : Proper ((≡ₚ) ==> (≡ₚ)) (woken hw).
Proof. intros q q' E. unfold woken. by rewrite E. Qed.

Lemma notify_loop_ok fuel hw l q w :
  (length q ≤ fuel)%nat → heap fst q → NoDup q.*1 → NoDup q.*2 →
  (∀ f, f ∈ q.*2 → results w !! f = None) →
  ∃ q' w', notify_loop fuel hw (set_waiters q l, w) = (Ok tt, (set_waiters q' l, w')) ∧
    q' ≡ₚ filter (λ p, hw < p.1) q ∧ heap fst q' ∧
    ∀ f, results w' !! f = if decide (f ∈ woken hw q) then Some (Ok tt) else results w !! f.
Proof.
  revert q w. induction fuel as [|fuel IH]; intros q w Hlen Hh Hn1 Hn2 Hp.
  { destruct q; [|cbn in Hlen; lia]. exists [], w. split_and!; [done..|]. intros f.
    by rewrite decide_False by apply not_elem_of_nil. }
  cbn [notify_loop]. run. cbn [fst hw_waiter_queue set_waiters].
  destruct q as [|[o f] q].
  { exists [], w. split_and!; [done..|]. intros f. by rewrite decide_False by apply not_elem_of_nil. }
  destruct (Z.leb_spec o hw) as [Ho|Ho].
  - destruct (heappop_ok waiter_lt fst waiter_lt_ok ((o, f) :: q) (o, f)) as (h & E & Hperm & Hh'); [done..|].
    run. cbn [fst snd hw_waiter_queue set_waiters]. rewrite E. run. cbn [fst snd].
    unfold set_future. run. rewrite (Hp f) by left. run.
    rewrite <-Hperm in Hn1, Hn2. cbn in Hn1, Hn2.
    apply NoDup_cons in Hn1 as [Hno Hn1]. apply NoDup_cons in Hn2 as [Hnf Hn2].
    destruct (IH h (mkFutures (next_future w) (<[f := Ok tt]> (results w)))) as (q' & w' & E' & Hq' & Hh2 & Hr).
    + apply (f_equal length) in Hperm || apply Permutation_length in Hperm. cbn in *. lia.
    + done.
    + done.
    + done.
    + intros g Hg. cbn. rewrite lookup_insert_ne by (intros ->; done). apply Hp.
      rewrite <-Hperm. by right.
    + exists q', w'. split_and!; [exact E'| |done|].
      * rewrite Hq'. rewrite <-Hperm. by rewrite filter_cons_False by (cbn; lia).
      * intros g. rewrite Hr. cbn [results].
        assert (g ∈ woken hw ((o, f) :: q) ↔ g ∈ f :: woken hw h) as Hg by (by rewrite <-Hperm, woken_cons).
        rewrite (decide_ext _ _ _ _ Hg).
        destruct (decide (g = f)) as [->|Hne].
        -- rewrite decide_False by (intros ?%woken_subset; done). rewrite lookup_insert_eq.
           rewrite decide_True; [done|left].
        -- rewrite lookup_insert_ne by done. destruct (decide (g ∈ woken hw h)).
           ++ rewrite decide_True; [done|by right].
           ++ rewrite decide_False; [done|]. by intros [?|?]%elem_of_cons.
  - assert (∀ p, p ∈ (o, f) :: q → hw < p.1) as Hall.
    { intros p Hin. pose proof (heap_min fst ((o, f) :: q) (o, f) p Hh eq_refl Hin). cbn in *. lia. }
    exists ((o, f) :: q), w. run. split_and!; [done| |done|].
    + by rewrite filter_all.
    + intros g. rewrite decide_False; [done|]. unfold woken.
      intros (p & -> & [Hle Hin]%list_elem_of_filter)%list_elem_of_fmap. specialize (Hall p Hin). lia.
Qed.

(** Notifying the waiters of a leader wakes exactly those whose offset the high
    watermark has reached, each once, and keeps the others as a queue. *)
Theorem notify_correct l w hw :
  heap fst (hw_waiter_queue l) → NoDup (hw_waiter_queue l).*1 → NoDup (hw_waiter_queue l).*2 →
  (∀ f, f ∈ (hw_waiter_queue l).*2 → results w !! f = None) →
  ∃ q w', _notify_hw_waiters hw (l, w) = (Ok tt, (set_waiters q l, w')) ∧
    q ≡ₚ filter (λ p, hw < p.1) (hw_waiter_queue l) ∧ heap fst q ∧
    ∀ f, results w' !! f = if decide (f ∈ woken hw (hw_waiter_queue l))
                           then Some (Ok tt) else results w !! f.
Proof.
  intros Hh Hn1 Hn2 Hp.
  destruct (notify_loop_ok (length (hw_waiter_queue l)) hw l (hw_waiter_queue l) w) as (q & w' & E & ?); [done..|].
  exists q, w'. split; [|done]. unfold _notify_hw_waiters. run. cbn [fst].
  replace (set_waiters (hw_waiter_queue l) l) with l in E by (by destruct l). exact E.
Qed.

(** ** Witnesses, with the log itself *)

#[local] Instance sample_append : LogAppend Log := log_append sample_config.
#[local] Instance sample_laws : LogAppendLaws Log := log_append_laws sample_config.

Definition replica_config : ReplicaConfig := mkReplicaConfig (py "b1") 512 1 2 10000.
Definition led : TopicMeta := mkTopicMeta orders (py "b1") (py "h1") 9001 [py "b1"; py "b2"] 1.
Definition followed : TopicMeta :=
  mkTopicMeta (py "events") (py "b2") (py "h2") 9002 [py "b1"; py "b2"] 1.
Definition foreign : TopicMeta := mkTopicMeta (py "other") (py "b2") (py "h2") 9002 [py "b2"] 1.
Definition metas : list TopicMeta := [led; followed; foreign].
Definition reachable (_ : pystr) (_ : Z) : result unit := Ok tt.
Definition fresh : Replication Log := new_replication replica_config log3.

Lemma metas_ok : Forall (meta_ok (py "b1")) metas.
Proof.
  do 3 (apply Forall_cons; split; [intros _; apply (bool_decide_unpack _); vm_compute; exact I|]).
  constructor.
Qed.

(** The list is applied up to the connection of the follower. *)
Definition connecting : Co (Replication Log) unit * Replication Log :=
  resume (apply_metadata_list reachable metas) fresh.

Lemma connecting_run : replication_run reachable ([], fresh) ([connecting.1], connecting.2).
Proof.
  apply rtc_once. eapply (sched_spawn _ _ [] fresh (apply_metadata_list reachable metas)).
  - apply task_apply_list, metas_ok.
  - apply surjective_pairing.
Qed.

Lemma connecting_leads :
  dict_get (topics (manager connecting.2)) orders = Some 0%nat ∧
  dict_get (topics (manager connecting.2)) (py "events") = Some 1%nat.
Proof. split; vm_compute; reflexivity. Qed.

Lemma roles_consistent_witness :
  ∃ st, objects (manager connecting.2) !! 0%nat = Some st ∧ ts_topic st = orders ∧
    (ts_leader_id st = py "b1" → is_Some (ts_leader st)).
Proof.
  destruct (roles_consistent reachable replica_config log3 [connecting.1] connecting.2 orders 0
    log3_ok connecting_run (proj1 connecting_leads)) as (st & Hst & Ht & _ & _ & Hl & _).
  exists st. split; [exact Hst|]. split; [exact Ht|]. intros E. destruct (Hl E) as (l & El & _).
  exists l. exact El.
Defined.

(** A follower fetches from the leader meanwhile. *)
Definition fetched : Replication Log :=
  (handle 5 (ReplicaFetchCommand orders 9 512 (py "b2")) connecting.2).2.

Lemma fetched_run : replication_run reachable ([connecting.1], connecting.2) ([connecting.1], fetched).
Proof.
  apply rtc_once, sched_env.
  eapply (event_handle 5 (ReplicaFetchCommand orders 9 512 (py "b2"))), surjective_pairing.
Qed.

Definition the_state : option TopicState := objects (manager connecting.2) !! 0%nat.

Lemma the_leader : ∃ st l, objects (manager connecting.2) !! 0%nat = Some st ∧ ts_leader st = Some l ∧
  ts_topic st = orders ∧ _high_watermark l = 28.
Proof.
  destruct (objects (manager connecting.2) !! 0%nat) as [st|] eqn:E; vm_compute in E; [|discriminate E].
  injection E as <-. do 2 eexists. split; [reflexivity|]. split; [reflexivity|]. split; reflexivity.
Qed.

Lemma held_leader_monotone_witness :
  ∃ st' l', objects (manager fetched) !! 0%nat = Some st' ∧ ts_leader st' = Some l' ∧
    28 ≤ _high_watermark l' ∧ _high_watermark l' ≤ recs_len (api_log (log fetched) orders).
Proof.
  destruct the_leader as (st & l & Hst & Hl & Ht & Hw).
  destruct (held_leader_monotone reachable replica_config log3 [connecting.1] connecting.2 [connecting.1]
    fetched 0 st l log3_ok connecting_run fetched_run Hst Hl) as (st' & l' & Hst' & Hl' & _ & H1 & H2 & _).
  rewrite Hw in H1. rewrite Ht in H2. exists st', l'. split_and!; assumption.
Defined.

Lemma followers_never_fetch_witness :
  ∃ st, objects (manager connecting.2) !! 1%nat = Some st ∧ ts_fetcher st = None.
Proof.
  destruct (objects (manager connecting.2) !! 1%nat) as [st|] eqn:E; [|vm_compute in E; discriminate E].
  exists st. split; [reflexivity|].
  exact (followers_never_fetch reachable replica_config log3 [connecting.1] connecting.2 1 st
    log3_ok connecting_run E).
Defined.

Lemma fresh_ok : manager_ok fresh.
Proof. apply new_replication_ok, log3_ok. Qed.
Lemma fresh_quiet : quiet fresh.
Proof. split; [constructor|]. by intros f ?%not_elem_of_nil. Qed.
Lemma metas_distinct : NoDup (tm_topic <$> metas).
Proof. apply (bool_decide_unpack _). vm_compute. exact I. Qed.

Lemma metadata_list_correct_witness :
  ∃ y, run (apply_metadata_list reachable metas) fresh = (Ok tt, y) ∧ manager_ok y ∧ quiet y ∧
    is_Some (dict_get (topics (manager y)) (py "events")).
Proof.
  destruct (metadata_list_correct reachable metas fresh fresh_ok fresh_quiet metas_distinct metas_ok)
    as (y & E & Hy & Hq & Hdom & _).
  exists y. split; [exact E|]. split; [exact Hy|]. split; [exact Hq|].
  apply Hdom. exists followed. split; [right; left|]. split; [reflexivity|].
  apply (bool_decide_unpack _). vm_compute. exact I.
Defined.

(** The broker as the list leaves it. *)
Definition settled : Replication Log := (run (apply_metadata_list reachable metas) fresh).2.

Lemma settled_ok : manager_ok settled ∧ quiet settled ∧ broker_id (manager settled) = py "b1".
Proof.
  destruct (apply_metadata_list_run reachable metas fresh fresh_ok fresh_quiet metas_distinct metas_ok)
    as (y & E & Hy & Hq & Hid & _).
  unfold settled. rewrite E. cbn [snd]. exact (conj Hy (conj Hq Hid)).
Qed.

(** Version 3 says the same as version 1; version 2 has another leader. *)
Definition same_again : TopicMeta := mkTopicMeta orders (py "b1") (py "h1") 9001 [py "b2"; py "b1"] 3.
Definition moved : TopicMeta := mkTopicMeta orders (py "b2") (py "h2") 9002 [py "b1"; py "b2"] 2.

Lemma settled_state : ∃ st,
  dict_get (topics (manager settled)) orders = Some 0%nat ∧ objects (manager settled) !! 0%nat = Some st ∧
  ts_version st = 1 ∧ compare_meta (meta_state (py "b1") same_again) st = true ∧
  compare_meta (meta_state (py "b1") moved) st = false.
Proof.
  destruct (objects (manager settled) !! 0%nat) as [st|] eqn:E; [|vm_compute in E; discriminate E].
  exists st. split; [vm_compute; reflexivity|]. split; [reflexivity|].
  vm_compute in E. injection E as <-. split_and!; vm_compute; reflexivity.
Qed.

Lemma orders_ok : topic_ok orders.
Proof. apply (bool_decide_unpack _). vm_compute. exact I. Qed.

Lemma version_forgotten_witness :
  ∃ y r st, run (apply_all reachable [same_again; moved]) settled = (Ok tt, y) ∧
    dict_get (topics (manager y)) orders = Some r ∧ objects (manager y) !! r = Some st ∧
    shows st moved ∧ ts_version st < 3.
Proof.
  destruct settled_state as (st & Hr & Hst & Hv & Hsame & Hmoved). destruct settled_ok as (Hok & Hq & Hid).
  rewrite <-Hid in Hsame, Hmoved.
  apply (version_forgotten reachable same_again moved settled 0 st Hok Hq Hr Hst).
  - rewrite Hid. right. left.
  - rewrite Hid. left.
  - reflexivity.
  - exact orders_ok.
  - rewrite Hv. split; reflexivity.
  - exact Hsame.
  - exact Hmoved.
Defined.

Lemma log1_ok : api_ok log1.
Proof.
  eapply log_ok, (reachable_log_inv sample_config).
  split; [by vm_compute|]. exists 0, ∅. apply rtc_once, log1_call.
Qed.

(** A follower that has the first of three messages. *)
Definition sample_fetcher : ReplicaFetcher := mkReplicaFetcher orders 9 512 (py "b2") 1 true.
Definition sample_batch : bytes :=
  match (Leader.handle 0 (fetch_command sample_fetcher) (sample_leader, log3)).1 with
  | Ok (ReplicaFetchBytesResponse _ _ _ _ data) => data
  | _ => []
  end.
Definition sample_answer : Response := ReplicaFetchBytesResponse orders 28 28 10 sample_batch.
Definition sample_frame : EncodedFrame :=
  match encode_response (packet sample_answer) with Ok f => f | Raise _ => plain_frame [] end.

Lemma sample_handled :
  Leader.handle 0 (fetch_command sample_fetcher) (sample_leader, log3)
  = (Ok sample_answer, (Leader.handle 0 (fetch_command sample_fetcher) (sample_leader, log3)).2).
Proof. vm_compute. reflexivity. Qed.
Lemma sample_encoded : encode_response (packet sample_answer) = Ok sample_frame.
Proof. vm_compute. reflexivity. Qed.

Lemma fetched_batch_misplaced_witness :
  ∃ f' sf', fetch_round 0 (ef_header sample_frame ++ sample_batch) (sample_fetcher, log1)
      = (Ok [], (f', sf')) ∧
    topic_log sf' orders = [py "first"; sample_batch] ∧ f_log_end_offset f' + 4 = recs_len (topic_log sf' orders).
Proof.
  destruct (fetched_batch_misplaced sample_fetcher sample_leader log3 log1 0 28 28 10 sample_batch
    (Leader.handle 0 (fetch_command sample_fetcher) (sample_leader, log3)).2.1
    (Leader.handle 0 (fetch_command sample_fetcher) (sample_leader, log3)).2.2 sample_frame [])
    as (f' & sf' & E & Hlog & _ & Hend).
  - exact sample_leader_ok.
  - exact log1_ok.
  - exact orders_ok.
  - by apply (bool_decide_unpack _).
  - reflexivity.
  - discriminate.
  - vm_compute. reflexivity.
  - exists [py "second"; py "third"]. vm_compute. reflexivity.
  - rewrite <-!surjective_pairing. exact sample_handled.
  - exact sample_encoded.
  - vm_compute. reflexivity.
  - vm_compute. reflexivity.
  - rewrite app_nil_r in E. exists f', sf'. split; [exact E|]. split; [|exact Hend].
    change (topic_log sf' orders = topic_log log1 orders ++ [sample_batch]) in Hlog. rewrite Hlog.
    vm_compute. reflexivity.
Defined.

(** Three producers wait at 9, 19 and 28. *)
Definition awaited : ReplicaLeader := set_waiters [(9, 1%nat); (28, 0%nat); (19, 2%nat)] sample_leader.

Lemma notify_correct_witness :
  ∃ q w, _notify_hw_waiters 19 (awaited, no_futures) = (Ok tt, (set_waiters q awaited, w)) ∧
    q ≡ₚ [(28, 0%nat)] ∧ results w !! 2%nat = Some (Ok tt).
Proof.
  destruct (notify_correct awaited no_futures 19) as (q & w & E & Hq & _ & Hr).
  - intros i Hi a b Ha Hb. destruct i as [|[|[|i]]]; cbn in Ha, Hb; simplify_eq; cbn; try lia.
  - apply (bool_decide_unpack _). vm_compute. exact I.
  - apply (bool_decide_unpack _). vm_compute. exact I.
  - intros f _. reflexivity.
  - exists q, w. split; [exact E|]. split; [exact Hq|]. rewrite Hr. reflexivity.
Defined.
