(* ===== verification/Writer.v ===== *)
(** * [network/writer.py]

    The batching writer: one queue and one collector coroutine per topic, and a pool
    of threads that append the batches.  The code between two suspension points is
    one function here; [None] means that it does not run in that state.  Between two
    appends of a batch other threads may append, since [append_batch] takes the
    writer lock once per message.  Futures are numbers, times microseconds. *)
From Stdlib Require Import String.
From S2P Require Import Prelude PyData Segment Log LogApi.

Record WriterConfig := mkWriterConfig {
  max_batch_size : Z;
  max_batch_bytes : Z;
  max_batch_wait : Z;
  max_workers : nat }.

Record WriteRequest := mkWriteRequest {
  producer_id : list Z;
  wr_topic : list Z;
  data : list Z;
  created_at : Z;
  callback : option nat }.

(** The queue of a topic and the local variables of its collector. *)
Record Collector := mkCollector {
  queue : list WriteRequest;
  batch : list WriteRequest;
  batch_bytes : Z;
  start_time : option Z }.

(** A call of [_flush_batch], with the offsets of the messages it has appended. *)
Record Job := mkJob {
  job_topic : list Z;
  job_batch : list WriteRequest;
  job_offsets : list Z }.

Inductive outcome := Result (offset : Z) | Failed.

(** [work_queue] and [workers] belong to the executor, [scheduled] are the calls of
    [call_soon_threadsafe] that the event loop has not made yet, [crashed] the jobs
    that ended with an exception, which nobody looks at. *)
Record Writer := mkWriter {
  config : WriterConfig;
  collectors : gmap (list Z) Collector;
  running : bool;
  work_queue : list Job;
  workers : list Job;
  scheduled : list (nat * Z);
  futures : gmap nat outcome;
  crashed : list Job }.

Definition new_writer (c : WriterConfig) : Writer := mkWriter c ∅ true [] [] [] ∅ [].

Definition set_collectors (m : gmap (list Z) Collector) (w : Writer) : Writer :=
  mkWriter (config w) m (running w) (work_queue w) (workers w) (scheduled w) (futures w) (crashed w).
Definition set_work_queue (q : list Job) (w : Writer) : Writer :=
  mkWriter (config w) (collectors w) (running w) q (workers w) (scheduled w) (futures w) (crashed w).
Definition set_workers (l : list Job) (w : Writer) : Writer :=
  mkWriter (config w) (collectors w) (running w) (work_queue w) l (scheduled w) (futures w) (crashed w).
Definition set_scheduled (l : list (nat * Z)) (w : Writer) : Writer :=
  mkWriter (config w) (collectors w) (running w) (work_queue w) (workers w) l (futures w) (crashed w).
Definition set_futures (m : gmap nat outcome) (w : Writer) : Writer :=
  mkWriter (config w) (collectors w) (running w) (work_queue w) (workers w) (scheduled w) m (crashed w).
Definition set_crashed (l : list Job) (w : Writer) : Writer :=
  mkWriter (config w) (collectors w) (running w) (work_queue w) (workers w) (scheduled w) (futures w) l.

Definition empty_collector : Collector := mkCollector [] [] 0 None.

(** [set_result] and [set_exception] on a future that is done raise in the event
    loop, which logs it. *)
Definition settle (f : nat) (o : outcome) (m : gmap nat outcome) : gmap nat outcome :=
  match m !! f with Some _ => m | None => <[f := o]> m end.

Definition submit (req : WriteRequest) (w : Writer) : Writer :=
  let c := default empty_collector (collectors w !! wr_topic req) in
  set_collectors (<[wr_topic req :=
    mkCollector (queue c ++ [req]) (batch c) (batch_bytes c) (start_time c)]> (collectors w)) w.

(** [executor.submit(self._flush_batch, topic, batch)] and the reset behind it. *)
Definition flush (topic : pystr) (q batch : list WriteRequest) (w : Writer) : Writer :=
  set_collectors (<[topic := mkCollector q [] 0 None]> (collectors w))
    (set_work_queue (work_queue w ++ [mkJob topic batch []]) w).

(** [assert(start_time)] *)
Definition started (c : Collector) : option Z :=
  match start_time c with
  | Some t => if t =? 0 then None else Some t
  | None => None
  end.

(** The collector of [topic] gets a request from its queue. *)
Definition collect (topic : pystr) (w : Writer) : option Writer :=
  if negb (running w) then None else
  c ← collectors w !! topic;
  match queue c with
  | [] => None
  | req :: q =>
      let batch' := batch c ++ [req] in
      let bytes := batch_bytes c + zlen (data req) in
      match batch c with
      | [] =>
          Some (set_collectors
            (<[topic := mkCollector q batch' bytes (Some (created_at req))]> (collectors w)) w)
      | _ :: _ =>
          _ ← started c;
          if (max_batch_size (config w) <=? zlen batch') || (max_batch_bytes (config w) <=? bytes)
          then Some (flush topic q batch' w)
          else Some (set_collectors
            (<[topic := mkCollector q batch' bytes (start_time c)]> (collectors w)) w)
      end
  end.

(** The wait of the collector of [topic] times out at time [now]. *)
Definition collect_timeout (now : Z) (topic : pystr) (w : Writer) : option Writer :=
  if negb (running w) then None else
  c ← collectors w !! topic;
  match batch c with
  | [] => None
  | _ :: _ =>
      t ← started c;
      if max_batch_wait (config w) - (now - t) <=? 0
      then Some (flush topic (queue c) (batch c) w) else None
  end.

(** A thread of the pool takes the next job. *)
Definition start_job (w : Writer) : option Writer :=
  match work_queue w with
  | [] => None
  | j :: js =>
      if (length (workers w) <? max_workers (config w))%nat
      then Some (set_workers (workers w ++ [j]) (set_work_queue js w)) else None
  end.

(** [zip(offsets, batch)] without the requests that nobody waits for *)
Fixpoint callbacks (offsets : list Z) (batch : list WriteRequest) : list (nat * Z) :=
  match offsets, batch with
  | o :: offsets, r :: batch =>
      match callback r with
      | None => callbacks offsets batch
      | Some f => (f, o) :: callbacks offsets batch
      end
  | _, _ => []
  end.

(** Thread [i] has appended its whole batch. *)
Definition finish_job (i : nat) (w : Writer) : option Writer :=
  j ← workers w !! i;
  if (length (job_offsets j) =? length (job_batch j))%nat
  then Some (set_scheduled (scheduled w ++ callbacks (job_offsets j) (job_batch j))
               (set_workers (delete i (workers w)) w))
  else None.

(** The event loop makes the first scheduled call. *)
Definition run_callback (w : Writer) : option Writer :=
  match scheduled w with
  | [] => None
  | (f, o) :: r => Some (set_futures (settle f (Result o) (futures w)) (set_scheduled r w))
  end.

(** [close]: the batch of a cancelled collector is gone. *)
Definition fail_all (q : list WriteRequest) (m : gmap nat outcome) : gmap nat outcome :=
  foldl (λ m r, match callback r with Some f => settle f Failed m | None => m end) m q.

Definition close (w : Writer) : Writer :=
  mkWriter (config w) ∅ false (work_queue w) (workers w) (scheduled w)
    (map_fold (λ _ c m, fail_all (queue c) m) (futures w) (collectors w)) (crashed w).

Section writer.
Context {S : Type} `{LogAppend S}.

(** Thread [i] appends the next message of its batch. *)
Definition append_next (now : Z) (i : nat) (w : Writer) (s : S) : option (Writer * S) :=
  j ← workers w !! i;
  req ← job_batch j !! length (job_offsets j);
  Some
    match api_append now (job_topic j) (data req) s with
    | (Ok offset, s) =>
        (set_workers (<[i := mkJob (job_topic j) (job_batch j) (job_offsets j ++ [offset])]>
           (workers w)) w, s)
    | (Raise e, s) =>
        (set_crashed (crashed w ++ [j]) (set_workers (delete i (workers w)) w), s)
    end.
End writer.
