(* ===== verification/WriterFacts.v ===== *)
(** * Runs of the batching writer

    The steps of the collectors, the threads and the event loop in any order, and
    what every run preserves. *)
From Stdlib Require Import String.
From stdpp Require Import sorting.
From S2P Require Import Prelude PyData RecordFacts Segment Log LogRead LogApi Writer.

Lemma recs_len_perm l k : l ≡ₚ k → recs_len l = recs_len k.
Proof. unfold recs_len. induction 1; cbn; lia. Qed.

Section writer.
Context {S : Type} `{LogAppendLaws S}.
Implicit Types (w : Writer) (s : S) (t : list Z).

(** One step of the writer itself. *)
Inductive internal : Writer * S → Writer * S → Prop :=
| step_collect t w s w' : collect t w = Some w' → internal (w, s) (w', s)
| step_timeout now t w s w' : collect_timeout now t w = Some w' → internal (w, s) (w', s)
| step_start w s w' : start_job w = Some w' → internal (w, s) (w', s)
| step_append now i w s w' s' : append_next now i w s = Some (w', s') → internal (w, s) (w', s')
| step_finish i w s w' : finish_job i w = Some w' → internal (w, s) (w', s)
| step_callback w s w' : run_callback w = Some w' → internal (w, s) (w', s).

(** A run from [x], during which the requests of the list were submitted; other
    users of the log read from it and create topics meanwhile. *)
Inductive writer_run (x : Writer * S) : list WriteRequest → Writer * S → Prop :=
| run_nil : writer_run x [] x
| run_submit tr w s req : writer_run x tr (w, s) → writer_run x (tr ++ [req]) (submit req w, s)
| run_internal tr y z : writer_run x tr y → internal y z → writer_run x tr z
| run_reader tr w s s' :
    writer_run x tr (w, s) → api_ok s' → (∀ t, api_log s' t = api_log s t) → writer_run x tr (w, s').

(** ** What is on its way *)

Definition of_topic t (l : list WriteRequest) : list WriteRequest :=
  filter (λ r, wr_topic r = t) l.

Definition unwritten (j : Job) : list WriteRequest := drop (length (job_offsets j)) (job_batch j).
Definition collector w t : Collector := default empty_collector (collectors w !! t).

(** The requests of [t] that are not in the log yet, in the order of the pipeline. *)
Definition pending w t : list WriteRequest :=
  of_topic t (concat (unwritten <$> workers w)) ++
  of_topic t (concat (unwritten <$> work_queue w)) ++
  batch (collector w t) ++ queue (collector w t).

(** Equal lists for a pool of one thread, equal up to the order for more. *)
Definition same_order (n : nat) : list (list Z) → list (list Z) → Prop :=
  if (n <=? 1)%nat then (=) else (≡ₚ).

#[local] Instance same_order_equiv n : Equivalence (same_order n).
Proof. unfold same_order. destruct (_ <=? _)%nat; apply _. Qed.

Lemma same_order_refl n l k : l = k → same_order n l k.
Proof. by intros ->. Qed.

Lemma same_order_perm n l k : same_order n l k → l ≡ₚ k.
Proof. unfold same_order. destruct (_ <=? _)%nat; [by intros ->|done]. Qed.

(** ** The invariant *)

Record job_ok (tr : list WriteRequest) (j : Job) : Prop := {
  jo_topic : Forall (λ r, wr_topic r = job_topic j) (job_batch j);
  jo_submitted r : r ∈ job_batch j → r ∈ tr;
  jo_offsets : (length (job_offsets j) ≤ length (job_batch j))%nat;
  jo_batch : job_batch j ≠ [] }.

Record collector_ok (tr : list WriteRequest) t (c : Collector) : Prop := {
  co_topic : Forall (λ r, wr_topic r = t) (batch c ++ queue c);
  co_submitted r : r ∈ batch c ++ queue c → r ∈ tr;
  co_started : batch c ≠ [] → is_Some (started c) }.

(** The message of [r] is in the log, at [o]. *)
Definition stored_at s (r : WriteRequest) (o : Z) : Prop :=
  ∃ pre post, api_log s (wr_topic r) = pre ++ data r :: post ∧ recs_len pre = o.

Definition acknowledged s (tr : list WriteRequest) (f : nat) (o : Z) : Prop :=
  ∃ r, r ∈ tr ∧ callback r = Some f ∧ stored_at s r o.

(** What a job has appended is where its offsets say. *)
Definition written s (j : Job) : Prop :=
  Forall2 (stored_at s) (take (length (job_offsets j)) (job_batch j)) (job_offsets j).

Record writer_ok (c : WriterConfig) s0 (tr : list WriteRequest) w s : Prop := {
  wo_log : api_ok s;
  wo_config : config w = c;
  wo_running : running w = true;
  wo_crashed : crashed w = [];
  wo_times : Forall (λ r, created_at r ≠ 0) tr;
  wo_pool : (length (workers w) ≤ max_workers c)%nat;
  wo_workers : Forall (λ j, job_ok tr j ∧ written s j) (workers w);
  wo_queue : Forall (λ j, job_ok tr j ∧ job_offsets j = []) (work_queue w);
  wo_collectors t : collector_ok tr t (collector w t);
  wo_content t : same_order (max_workers c) (api_log s t ++ (data <$> pending w t))
                   (api_log s0 t ++ (data <$> of_topic t tr));
  wo_scheduled f o : (f, o) ∈ scheduled w → acknowledged s tr f o;
  wo_futures f x : futures w !! f = Some x → ∃ o, x = Result o ∧ acknowledged s tr f o }.

(** A job of the right topic is all of that topic. *)
Lemma of_topic_all t l : Forall (λ r, wr_topic r = t) l → of_topic t l = l.
Proof.
  intros Hl. unfold of_topic. induction Hl as [|r l Hr Hl IH]; [done|].
  rewrite filter_cons_True by done. by rewrite IH.
Qed.

Lemma of_topic_none t t' l : t ≠ t' → Forall (λ r, wr_topic r = t') l → of_topic t l = [].
Proof.
  intros Hne Hl. unfold of_topic. induction Hl as [|r l Hr Hl IH]; [done|].
  rewrite filter_cons_False by congruence. done.
Qed.

Lemma of_topic_app t l k : of_topic t (l ++ k) = of_topic t l ++ of_topic t k.
Proof. apply filter_app. Qed.

Lemma unwritten_topic tr j : job_ok tr j → Forall (λ r, wr_topic r = job_topic j) (unwritten j).
Proof. intros Hj. by apply Forall_drop, (jo_topic tr). Qed.

Lemma of_topic_one t r : of_topic t [r] = if decide (wr_topic r = t) then [r] else [].
Proof. unfold of_topic. by rewrite filter_cons, filter_nil. Qed.

Lemma stored_grow s s' r o :
  (∀ t, ∃ more, api_log s' t = api_log s t ++ more) → stored_at s r o → stored_at s' r o.
Proof.
  intros Hg (pre & post & Hl & Ho). destruct (Hg (wr_topic r)) as [more Hm].
  exists pre, (post ++ more). split; [|done]. by rewrite Hm, Hl, <-app_assoc.
Qed.

Lemma acknowledged_grow s s' tr tr' f o :
  (∀ t, ∃ more, api_log s' t = api_log s t ++ more) → tr ⊆ tr' →
  acknowledged s tr f o → acknowledged s' tr' f o.
Proof.
  intros Hg Ht (r & Hr & Hc & Hs). exists r. split_and!; [by apply Ht|done|by eapply stored_grow].
Qed.
Lemma written_grow s s' j :
  (∀ t, ∃ more, api_log s' t = api_log s t ++ more) → written s j → written s' j.
Proof. intros Hg Hw. eapply Forall2_impl; [exact Hw|]. intros r o. by apply stored_grow. Qed.

Lemma job_ok_mono tr tr' j : tr ⊆ tr' → job_ok tr j → job_ok tr' j.
Proof. intros Ht [? ? ? ?]. split; auto. Qed.

Lemma collector_ok_mono tr tr' t c : tr ⊆ tr' → collector_ok tr t c → collector_ok tr' t c.
Proof. intros Ht [? ? ?]. split; auto. Qed.

Lemma grow_refl s : ∀ t, ∃ more, api_log s t = api_log s t ++ more.
Proof. intros t. exists []. by rewrite app_nil_r. Qed.

Lemma collector_insert w t c t' :
  collector (set_collectors (<[t := c]> (collectors w)) w) t' = if decide (t = t') then c else collector w t'.
Proof.
  unfold collector. cbn. destruct (decide (t = t')) as [->|]; [by rewrite lookup_insert_eq|].
  by rewrite lookup_insert_ne.
Qed.

(** ** Each step keeps the invariant *)

Section steps.
Context (c : WriterConfig) (s0 : S).

Lemma submit_ok tr w s req :
  created_at req ≠ 0 → writer_ok c s0 tr w s → writer_ok c s0 (tr ++ [req]) (submit req w) s.
Proof.
  intros Hreq [W1 W2 W3 W4 WT W5 W6 W7 W8 W9 W10 W11].
  assert (tr ⊆ tr ++ [req]) as Hsub by (intros r Hr; apply elem_of_app; by left).
  set (w' := submit req w). set (col := collector w (wr_topic req)).
  assert (∀ t, collector w' t = if decide (wr_topic req = t)
    then mkCollector (queue col ++ [req]) (batch col) (batch_bytes col) (start_time col)
    else collector w t) as Hcol by (intros t; apply collector_insert).
  split; try done.
  - apply Forall_app. by repeat constructor.
  - eapply Forall_impl; [exact W6|]. intros j [? ?]. split; [by eapply job_ok_mono|done].
  - eapply Forall_impl; [exact W7|]. intros j [? ?]. split; [by eapply job_ok_mono|done].
  - intros t. rewrite Hcol. case_decide as Ht; [|by eapply collector_ok_mono].
    destruct (W8 t) as [C1 C2 C3]. subst t. split; cbn; [| |exact C3].
    + rewrite (assoc_L (++)). apply Forall_app. by repeat constructor.
    + intros r. rewrite (assoc_L (++)), elem_of_app, list_elem_of_singleton.
      intros [Hr| ->]; [by apply Hsub, C2|]. apply elem_of_app. right. left.
  - intros t. assert (pending w' t = pending w t ++ of_topic t [req]) as ->.
    { unfold pending. rewrite Hcol. cbn [workers work_queue submit w' set_collectors].
      rewrite of_topic_one. case_decide as Ht.
      - subst t. cbn [batch queue]. fold col. by rewrite !(assoc_L (++)).
      - by rewrite app_nil_r. }
    rewrite of_topic_app, !fmap_app, !(assoc_L (++)). specialize (W9 t).
    unfold same_order in *. destruct (_ <=? _)%nat; [by rewrite W9|by rewrite W9].
  - intros f o Hf. eapply acknowledged_grow; [apply grow_refl|done|by apply W10].
  - intros f x (o & -> & Hf)%W11. exists o. split; [done|].
    eapply acknowledged_grow; [apply grow_refl|done|done].
Qed.

Lemma reader_ok tr w s s' :
  api_ok s' → (∀ t, api_log s' t = api_log s t) → writer_ok c s0 tr w s → writer_ok c s0 tr w s'.
Proof.
  intros Hs' Hl [W1 W2 W3 W4 WT W5 W6 W7 W8 W9 W10 W11].
  assert (∀ t, ∃ more, api_log s' t = api_log s t ++ more) as Hg.
  { intros t. exists []. by rewrite Hl, app_nil_r. }
  split; try done.
  - eapply Forall_impl; [exact W6|]. intros j [? ?]. split; [done|by eapply written_grow].
  - intros t. by rewrite Hl.
  - intros f o Hf. eapply acknowledged_grow; [done|done|by apply W10].
  - intros f x (o & -> & Hf)%W11. exists o. split; [done|]. by eapply acknowledged_grow.

Qed.
(** The collector changes its local variables. *)
Lemma collector_step tr w s topic q b n st :
  writer_ok c s0 tr w s → b ++ q = batch (collector w topic) ++ queue (collector w topic) →
  (b ≠ [] → is_Some (started (mkCollector q b n st))) →
  writer_ok c s0 tr (set_collectors (<[topic := mkCollector q b n st]> (collectors w)) w) s.
Proof.
  intros [W1 W2 W3 W4 WT W5 W6 W7 W8 W9 W10 W11] Hq Hst.
  set (w' := set_collectors _ w).
  assert (∀ t, collector w' t = if decide (topic = t) then mkCollector q b n st else collector w t)
    as Hcol by (intros t; apply collector_insert).
  split; try done.
  - intros t. rewrite Hcol. case_decide as Ht; [|done]. subst t. destruct (W8 topic) as [C1 C2 C3].
    rewrite <-Hq in C1, C2. by split.
  - intros t. assert (pending w' t = pending w t) as ->; [|done].
    unfold pending. rewrite Hcol. cbn [workers work_queue w' set_collectors].
    case_decide as Ht; [|done]. subst t. cbn [batch queue]. by rewrite Hq.
Qed.

Lemma flush_step tr w s topic q b :
  writer_ok c s0 tr w s → b ++ q = batch (collector w topic) ++ queue (collector w topic) → b ≠ [] →
  writer_ok c s0 tr (flush topic q b w) s.
Proof.
  intros [W1 W2 W3 W4 WT W5 W6 W7 W8 W9 W10 W11] Hq Hb.
  set (w' := flush topic q b w).
  assert (∀ t, collector w' t = if decide (topic = t) then mkCollector q [] 0 None else collector w t) as Hcol.
  { intros t. unfold w', flush. apply (collector_insert (set_work_queue _ w)). }
  destruct (W8 topic) as [C1 C2 _]. rewrite <-Hq in C1, C2. apply Forall_app in C1 as [C1 C1'].
  split; try done.
  - apply Forall_app. split; [done|]. constructor; [|done]. split; [|done].
    split; cbn; [done| |lia|done]. intros r Hr. apply C2, elem_of_app. by left.
  - intros t. rewrite Hcol. case_decide as Ht; [|done]. subst t. split; cbn; [done| |done].
    intros r Hr. apply C2, elem_of_app. by right.
  - intros t. assert (pending w' t = pending w t) as ->; [|done].
    unfold pending. rewrite Hcol. cbn [workers work_queue w' flush set_work_queue set_collectors].
    rewrite fmap_app, concat_app, of_topic_app. cbn [fmap list_fmap concat].
    change (unwritten (mkJob topic b [])) with b. rewrite app_nil_r.
    case_decide as Ht.
    + subst t. rewrite (of_topic_all topic b) by done. cbn [batch queue app].
      by rewrite <-(assoc_L (++) _ b q), Hq.
    + rewrite (of_topic_none t topic b), app_nil_r by done. done.
Qed.

Lemma collect_ok tr t w s w' :
  collect t w = Some w' → writer_ok c s0 tr w s → writer_ok c s0 tr w' s.
Proof.
  intros E Hw. unfold collect in E. rewrite (wo_running _ _ _ _ _ Hw) in E. cbn [negb] in E.
  destruct (collectors w !! t) as [col|] eqn:Ec; [|done]. cbn in E.
  assert (collector w t = col) as Hcol by (unfold collector; by rewrite Ec).
  destruct (queue col) as [|req q] eqn:Eq; [done|].
  assert ((batch col ++ [req]) ++ q = batch (collector w t) ++ queue (collector w t)) as Hq.
  { by rewrite Hcol, Eq, <-app_assoc. }
  pose proof (wo_collectors _ _ _ _ _ Hw t) as [_ C2 C3]. rewrite Hcol in C2, C3.
  destruct (batch col) as [|r b] eqn:Eb.
  - injection E as <-. apply collector_step; [done|done|]. intros _. unfold started. cbn.
    assert (created_at req ≠ 0).
    { pose proof (wo_times _ _ _ _ _ Hw) as HT. rewrite Forall_forall in HT. apply HT, C2.
      rewrite Eq. left. }
    destruct (Z.eqb_spec (created_at req) 0); [done|by eexists].
  - destruct (started col) as [st|] eqn:Es; cbn in E; [|done].
    destruct (_ || _); injection E as <-.
    + by apply flush_step; [done|exact Hq|].
    + apply collector_step; [done|exact Hq|]. intros _. unfold started in Es |- *. cbn. eauto.
Qed.

Lemma collect_timeout_ok tr now t w s w' :
  collect_timeout now t w = Some w' → writer_ok c s0 tr w s → writer_ok c s0 tr w' s.
Proof.
  intros E Hw. unfold collect_timeout in E. rewrite (wo_running _ _ _ _ _ Hw) in E. cbn [negb] in E.
  destruct (collectors w !! t) as [col|] eqn:Ec; [|done]. cbn in E.
  assert (collector w t = col) as Hcol by (unfold collector; by rewrite Ec).
  destruct (batch col) as [|r b] eqn:Eb; [done|]. destruct (started col); cbn in E; [|done].
  destruct (_ <=? _); [|done]. injection E as <-. apply flush_step; [done| |done]. by rewrite Hcol, Eb.
Qed.

Lemma start_job_ok tr w s w' :
  start_job w = Some w' → writer_ok c s0 tr w s → writer_ok c s0 tr w' s.
Proof.
  intros E [W1 W2 W3 W4 WT W5 W6 W7 W8 W9 W10 W11]. unfold start_job in E.
  destruct (work_queue w) as [|j js] eqn:Eq; [done|].
  destruct (Nat.ltb_spec (length (workers w)) (max_workers (config w))) as [Hlt|]; [|done].
  injection E as <-. apply Forall_cons in W7 as [[J Jo] W7]. split; try done.
  - cbn. rewrite length_app. cbn. rewrite W2 in Hlt. lia.
  - cbn. apply Forall_app. split; [done|]. constructor; [|done]. split; [done|].
    unfold written. rewrite Jo. cbn. constructor.
  - intros t. set (w' := set_workers _ _). assert (pending w' t = pending w t) as ->; [|done].
    unfold pending. change (collector w' t) with (collector w t).
    cbn [workers work_queue w' set_workers set_work_queue]. rewrite Eq.
    rewrite fmap_app, fmap_cons, concat_app. cbn [concat fmap list_fmap].
    by rewrite app_nil_r, !of_topic_app, <-!(assoc_L (++)).
Qed.

Lemma finish_pending w i j t :
  workers w !! i = Some j → length (job_offsets j) = length (job_batch j) →
  concat (unwritten <$> delete i (workers w)) = concat (unwritten <$> workers w).
Proof.
  intros Hi Hl. rewrite <-(take_drop_middle _ _ _ Hi) at 2. rewrite delete_take_drop.
  rewrite !fmap_app, fmap_cons, !concat_app. cbn [concat].
  assert (unwritten j = []) as -> by (unfold unwritten; by rewrite drop_ge by lia). done.
Qed.

Lemma callbacks_elem f o offsets l :
  (f, o) ∈ callbacks offsets l →
  ∃ i r, offsets !! i = Some o ∧ l !! i = Some r ∧ callback r = Some f.
Proof.
  revert l. induction offsets as [|o' offsets IH]; intros [|r l] Hin; cbn in Hin;
    try by apply elem_of_nil in Hin.
  destruct (callback r) as [f'|] eqn:Ef.
  - apply elem_of_cons in Hin as [[= <- <-]|Hin]; [by exists 0%nat, r|].
    destruct (IH l Hin) as (i & r' & ?). by exists (Datatypes.S i), r'.
  - destruct (IH l Hin) as (i & r' & ?). by exists (Datatypes.S i), r'.
Qed.

Lemma finish_job_ok tr i w s w' :
  finish_job i w = Some w' → writer_ok c s0 tr w s → writer_ok c s0 tr w' s.
Proof.
  intros E [W1 W2 W3 W4 WT W5 W6 W7 W8 W9 W10 W11]. unfold finish_job in E.
  destruct (workers w !! i) as [j|] eqn:Ei; [|done]. cbn in E.
  destruct (Nat.eqb_spec (length (job_offsets j)) (length (job_batch j))) as [El|]; [|done].
  injection E as <-. pose proof (proj1 (Forall_lookup _ _) W6 i j Ei) as [J Jw].
  split; try done.
  - cbn. rewrite length_delete by done. lia.
  - by apply Forall_delete.
  - intros t. specialize (W9 t). unfold pending in *. cbn [workers set_workers set_scheduled].
    by rewrite (finish_pending w i j t).
  - cbn. intros f o [Hf|Hf]%elem_of_app; [by apply W10|].
    destruct (callbacks_elem _ _ _ _ Hf) as (k & r & Ho & Hr & Hc). exists r. split_and!; [|done|].
    + apply (jo_submitted _ _ J). by eapply list_elem_of_lookup_2.
    + unfold written in Jw. rewrite El, take_ge in Jw by lia.
      destruct (Forall2_lookup_l _ _ _ _ _ Jw Hr) as (o' & Ho' & Hs). by simplify_eq.
Qed.

Lemma run_callback_ok tr w s w' :
  run_callback w = Some w' → writer_ok c s0 tr w s → writer_ok c s0 tr w' s.
Proof.
  intros E [W1 W2 W3 W4 WT W5 W6 W7 W8 W9 W10 W11]. unfold run_callback in E.
  destruct (scheduled w) as [|[f o] l] eqn:Es; [done|]. injection E as <-. split; try done.
  - intros f' o' Hf. apply W10. by right.
  - intros f' x. cbn. unfold settle. destruct (futures w !! f) eqn:Ef; [apply W11|].
    intros [[<- <-]|[_ Hf]]%lookup_insert_Some; [|by apply W11]. exists o. split; [done|].
    apply W10. left.
Qed.
(** An append takes the first unwritten request of its job. *)
Lemma unwritten_cons j req :
  job_batch j !! length (job_offsets j) = Some req →
  ∀ o, unwritten j = req :: unwritten (mkJob (job_topic j) (job_batch j) (job_offsets j ++ [o])).
Proof.
  intros Hr o. unfold unwritten. cbn. rewrite (drop_S _ _ _ Hr), length_app. cbn.
  by rewrite Nat.add_1_r.
Qed.

(** What is pending when thread [i] has appended the message of [req]. *)
Lemma append_pending w i j req o t (w' := set_workers
    (<[i := mkJob (job_topic j) (job_batch j) (job_offsets j ++ [o])]> (workers w)) w) :
  workers w !! i = Some j → job_batch j !! length (job_offsets j) = Some req →
  ∃ l, pending w t = of_topic t (concat (unwritten <$> take i (workers w))) ++ of_topic t [req] ++ l ∧
    pending w' t = of_topic t (concat (unwritten <$> take i (workers w))) ++ l.
Proof.
  intros Hi Hr. pose proof (lookup_lt_Some _ _ _ Hi) as Hlt. unfold pending.
  change (collector w' t) with (collector w t). cbn [workers work_queue w' set_workers].
  assert (∀ (k : Job) l, l !! i = Some k → concat (unwritten <$> l)
    = concat (unwritten <$> take i l) ++ unwritten k ++ concat (unwritten <$> drop (Datatypes.S i) l)) as Hc.
  { intros k l Hk. rewrite <-(take_drop_middle _ _ _ Hk) at 1.
    by rewrite fmap_app, fmap_cons, concat_app. }
  rewrite (Hc j (workers w) Hi), (Hc _ (<[i:=_]> (workers w)) (list_lookup_insert_eq _ _ _ Hlt)).
  rewrite take_insert_ge, drop_insert_lt by lia.
  rewrite (unwritten_cons j req Hr o). set (rest := unwritten (mkJob _ _ _)).
  change (req :: rest) with ([req] ++ rest). rewrite !of_topic_app.
  eexists. rewrite <-!(assoc_L (++)). split; reflexivity.
Qed.

(** The message that a thread appends next goes to the end of its topic. *)
Lemma append_next_inv tr now i w s w' s1 :
  (∀ r, r ∈ tr → api_topic (wr_topic r) ∧ api_message (data r)) →
  (∀ t, recs_len (api_log s0 t) + recs_len (data <$> of_topic t tr) < 2 ^ 63) →
  append_next now i w s = Some (w', s1) → writer_ok c s0 tr w s →
  ∃ j req, workers w !! i = Some j ∧ job_batch j !! length (job_offsets j) = Some req ∧
    wr_topic req = job_topic j ∧
    w' = set_workers (<[i := mkJob (job_topic j) (job_batch j)
           (job_offsets j ++ [recs_len (api_log s (job_topic j))])]> (workers w)) w ∧
    api_kept s s1 ∧ (∀ t, api_log s1 t = api_log s t ++ (data <$> of_topic t [req])) ∧
    ∀ t, api_exists s t → api_exists s1 t.
Proof.
  intros Hacc Hbound E [W1 W2 W3 W4 WT W5 W6 W7 W8 W9 W10 W11]. unfold append_next in E.
  destruct (workers w !! i) as [j|] eqn:Ei; [|done]. cbn in E.
  destruct (job_batch j !! length (job_offsets j)) as [req|] eqn:Er; [|done]. cbn in E.
  pose proof (proj1 (Forall_lookup _ _) W6 i j Ei) as [J Jw].
  pose proof (list_elem_of_lookup_2 _ _ _ Er) as Hreq.
  assert (wr_topic req = job_topic j) as Htop.
  { pose proof (jo_topic _ _ J) as HT. rewrite Forall_forall in HT. auto. }
  destruct (Hacc req (jo_submitted _ _ J req Hreq)) as [Ht Hm]. rewrite Htop in Ht.
  assert (recs_len (api_log s (job_topic j)) < 2 ^ 63) as Hlt.
  { pose proof (recs_len_perm _ _ (same_order_perm _ _ _ (W9 (job_topic j)))) as HP.
    rewrite !recs_len_app in HP. pose proof (recs_len_nonneg (data <$> pending w (job_topic j))).
    specialize (Hbound (job_topic j)). lia. }
  destruct (api_append_ok s now (job_topic j) (data req) W1 Ht Hm Hlt)
    as (s2 & E1 & Hs1 & Hex & Hl & Hother). rewrite E1 in E. injection E as <- <-.
  exists j, req. split_and!; try done.
  - intros t. rewrite of_topic_one, Htop. case_decide as Hd; [by subst|].
    rewrite app_nil_r. apply (Hother t). congruence.
  - intros t Ht'. destruct (decide (t = job_topic j)) as [->|Hne]; [done|]. by apply Hother.
Qed.

Lemma append_next_ok tr now i w s w' s1 :
  (∀ r, r ∈ tr → api_topic (wr_topic r) ∧ api_message (data r)) →
  (∀ t, recs_len (api_log s0 t) + recs_len (data <$> of_topic t tr) < 2 ^ 63) →
  append_next now i w s = Some (w', s1) → writer_ok c s0 tr w s → writer_ok c s0 tr w' s1.
Proof.
  intros Hacc Hbound E Hw.
  destruct (append_next_inv _ _ _ _ _ _ _ Hacc Hbound E Hw)
    as (j & req & Ei & Er & Htop & -> & Hs1 & Hlog & _).
  destruct Hw as [W1 W2 W3 W4 WT W5 W6 W7 W8 W9 W10 W11].
  pose proof (proj1 (Forall_lookup _ _) W6 i j Ei) as [J Jw].
  set (o := recs_len (api_log s (job_topic j))) in *.
  assert (∀ t, ∃ more, api_log s1 t = api_log s t ++ more) as Hg by (intros t; eauto).
  split; try done.
  - by eapply kept_ok.
  - cbn. by rewrite length_insert.
  - cbn. apply Forall_insert.
    + eapply Forall_impl; [exact W6|]. intros k [? ?]. split; [done|by eapply written_grow].
    + split; [split; cbn; [apply J|apply J| |apply J]|].
      * rewrite length_app. cbn. pose proof (lookup_lt_Some _ _ _ Er). lia.
      * unfold written. cbn. rewrite length_app. cbn. rewrite Nat.add_1_r, (take_S_r _ _ _ Er).
        apply Forall2_app; [by eapply written_grow|]. repeat constructor.
        exists (api_log s (job_topic j)), []. rewrite Hlog, of_topic_one, Htop, decide_True by done. by split.
  - intros t. specialize (W9 t).
    destruct (append_pending w i j req o t Ei Er) as (l & P1 & P2). rewrite P2, Hlog, <-W9, P1.
    rewrite !fmap_app, !(assoc_L (++)). unfold same_order.
    destruct (Nat.leb_spec (max_workers c) 1) as [Hc|Hc].
    + assert (i = 0)%nat as -> by (apply lookup_lt_Some in Ei; lia).
      assert (of_topic t (concat (unwritten <$> take 0 (workers w))) = []) as -> by done.
      cbn [fmap list_fmap]. by rewrite !app_nil_r.
    + rewrite <-!(assoc_L (++)). apply Permutation_app_head. rewrite !(assoc_L (++)).
      apply Permutation_app_tail, Permutation_app_comm.
  - intros f o' Hf. eapply acknowledged_grow; [done|done|by apply W10].
  - intros f x (o' & -> & Hf)%W11. exists o'. split; [done|]. by eapply acknowledged_grow.
Qed.

(** ** Whole runs *)

Lemma internal_ok tr w s w' s' :
  (∀ r, r ∈ tr → api_topic (wr_topic r) ∧ api_message (data r)) →
  (∀ t, recs_len (api_log s0 t) + recs_len (data <$> of_topic t tr) < 2 ^ 63) →
  internal (w, s) (w', s') → writer_ok c s0 tr w s → writer_ok c s0 tr w' s'.
Proof.
  intros Ha Hb Hi Hw. inversion Hi; subst.
  - by eapply collect_ok.
  - by eapply collect_timeout_ok.
  - by eapply start_job_ok.
  - by eapply append_next_ok.
  - by eapply finish_job_ok.
  - by eapply run_callback_ok.
Qed.

(** The log only grows, and what is answered stays answered. *)
Lemma internal_grows tr w s w' s' :
  (∀ r, r ∈ tr → api_topic (wr_topic r) ∧ api_message (data r)) →
  (∀ t, recs_len (api_log s0 t) + recs_len (data <$> of_topic t tr) < 2 ^ 63) →
  internal (w, s) (w', s') → writer_ok c s0 tr w s →
  (∀ t, ∃ more, api_log s' t = api_log s t ++ more) ∧ (∀ t, api_exists s t → api_exists s' t) ∧
  api_kept s s' ∧ ∀ f x, futures w !! f = Some x → futures w' !! f = Some x.
Proof.
  intros Ha Hb Hi Hw. inversion Hi as [t w1 s1 w2 E|now t w1 s1 w2 E|w1 s1 w2 E|now i w1 s1 w2 s2 E
    |i w1 s1 w2 E|w1 s1 w2 E]; subst.
  - split; [apply grow_refl|]. split_and!; [done|done|]. unfold collect in E.
    destruct (negb _); [done|]. destruct (collectors w !! t) as [col|]; [|done]. cbn in E.
    destruct (queue col); [done|]. destruct (batch col); [by injection E as <-|].
    destruct (started col); [|done]. cbn in E. case_match; by injection E as <-.
  - split; [apply grow_refl|]. split_and!; [done|done|]. unfold collect_timeout in E.
    destruct (negb _); [done|]. destruct (collectors w !! t) as [col|]; [|done]. cbn in E.
    destruct (batch col); [done|]. destruct (started col); [|done]. cbn in E.
    case_match; [by injection E as <-|done].
  - split; [apply grow_refl|]. split_and!; [done|done|]. unfold start_job in E.
    destruct (work_queue w); [done|]. case_match; [by injection E as <-|done].
  - destruct (append_next_inv _ _ _ _ _ _ _ Ha Hb E Hw) as (j & req & _ & _ & _ & -> & Hk & Hlog & Hex).
    split; [intros t; rewrite Hlog; by eexists|]. by split.
  - split; [apply grow_refl|]. split_and!; [done|done|]. unfold finish_job in E.
    destruct (workers w !! i); [|done]. cbn in E. case_match; [by injection E as <-|done].
  - split; [apply grow_refl|]. split_and!; [done|done|]. unfold run_callback in E.
    destruct (scheduled w) as [|[f o] l]; [done|]. injection E as <-. cbn. intros g x Hg.
    unfold settle. destruct (futures w !! f) eqn:Ef; [done|].
    rewrite lookup_insert_ne; [done|]. congruence.
Qed.

(** What the broker submits: the log takes the topics and the messages, the offsets
    fit in 63 bits and the clock is not at zero. *)
Record fits (tr : list WriteRequest) : Prop := {
  ft_accepted r : r ∈ tr → api_topic (wr_topic r) ∧ api_message (data r);
  ft_bound t : recs_len (api_log s0 t) + recs_len (data <$> of_topic t tr) < 2 ^ 63;
  ft_times : Forall (λ r, created_at r ≠ 0) tr }.

Lemma fits_prefix tr tr' : fits (tr ++ tr') → fits tr.
Proof.
  intros [F1 F2 F3]. split.
  - intros r Hr. apply F1, elem_of_app. by left.
  - intros t. specialize (F2 t). rewrite of_topic_app, fmap_app, recs_len_app in F2.
    pose proof (recs_len_nonneg (data <$> of_topic t tr')). lia.
  - by apply Forall_app in F3 as [? _].
Qed.

Lemma new_writer_ok : api_ok s0 → writer_ok c s0 [] (new_writer c) s0.
Proof.
  intros Hs. split; try done; cbn; [lia|]. by intros f o ?%elem_of_nil.
Qed.

Lemma writer_run_ok tr x :
  api_ok s0 → fits tr → writer_run (new_writer c, s0) tr x → writer_ok c s0 tr x.1 x.2.
Proof.
  intros Hs Hf Hr. induction Hr as [|tr w s req Hr IH|tr [w s] [w' s'] Hr IH Hi|tr w s s' Hr IH Hs' Hsame]; cbn in *.
  - by apply new_writer_ok.
  - apply submit_ok; [|apply IH; by eapply fits_prefix].
    pose proof (ft_times _ Hf) as HT. apply Forall_app in HT as [_ HT]. by inversion HT.
  - eapply internal_ok; [apply Hf|apply Hf|done|by apply IH].
  - eapply reader_ok; [done|done|by apply IH].
Qed.
End steps.
End writer.

