(* ===== verification/WriterLiveness.v ===== *)
(** * The writer makes progress

    Every step of the writer brings some request closer to its acknowledgement, and
    while there is one to be made, some step can be taken. *)
From Stdlib Require Import String.
From stdpp Require Import sorting fin_maps.
From S2P Require Import Prelude PyData RecordFacts Segment Log LogRead LogApi Writer WriterFacts.

(** ** How far the requests are from their acknowledgements *)

Definition collector_weight (c : Collector) : nat := 6 * length (queue c) + 5 * length (batch c).

Definition collectors_weight (m : gmap (list Z) Collector) : nat :=
  sum_list (collector_weight <$> (map_to_list m).*2).

Definition worker_weight (j : Job) : nat :=
  3 * (length (job_batch j) - length (job_offsets j)) + 2 * length (job_offsets j).

Definition queued_weight (j : Job) : nat := 4 * length (job_batch j).

Definition weight (w : Writer) : nat :=
  (collectors_weight (collectors w) + sum_list (queued_weight <$> work_queue w) +
  sum_list (worker_weight <$> workers w) + length (scheduled w))%nat.

Lemma collectors_weight_insert m t c c' :
  m !! t = Some c →
  (collectors_weight (<[t := c']> m) + collector_weight c = collectors_weight m + collector_weight c')%nat.
Proof.
  intros Hc. unfold collectors_weight.
  rewrite <-insert_delete_eq, map_to_list_insert by apply lookup_delete_eq.
  rewrite <-(map_to_list_delete m t c Hc). rewrite !fmap_cons. cbn. lia.
Qed.

Lemma sum_list_app l k : sum_list (l ++ k) = (sum_list l + sum_list k)%nat.
Proof. induction l; cbn; lia. Qed.

Lemma sum_list_middle {A} (f : A → nat) l i x :
  l !! i = Some x →
  (sum_list (f <$> delete i l) + f x = sum_list (f <$> l))%nat ∧
  ∀ y, (sum_list (f <$> <[i := y]> l) + f x = sum_list (f <$> l) + f y)%nat.
Proof.
  intros Hi. pose proof (lookup_lt_Some _ _ _ Hi). split.
  - rewrite <-(take_drop_middle _ _ _ Hi) at 2. rewrite delete_take_drop.
    rewrite !fmap_app, fmap_cons, !sum_list_app. cbn. lia.
  - intros y. rewrite <-(take_drop_middle _ _ _ Hi) at 2. rewrite insert_take_drop by done.
    rewrite !fmap_app, !fmap_cons, !sum_list_app. cbn. lia.
Qed.

Lemma callbacks_length offsets l : (length (callbacks offsets l) ≤ length offsets)%nat.
Proof.
  revert l. induction offsets as [|o offsets IH]; intros [|r l]; cbn; [lia..|].
  specialize (IH l). destruct (callback r); cbn; lia.
Qed.

Lemma flush_weight w topic col q b :
  collectors w !! topic = Some col → (4 * length b + 6 * length q < collector_weight col)%nat →
  (weight (flush topic q b w) < weight w)%nat.
Proof.
  intros Hc Hlt. unfold weight, flush. cbn [collectors work_queue workers scheduled set_collectors set_work_queue].
  pose proof (collectors_weight_insert _ _ _ (mkCollector q [] 0 None) Hc) as E.
  change (collector_weight (mkCollector q [] 0 None)) with (6 * length q + 0)%nat in E.
  rewrite fmap_app, sum_list_app.
  assert (sum_list (queued_weight <$> [mkJob topic b []]) = 4 * length b)%nat as ->.
  { cbn. unfold queued_weight. cbn. lia. }
  lia.
Qed.

Section writer.
Context {S : Type} `{LogAppendLaws S}.
Context (c : WriterConfig) (s0 : S) (tr : list WriteRequest).

Lemma internal_weight w s w' s' :
  writer_ok c s0 tr w s → internal (w, s) (w', s') → writer_ok c s0 tr w' s' →
  (weight w' < weight w)%nat.
Proof.
  intros Hw Hi Hw'. inversion Hi as [t ? ? ? E|now t ? ? ? E|? ? ? E|now i ? ? ? ? E|i ? ? ? E|? ? ? E]; subst; clear Hi.
  - unfold collect in E. destruct (negb _); [done|].
    destruct (collectors w !! t) as [col|] eqn:Ec; cbn in E; [|done].
    destruct (queue col) as [|req q] eqn:Eq; [done|].
    assert (∀ b n st, length b = Datatypes.S (length (batch col)) →
      (weight (set_collectors (<[t := mkCollector q b n st]> (collectors w)) w) < weight w)%nat) as Hins.
    { intros b n st Hb. unfold weight. cbn [collectors work_queue workers scheduled set_collectors].
      pose proof (collectors_weight_insert _ _ _ (mkCollector q b n st) Ec) as Hi.
      unfold collector_weight in Hi. cbn [queue batch] in Hi. rewrite Eq, Hb in Hi. cbn [length] in Hi. lia. }
    destruct (batch col) as [|r b] eqn:Eb; [injection E as <-; by apply Hins|].
    destruct (started col); cbn in E; [|done]. destruct (_ || _); injection E as <-.
    + eapply flush_weight; [done|]. unfold collector_weight. rewrite Eq, Eb.
      cbn. rewrite length_app. cbn. lia.
    + apply Hins. cbn. rewrite length_app. cbn. lia.
  - unfold collect_timeout in E. destruct (negb _); [done|].
    destruct (collectors w !! t) as [col|] eqn:Ec; cbn in E; [|done].
    destruct (batch col) as [|r b] eqn:Eb; [done|]. destruct (started col); cbn in E; [|done].
    destruct (_ <=? _); [|done]. injection E as <-.
    eapply flush_weight; [done|]. unfold collector_weight. rewrite Eb. cbn. lia.
  - unfold start_job in E. destruct (work_queue w) as [|j js] eqn:Eq; [done|].
    destruct (_ <? _)%nat; [|done]. injection E as <-.
    pose proof (wo_queue _ _ _ _ _ Hw) as HQ. rewrite Eq in HQ.
    apply Forall_cons in HQ as [[[_ _ _ Hj] Ho] _].
    unfold weight. cbn [collectors work_queue workers scheduled set_workers set_work_queue].
    rewrite Eq, fmap_app, sum_list_app, (fmap_cons queued_weight).
    assert (sum_list (worker_weight <$> [j]) = 3 * length (job_batch j))%nat as ->.
    { cbn. unfold worker_weight. rewrite Ho. cbn. lia. }
    change (sum_list (queued_weight j :: (queued_weight <$> js)))
      with (4 * length (job_batch j) + sum_list (queued_weight <$> js))%nat.
    destruct (job_batch j); [done|]. cbn [length]. lia.
  - unfold append_next in E. destruct (workers w !! i) as [j|] eqn:Ei; cbn in E; [|done].
    destruct (job_batch j !! length (job_offsets j)) as [req|] eqn:Er; cbn in E; [|done].
    pose proof (lookup_lt_Some _ _ _ Er). pose proof (sum_list_middle worker_weight _ _ _ Ei) as [Hd Hins].
    destruct (api_append _ _ _ _) as [[o|x] s1]; injection E as <- <-; unfold weight;
      cbn [collectors work_queue workers scheduled set_workers set_crashed].
    + specialize (Hins (mkJob (job_topic j) (job_batch j) (job_offsets j ++ [o]))).
      assert (worker_weight (mkJob (job_topic j) (job_batch j) (job_offsets j ++ [o])) + 1
        = worker_weight j)%nat.
      { unfold worker_weight. cbn [job_batch job_offsets]. rewrite length_app. cbn [length]. lia. }
      lia.
    + pose proof (wo_crashed _ _ _ _ _ Hw') as Hcr. cbn in Hcr. by destruct (crashed w).
  - unfold finish_job in E. destruct (workers w !! i) as [j|] eqn:Ei; cbn in E; [|done].
    destruct (Nat.eqb_spec (length (job_offsets j)) (length (job_batch j))) as [El|]; [|done].
    injection E as <-. pose proof (sum_list_middle worker_weight _ _ _ Ei) as [Hd _].
    unfold weight. cbn [collectors work_queue workers scheduled set_workers set_scheduled].
    rewrite length_app. pose proof (callbacks_length (job_offsets j) (job_batch j)).
    pose proof (proj1 (Forall_lookup _ _) (wo_workers _ _ _ _ _ Hw) i j Ei) as [[_ _ _ Hj] _].
    assert (worker_weight j = 2 * length (job_batch j))%nat as Ew.
    { unfold worker_weight. lia. }
    destruct (job_batch j); [done|]. cbn [length] in *. lia.
  - unfold run_callback in E. destruct (scheduled w) as [|[f o] l] eqn:Es; [done|]. injection E as <-.
    unfold weight. cbn [collectors work_queue workers scheduled set_futures set_scheduled].
    rewrite Es. cbn. lia.
Qed.

(** Nothing is on its way. *)
Record idle (w : Writer) : Prop := {
  id_collectors : map_Forall (λ _ col, batch col = [] ∧ queue col = []) (collectors w);
  id_queue : work_queue w = [];
  id_workers : workers w = [];
  id_scheduled : scheduled w = [] }.

Lemma idle_or_step w s :
  (1 ≤ max_workers c)%nat → writer_ok c s0 tr w s → idle w ∨ ∃ y, internal (w, s) y.
Proof.
  intros Hmax Hw. destruct (scheduled w) as [|[f o] l] eqn:Es.
  2: { right. eexists. eapply step_callback. unfold run_callback. by rewrite Es. }
  destruct (workers w) as [|j js] eqn:Ew.
  2: { right. assert (workers w !! 0%nat = Some j) as Ej by by rewrite Ew.
       pose proof (wo_workers _ _ _ _ _ Hw) as HF. rewrite Ew in HF.
       apply Forall_cons in HF as [[[_ _ Hlen _] _] _].
       destruct (Nat.eqb_spec (length (job_offsets j)) (length (job_batch j))) as [El|El].
       - eexists. eapply (step_finish 0). unfold finish_job. rewrite Ej. cbn. rewrite El, Nat.eqb_refl. done.
       - destruct (lookup_lt_is_Some_2 (job_batch j) (length (job_offsets j))) as [r Hr]; [lia|].
         destruct (append_next 0 0 w s) as [[w1 s1]|] eqn:Ea.
         + eexists. by eapply (step_append 0 0).
         + exfalso. unfold append_next in Ea. rewrite Ej in Ea. cbn in Ea. rewrite Hr in Ea. cbn in Ea.
           by destruct (api_append _ _ _ _) as [[?|?] ?]. }
  destruct (work_queue w) as [|j js] eqn:Eq.
  2: { right. eexists. eapply step_start. unfold start_job. rewrite Eq, Ew.
       rewrite (wo_config _ _ _ _ _ Hw). cbn [length]. destruct (Nat.ltb_spec 0 (max_workers c)); [done|lia]. }
  destruct (decide (map_Forall (λ _ col, batch col = [] ∧ queue col = []) (collectors w))) as [Hall|Hnot].
  { left. by split. }
  right. apply map_not_Forall in Hnot as (t & col & Ec & Hne); [|apply _].
  pose proof (wo_collectors _ _ _ _ _ Hw t) as [_ _ Hst]. unfold collector in Hst. rewrite Ec in Hst. cbn in Hst.
  pose proof (wo_running _ _ _ _ _ Hw) as Hrun.
  destruct (batch col) as [|r b] eqn:Eb.
  - destruct (queue col) as [|req q] eqn:Eq'; [naive_solver|].
    eexists. eapply (step_collect t). unfold collect. rewrite Hrun, Ec. cbn. rewrite Eq', Eb. done.
  - destruct Hst as [st Est]; [done|].
    eexists. eapply (step_timeout (max_batch_wait (config w) + st) t). unfold collect_timeout.
    rewrite Hrun, Ec. cbn. rewrite Eb, Est. cbn.
    destruct (Z.leb_spec (max_batch_wait (config w) - (max_batch_wait (config w) + st - st)) 0); [done|lia].
Qed.

(** ** Whatever the order of the steps *)

Inductive inevitably (P : Writer * S → Prop) : Writer * S → Prop :=
| inevitably_now x : P x → inevitably P x
| inevitably_later x :
    (∃ y, internal x y) → (∀ y, internal x y → inevitably P y) → inevitably P x.

Lemma inevitably_idle w s :
  (1 ≤ max_workers c)%nat → fits s0 tr → writer_ok c s0 tr w s →
  inevitably (λ x, idle x.1 ∧ writer_ok c s0 tr x.1 x.2) (w, s).
Proof.
  intros Hmax Hf. remember (weight w) as n eqn:En. revert w s En.
  induction (lt_wf n) as [n _ IH]. intros w s -> Hw.
  destruct (idle_or_step w s Hmax Hw) as [Hi|Hstep]; [by apply inevitably_now|].
  apply inevitably_later; [done|]. intros [w' s'] Hi.
  assert (writer_ok c s0 tr w' s') as Hw' by (eapply internal_ok; [apply Hf|apply Hf|done|done]).
  eapply IH; [|reflexivity|done]. by eapply internal_weight.
Qed.

(** ** No acknowledgement gets lost *)

(** The request is in a queue, a batch or a job. *)
Definition held (w : Writer) (r : WriteRequest) : Prop :=
  (∃ t, r ∈ batch (collector w t) ++ queue (collector w t)) ∨
  ∃ j, (j ∈ work_queue w ∨ j ∈ workers w) ∧ r ∈ job_batch j.

Definition promised (w : Writer) (r : WriteRequest) (f : nat) : Prop :=
  held w r ∨ f ∈ (scheduled w).*1 ∨ is_Some (futures w !! f).

Lemma held_collector w topic q b n st r :
  (∀ x, x ∈ batch (collector w topic) ++ queue (collector w topic) → x ∈ b ++ q) →
  held w r → held (set_collectors (<[topic := mkCollector q b n st]> (collectors w)) w) r.
Proof.
  intros Hsub [[t Ht]|Hj]; [left|right; done]. exists t. rewrite collector_insert.
  case_decide as E; [|done]. subst t. cbn. auto.
Qed.

Lemma held_flush w topic q b r :
  (∀ x, x ∈ batch (collector w topic) ++ queue (collector w topic) → x ∈ b ++ q) →
  held w r → held (flush topic q b w) r.
Proof.
  intros Hsub [[t Ht]|(j & Hj & Hr)].
  - destruct (decide (topic = t)) as [<-|Hne].
    + apply Hsub, elem_of_app in Ht as [Ht|Ht].
      * right. exists (mkJob topic b []). split; [|done]. left. cbn. apply elem_of_app. right. left.
      * left. exists topic. unfold flush. rewrite (collector_insert (set_work_queue _ w)).
        rewrite decide_True by done. cbn. done.
    + left. exists t. unfold flush. rewrite (collector_insert (set_work_queue _ w)).
      by rewrite decide_False.
  - right. exists j. split; [|done]. cbn. rewrite elem_of_app. tauto.
Qed.

Lemma callbacks_promised f r offsets l :
  r ∈ l → callback r = Some f → length offsets = length l → f ∈ (callbacks offsets l).*1.
Proof.
  revert l. induction offsets as [|o offsets IH]; intros [|x l] Hr Hf Hl; try done.
  { by apply elem_of_nil in Hr. }
  cbn in *. apply elem_of_cons in Hr as [->|Hr].
  - rewrite Hf. left.
  - destruct (callback x); [right|]; by apply (IH l); [| |lia].
Qed.

Lemma elem_of_delete_job (l : list Job) i j k : l !! i = Some j → k ∈ l → k = j ∨ k ∈ delete i l.
Proof.
  intros Hi Hk. pose proof (delete_Permutation l i j Hi) as HP. rewrite HP in Hk.
  by apply elem_of_cons in Hk.
Qed.

Lemma elem_of_insert_job (l : list Job) i j j' k :
  l !! i = Some j → k ∈ l → k = j ∨ k ∈ <[i := j']> l.
Proof.
  intros Hi [n Hn]%list_elem_of_lookup_1. destruct (decide (n = i)) as [->|Hne].
  - left. congruence.
  - right. apply (list_elem_of_lookup_2 _ n). by rewrite list_lookup_insert_ne.
Qed.

Lemma internal_promised w s w' s' r f :
  callback r = Some f → crashed w = [] → crashed w' = [] →
  internal (w, s) (w', s') → promised w r f → promised w' r f.
Proof.
  intros Hf Hcr Hcr' Hi Hp. inversion Hi as [t ? ? ? E|now t ? ? ? E|? ? ? E|now i ? ? ? ? E|i ? ? ? E|? ? ? E]; subst; clear Hi.
  - unfold collect in E. destruct (negb _); [done|].
    destruct (collectors w !! t) as [col|] eqn:Ec; cbn in E; [|done].
    assert (collector w t = col) as Hcol by (unfold collector; by rewrite Ec).
    destruct (queue col) as [|req q] eqn:Eq; [done|].
    assert (∀ x, x ∈ batch (collector w t) ++ queue (collector w t) → x ∈ (batch col ++ [req]) ++ q) as Hsub.
    { intros x. by rewrite Hcol, Eq, <-(assoc_L (++)). }
    destruct Hp as [Hh|Hp].
    + left. destruct (batch col); [injection E as <-; by apply held_collector|].
      destruct (started col); cbn in E; [|done]. destruct (_ || _); injection E as <-.
      * by apply held_flush. 
      * by apply held_collector.
    + right. destruct (batch col); [by injection E as <-|].
      destruct (started col); cbn in E; [|done]. by destruct (_ || _); injection E as <-.
  - unfold collect_timeout in E. destruct (negb _); [done|].
    destruct (collectors w !! t) as [col|] eqn:Ec; cbn in E; [|done].
    assert (collector w t = col) as Hcol by (unfold collector; by rewrite Ec).
    destruct (batch col) as [|x b] eqn:Eb; [done|]. destruct (started col); cbn in E; [|done].
    destruct (_ <=? _); [|done]. injection E as <-. destruct Hp as [Hh|Hp]; [left|by right].
    apply held_flush; [|done]. by rewrite Hcol, Eb.
  - unfold start_job in E. destruct (work_queue w) as [|j js] eqn:Eq; [done|].
    destruct (_ <? _)%nat; [|done]. injection E as <-.
    destruct Hp as [[Hh|(k & Hk & Hr)]|Hp]; [left; by left| |by right].
    left. right. exists k. split; [|done]. cbn. rewrite Eq in Hk. rewrite elem_of_app.
    destruct Hk as [[->|?]%elem_of_cons|?]; [right; right; left|by left|right; by left].
  - unfold append_next in E. destruct (workers w !! i) as [j|] eqn:Ei; cbn in E; [|done].
    destruct (job_batch j !! length (job_offsets j)) as [req|] eqn:Er; cbn in E; [|done].
    destruct (api_append _ _ _ _) as [[o|x] s1]; injection E as <- <-.
    2: { cbn in Hcr'. by destruct (crashed w). }
    destruct Hp as [[Hh|(k & Hk & Hr)]|Hp]; [left; by left| |by right]. left. right.
    destruct Hk as [Hk|Hk]; [exists k; cbn; tauto|].
    destruct (elem_of_insert_job _ i j (mkJob (job_topic j) (job_batch j) (job_offsets j ++ [o])) k Ei Hk)
      as [->|Hk']; [|exists k; cbn; tauto].
    exists (mkJob (job_topic j) (job_batch j) (job_offsets j ++ [o])). split; [right|done].
    cbn. apply (list_elem_of_lookup_2 _ i), list_lookup_insert_eq. by eapply lookup_lt_Some.
  - unfold finish_job in E. destruct (workers w !! i) as [j|] eqn:Ei; cbn in E; [|done].
    destruct (Nat.eqb_spec (length (job_offsets j)) (length (job_batch j))) as [El|]; [|done].
    injection E as <-. destruct Hp as [[Hh|(k & Hk & Hr)]|[Hp|Hp]].
    + left. by left.
    + destruct Hk as [Hk|Hk]; [left; right; exists k; cbn; tauto|].
      destruct (elem_of_delete_job _ _ _ _ Ei Hk) as [->|Hk']; [|left; right; exists k; cbn; tauto].
      right. left. cbn. rewrite fmap_app, elem_of_app. right. by eapply callbacks_promised.
    + right. left. cbn. rewrite fmap_app, elem_of_app. by left.
    + right. by right.
  - unfold run_callback in E. destruct (scheduled w) as [|[g o] l] eqn:Es; [done|]. injection E as <-.
    destruct Hp as [Hh|[Hp|Hp]]; [by left| |].
    + rewrite Es in Hp. cbn in Hp. apply elem_of_cons in Hp as [->|Hp]; right; [right|by left].
      cbn. unfold settle. destruct (futures w !! g) eqn:Eg; [by rewrite Eg|].
      rewrite lookup_insert_eq. eauto.
    + right. right. cbn. unfold settle. destruct (futures w !! g) eqn:Eg; [done|].
      apply lookup_insert_is_Some'. by right.
Qed.
End writer.
