(* ===== verification/WriterTheorems.v ===== *)
(** * What the batching writer promises

    Proved against the interface of the log; the witnesses use the log itself. *)
From Stdlib Require Import String.
From stdpp Require Import sorting fin_maps.
From S2P Require Import Prelude PyData RecordFacts Segment Log LogNames LogInv LogWrite LogRead LogSteps LogTheorems LogApi Writer WriterFacts WriterLiveness.

Section theorems.
Context {S : Type} `{LogAppendLaws S}.

Lemma submit_promised w req r f : promised w r f → promised (submit req w) r f.
Proof.
  intros [[[t Ht]|Hj]|Hp]; [left; left|left; by right|by right].
  exists t. unfold submit. rewrite collector_insert. case_decide as E; [|done]. subst t. cbn.
  fold (collector w (wr_topic req)). rewrite elem_of_app in *. rewrite elem_of_app. tauto.
Qed.

Lemma submit_held w req : held (submit req w) req.
Proof.
  left. exists (wr_topic req). unfold submit. rewrite collector_insert, decide_True by done. cbn.
  rewrite !elem_of_app. right. right. left.
Qed.

Lemma run_promised c s0 tr x r f :
  api_ok s0 → fits s0 tr → writer_run (new_writer c, s0) tr x →
  r ∈ tr → callback r = Some f → promised x.1 r f.
Proof.
  intros Hs Hf Hrun Hr Hcb.
  induction Hrun as [|tr w s req Hrun IH|tr [w s] [w' s'] Hrun IH Hi|tr w s s' Hrun IH Hs' Hsame]; cbn in *.
  - by apply elem_of_nil in Hr.
  - apply elem_of_app in Hr as [Hr| ->%list_elem_of_singleton].
    + apply submit_promised, IH; [by eapply fits_prefix|done].
    + left. apply submit_held.
  - pose proof (writer_run_ok c s0 tr _ Hs Hf Hrun) as Hw.
    assert (writer_ok c s0 tr w' s') as Hw' by (eapply internal_ok; [apply Hf|apply Hf|done|done]).
    eapply internal_promised; [done|apply Hw|apply Hw'|done|by apply IH].
  - by apply IH.
Qed.

(** C31: while the writer runs, every request that was submitted is exactly once in the
    log or still on its way, whatever the order in which collectors, threads and event
    loop act; no append fails.  With one thread the log has the messages of each topic
    in the order in which they were submitted. *)
Theorem writer_exactly_once c s0 tr w s :
  api_ok s0 → fits s0 tr → writer_run (new_writer c, s0) tr (w, s) →
  crashed w = [] ∧ ∀ t,
    api_log s t ++ (data <$> pending w t) ≡ₚ api_log s0 t ++ (data <$> of_topic t tr) ∧
    ((max_workers c ≤ 1)%nat →
      api_log s t ++ (data <$> pending w t) = api_log s0 t ++ (data <$> of_topic t tr)).
Proof.
  intros Hs Hf Hrun. pose proof (writer_run_ok c s0 tr _ Hs Hf Hrun) as Hw. split; [apply Hw|].
  intros t. pose proof (wo_content _ _ _ _ _ Hw t) as Hc. split; [by eapply same_order_perm|].
  intros Hmax. unfold same_order in Hc. destruct (Nat.leb_spec (max_workers c) 1); [done|lia].
Qed.

(** An offset that a producer is given is the position of the message of a request
    submitted with its future. *)
Theorem writer_acknowledges c s0 tr w s f x :
  api_ok s0 → fits s0 tr → writer_run (new_writer c, s0) tr (w, s) → futures w !! f = Some x →
  ∃ r o pre post, x = Result o ∧ r ∈ tr ∧ callback r = Some f ∧
    api_log s (wr_topic r) = pre ++ data r :: post ∧ recs_len pre = o.
Proof.
  intros Hs Hf Hrun Hx. pose proof (writer_run_ok c s0 tr _ Hs Hf Hrun) as Hw.
  destruct (wo_futures _ _ _ _ _ Hw f x Hx) as (o & -> & r & Hr & Hc & pre & post & Hl & Ho).
  by exists r, o, pre, post.
Qed.

Lemma idle_pending w t : idle w → pending w t = [].
Proof.
  intros [I1 I2 I3 _]. unfold pending, collector. rewrite I2, I3. cbn.
  destruct (collectors w !! t) as [col|] eqn:E; [|done]. cbn. destruct (I1 t col E) as [-> ->]. done.
Qed.

Lemma idle_promised w r f : idle w → promised w r f → is_Some (futures w !! f).
Proof.
  intros [I1 I2 I3 I4] [[[t Ht]|(j & Hj & _)]|[Hp|Hp]]; [| | |done]; exfalso.
  - unfold collector in Ht. destruct (collectors w !! t) as [col|] eqn:E; cbn in Ht.
    + destruct (I1 t col E) as [E1 E2]. rewrite E1, E2 in Ht. by apply elem_of_nil in Ht.
    + by apply elem_of_nil in Ht.
  - rewrite I2, I3 in Hj. destruct Hj as [Hj|Hj]; by apply elem_of_nil in Hj.
  - rewrite I4 in Hp. by apply elem_of_nil in Hp.
Qed.

(** All requests are in the log and all producers have their answer. *)
Definition drained (c : WriterConfig) s0 (tr : list WriteRequest) (x : Writer * S) : Prop :=
  (∀ t, same_order (max_workers c) (api_log x.2 t) (api_log s0 t ++ (data <$> of_topic t tr))) ∧
  ∀ r f, r ∈ tr → callback r = Some f →
    ∃ o, futures x.1 !! f = Some (Result o) ∧ acknowledged x.2 tr f o.

Lemma inevitably_drained c s0 tr x :
  api_ok s0 → fits s0 tr → writer_run (new_writer c, s0) tr x →
  inevitably (λ y, idle y.1 ∧ writer_ok c s0 tr y.1 y.2) x → inevitably (drained c s0 tr) x.
Proof.
  intros Hs Hf Hrun Hi. induction Hi as [[w s] [Hi Hw]|x Hstep Hall IH].
  - apply inevitably_now. cbn in Hi, Hw. split; cbn.
    + intros t. pose proof (wo_content _ _ _ _ _ Hw t) as Hc.
      by rewrite (idle_pending w t Hi), app_nil_r in Hc.
    + intros r f Hr Hcb. pose proof (run_promised c s0 tr _ r f Hs Hf Hrun Hr Hcb) as Hp.
      destruct (idle_promised w r f Hi Hp) as [y Hy].
      destruct (wo_futures _ _ _ _ _ Hw f y Hy) as (o & -> & Hack). by exists o.
  - apply inevitably_later; [done|]. intros y Hy. apply IH; [done|]. by eapply run_internal.
Qed.

(** C32: the writer drains: with at least one thread, from every state of every run the
    steps of the collectors, the threads and the event loop, in whatever order they
    come, lead to a state where every request is in the log and every future has the
    position of its message. *)
Theorem writer_drains c s0 tr x :
  (1 ≤ max_workers c)%nat → api_ok s0 → fits s0 tr → writer_run (new_writer c, s0) tr x →
  inevitably (drained c s0 tr) x.
Proof.
  intros Hmax Hs Hf Hrun. apply inevitably_drained; [done..|]. destruct x as [w s].
  apply inevitably_idle; [done..|]. exact (writer_run_ok c s0 tr _ Hs Hf Hrun).
Qed.

(** ** The size of a batch *)

Definition batch_limit (c : WriterConfig) : Z := Z.max 2 (max_batch_size c).

Record bounded (w : Writer) : Prop := {
  bd_batch t : zlen (batch (collector w t)) < batch_limit (config w);
  bd_jobs j : j ∈ work_queue w ∨ j ∈ workers w → 1 <= zlen (job_batch j) <= batch_limit (config w) }.

Lemma bounded_flush w t q b :
  1 <= zlen b <= batch_limit (config w) → bounded w → bounded (flush t q b w).
Proof.
  intros Hb [B1 B2]. split.
  - intros t'. unfold flush. rewrite (collector_insert (set_work_queue _ w)). cbn.
    case_decide; [|apply B1]. unfold batch_limit. cbn. lia.
  - intros j. cbn. rewrite elem_of_app, list_elem_of_singleton.
    intros [[?| ->]|?]; [apply B2; auto|done|apply B2; auto].
Qed.

Lemma bounded_insert w t q b n st :
  zlen b < batch_limit (config w) → bounded w →
  bounded (set_collectors (<[t := mkCollector q b n st]> (collectors w)) w).
Proof.
  intros Hb [B1 B2]. split; [|done]. intros t'. rewrite collector_insert. cbn.
  by case_decide.
Qed.

Lemma internal_bounded w s w' s' : internal (w, s) (w', s') → bounded w → bounded w'.
Proof.
  intros Hi Hb. inversion Hi as [t ? ? ? E|now t ? ? ? E|? ? ? E|now i ? ? ? ? E|i ? ? ? E|? ? ? E]; subst; clear Hi.
  - unfold collect in E. destruct (negb _); [done|].
    destruct (collectors w !! t) as [col|] eqn:Ec; cbn in E; [|done].
    pose proof (bd_batch _ Hb t) as Hlt. unfold collector in Hlt. rewrite Ec in Hlt. cbn in Hlt.
    destruct (queue col) as [|req q]; [done|]. destruct (batch col) as [|r b] eqn:Eb.
    + injection E as <-. apply bounded_insert; [|done]. unfold batch_limit. cbn. lia.
    + destruct (started col); cbn in E; [|done].
      destruct (_ || _) eqn:Efull; injection E as <-; cbn [app].
      * apply bounded_flush; [|done]. cbn [length] in *. rewrite length_app. cbn. lia.
      * apply bounded_insert; [|done]. apply orb_false_iff in Efull as [Ef _].
        unfold batch_limit. cbn [app length] in Ef |- *. lia.
  - unfold collect_timeout in E. destruct (negb _); [done|].
    destruct (collectors w !! t) as [col|] eqn:Ec; cbn in E; [|done].
    pose proof (bd_batch _ Hb t) as Hlt. unfold collector in Hlt. rewrite Ec in Hlt. cbn in Hlt.
    destruct (batch col) as [|r b]; [done|]. destruct (started col); cbn in E; [|done].
    destruct (_ <=? _); [|done]. injection E as <-. apply bounded_flush; [|done]. cbn [length] in *. lia.
  - unfold start_job in E. destruct (work_queue w) as [|j js] eqn:Eq; [done|].
    destruct (_ <? _)%nat; [|done]. injection E as <-. destruct Hb as [B1 B2]. split; [done|].
    intros k Hk. cbn in Hk. apply B2. rewrite Eq, elem_of_cons.
    rewrite elem_of_app, list_elem_of_singleton in Hk. tauto.
  - unfold append_next in E. destruct (workers w !! i) as [j|] eqn:Ei; cbn in E; [|done].
    destruct (job_batch j !! length (job_offsets j)); cbn in E; [|done].
    pose proof (list_elem_of_lookup_2 _ _ _ Ei). destruct Hb as [B1 B2].
    destruct (api_append _ _ _ _) as [[o|x] s1]; injection E as <- <-; (split; [done|]); cbn.
    + intros k [Hk|Hk]; [apply B2; auto|].
      apply list_elem_of_lookup_1 in Hk as [n Hk]. apply list_lookup_insert_Some in Hk as [(-> & <- & _)|[_ Hk]].
      * cbn. apply B2. auto.
      * apply B2. right. by eapply list_elem_of_lookup_2.
    + intros k [Hk|Hk]; apply B2; [auto|right]. by eapply elem_of_sublist; [|apply sublist_delete].
  - unfold finish_job in E. destruct (workers w !! i) as [j|] eqn:Ei; cbn in E; [|done].
    destruct (_ =? _)%nat; [|done]. injection E as <-. destruct Hb as [B1 B2]. split; [done|]. cbn.
    intros k [Hk|Hk]; apply B2; [auto|right]. by eapply elem_of_sublist; [|apply sublist_delete].
  - unfold run_callback in E. destruct (scheduled w) as [|[f o] l]; [done|]. injection E as <-.
    by destruct Hb.
Qed.

(** C40: no batch that is handed to the threads is empty or larger than the configured
    size, unless that is below two: a batch of one grows to two before the size is
    compared. *)
Theorem batch_size_bounded c s0 tr w s j :
  writer_run (new_writer c, s0) tr (w, s) → j ∈ work_queue w ∨ j ∈ workers w →
  1 <= zlen (job_batch j) <= Z.max 2 (max_batch_size c).
Proof.
  intros Hrun. assert (config w = c ∧ bounded w) as [<- Hb]; [|apply Hb].
  change (config (w, s).1 = c ∧ bounded (w, s).1).
  induction Hrun as [|tr w' s' req Hrun [<- IH]|tr [w' s'] [w'' s''] Hrun [<- IH] Hi|tr w' s' s'' Hrun IH]; cbn in *.
  - split; [done|]. split; cbn.
    + intros t. unfold collector. cbn. rewrite lookup_empty. unfold batch_limit. cbn. lia.
    + by intros k [?%elem_of_nil|?%elem_of_nil].
  - split; [done|]. destruct IH as [B1 B2]. split; [|done]. intros t. unfold submit.
    rewrite collector_insert. cbn. case_decide; subst; apply B1.
  - split; [|by eapply internal_bounded].
    inversion Hi as [t ? ? ? E|now t ? ? ? E|? ? ? E|now i ? ? ? ? E|i ? ? ? E|? ? ? E]; subst.
    all: unfold collect, collect_timeout, start_job, append_next, finish_job, run_callback in E.
    all: repeat (case_match; simplify_option_eq; try done).
    + destruct (workers w' !! i) as [k|]; [|done]. cbn in E.
      destruct (job_batch k !! _); [|done]. cbn in E.
      by destruct (api_append _ _ _ _) as [[?|?] ?]; injection E as <- <-.
    + destruct (workers w' !! i) as [k|]; [|done]. cbn in E. by destruct (_ =? _)%nat; simplify_eq.
  - done.
Qed.

(** ** Closing *)

Definition reaches := rtc (@internal S _).

(** Nobody else settles the future. *)
Definition unanswered (w : Writer) (f : nat) : Prop :=
  running w = false ∧ f ∉ (scheduled w).*1 ∧ futures w !! f = None ∧
  ∀ j r, j ∈ work_queue w ∨ j ∈ workers w → r ∈ job_batch j → callback r ≠ Some f.

Lemma callbacks_absent offsets l f :
  (∀ r, r ∈ l → callback r ≠ Some f) → f ∉ (callbacks offsets l).*1.
Proof.
  intros Hl (p & -> & Hp)%list_elem_of_fmap. destruct p as [g o]. cbn in Hl.
  destruct (callbacks_elem _ _ _ _ Hp) as (i & r & _ & Hr & Hc).
  by apply (Hl r); [eapply list_elem_of_lookup_2|].
Qed.

Lemma internal_unanswered w s w' s' f :
  internal (w, s) (w', s') → unanswered w f → unanswered w' f.
Proof.
  intros Hi (Hrun & Hsc & Hfu & Hj).
  inversion Hi as [t ? ? ? E|now t ? ? ? E|? ? ? E|now i ? ? ? ? E|i ? ? ? E|? ? ? E]; subst; clear Hi.
  - unfold collect in E. by rewrite Hrun in E.
  - unfold collect_timeout in E. by rewrite Hrun in E.
  - unfold start_job in E. destruct (work_queue w) as [|j js] eqn:Eq; [done|].
    destruct (_ <? _)%nat; [|done]. injection E as <-. split_and!; try done.
    intros k r Hk. cbn in Hk. apply Hj. rewrite elem_of_cons.
    rewrite elem_of_app, list_elem_of_singleton in Hk. tauto.
  - unfold append_next in E. destruct (workers w !! i) as [j|] eqn:Ei; cbn in E; [|done].
    destruct (job_batch j !! length (job_offsets j)); cbn in E; [|done].
    pose proof (list_elem_of_lookup_2 _ _ _ Ei).
    destruct (api_append _ _ _ _) as [[o|x] s1]; injection E as <- <-; split_and!; try done; cbn.
    + intros k r [Hk|Hk]; [apply Hj; auto|].
      apply list_elem_of_lookup_1 in Hk as [n Hk]. apply list_lookup_insert_Some in Hk as [(-> & <- & _)|[_ Hk]].
      * cbn. apply Hj. auto.
      * apply Hj. right. by eapply list_elem_of_lookup_2.
    + intros k r [Hk|Hk]; apply Hj; [auto|right]. by eapply elem_of_sublist; [|apply sublist_delete].
  - unfold finish_job in E. destruct (workers w !! i) as [j|] eqn:Ei; cbn in E; [|done].
    destruct (_ =? _)%nat; [|done]. injection E as <-. split_and!; try done; cbn.
    + rewrite fmap_app, elem_of_app. intros [?|Hc]; [done|]. revert Hc. apply callbacks_absent.
      intros r. apply Hj. right. by eapply list_elem_of_lookup_2.
    + intros k r [Hk|Hk]; apply Hj; [auto|right]. by eapply elem_of_sublist; [|apply sublist_delete].
  - unfold run_callback in E. destruct (scheduled w) as [|[g o] l] eqn:Es; [done|]. injection E as <-.
    cbn in Hsc. apply not_elem_of_cons in Hsc as [Hne Hsc]. split_and!; try done. cbn.
    unfold settle. destruct (futures w !! g); [done|]. by rewrite lookup_insert_ne by congruence.
Qed.

Lemma fail_all_absent q m f :
  (∀ r, r ∈ q → callback r ≠ Some f) → m !! f = None → fail_all q m !! f = None.
Proof.
  unfold fail_all. revert m. induction q as [|r q IH]; intros m Hq Hm; [done|]. cbn.
  apply IH; [intros x Hx; apply Hq; by right|].
  destruct (callback r) as [g|] eqn:Eg; [|done]. unfold settle. destruct (m !! g) eqn:Em; [done|].
  rewrite lookup_insert_ne; [done|]. intros ->. apply (Hq r); [left|done].
Qed.

Lemma elem_of_unwritten r t l :
  r ∈ of_topic t (concat (unwritten <$> l)) → ∃ j, j ∈ l ∧ r ∈ job_batch j.
Proof.
  intros [_ Hp]%list_elem_of_filter. apply list_elem_of_In, in_concat in Hp as (k & Hk & Hp).
  apply list_elem_of_In, list_elem_of_fmap in Hk as (j & -> & Hin). exists j. split; [done|].
  apply list_elem_of_In in Hp. eapply elem_of_sublist; [exact Hp|apply sublist_drop].
Qed.

Lemma closed_absent w f :
  (∀ t col x, collectors w !! t = Some col → x ∈ queue col → callback x ≠ Some f) →
  futures w !! f = None → futures (close w) !! f = None.
Proof.
  intros Hq Hf. cbn. revert Hq.
  apply (map_fold_weak_ind (λ res m,
    (∀ t col x, m !! t = Some col → x ∈ queue col → callback x ≠ Some f) → res !! f = None)); [done|].
  intros t col m res Ht IH Hq. apply fail_all_absent.
  - intros x Hx. apply (Hq t col); [by rewrite lookup_insert_eq|done].
  - apply IH. intros t' col' x Ht'. apply (Hq t' col'). rewrite lookup_insert_ne; [done|]. congruence.
Qed.

(** Closing the writer forgets the batches that are being collected: the message
    is dropped and the producer that waits for it gets neither an offset nor an
    exception, whatever the threads and the event loop still do. *)
Theorem close_forgets_batch w s r f t :
  r ∈ batch (collector w t) → callback r = Some f →
  futures w !! f = None → f ∉ (scheduled w).*1 →
  (∀ j x, j ∈ work_queue w ∨ j ∈ workers w → x ∈ job_batch j → callback x ≠ Some f) →
  (∀ t' col x, collectors w !! t' = Some col → x ∈ queue col → callback x ≠ Some f) →
  r ∉ pending (close w) t ∧ ∀ y, reaches (close w, s) y → futures y.1 !! f = None.
Proof.
  intros Hr Hcb Hfu Hsc Hj Hq. split.
  - unfold pending, collector. cbn. rewrite lookup_empty, app_nil_r.
    intros [Hp|Hp]%elem_of_app; apply elem_of_unwritten in Hp as (j & Hin & Hp); apply (Hj j r); auto.
  - intros y Hy. assert (unanswered y.1 f) as (_ & _ & ? & _); [|done].
    assert (unanswered (close w) f) as Hc by (split_and!; try done; by apply closed_absent).
    change (unanswered (close w, s).1 f) in Hc. induction Hy as [x|[w1 s1] [w2 s2] y Hi _ IH]; [done|].
    apply IH. by eapply internal_unanswered.
Qed.
End theorems.

(** ** A batch and [append_batch] *)

#[local] Existing Instance log_append.

(** Thread [i] appends [n] messages without anybody in between; [now k] is the clock
    at the [k]-th. *)
Fixpoint append_all (c : LogConfig) (now : nat → Z) (n i : nat) (w : Writer) (s : Log) : option (Writer * Log) :=
  match n with
  | O => Some (w, s)
  | S n =>
      match append_next (H := log_append c) (now 0%nat) i w s with
      | Some (w, s) => append_all c (λ k, now (S k)) n i w s
      | None => None
      end
  end.

(** A thread that appends its batch message by message, without another in
    between, is [append_batch]: the same log and the same offsets. *)
Theorem flush_is_append_batch c now i w s t b offs s' :
  workers w !! i = Some (mkJob t b []) →
  LogManager.append_batch c now t (data <$> b) s = (Ok offs, s') →
  append_all c now (length b) i w s
  = Some (set_workers (<[i := mkJob t b offs]> (workers w)) w, s').
Proof.
  enough (∀ n now w s done offs s', workers w !! i = Some (mkJob t b done) →
    (length done + n = length b)%nat →
    write_batch (LogManager.policy c) now t (data <$> drop (length done) b) s = (Ok offs, s') →
    append_all c now n i w s = Some (set_workers (<[i := mkJob t b (done ++ offs)]> (workers w)) w, s')) as H.
  { intros Hi Hb. by apply (H (length b) now w s [] offs s'). }
  clear. intros n. induction n as [|n IH]; intros now w s done offs s' Hi Hn Hb.
  - rewrite drop_ge in Hb by lia. cbn in Hb. injection Hb as <- <-. cbn.
    rewrite app_nil_r, list_insert_id by done. by destruct w.
  - destruct (lookup_lt_is_Some_2 b (length done)) as [r Hr]; [lia|].
    rewrite (drop_S _ _ _ Hr) in Hb. cbn [fmap list_fmap write_batch] in Hb. run_in Hb.
    cbn [append_all]. unfold append_next. rewrite Hi. cbn [mbind option_bind job_batch job_offsets job_topic].
    rewrite Hr. cbn [mbind option_bind api_append log_append]. unfold LogManager.append.
    destruct (write _ _ _ _ _) as [[o|e] s1]; [|done]. run_in Hb.
    destruct (write_batch _ _ _ _ s1) as [[os|e] s2] eqn:Eb; [|done]. run_in Hb. injection Hb as <- <-.
    set (w1 := set_workers _ w).
    assert (workers w1 !! i = Some (mkJob t b (done ++ [o]))) as Hi1.
    { cbn. apply list_lookup_insert_eq. by eapply lookup_lt_Some. }
    rewrite (IH _ w1 s1 (done ++ [o]) os s2 Hi1).
    + cbn. rewrite <-(assoc_L (++)). by rewrite list_insert_insert_eq.
    + rewrite length_app. cbn. lia.
    + rewrite length_app, Nat.add_1_r. exact Eb.
Qed.

(** ** Schedules, for concrete runs *)

Inductive action :=
| Submit (r : WriteRequest) | Collect (t : list Z) | Timeout (now : Z) (t : list Z)
| Start | Append (now : Z) (i : nat) | Finish (i : nat) | Callback.

Definition exec (a : action) (x : Writer * Log) : option (Writer * Log) :=
  let '(w, s) := x in
  match a with
  | Submit r => Some (submit r w, s)
  | Collect t => w ← collect t w; Some (w, s)
  | Timeout now t => w ← collect_timeout now t w; Some (w, s)
  | Start => w ← start_job w; Some (w, s)
  | Append now i => append_next (H := log_append sample_config) now i w s
  | Finish i => w ← finish_job i w; Some (w, s)
  | Callback => w ← run_callback w; Some (w, s)
  end.

Fixpoint exec_all (l : list action) (x : Writer * Log) : option (Writer * Log) :=
  match l with [] => Some x | a :: l => y ← exec a x; exec_all l y end.

Definition submits (l : list action) : list WriteRequest :=
  concat ((λ a, match a with Submit r => [r] | _ => [] end) <$> l).

Abbreviation sample_run := (@writer_run Log _ _ (log_append sample_config)).

Lemma exec_internal a x y :
  exec a x = Some y → match a with Submit r => y = (submit r x.1, x.2) | _ => @internal Log (log_append sample_config) x y end.
Proof.
  destruct x as [w s], a; cbn; intros Ea.
  - by injection Ea as <-.
  - destruct (collect _ _) eqn:?; [|done]. injection Ea as <-. by eapply step_collect.
  - destruct (collect_timeout _ _ _) eqn:?; [|done]. injection Ea as <-. by eapply step_timeout.
  - destruct (start_job _) eqn:?; [|done]. injection Ea as <-. by eapply step_start.
  - destruct y as [w' s']. by eapply (step_append now i).
  - destruct (finish_job _ _) eqn:?; [|done]. injection Ea as <-. by eapply step_finish.
  - destruct (run_callback _) eqn:?; [|done]. injection Ea as <-. by eapply step_callback.
Qed.

Lemma exec_run x l tr y z :
  sample_run x tr y → exec_all l y = Some z → sample_run x (tr ++ submits l) z.
Proof.
  revert tr y. induction l as [|a l IH]; intros tr [w s] Hr E; cbn [exec_all] in E.
  - injection E as <-. by rewrite app_nil_r.
  - destruct (exec a (w, s)) as [y|] eqn:Ea; [|done]. apply exec_internal in Ea. cbn in E.
    assert (sample_run x (tr ++ match a with Submit r => [r] | _ => [] end) y) as Hy.
    { destruct a; rewrite ?app_nil_r; [rewrite Ea; by apply run_submit|by eapply run_internal..]. }
    specialize (IH _ _ Hy E). unfold submits. rewrite fmap_cons. cbn [concat].
    by rewrite (assoc_L (++)).
Qed.

Definition request (d : list Z) (f : nat) : WriteRequest := mkWriteRequest (py "p") orders d 1 (Some f).
Definition two_threads : WriterConfig := mkWriterConfig 2 1000 2000 2.
Definition requests : list WriteRequest :=
  [request (py "a") 0; request (py "b") 1; request (py "c") 2; request (py "d") 3].

(** The second batch overtakes the first between its start and its first append. *)
Definition overtaking : list action :=
  (Submit <$> requests) ++ replicate 4 (Collect orders) ++
  [Start; Start; Append 0 1; Append 0 1; Append 0 0; Append 0 0; Finish 1; Finish 0;
   Callback; Callback; Callback; Callback].

(** With more than one thread the order of a topic is lost: a producer publishes
    four messages one after the other, and the log gets the last two first. *)
Theorem writer_reorders :
  ∃ w s, sample_run (new_writer two_threads, log0) requests (w, s) ∧
    topic_log s orders = [py "c"; py "d"; py "a"; py "b"] ∧
    futures w !! 0%nat = Some (Result 10).
Proof.
  destruct (exec_all overtaking (new_writer two_threads, log0)) as [[w s]|] eqn:E.
  - exists w, s. split.
    + apply (exec_run _ overtaking [] _ _ (run_nil _) E).
    + vm_compute in E. injection E as <- <-. split; vm_compute; reflexivity.
  - exfalso. vm_compute in E. discriminate.
Qed.

(** ** Witnesses, with the log itself *)

Lemma recs_len_of_topic t l : recs_len (data <$> of_topic t l) <= recs_len (data <$> l).
Proof.
  unfold of_topic. induction l as [|r l IH]; [done|]. rewrite filter_cons. cbn.
  case_decide; cbn; unfold recs_len in *; lia.
Qed.

Definition acceptable (tr : list WriteRequest) : Prop :=
  Forall (λ r, topic_ok (wr_topic r) ∧ zlen (data r) < 2 ^ 32 ∧ created_at r ≠ 0) tr ∧
  recs_len (data <$> tr) < 2 ^ 63.

Lemma sample_fits tr : acceptable tr → fits (H2 := log_append_laws sample_config) log0 tr.
Proof.
  intros [Ht Hb]. rewrite Forall_forall in Ht. split.
  - intros r Hr. destruct (Ht r Hr) as (Hok & Hd & _). exact (conj Hok Hd).
  - intros t. assert (api_log log0 t = []) as ->.
    { cbn. unfold topic_log, log0, LogManager.init. cbn. by rewrite lookup_empty. }
    pose proof (recs_len_of_topic t tr). cbn. lia.
  - apply Forall_forall. intros r Hr. by destruct (Ht r Hr) as (_ & _ & ?).
Qed.

Lemma log0_ok : api_ok log0.
Proof. eapply log_ok, init_inv; by vm_compute. Qed.

Lemma requests_fit : fits (H2 := log_append_laws sample_config) log0 requests.
Proof. apply sample_fits. apply (bool_decide_unpack _). vm_compute. exact I. Qed.

(** The run up to the middle of the second batch. *)
Lemma half_run : ∃ w s, sample_run (new_writer two_threads, log0) requests (w, s) ∧
  workers w = [mkJob orders (take 2 requests) []; mkJob orders (drop 2 requests) [0]].
Proof.
  destruct (exec_all (take 11 overtaking) (new_writer two_threads, log0)) as [[w s]|] eqn:E.
  - exists w, s. split; [exact (exec_run _ _ [] _ _ (run_nil _) E)|].
    vm_compute in E. injection E as <- <-. vm_compute. reflexivity.
  - exfalso. vm_compute in E. discriminate.
Qed.

Lemma writer_exactly_once_witness :
  ∃ w s, sample_run (new_writer two_threads, log0) requests (w, s) ∧ crashed w = [] ∧
    topic_log s orders ++ (data <$> pending w orders) ≡ₚ [py "a"; py "b"; py "c"; py "d"].
Proof.
  destruct half_run as (w & s & Hrun & _). exists w, s. split; [exact Hrun|].
  destruct (@writer_exactly_once Log _ _ _ (log_append_laws sample_config) two_threads log0 requests w s
    log0_ok requests_fit Hrun) as [Hc Hall].
  split; [exact Hc|]. exact (proj1 (Hall orders)).
Defined.

Lemma writer_acknowledges_witness :
  ∃ w s r o pre post, sample_run (new_writer two_threads, log0) requests (w, s) ∧
    futures w !! 0%nat = Some (Result o) ∧ callback r = Some 0%nat ∧
    topic_log s (wr_topic r) = pre ++ data r :: post ∧ recs_len pre = o.
Proof.
  destruct writer_reorders as (w & s & Hrun & _ & Hf).
  destruct (@writer_acknowledges Log _ _ _ (log_append_laws sample_config) two_threads log0 requests w s
    0%nat (Result 10) log0_ok requests_fit Hrun Hf) as (r & o & pre & post & E & _ & Hc & Hl & Ho).
  exists w, s, r, o, pre, post. split; [exact Hrun|]. split; [rewrite Hf; exact (f_equal Some E)|].
  split; [exact Hc|]. split; [exact Hl|exact Ho].
Defined.

Lemma writer_drains_witness :
  ∃ x, sample_run (new_writer two_threads, log0) requests x ∧
    @inevitably Log (log_append sample_config) (drained two_threads log0 requests) x.
Proof.
  destruct half_run as (w & s & Hrun & _). exists (w, s). split; [exact Hrun|].
  apply (@writer_drains Log _ _ _ (log_append_laws sample_config) two_threads log0 requests (w, s)).
  - vm_compute. lia.
  - exact log0_ok.
  - exact requests_fit.
  - exact Hrun.
Defined.

Lemma batch_size_bounded_witness :
  ∃ w s j, sample_run (new_writer two_threads, log0) requests (w, s) ∧ j ∈ workers w ∧
    1 <= zlen (job_batch j) <= 2.
Proof.
  destruct half_run as (w & s & Hrun & Hw).
  assert (mkJob orders (take 2 requests) [] ∈ workers w) as Hin by (rewrite Hw; left).
  exists w, s, (mkJob orders (take 2 requests) []). split; [exact Hrun|]. split; [exact Hin|].
  exact (@batch_size_bounded Log _ _ (log_append sample_config) two_threads log0 requests w s _ Hrun (or_intror Hin)).
Defined.

(** One request, taken from its queue. *)
Definition collecting : Writer :=
  default (new_writer two_threads)
    (collect orders (submit (request (py "a") 0) (new_writer two_threads))).

Lemma close_forgets_batch_witness :
  request (py "a") 0 ∉ pending (close collecting) orders ∧
  futures (close collecting) !! 0%nat = None.
Proof.
  edestruct (@close_forgets_batch Log (log_append sample_config) collecting log0 (request (py "a") 0) 0 orders)
    as [Hp Hf]; [..|split; [exact Hp|exact (Hf (close collecting, log0) (rtc_refl _ _))]].
  - assert (batch (collector collecting orders) = [request (py "a") 0]) as -> by (vm_compute; reflexivity).
    left.
  - reflexivity.
  - reflexivity.
  - apply not_elem_of_nil.
  - intros j x [Hj|Hj]; exfalso; revert Hj; apply not_elem_of_nil.
  - intros t' col x Hc Hx.
    assert (map_Forall (λ _ c, Forall (λ x, callback x ≠ Some 0%nat) (queue c)) (collectors collecting)) as HF.
    { apply (bool_decide_unpack _). vm_compute. exact I. }
    specialize (HF t' col Hc). rewrite Forall_forall in HF. exact (HF x Hx).
Defined.

Lemma flush_is_append_batch_witness :
  ∃ w s w' s', workers w = [mkJob orders (take 2 requests) []] ∧ s = log3 ∧
    append_all sample_config (λ _, 0) 2 0 w s = Some (w', s') ∧
    workers w' = [mkJob orders (take 2 requests) [28; 33]].
Proof.
  set (w := set_workers [mkJob orders (take 2 requests) []] (new_writer two_threads)).
  destruct (LogManager.append_batch sample_config (λ _, 0) orders (data <$> take 2 requests) log3) as [r s'] eqn:E.
  assert (r = Ok [28; 33]) as -> by (vm_compute in E; congruence).
  exists w, log3, (set_workers [mkJob orders (take 2 requests) [28; 33]] w), s'.
  split; [reflexivity|]. split; [reflexivity|]. split; [|reflexivity].
  exact (flush_is_append_batch sample_config (λ _, 0) 0 w log3 orders (take 2 requests) [28; 33] s' eq_refl E).
Defined.
