(* ===== verification/Broker.v ===== *)
(** * [network/broker.py]

    The handlers of a broker's clients: one round of [handle_client] per packet, over
    the replica manager with its log and the batching writer.  Sockets, the clock,
    [uuid4] and the answers of the controller are inputs of a round; what a client is
    sent is recorded in its connection. *)
From Stdlib Require Import String.
From S2P Require Import Prelude Coroutine PyData Messages Framer Encoder Parser Segment Log LogApi Leader Replicas Writer.

(** What the two reads of a round end with. *)
Inductive received :=
| Frame (data : bytes)
| Incomplete (at_eof : bool)
| TimedOut
| Reset
| Unexpected.

Inductive status := Reading | Serving | Closed | Crashed.

(** A connection: the locals [client_id] and [res] of its handler, the latter while it
    is in the [with] block, and the responses written so far.  [handled] are the
    commands it has been given, each with the [client_id] of that time, for the
    statements about them. *)
Record Connection := mkConnection {
  client_id : option (list Z);
  open_read : option nat;
  handled : list (option (list Z) * Command);
  sent : list (Packet Response);
  conn_status : status }.

(** The commands alone. *)
Definition inputs (c : Connection) : list Command := (handled c).*2.

Definition new_connection : Connection := mkConnection None None [] [] Reading.

(** [next_write] numbers the futures that are made for the writer; [published] lists
    the requests submitted to it, for the statements about them. *)
Record Broker (S : Type) := mkBroker {
  replication : Replication S;
  writer : Writer;
  checksum_enable : bool;
  heartbeats : gmap (list Z) Z;
  connections : gmap nat Connection;
  next_write : nat;
  published : list WriteRequest }.
Arguments mkBroker {S}.
Arguments replication {S}.
Arguments writer {S}.
Arguments checksum_enable {S}.
Arguments heartbeats {S}.
Arguments connections {S}.
Arguments next_write {S}.
Arguments published {S}.

Definition new_broker {S} (rc : ReplicaConfig) (wc : WriterConfig) (checksum_enable : bool) (s : S) : Broker S :=
  mkBroker (new_replication rc s) (new_writer wc) checksum_enable ∅ ∅ 0 [].

Section broker.
Context {S : Type} `{LogApi S}.

Definition set_replication (r : Replication S) (b : Broker S) : Broker S :=
  mkBroker r (writer b) (checksum_enable b) (heartbeats b) (connections b) (next_write b) (published b).
Definition set_writer (w : Writer) (b : Broker S) : Broker S :=
  mkBroker (replication b) w (checksum_enable b) (heartbeats b) (connections b) (next_write b) (published b).
Definition set_connections (m : gmap nat Connection) (b : Broker S) : Broker S :=
  mkBroker (replication b) (writer b) (checksum_enable b) (heartbeats b) m (next_write b) (published b).

Definition on_replication {A} : M (Replication S) A → M (Broker S) A := zoom replication set_replication.

Definition heartbeat (client : pystr) (now : Z) : M (Broker S) unit :=
  modify (λ b, mkBroker (replication b) (writer b) (checksum_enable b)
    (<[client := now]> (heartbeats b)) (connections b) (next_write b) (published b)).
Definition update_connection (i : nat) (f : Connection → Connection) : M (Broker S) unit :=
  modify (λ b, set_connections (alter f i (connections b)) b).

Definition write_response (resp : Packet Response) (c : Connection) : Connection :=
  mkConnection (client_id c) (open_read c) (handled c) (sent c ++ [resp]) (conn_status c).
Definition set_status (x : status) (c : Connection) : Connection :=
  mkConnection (client_id c) (open_read c) (handled c) (sent c) x.
Definition next_round (client : option (list Z)) (c : Connection) : Connection :=
  mkConnection client (open_read c) (handled c) (sent c) Reading.
Definition set_open (e : option nat) (c : Connection) : Connection :=
  mkConnection (client_id c) e (handled c) (sent c) (conn_status c).
Definition add_input (client : option (list Z)) (cmd : Command) (c : Connection) : Connection :=
  mkConnection (client_id c) (open_read c) (handled c ++ [(client, cmd)]) (sent c) (conn_status c).

(** [_send_response]; the frame is what [encode_response] makes. *)
Definition send_packet (i : nat) (resp : Packet Response) : Co (Broker S) unit :=
  atomic (frame ← lift (encode_response resp); update_connection i (write_response resp));;
  pause.
Definition send (i : nat) (resp : Response) : Co (Broker S) unit := send_packet i (packet resp).

(** ** Publishing *)

(** [create_future], [WriteRequest] and [submit]. *)
Definition submit_request (client topic : pystr) (payload : bytes) (now : Z) (wait : bool) :
    M (Broker S) nat :=
  b ← get;
  let fut := next_write b in
  let req := mkWriteRequest client topic payload now (if wait then Some fut else None) in
  put (mkBroker (replication b) (submit req (writer b)) (checksum_enable b) (heartbeats b)
         (connections b) (if wait then Datatypes.S fut else fut) (published b ++ [req]));;
  mret fut.

(** [await fut] and [fut.result()] *)
Definition await_write (fut : nat) : Co (Broker S) Z :=
  Await (λ b, bool_decide (is_Some (futures (writer b) !! fut)))
    (atomic (reads (λ b, match futures (writer b) !! fut with
                         | Some (Result o) => Ok o
                         | Some Failed => Raise Exception
                         | None => Raise InvalidStateError
                         end))).

Definition _handle_write (client topic : pystr) (payload : bytes) (acks now : Z) :
    Co (Broker S) (option Z) :=
  leader ← co_catch (atomic (on_replication (get_leader topic))) (λ _, Some (Done (Raise ValueError)));
  fut ← atomic (submit_request client topic payload now (negb (acks =? 0)));
  if acks =? 0 then mret None
  else
    offset ← await_write fut;
    (if acks =? -1 then co_zoom replication set_replication (wait_hw leader offset) else mret tt);;
    mret (Some offset).

(** ** Reading *)

(** [with self.log_manager.read(...) as res] and the end of the block, which releases
    the handle. *)
Definition enter_read (i : nat) (topic : pystr) (offset size : Z) : M (Broker S) ReadResult :=
  res ← on_replication (Replicas.on_log (api_read topic offset size));
  update_connection i (set_open (Some (_release res)));;
  mret res.

Definition exit_read (i : nat) (b : Broker S) : Broker S :=
  match connections b !! i ≫= open_read with
  | Some e =>
      let r := replication b in
      (update_connection i (set_open None)
         (set_replication (mkReplication (manager r) (waits r) (api_release e (log r))) b)).2
  | None => b
  end.

Definition _push_message (i : nat) (topic : pystr) (offset size : Z) : Co (Broker S) unit :=
  if size <=? 1024 then
    res ← atomic (on_replication (Replicas.on_log (api_read_bytes topic offset size)));
    send i (MessageResponse topic (rb_data res))
  else
    res ← atomic (enter_read i topic offset size);
    let fs := file_slice res in
    co_finally (send i (FileResponse topic (fs_filepath fs) (fs_offset fs) (fs_batch_size fs)))
      (exit_read i).

Definition pull (i : nat) (topic : pystr) (offset size : Z) : Co (Broker S) unit :=
  leader ← co_catch (l ← atomic (on_replication (get_leader topic)); mret (Some l))
                    (λ _, Some (mret None));
  match leader with
  | None => send i (ErrorResponse 400 (py "Topic not found or not leader"))
  | Some leader =>
      high_watermark ← atomic (on_replication (on_leader_of leader _ get_high_watermark));
      if offset >? high_watermark then
        hw ← atomic (lift (py_str high_watermark));
        send i (ErrorResponse 400 (py "Offset out of range. High watermark is " ++ hw))
      else if offset =? high_watermark then send i (MessageResponse topic [])
      else _push_message i topic offset size
  end.

(** ** A round *)

(** What a round is given besides the packet: the time and its text, a fresh
    identifier, whether there is a controller, and its answers. *)
Record Outside := mkOutside {
  now : Z;
  time_text : pystr;
  uuid : pystr;
  controller : bool;
  ask : Command → result (option (Packet Response)) }.

Definition ask_controller (o : Outside) (i : nat) (cmd : Command) (failure : pystr) : Co (Broker S) unit :=
  if controller o then
    pause;;
    resp ← atomic (lift (ask o cmd));
    send_packet i (default (packet (ErrorResponse 500 failure)) resp)
  else send i (ErrorResponse 500 (py "Controller not connected")).

(** The text a commit stores. *)
Definition commit_payload (time_text client topic : pystr) (offset : Z) : result bytes :=
  off ← py_str offset;
  utf8_encode (words [time_text; client; topic; off]).

(** The chain of [isinstance]; [None] is [break], otherwise the loop goes on with the
    given [client_id]. *)
Definition execute (o : Outside) (i : nat) (client : option (list Z)) (command : Command) :
    Co (Broker S) (option (option (list Z))) :=
  match command with
  | ReplicaCommand _ | ReplicaFetchCommand _ _ _ _ =>
      resp ← co_catch (resp ← atomic (on_replication (Replicas.handle (now o) command)); mret (Some resp))
                      (λ _, Some (mret None));
      match resp with
      | None => mret None
      | Some resp => send i resp;; mret (Some client)
      end
  | RegisterTopicCommand _ => ask_controller o i command (py "Failed to register topic");; mret (Some client)
  | MetadataRequestCommand _ => ask_controller o i command (py "Failed to get metadata");; mret (Some client)
  | RegisterCommand =>
      atomic (heartbeat (uuid o) (now o));;
      send i (ClientIDResponse (uuid o));;
      mret (Some (Some (uuid o)))
  | ClientIdCommand id =>
      atomic (heartbeat id (now o));;
      mret (Some (Some id))
  | _ =>
      match client with
      | None => mret None
      | Some id =>
          match command with
          | SubscribeCommand _ => mret (Some client)
          | PullCommand topic offset size => pull i topic offset size;; mret (Some client)
          | FetchOffsetCommand topic => send i (FetchOffsetResponse topic 0);; mret (Some client)
          | CommitOffsetCommand topic offset acks =>
              payload ← atomic (lift (commit_payload (time_text o) id topic offset));
              _handle_write id topic payload acks (now o);;
              (if acks =? 0 then mret tt else send i (OffsetAckResponse topic offset acks));;
              mret (Some client)
          | PublishCommand topic payload acks _ =>
              offset ← co_catch
                (offset ← _handle_write id topic payload acks (now o); mret (Some offset))
                (λ e, if is_ValueError e then Some (mret None) else None);
              match offset with
              | None => send i (ErrorResponse 400 (py "Topic not found or not leader"))
              | Some None => mret tt
              | Some (Some offset) =>
                  if acks =? 0 then mret tt else send i (PubAckResponse topic offset acks)
              end;;
              mret (Some client)
          | PingCommand =>
              atomic (heartbeat id (now o));;
              send i PingResponse;;
              mret (Some client)
          | _ =>
              send i (ErrorResponse 403 (py "Unimplemented command"));;
              mret (Some client)
          end
      end
  end.

Definition serve (o : Outside) (i : nat) (client : option (list Z)) (input : received) :
    Co (Broker S) (option (option (list Z))) :=
  match input with
  | Incomplete at_eof =>
      (if at_eof then mret tt else send i (ErrorResponse 408 (py "Request timeout")));; mret None
  | TimedOut => send i (ErrorResponse 408 (py "Request timeout"));; mret None
  | Reset | Unexpected => mret None
  | Frame data =>
      b ← atomic get;
      match parse_command data (checksum_enable b) with
      | Raise (ChecksumFailed _ _) => send i (ErrorResponse 400 (py "Checksum failed"));; mret None
      | Raise (UnknownCommand _) => send i (ErrorResponse 400 (py "Unknown command"));; mret None
      | Raise e => Done (Raise e)
      | Ok command =>
          atomic (update_connection i (add_input client (body command)));;
          execute o i client (body command)
      end
  end.

(** One round of the loop of [handle_client]: an exception that it does not handle
    ends the task and leaves the connection as it is. *)
Definition handle_round (o : Outside) (i : nat) (input : received) : Co (Broker S) unit :=
  c ← atomic (reads (λ b, or_raise (connections b !! i) KeyError));
  atomic (update_connection i (set_status Serving));;
  next ← co_catch (serve o i (client_id c) input)
    (λ e, Some (atomic (update_connection i (set_status Crashed));; Done (Raise e)));
  match next with
  | Some client => atomic (update_connection i (next_round client))
  | None => atomic (update_connection i (set_status Closed))
  end.
End broker.
