(* ===== verification/BrokerFacts.v ===== *)
(** * The broker, one part of a handler at a time

    The invariant that ties the connections, the writer, the replica manager and the
    log together, and that every handler keeps it whatever runs while it waits. *)
From Stdlib Require Import String.
From stdpp Require Import sorting fin_maps gmultiset.
From S2P Require Import Prelude Coroutine PyData PyDict Messages Framer Encoder Parser RecordFacts Segment SegmentMemory Log LogRead LogApi Leader LeaderTheorems Fetcher Replicas ReplicasFacts Writer WriterFacts Broker.

Lemma inputs_add client cmd c : inputs (add_input client cmd c) = inputs c ++ [cmd].
Proof. unfold inputs. cbn. by rewrite fmap_app. Qed.

Section facts.
Context {S : Type} `{LogAppendLaws S} (wc : WriterConfig) (s0 : S).
Implicit Types (b : Broker S) (r : WriteRequest).

Definition the_log b : S := log (replication b).

(** A message is in the log where the response says. *)
Definition stored b (topic : pystr) (payload : bytes) (o : Z) : Prop :=
  ∃ r, r ∈ published b ∧ wr_topic r = topic ∧ data r = payload ∧ stored_at (the_log b) r o.
(** Connection [i] was given a command. *)
Definition given b (i : nat) (cmd : Command) : Prop :=
  ∃ c, connections b !! i = Some c ∧ cmd ∈ inputs c.
(** An acknowledgement answers a publish of its connection. *)
Definition acked b (i : nat) (resp : Packet Response) : Prop :=
  match body resp with
  | PubAckResponse t o acks =>
      ∃ payload checks, given b i (PublishCommand t payload acks checks) ∧ stored b t payload o
  | _ => True
  end.
(** The command that a request was made for. *)
Definition origin (cmd : Command) r : Prop :=
  match cmd with
  | PublishCommand t payload _ _ => wr_topic r = t ∧ data r = payload
  | CommitOffsetCommand t _ _ => wr_topic r = t
  | _ => False
  end.

(** The handles that are open in a [with] block. *)
Definition handle_of (c : Connection) : gmultiset nat :=
  match open_read c with Some e => {[+ e +]} | None => ∅ end.
Definition held (m : gmap nat Connection) : gmultiset nat := map_fold (λ _ c h, handle_of c ⊎ h) ∅ m.

Record broker_ok b : Prop := {
  bo_manager : manager_ok (replication b);
  bo_writer : writer_ok wc s0 (published b) (writer b) (the_log b);
  bo_fits : fits s0 (published b);
  bo_numbers r f : r ∈ published b → callback r = Some f → (f < next_write b)%nat;
  bo_unique r r' f : r ∈ published b → r' ∈ published b →
    callback r = Some f → callback r' = Some f → r = r';
  bo_acks i c resp : connections b !! i = Some c → resp ∈ sent c → acked b i resp;
  bo_origin r : r ∈ published b → ∃ i cmd, given b i cmd ∧ origin cmd r;
  bo_holds : api_holds (held (connections b)) (the_log b) }.

Record broker_later b b' : Prop := {
  bl_replication : later (replication b) (replication b');
  bl_published : published b `prefix_of` published b';
  bl_answers f x : futures (writer b) !! f = Some x → futures (writer b') !! f = Some x;
  bl_given i cmd : given b i cmd → given b' i cmd }.

#[export] Instance broker_later_preorder : PreOrder broker_later.
Proof.
  split; [by intros b|]. intros a b c [L1 P1 F1 G1] [L2 P2 F2 G2]. split; [by etrans|by etrans|auto|auto].
Qed.

Lemma extends_grow (s s' : S) : extends s s' → ∀ t, ∃ more, api_log s' t = api_log s t ++ more.
Proof. intros [Hl _] t. destruct (Hl t) as [k Hk]. by exists k. Qed.

Lemma stored_later b b' t p o : broker_later b b' → stored b t p o → stored b' t p o.
Proof.
  intros [Hl Hp _ _] (r & Hr & Ht & Hd & Hs). exists r. split_and!; [|done|done|].
  - destruct Hp as [k ->]. apply elem_of_app. by left.
  - eapply stored_grow; [|exact Hs]. apply extends_grow, Hl.
Qed.

Lemma acked_later b b' i resp : broker_later b b' → acked b i resp → acked b' i resp.
Proof.
  intros Hl. unfold acked. destruct (body resp); try done.
  intros (p & k & Hg & Hp). exists p, k. split; [by apply Hl|by eapply stored_later].
Qed.

(** The commands of the connections are kept. *)
Lemma given_alter b b' f i :
  (∀ c, inputs c ⊆ inputs (f c)) → connections b' = alter f i (connections b) →
  ∀ j cmd, given b j cmd → given b' j cmd.
Proof.
  intros Hf E j cmd (c & Hc & Hin). unfold given. rewrite E. destruct (decide (i = j)) as [->|Hne].
  - exists (f c). rewrite lookup_alter_eq, Hc. split; [done|by apply Hf].
  - exists c. by rewrite lookup_alter_ne.
Qed.

(** ** Handles *)

Lemma held_lookup m i c : m !! i = Some c → held m = handle_of c ⊎ held (delete i m).
Proof.
  intros Hi. unfold held. rewrite (map_fold_delete_L _ _ i c m); [done| |done].
  intros j1 j2 z1 z2 y _ _ _. by rewrite (assoc_L (⊎)), (comm_L (⊎) (handle_of z1)), <-(assoc_L (⊎)).
Qed.

Lemma held_alter f m i c :
  m !! i = Some c → held (alter f i m) = handle_of (f c) ⊎ held (delete i m).
Proof.
  intros Hi. rewrite (held_lookup _ i (f c)) by (by rewrite lookup_alter_eq, Hi).
  by rewrite delete_alter_eq.
Qed.

Lemma held_alter_same f m i : (∀ c, open_read (f c) = open_read c) → held (alter f i m) = held m.
Proof.
  intros Hf. destruct (m !! i) as [c|] eqn:Hi.
  - rewrite (held_alter _ _ _ c), (held_lookup m i c) by done. unfold handle_of. by rewrite Hf.
  - by rewrite alter_id by (intros c; congruence).
Qed.

(** ** Parts of the state *)

(** Only connections and heartbeats differ. *)
Lemma connections_ok b b' :
  replication b' = replication b → writer b' = writer b → next_write b' = next_write b →
  published b' = published b →
  (∀ i cmd, given b i cmd → given b' i cmd) →
  (∀ i c resp, connections b' !! i = Some c → resp ∈ sent c → acked b i resp) →
  api_holds (held (connections b')) (the_log b) →
  broker_ok b → broker_ok b' ∧ broker_later b b'.
Proof.
  intros E1 E2 E3 E4 Hg Hc Hh [B1 B2 B3 B4 B5 B6 BO B7].
  assert (broker_later b b') as Hl by (split; rewrite ?E1, ?E2, ?E4; done).
  split; [|done]. split; unfold the_log; rewrite ?E1, ?E2, ?E3, ?E4; try done.
  - intros i c resp Hi Hr. eapply acked_later; [exact Hl|]. by eapply Hc.
  - intros r (i & cmd & ? & ?)%BO. exists i, cmd. auto.
Qed.

Lemma sent_alter b f i j c resp :
  broker_ok b → (∀ c resp, resp ∈ sent (f c) → resp ∈ sent c ∨ acked b i resp) →
  alter f i (connections b) !! j = Some c → resp ∈ sent c → acked b j resp.
Proof.
  intros Hb Hf. destruct (decide (i = j)) as [->|Hne].
  - rewrite lookup_alter_eq. destruct (connections b !! j) as [c'|] eqn:E; [|done].
    intros [= <-] [Hin|?]%Hf; [|done]. by eapply (bo_acks _ Hb).
  - rewrite lookup_alter_ne by done. by apply (bo_acks _ Hb).
Qed.

Lemma update_connection_ok b i f :
  broker_ok b → (∀ c, open_read (f c) = open_read c ∧ inputs c ⊆ inputs (f c)) →
  (∀ c resp, resp ∈ sent (f c) → resp ∈ sent c ∨ acked b i resp) →
  broker_ok (update_connection i f b).2 ∧ broker_later b (update_connection i f b).2.
Proof.
  intros Hb Hh Hf. apply connections_ok; try done.
  - eapply given_alter; [intros c; apply Hh|done].
  - intros j c resp. by apply sent_alter.
  - cbn. rewrite held_alter_same; [apply Hb|apply Hh].
Qed.

Lemma heartbeat_ok b id now :
  broker_ok b → broker_ok (heartbeat id now b).2 ∧ broker_later b (heartbeat id now b).2.
Proof. intros Hb. apply connections_ok; try done; apply Hb. Qed.

(** The manager or the log changes, for instance because a handle is closed. *)
Lemma replication_holds b x m :
  broker_ok b → manager_ok x → later (replication b) x →
  (∀ t, api_log (log x) t = api_log (the_log b) t) → api_holds (held m) (log x) →
  (∀ i c resp, m !! i = Some c → resp ∈ sent c → acked b i resp) →
  let b' := set_connections m (set_replication x b) in
  (∀ i cmd, given b i cmd → given b' i cmd) → broker_ok b' ∧ broker_later b b'.
Proof.
  intros [B1 B2 B3 B4 B5 B6 BO B7] Hx Hl Hlog Hh Hc b' Hg.
  assert (broker_later b b') as Hlater by by split.
  split; [|done]. split; try done.
  - cbn. eapply reader_ok; [apply Hx|exact Hlog|done].
  - intros i c resp Hi Hr. eapply acked_later; [exact Hlater|]. by eapply Hc.
  - intros r (i & cmd & ? & ?)%BO. exists i, cmd. auto.
Qed.

Lemma replication_ok b x :
  broker_ok b → manager_ok x → own (replication b) x →
  broker_ok (set_replication x b) ∧ broker_later b (set_replication x b).
Proof.
  intros Hb Hx (Hl & Hlog & Hk). apply (replication_holds b x (connections b)); try done.
  - by apply Hk, Hb.
  - apply Hb.
Qed.

(** An operation that reads from the log. *)
Lemma content_own x s :
  manager_ok x → api_ok s → api_content (log x) s →
  manager_ok (mkReplication (manager x) (waits x) s) ∧ later x (mkReplication (manager x) (waits x) s).
Proof. intros Hx Hs Hc. by apply log_grows, content_extends. Qed.

Lemma same_own x s :
  manager_ok x → api_same (log x) s →
  manager_ok (mkReplication (manager x) (waits x) s) ∧ own x (mkReplication (manager x) (waits x) s).
Proof.
  intros Hx [Hc Hk]. destruct (content_own x s) as [Hx' Hl]; [done|by eapply kept_ok; [apply Hx|]|done|].
  split; [done|]. split; [done|]. split; [apply Hc|done].
Qed.

Lemma on_replication_ok {A} b (m : M (Replication S) A) a b' :
  broker_ok b →
  (∀ a x, m (replication b) = (a, x) → manager_ok x ∧ own (replication b) x) →
  on_replication m b = (a, b') → broker_ok b' ∧ broker_later b b'.
Proof.
  intros Hb Hm. unfold on_replication, zoom. destruct (m (replication b)) as [c x] eqn:E.
  intros [= _ <-]. destruct (Hm _ _ eq_refl). by apply replication_ok.
Qed.

Lemma enter_read_ok b i topic offset size a b' :
  broker_ok b → enter_read i topic offset size b = (a, b') → broker_ok b' ∧ broker_later b b'.
Proof.
  intros Hb. unfold enter_read, on_replication, Replicas.on_log, update_connection. run.
  destruct (api_read _ _ _ _) as [[res|e] s] eqn:E; run; intros [= _ <-];
    pose proof (api_read_same _ _ _ _ _ _ (mo_log _ (bo_manager _ Hb)) E) as Hsame;
    destruct (same_own _ _ (bo_manager _ Hb) Hsame) as [Hx Ho]; [|by apply replication_ok].
  apply (replication_holds b _ (alter (set_open (Some (_release res))) i (connections b))); try done; cbn.
  - apply Ho.
  - apply Hsame.
  - pose proof (api_read_opens _ _ _ _ _ _ _ (bo_holds _ Hb) E) as Hh.
    destruct (connections b !! i) as [c|] eqn:Hi.
    + rewrite (held_alter _ _ _ c) by done. rewrite (held_lookup _ i c) in Hh by done.
      change (handle_of (set_open (Some (_release res)) c)) with ({[+ _release res +]} : gmultiset nat).
      apply (api_holds_less _ (handle_of c)). by rewrite <-(assoc_L (⊎)), (comm_L (⊎) _ (handle_of c)).
    + rewrite alter_id by (intros c; congruence).
      apply (api_holds_less _ {[+ _release res +]}). by rewrite (comm_L (⊎)).
  - intros j c resp. apply sent_alter; [done|]. intros c' r. by left.
  - eapply given_alter; [|reflexivity]. done.
Qed.

Lemma exit_read_ok b i : broker_ok b → broker_ok (exit_read i b) ∧ broker_later b (exit_read i b).
Proof.
  intros Hb. unfold exit_read. destruct (connections b !! i) as [c|] eqn:Hi; [|done]. cbn.
  destruct (open_read c) as [e|] eqn:He; [|done].
  pose proof (bo_holds _ Hb) as Hh. rewrite (held_lookup _ i c) in Hh by done.
  unfold handle_of in Hh. rewrite He in Hh. destruct (api_release_ok _ _ _ Hh) as [Hh' Hc].
  destruct (content_own _ _ (bo_manager _ Hb) (holds_ok _ _ Hh') Hc) as [Hx Hl].
  apply (replication_holds b _ (alter (set_open None) i (connections b))); try done; cbn.
  - apply Hc.
  - rewrite (held_alter _ _ _ c) by done. change (handle_of (set_open None c)) with (∅ : gmultiset nat).
    by rewrite (left_id_L ∅ (⊎)).
  - intros j c' resp. apply sent_alter; [done|]. intros c2 r. by left.
  - eapply given_alter; [|reflexivity]. done.
Qed.

(** There is room for a message in every topic. *)
Definition room b (payload : bytes) : Prop :=
  zlen payload < 2 ^ 32 ∧
  ∀ t, recs_len (api_log s0 t) + recs_len (data <$> of_topic t (published b)) + (4 + zlen payload) < 2 ^ 63.

Lemma submit_request_ok b client topic payload now (wait : bool) :
  broker_ok b → api_topic topic → room b payload → now ≠ 0 →
  let fut := next_write b in
  let req := mkWriteRequest client topic payload now (if wait then Some fut else None) in
  (∃ i cmd, given b i cmd ∧ origin cmd req) →
  ∃ b', submit_request client topic payload now wait b = (Ok fut, b') ∧ broker_ok b' ∧
    broker_later b b' ∧ req ∈ published b'.
Proof.
  intros Hb Ht [Hlen Hroom] Hnow fut req Horigin. pose proof Hb as [B1 B2 B3 B4 B5 B6 BO B7].
  eexists. split; [unfold submit_request; run; reflexivity|]. fold fut req.
  set (b' := mkBroker _ _ _ _ _ _ _).
  assert (broker_later b b') as Hlater.
  { split; cbn; [done|by eexists|done|done]. }
  split; [|split; [done|cbn; apply elem_of_app; right; left]].
  assert (∀ r f, r ∈ published b ++ [req] → callback r = Some f →
    (r ∈ published b ∧ (f < fut)%nat) ∨ (r = req ∧ wait = true ∧ f = fut)) as Hnew.
  { intros r f [Hr| ->%list_elem_of_singleton]%elem_of_app Hf; [left; by split; [|eapply B4]|right].
    cbn in Hf. by destruct wait; [injection Hf as <-|]. }
  split; cbn; try done.
  - by apply submit_ok.
  - pose proof B3 as [F1 F2 F3]. split.
    + intros r [Hr| ->%list_elem_of_singleton]%elem_of_app; [by apply F1|done].
    + intros t. rewrite of_topic_app, fmap_app, recs_len_app, of_topic_one. specialize (Hroom t).
      case_decide; cbn; lia.
    + apply Forall_app. split; [done|by repeat constructor].
  - intros r f Hr Hf. destruct (Hnew r f Hr Hf) as [[_ ?]|(_ & -> & ->)]; [destruct wait; lia|lia].
  - intros r r' f Hr Hr' Hf Hf'.
    destruct (Hnew r f Hr Hf) as [[Hin ?]|(-> & _ & ->)], (Hnew r' _ Hr' Hf') as [[Hin' ?]|(-> & _ & ?)];
      try lia; [by eapply B5|done].
  - intros i c resp Hi Hr. eapply acked_later; [exact Hlater|]. by eapply B6.
  - intros r [Hr| ->%list_elem_of_singleton]%elem_of_app; [by apply BO|done].
Qed.

(** What the writer answers a future with is where the message of its request is. *)
Lemma answered b r f x :
  broker_ok b → r ∈ published b → callback r = Some f → futures (writer b) !! f = Some x →
  ∃ o, x = Result o ∧ stored b (wr_topic r) (data r) o.
Proof.
  intros Hb Hr Hf Hx. destruct (wo_futures _ _ _ _ _ (bo_writer _ Hb) f x Hx) as (o & -> & r' & Hr' & Hf' & Hs).
  pose proof (bo_unique _ Hb _ _ _ Hr Hr' Hf Hf') as <-. exists o. split; [done|]. by exists r.
Qed.
End facts.
