(* ===== verification/BrokerAccounts.v ===== *)
(** * The requests of a broker, accounted for

    Which command of which connection each request of the writer was made for, whatever
    the interleaving: every request for one command, no command twice, the commands of a
    connection in their order, and every publish that has no request was refused. *)
From Stdlib Require Import String Sorting.Sorted.
From stdpp Require Import sorting fin_maps.
From S2P Require Import Prelude Coroutine PyData Messages Framer Encoder Parser Segment Log LogApi Leader Replicas Writer Broker.

Lemma filter_length_le {A} (P Q : A → Prop) `{!∀ x, Decision (P x), !∀ x, Decision (Q x)} (l : list A) :
  (∀ x, P x → Q x) → (length (filter P l) ≤ length (filter Q l))%nat.
Proof.
  intros HPQ. induction l as [|x l IH]; [done|]. rewrite !filter_cons.
  repeat case_decide; cbn; try lia. exfalso. auto.
Qed.

Lemma sorted_snoc (l : list nat) n :
  StronglySorted lt l → Forall (λ k, k < n)%nat l → StronglySorted lt (l ++ [n]).
Proof.
  intros Hs Hn. induction Hs as [|k l Hs IH Hk]; cbn; [by repeat constructor|].
  apply Forall_cons in Hn as [? Hn]. constructor; [by apply IH|]. apply Forall_app. by repeat constructor.
Qed.

(** ** What is accounted for *)

(** A publish of a client that has an identifier. *)
Definition publishes (x : option (list Z) * Command) : bool :=
  match x with (Some _, PublishCommand _ _ _ _) => true | _ => false end.

(** The request that a command is to make, for the client that gave it. *)
Definition made_for (x : option (list Z) * Command) (r : WriteRequest) : Prop :=
  match x with
  | (Some id, PublishCommand t payload acks _) =>
      producer_id r = id ∧ wr_topic r = t ∧ data r = payload ∧ (callback r = None ↔ acks = 0)
  | (Some id, CommitOffsetCommand t offset acks) =>
      producer_id r = id ∧ wr_topic r = t ∧ (∃ time, commit_payload time id t offset = Ok (data r)) ∧
      (callback r = None ↔ acks = 0)
  | _ => False
  end.

Definition refusal : Packet Response := packet (ErrorResponse 400 (py "Topic not found or not leader")).
Definition refusals (c : Connection) : nat := length (filter (λ resp, resp = refusal) (sent c)).

(** The publishes of connection [i] that have no request: [taken] are the commands that
    have one, each a connection and a position among its commands. *)
Definition missed (taken : list (nat * nat)) (i : nat) (h : list (option (list Z) * Command)) :
    list (nat * (option (list Z) * Command)) :=
  filter (λ q, publishes q.2 = true ∧ (i, q.1) ∉ taken) (imap pair h).

Record accounts (m : gmap nat Connection) (requests : list WriteRequest) (taken : list (nat * nat)) : Prop := {
  ac_once : NoDup taken;
  ac_made : Forall2 (λ p r, ∃ c x, m !! p.1 = Some c ∧ handled c !! p.2 = Some x ∧ made_for x r) taken requests;
  ac_order i : StronglySorted lt (snd <$> filter (λ p, p.1 = i) taken);
  ac_rest i c : m !! i = Some c → (length (missed taken i (handled c)) ≤ refusals c)%nat }.

Lemma missed_snoc taken i h x :
  missed taken i (h ++ [x]) =
    missed taken i h ++ (if decide (publishes x = true ∧ (i, length h) ∉ taken) then [(length h, x)] else []).
Proof.
  unfold missed. rewrite imap_app, filter_app. f_equal. cbn [imap]. rewrite filter_cons, filter_nil.
  unfold compose. rewrite Nat.add_0_r. done.
Qed.

Lemma missed_more taken p i h : (length (missed (taken ++ [p]) i h) ≤ length (missed taken i h))%nat.
Proof. apply filter_length_le. intros q [? Hn]. split; [done|]. intros Hin. apply Hn, elem_of_app. by left. Qed.

(** A taken position is one of a command that was given. *)
Lemma taken_before m l taken i c k :
  accounts m l taken → m !! i = Some c → (i, k) ∈ taken → (k < length (handled c))%nat.
Proof.
  intros Ha Hc Hin. apply list_elem_of_lookup_1 in Hin as [n Hn].
  destruct (Forall2_lookup_l _ _ _ _ _ (ac_made _ _ _ Ha) Hn) as (r & _ & c' & x & Hc' & Hx & _).
  cbn in *. assert (c' = c) as -> by congruence. by eapply lookup_lt_Some.
Qed.

Lemma made_alter m l taken f i :
  (∀ c, handled c `prefix_of` handled (f c)) → accounts m l taken →
  Forall2 (λ p r, ∃ c x, alter f i m !! p.1 = Some c ∧ handled c !! p.2 = Some x ∧ made_for x r) taken l.
Proof.
  intros Hf Ha. eapply Forall2_impl; [apply Ha|]. intros [j k] r (c & x & Hc & Hx & Hr). cbn in *.
  destruct (decide (i = j)) as [->|Hne].
  - exists (f c), x. rewrite lookup_alter_eq, Hc. split_and!; [done|by eapply prefix_lookup_Some|done].
  - exists c, x. by rewrite lookup_alter_ne.
Qed.

(** One connection changes. *)
Lemma accounts_alter m l taken f i :
  (∀ c, handled c `prefix_of` handled (f c)) →
  (∀ c, m !! i = Some c → (length (missed taken i (handled (f c))) ≤ refusals (f c))%nat) →
  accounts m l taken → accounts (alter f i m) l taken.
Proof.
  intros Hp Hf Ha. split; [apply Ha|by apply made_alter|apply Ha|].
  intros j c. rewrite lookup_alter. case_decide as E; [subst j|by apply Ha].
  destruct (m !! i) as [c0|] eqn:Hc; [|done]. intros [= <-]. by apply Hf.
Qed.

Lemma accounts_kept m l taken f i :
  (∀ c, handled (f c) = handled c ∧ (refusals c ≤ refusals (f c))%nat) →
  accounts m l taken → accounts (alter f i m) l taken.
Proof.
  intros Hf Ha. apply accounts_alter; [|intros c Hc|done]; intros; destruct (Hf c) as [-> Hle]; [done|].
  pose proof (ac_rest _ _ _ Ha i c Hc). lia.
Qed.

Lemma accounts_new m l taken i :
  m !! i = None → accounts m l taken → accounts (<[i := new_connection]> m) l taken.
Proof.
  intros Hi Ha. split; [apply Ha| |apply Ha|].
  - eapply Forall2_impl; [apply Ha|]. intros [j k] r (c & x & Hc & Hx & Hr). cbn in *.
    exists c, x. rewrite lookup_insert_ne by congruence. done.
  - intros j c [[<- <-]|[_ Hc]]%lookup_insert_Some; [done|by apply Ha].
Qed.

(** ** A command is given *)

Lemma given_other m l taken i client cmd :
  publishes (client, cmd) = false → accounts m l taken → accounts (alter (add_input client cmd) i m) l taken.
Proof.
  intros Hp Ha. apply accounts_alter; [intros c; by eexists| |done].
  intros c Hc. cbn [handled add_input]. rewrite missed_snoc, decide_False by (rewrite Hp; naive_solver).
  rewrite app_nil_r. change (refusals (add_input client cmd c)) with (refusals c). by apply Ha.
Qed.

(** The publish is refused. *)
Lemma given_refused m l taken i client cmd :
  accounts m l taken → accounts (alter (write_response refusal) i (alter (add_input client cmd) i m)) l taken.
Proof.
  intros Ha. rewrite alter_alter_eq. apply accounts_alter; [intros c; by eexists| |done].
  intros c Hc. cbn [handled add_input write_response compose]. rewrite missed_snoc, length_app.
  unfold refusals. cbn [sent write_response add_input]. rewrite filter_app, length_app.
  pose proof (ac_rest _ _ _ Ha i c Hc). unfold refusals in *.
  assert (length (filter (λ resp, resp = refusal) [refusal]) = 1%nat) as -> by done. case_decide; cbn; lia.
Qed.

(** It becomes a request. *)
Lemma given_taken m l taken i c client cmd r :
  m !! i = Some c → made_for (client, cmd) r → accounts m l taken →
  accounts (alter (add_input client cmd) i m) (l ++ [r]) (taken ++ [(i, length (handled c))]).
Proof.
  intros Hc Hr Ha. set (n := length (handled c)).
  assert ((i, n) ∉ taken) as Hn by (intros Hin; pose proof (taken_before _ _ _ _ _ _ Ha Hc Hin); lia).
  split.
  - apply NoDup_app. split_and!; [apply Ha| |apply NoDup_singleton].
    intros p Hp ->%list_elem_of_singleton. done.
  - apply Forall2_app; [apply made_alter; [intros c'; by eexists|done]|]. repeat constructor. cbn.
    exists (add_input client cmd c), (client, cmd). rewrite lookup_alter_eq, Hc. split_and!; [done| |done].
    apply list_lookup_middle. done.
  - intros j. rewrite filter_app, fmap_app, filter_cons. cbn [fst]. case_decide as E; cbn.
    + subst j. apply sorted_snoc; [apply Ha|]. apply Forall_fmap, Forall_forall.
      intros [j k] [Hj Hin]%list_elem_of_filter. cbn in Hj. subst j. by eapply taken_before.
    + rewrite app_nil_r. apply Ha.
  - intros j c'. rewrite lookup_alter. case_decide as E; [subst j|].
    + rewrite Hc. intros [= <-]. cbn [handled add_input]. rewrite missed_snoc, decide_False, app_nil_r.
      * pose proof (missed_more taken (i, n) i (handled c)). pose proof (ac_rest _ _ _ Ha i c Hc).
        unfold refusals in *. cbn. lia.
      * intros [_ Hx]. apply Hx, elem_of_app. right. left.
    + intros Hc'. pose proof (missed_more taken (i, n) j (handled c')). pose proof (ac_rest _ _ _ Ha j c' Hc'). lia.
Qed.

(** ** The handlers *)

Section handlers.
Context {S : Type} `{LogApi S}.
Implicit Types b : Broker S.

Definition accounted b : Prop := ∃ taken, accounts (connections b) (published b) taken.
Definition keeps b b' : Prop := accounted b → accounted b'.
Abbreviation anything := (λ _ _ : Broker S, True).

#[export] Instance keeps_preorder : PreOrder keeps.
Proof. unfold keeps. split; [by intros b|]. intros a b c. auto. Qed.
#[export] Instance anything_preorder : PreOrder anything.
Proof. by split. Qed.

Abbreviation wpa := (wp accounted anything anything).
Abbreviation parts := (every_part keeps).

Lemma parts_wp {A} (c : Co (Broker S) A) b0 b Q :
  parts c → accounted b → (∀ b1 a b', accounted b' → Q b1 a b') → wpa b0 c b Q.
Proof.
  intros Hc Hb HQ. apply (wp_mono _ _ _ _ _ _ (λ b1 _ b', accounted b' ∧ anything b1 b')); [naive_solver|].
  apply (every_part_wp keeps); [apply _| |done..]. intros s s' Hs HR. split; [by apply HR|done].
Qed.

Lemma same_keeps b b' : connections b' = connections b → published b' = published b → keeps b b'.
Proof. unfold keeps, accounted. by intros -> ->. Qed.

Lemma on_replication_keeps {A} (m : M (Replication S) A) : stays keeps (on_replication m).
Proof. intros b. unfold on_replication, zoom. destruct (m _). by apply same_keeps. Qed.
Lemma replication_parts {A} (c : Co (Replication S) A) : parts (co_zoom replication set_replication c).
Proof.
  apply (every_zoom _ _ (λ _ _, True)); [intros b x _; by apply same_keeps|].
  induction c as [r|X m k IH|ready k IH]; cbn; auto.
Qed.
Lemma heartbeat_keeps id now : stays keeps (heartbeat (S := S) id now).
Proof. intros b. by apply same_keeps. Qed.
Lemma update_keeps i f :
  (∀ c, handled (f c) = handled c ∧ (refusals c ≤ refusals (f c))%nat) → stays keeps (update_connection (S := S) i f).
Proof. intros Hf b [taken Ha]. exists taken. by apply accounts_kept. Qed.
Lemma write_response_keeps resp c : handled (write_response resp c) = handled c ∧ (refusals c ≤ refusals (write_response resp c))%nat.
Proof. split; [done|]. unfold refusals. cbn. rewrite filter_app, length_app. lia. Qed.
Lemma exit_read_keeps i b : keeps b (exit_read i b).
Proof.
  unfold exit_read. destruct (connections b !! i ≫= open_read) as [e|]; [|by intros ?].
  intros Hb. apply (update_keeps i (set_open None)); [by split|].
  exact (same_keeps _ _ eq_refl eq_refl Hb).
Qed.
#[local] Hint Resolve on_replication_keeps replication_parts heartbeat_keeps update_keeps write_response_keeps exit_read_keeps : kind.

Lemma send_packet_keeps i resp : parts (send_packet i resp).
Proof. unfold send_packet. kind. Qed.
Lemma send_keeps i resp : parts (send i resp).
Proof. apply send_packet_keeps. Qed.
#[local] Hint Resolve send_packet_keeps send_keeps : kind.
Lemma enter_read_keeps i topic offset size : stays keeps (enter_read i topic offset size).
Proof. unfold enter_read. kind. Qed.
#[local] Hint Resolve enter_read_keeps : kind.
Lemma push_message_parts i topic offset size : parts (_push_message i topic offset size).
Proof. unfold _push_message. kind. Qed.
#[local] Hint Resolve push_message_parts : kind.
Lemma pull_parts i topic offset size : parts (pull i topic offset size).
Proof. unfold pull. kind. Qed.
Lemma ask_parts o i cmd failure : parts (ask_controller o i cmd failure).
Proof. unfold ask_controller. kind. Qed.
#[local] Hint Resolve pull_parts ask_parts : kind.

(** The commands that may be written to the log. *)
Definition writing (client : option (list Z)) (cmd : Command) : bool :=
  match client, cmd with
  | Some _, (PublishCommand _ _ _ _ | CommitOffsetCommand _ _ _) => true
  | _, _ => false
  end.

Lemma execute_parts o i client cmd : writing client cmd = false → parts (execute o i client cmd).
Proof. intros Hw. destruct cmd; cbn [execute]; try (destruct client as [id|]; [try discriminate Hw|]); kind. Qed.

(** ** A write *)

Definition owed b (i : nat) (client : option (list Z)) (cmd : Command) : Prop :=
  ∃ m taken, accounts m (published b) taken ∧ is_Some (m !! i) ∧ connections b = alter (add_input client cmd) i m.

Lemma owed_other b i client cmd : publishes (client, cmd) = false → owed b i client cmd → accounted b.
Proof. intros Hp (m & taken & Ha & _ & E). exists taken. rewrite E. by apply given_other. Qed.

Lemma submit_accounted b i client cmd id topic payload now (wait : bool) :
  owed b i client cmd →
  (∀ r, producer_id r = id → wr_topic r = topic → data r = payload → (callback r = None ↔ wait = false) →
     made_for (client, cmd) r) →
  accounted (submit_request id topic payload now wait b).2.
Proof.
  intros (m & taken & Ha & [c Hc] & E) Hr. exists (taken ++ [(i, length (handled c))]).
  unfold submit_request. run. cbn. rewrite E. apply given_taken; [done| |done]. apply Hr; try done. by destruct wait.
Qed.

Lemma handle_write_accounted i client cmd id topic payload acks now b0 b (Q : Broker S → result (option Z) → Broker S → Prop) :
  owed b i client cmd →
  (∀ r, producer_id r = id → wr_topic r = topic → data r = payload → (callback r = None ↔ acks = 0) →
     made_for (client, cmd) r) →
  (∀ b1 b', owed b' i client cmd → Q b1 (Raise ValueError) b') →
  (∀ b1 a b', accounted b' → Q b1 a b') →
  wpa b0 (_handle_write id topic payload acks now) b Q.
Proof.
  intros Ho Hr Herr HQ. unfold _handle_write. apply wp_bind, wp_catch. rewrite wp_atomic.
  assert (owed (on_replication (get_leader topic) b).2 i client cmd) as Ho1.
  { unfold on_replication, zoom. destruct (get_leader topic _). exact Ho. }
  destruct (on_replication (get_leader topic) b) as [[leader|e] b1]; cbn [fst snd] in *; [|by apply Herr].
  apply wp_bind. rewrite wp_atomic.
  assert (accounted (submit_request id topic payload now (negb (acks =? 0)) b1).2) as Hb2.
  { eapply submit_accounted; [exact Ho1|]. intros r ? ? ? Hcb. apply Hr; try done. rewrite Hcb.
    destruct (acks =? 0) eqn:E; cbn; split; intros; try done; lia. }
  destruct (submit_request _ _ _ _ _ b1) as [[fut|e] b2]; cbn [fst snd] in *; [|by apply HQ].
  apply parts_wp; [|done|done]. unfold await_write. kind.
Qed.

Lemma refuse_accounted i client cmd b0 b (Q : Broker S → result unit → Broker S → Prop) :
  owed b i client cmd → (∀ b1 a b', accounted b' → Q b1 a b') →
  wpa b0 (send i (ErrorResponse 400 (py "Topic not found or not leader"))) b Q.
Proof.
  intros (m & taken & Ha & _ & E) HQ. unfold send, send_packet. apply wp_bind. rewrite wp_atomic. fold refusal.
  destruct (encode_response refusal) as [f|e] eqn:Ee; [|vm_compute in Ee; discriminate Ee]. clear Ee. run. cbn [fst snd].
  assert (accounted (update_connection i (write_response refusal) b).2) as Hb'.
  { exists taken. cbn. rewrite E. by apply given_refused. }
  apply wp_pause. split_and!; [done|done|]. intros b' Hb _. by apply HQ.
Qed.

Lemma publish_accounted o i id topic payload acks checks b0 b :
  owed b i (Some id) (PublishCommand topic payload acks checks) →
  wpa b0 (execute o i (Some id) (PublishCommand topic payload acks checks)) b (λ _ _ b', accounted b').
Proof.
  intros Ho. cbn [execute]. apply wp_bind, wp_catch, wp_bind.
  eapply (handle_write_accounted i _ _ id); [exact Ho|by intros r ? ? ? ?; split_and!| |].
  - intros b1 b' Ho'. cbn [is_ValueError]. rewrite wp_ret. apply wp_bind.
    eapply refuse_accounted; [exact Ho'|].
    intros b2 a b3 Hb3. destruct a; [by rewrite wp_ret|done].
  - intros b1 a b' Hb'.
    assert (∀ (c : Co (Broker S) unit), parts c → wpa b1 (c;; mret (Some (Some id))) b' (λ _ _ b', accounted b')) as Hend.
    { intros c Hc. apply parts_wp; [|done|done]. apply every_bind; [done|]. kind. }
    destruct a as [offset|e].
    + rewrite wp_ret. apply Hend. kind.
    + destruct (is_ValueError e); [|done]. rewrite wp_ret. apply Hend. kind.
Qed.

Lemma commit_accounted o i id topic offset acks b0 b :
  owed b i (Some id) (CommitOffsetCommand topic offset acks) →
  wpa b0 (execute o i (Some id) (CommitOffsetCommand topic offset acks)) b (λ _ _ b', accounted b').
Proof.
  intros Ho. cbn [execute]. apply wp_bind. rewrite wp_atomic. run. cbn [fst snd].
  destruct (commit_payload _ _ _ _) as [payload|e] eqn:E; [|by apply (owed_other _ i (Some id) (CommitOffsetCommand topic offset acks))].
  apply wp_bind. eapply (handle_write_accounted i _ _ id); [exact Ho| | |].
  - intros r ? ? Hd ?. split; [done|split; [done|split; [|done]]]. exists (time_text o). by rewrite Hd.
  - intros b1 b' Ho'. by apply (owed_other _ i (Some id) (CommitOffsetCommand topic offset acks)).
  - intros b1 [a|e] b' Hb'; [|done]. apply parts_wp; [|done|done]. kind.
Qed.

Lemma execute_accounted o i client cmd b0 b :
  owed b i client cmd → wpa b0 (execute o i client cmd) b (λ _ _ b', accounted b').
Proof.
  intros Ho. destruct (writing client cmd) eqn:Hw.
  - destruct client as [id|]; [|done]. destruct cmd; try discriminate Hw; [by apply publish_accounted|by apply commit_accounted].
  - apply parts_wp; [by apply execute_parts| |done]. apply (owed_other b i client cmd); [|done].
    destruct client, cmd; done.
Qed.

(** ** A round *)

Lemma serve_accounted o i client input b0 b :
  accounted b → is_Some (connections b !! i) → wpa b0 (serve o i client input) b (λ _ _ b', accounted b').
Proof.
  intros Hb Hi. destruct input as [frame|at_eof| | |]; cbn [serve].
  2-5: apply parts_wp; [kind|done..].
  apply wp_bind. rewrite wp_atomic. run. cbn [fst snd].
  destruct (parse_command _ _) as [command|e]; [|apply parts_wp; [destruct e; kind|done..]].
  apply wp_bind. rewrite wp_atomic.
  change (update_connection i (add_input client (body command)) b).1 with (Ok tt : result unit). cbv iota.
  apply execute_accounted. destruct Hb as [taken Ha]. by exists (connections b), taken.
Qed.

Lemma handle_round_accounted o i input b0 b :
  accounted b → wpa b0 (handle_round o i input) b (λ _ _ b', accounted b').
Proof.
  intros Hb. unfold handle_round. apply wp_bind. rewrite wp_atomic. run. cbn [fst snd].
  destruct (connections b !! i) as [c|] eqn:Hc; cbn [or_raise]; [|done].
  apply wp_bind. rewrite wp_atomic.
  change (update_connection i (set_status Serving) b).1 with (Ok tt : result unit). cbv iota.
  apply wp_bind, wp_catch. eapply wp_mono; [|apply serve_accounted].
  - intros b1 [[client'|]|e] b2 Hb2.
    + rewrite wp_atomic. apply (update_keeps i (next_round client')); [by intros c'|done].
    + rewrite wp_atomic. apply (update_keeps i (set_status Closed)); [by intros c'|done].
    + apply wp_bind. rewrite wp_atomic. apply (update_keeps i (set_status Crashed)); [by intros c'|done].
  - apply (update_keeps i (set_status Serving)); [by intros c'|done].
  - cbn. rewrite lookup_alter_eq, Hc. by eexists.
Qed.
End handlers.
