(* ===== verification/BrokerSteps.v ===== *)
(** * The broker, one handler at a time

    Every coroutine of a connection keeps the invariant of the broker, whatever the
    other connections, the writer and the replica manager do while it waits. *)
From Stdlib Require Import String.
From S2P Require Import Prelude Coroutine PyData PyDict Messages Framer Encoder Parser RecordFacts Segment SegmentMemory Log LogRead LogApi Leader LeaderTheorems Fetcher Replicas ReplicasFacts ReplicasTheorems Writer WriterFacts Broker BrokerFacts.

Section steps.
Context {S : Type} `{LogAppendLaws S} (wc : WriterConfig) (s0 : S).
Implicit Types (b : Broker S).

Abbreviation broker_ok := (broker_ok wc s0).

(** What is known when a call returns. *)
Abbreviation wp_to b0 c b Q :=
  (broker_ok b → broker_later b0 b →
   (∀ b1 a b', broker_ok b' → broker_later b1 b' → broker_later b b' → Q b1 a b') →
   wp broker_ok broker_later broker_later b0 c b Q)
  (only parsing).

Lemma later_step b b' b'' : broker_later b b' → broker_later b' b'' → broker_later b b''.
Proof. apply transitivity. Qed.
Lemma later_here b : broker_later b b.
Proof. reflexivity. Qed.

Ltac chain := solve [eauto 6 using later_step, later_here].
Ltac fin := first [done|chain].

(** One atomic part. *)
Lemma atomic_ok {A} (m : M (Broker S) A) b0 b Q :
  (broker_ok b → broker_ok (m b).2 ∧ broker_later b (m b).2) → wp_to b0 (atomic m) b Q.
Proof.
  intros Hm Hb Hl HQ. rewrite wp_atomic. destruct (Hm Hb) as [? ?]. apply HQ; fin.
Qed.

Lemma replication_atomic {A} (m : M (Replication S) A) b0 b Q :
  (∀ x, manager_ok x → manager_ok (m x).2 ∧ own x (m x).2) →
  wp_to b0 (atomic (on_replication m)) b Q.
Proof.
  intros Hm. apply atomic_ok. intros Hb. destruct (on_replication m b) as [a b'] eqn:E.
  eapply on_replication_ok; [done| |exact E]. intros a' x Ex. specialize (Hm _ (bo_manager _ _ _ Hb)).
  by rewrite Ex in Hm.
Qed.

(** Reading the state. *)
Lemma get_leader_read t b :
  broker_ok b → ∃ a, on_replication (get_leader t) b = (a, b) ∧
    ∀ r, a = Ok r → api_topic t.
Proof.
  intros Hb. unfold on_replication, zoom, get_leader. run. rewrite find_topic_run.
  destruct b as [x w ce hb cs n p]. cbn [replication] in *.
  destruct (dict_get _ t) as [r|] eqn:Hr; run; [|by eexists].
  unfold deref. run. pose proof (mo_names _ (bo_manager _ _ _ Hb) t r Hr).
  destruct (objects _ !! r) as [st|]; cbn [or_raise]; run; [|by eexists].
  destruct (ts_role st); run; [|by eexists]. destruct (ts_leader st); by eexists.
Qed.

Lemma send_packet_wp i resp b0 b Q : acked b i resp → wp_to b0 (send_packet i resp) b Q.
Proof.
  intros Ha Hb Hl HQ. unfold send_packet. apply wp_bind. rewrite wp_atomic. run.
  destruct (encode_response resp) as [frame|e]; run; [|apply HQ; fin]. cbn [fst snd].
  destruct (update_connection_ok wc s0 b i (write_response resp) Hb) as [Hb' Hl']; [done| |].
  { intros c r. cbn. rewrite elem_of_app, list_elem_of_singleton. intros [?| ->]; auto. }
  apply wp_pause. split_and!; [done|chain|]. intros b' ? ?. apply HQ; fin.
Qed.

Lemma send_wp i resp b0 b Q :
  acked b i (packet resp) → wp_to b0 (send i resp) b Q.
Proof. apply send_packet_wp. Qed.

(** ** Publishing *)

(** A coroutine of the replica manager. *)
Lemma replication_wp {A} (c : Co (Replication S) A) b Q :
  wp manager_ok own later (replication b) c (replication b) (λ x r y, manager_ok y ∧ own x y) →
  broker_ok b →
  (∀ b1 a b', broker_ok b' → broker_later b1 b' → broker_later b b' → Q b1 a b') →
  wp broker_ok broker_later broker_later b (co_zoom replication set_replication c) b Q.
Proof.
  intros Hc Hb HQ.
  apply (wp_mono _ _ _ _ _ _ (λ b1 r b', broker_later b b1 ∧ ∃ x, b' = set_replication x b1 ∧
    broker_ok b1 ∧ manager_ok x ∧ own (replication b1) x)).
  - intros b1 a ? (Hl & x & -> & Hb1 & Hx & Ho). destruct (replication_ok wc s0 b1 x Hb1 Hx Ho).
    apply HQ; fin.
  - apply wp_track; [apply _|done|done|]. replace b with (set_replication (replication b) b) at 2 by by destruct b.
    apply (wp_zoom replication set_replication) with (I := manager_ok) (G := own) (R := later)
      (Q := λ x _ y, manager_ok y ∧ own x y); try done.
    + by intros [].
    + intros t Ht. apply Ht.
    + intros t t' Ht. apply Ht.
    + intros t x Ht Hx Ho. by apply replication_ok.
Qed.

Lemma submit_spec b client topic payload now (wait : bool) fut b' :
  broker_ok b → api_topic topic → room s0 b payload → now ≠ 0 →
  (∃ i cmd, given b i cmd ∧ ∀ r, wr_topic r = topic → data r = payload → origin cmd r) →
  submit_request client topic payload now wait b = (fut, b') →
  broker_ok b' ∧ broker_later b b' ∧
  fut = Ok (next_write b) ∧ mkWriteRequest client topic payload now (if wait then Some (next_write b) else None) ∈ published b'.
Proof.
  intros Hb Ht Hr Hn (i & cmd & ? & Ho) E.
  destruct (submit_request_ok wc s0 b client topic payload now wait Hb Ht Hr Hn)
    as (b2 & E2 & ? & ? & ?); [by eauto|]. rewrite E2 in E. by injection E as <- <-.
Qed.

(** What a publisher is told. *)
Definition told topic payload (a : result (option Z)) b : Prop :=
  ∀ o, a = Ok (Some o) → stored b topic payload o.

Lemma handle_write_wp client topic payload acks now b0 b Q :
  room s0 b payload → now ≠ 0 →
  (∃ i cmd, given b i cmd ∧ ∀ r, wr_topic r = topic → data r = payload → origin cmd r) →
  broker_ok b → broker_later b0 b →
  (∀ b1 a b', broker_ok b' → broker_later b1 b' → broker_later b b' → told topic payload a b' → Q b1 a b') →
  wp broker_ok broker_later broker_later b0 (_handle_write client topic payload acks now) b Q.
Proof.
  intros Hr Hn Ho Hb Hl HQ. unfold _handle_write. apply wp_bind, wp_catch. rewrite wp_atomic.
  destruct (get_leader_read topic b Hb) as (a & E & Ht). rewrite E. cbn [fst snd].
  destruct a as [leader|e]; cbn [wp]; [|apply HQ; fin].
  specialize (Ht leader eq_refl). apply wp_bind. rewrite wp_atomic.
  destruct (submit_request _ _ _ _ _ b) as [fut b1] eqn:E1. cbn [fst snd].
  destruct (submit_spec _ _ _ _ _ _ _ _ Hb Ht Hr Hn Ho E1) as (Hb1 & Hl1 & -> & Hin).
  destruct (acks =? 0) eqn:Ea; [rewrite wp_ret; apply HQ; fin|]. cbn [negb] in Hin.
  apply wp_bind. unfold await_write. cbn [wp]. split_and!; [done|chain|].
  intros b2 Hb2 Hl2 [x Hx]%bool_decide_eq_true. rewrite wp_atomic. run. rewrite Hx.
  pose proof (elem_of_prefix _ _ _ Hin (bl_published _ _ Hl2)) as Hin2.
  destruct (answered wc s0 b2 _ _ x Hb2 Hin2 eq_refl Hx) as (o & -> & Hs). cbn [fst snd wr_topic data] in *.
  assert (∀ b3 b4, broker_ok b4 → broker_later b3 b4 → broker_later b2 b4 → Q b3 (Ok (Some o)) b4) as Hend.
  { intros b3 b4 ? ? ?. apply HQ; [done|done|chain|]. intros o' [= <-]. by eapply stored_later. }
  apply wp_bind. destruct (acks =? -1).
  - apply replication_wp; [|done|].
    + apply wait_hw_wp; [apply Hb2|done|]. auto.
    + intros b3 [u|e] b4 ? ? ?; [rewrite wp_ret; by apply Hend|]. apply HQ; [done|done|chain|done].
  - rewrite wp_ret. rewrite wp_ret. apply Hend; fin.
Qed.

(** ** Reading *)

Lemma push_message_wp i topic offset size b0 b Q : wp_to b0 (_push_message i topic offset size) b Q.
Proof.
  intros Hb Hl HQ. unfold _push_message. destruct (size <=? 1024).
  - apply wp_bind. apply replication_atomic; [|done|done|].
    + intros x Hx. unfold Replicas.on_log. run. destruct (api_read_bytes _ _ _ _) as [a s] eqn:E. cbn.
      apply same_own; [done|]. by eapply api_read_bytes_same; [apply Hx|].
    + intros b1 [res|e] b2 Hb2 ? ?; [|apply HQ; fin]. apply send_wp; [done..|].
      intros b3 a b4 ? ? ?. apply HQ; fin.
  - apply wp_bind. apply atomic_ok; [|done|done|].
    + intros _. destruct (enter_read i topic offset size b) as [a b'] eqn:E. by eapply enter_read_ok.
    + intros b1 [res|e] b2 Hb2 ? ?; [|apply HQ; fin]. apply wp_finally. apply send_wp; [done..|].
      intros b3 a b4 Hb4 ? ?. destruct (exit_read_ok wc s0 b4 i Hb4). apply HQ; fin.
Qed.

Lemma pull_wp i topic offset size b0 b Q : wp_to b0 (pull i topic offset size) b Q.
Proof.
  intros Hb Hl HQ. unfold pull. apply wp_bind, wp_catch, wp_bind. rewrite wp_atomic.
  destruct (get_leader_read topic b Hb) as (a & E & _). rewrite E. cbn [fst snd].
  destruct a as [leader|e]; rewrite wp_ret; [|by apply send_wp].
  apply wp_bind. apply replication_atomic; [|done|done|].
  { intros x Hx. destruct (on_leader_of _ _ _ x) as [a y] eqn:Ex. cbn.
    by eapply on_leader_of_ok; [|exact leader_hw_call|]. }
  intros b1 [hw|e] b2 Hb2 ? ?; [|apply HQ; fin].
  assert (∀ b3 a b4, broker_ok b4 → broker_later b3 b4 → broker_later b2 b4 → Q b3 a b4) as Hend.
  { intros. apply HQ; fin. }
  destruct (offset >? hw).
  - apply wp_bind. rewrite wp_atomic. run. destruct (py_str hw); cbn [fst snd]; [|apply Hend; fin].
    by apply send_wp.
  - destruct (offset =? hw); [by apply send_wp|by apply push_message_wp].
Qed.

(** ** A round *)

(** The controller answers with what a controller answers with. *)
Definition plain (resp : Packet Response) : Prop :=
  match body resp with PubAckResponse _ _ _ => False | _ => True end.
Definition answers_ok (o : Outside) : Prop := ∀ cmd resp, ask o cmd = Ok (Some resp) → plain resp.

Lemma plain_acked b i resp : plain resp → acked b i resp.
Proof. unfold plain, acked. by destruct (body resp). Qed.

Lemma ask_controller_wp o i cmd failure b0 b Q : answers_ok o → wp_to b0 (ask_controller o i cmd failure) b Q.
Proof.
  intros Ho Hb Hl HQ. unfold ask_controller. destruct (controller o); [|by apply send_wp].
  apply wp_bind, wp_pause. split_and!; [done..|]. intros b1 Hb1 ?.
  apply wp_bind. rewrite wp_atomic. run. destruct (ask o cmd) as [resp|e] eqn:E; cbn [fst snd]; [|apply HQ; fin].
  apply send_packet_wp; [|done|chain|intros; apply HQ; fin].
  apply plain_acked. destruct resp as [resp|]; [by eapply Ho|done].
Qed.

(** The message that a command may write. *)
Definition writes (o : Outside) (client : option (list Z)) (cmd : Command) (payload : bytes) : Prop :=
  match cmd, client with
  | PublishCommand _ p _ _, _ => payload = p
  | CommitOffsetCommand topic offset _, Some id => commit_payload (time_text o) id topic offset = Ok payload
  | _, _ => False
  end.

Lemma leader_plain now cmd (l : ReplicaLeader) (s : S) resp y :
  Leader.handle now cmd (l, s) = (Ok resp, y) → plain (packet resp).
Proof.
  destruct cmd as [| | | | | | | | |tp off size rid| | | | | |]; cbn [Leader.handle]; try done.
  run. destruct (negb _); [done|]. run. destruct (get_log_end_offset _) as [[o|e] x1]; run; [|done].
  destruct (get_high_watermark _) as [[hw|e] x2]; run; [|done].
  unfold Leader.on_leader, Leader.on_log. destruct (off =? o); run; destruct (size <=? 1024); run.
  all: match goal with |- context [api_read_bytes ?a ?b ?c ?d] => destruct (api_read_bytes a b c d) as [[?|?] ?]
       | |- context [api_read ?a ?b ?c ?d] => destruct (api_read a b c d) as [[?|?] ?] end; run; try done.
  all: by intros [= <- _].
Qed.

Lemma on_leader_of_result {A} r (m : M (ReplicaLeader * S) A) x a y :
  on_leader_of r A m x = (Ok a, y) → ∃ l s z, m (l, s) = (Ok a, z).
Proof.
  unfold on_leader_of. run. destruct (deref r x) as [[st|e] x1]; run; [|done].
  destruct (or_raise _ _) as [l|e]; run; [|done].
  destruct (m (l, log x1)) as [b [l' s']] eqn:E. unfold assign, on_manager, Replicas.on_log. run.
  intros [= -> _]. eauto.
Qed.

Lemma replica_plain now cmd x resp y :
  Replicas.handle now cmd x = (Ok resp, y) → plain (packet resp).
Proof.
  unfold Replicas.handle. run. destruct (or_raise _ _) as [t|e]; run; [|done].
  rewrite find_topic_run. destruct (dict_get _ _) as [r|]; run; [|done].
  destruct (deref r x) as [[st|e] x1]; run; [|done]. destruct (ts_role st); [|done].
  intros (l & s & z & E)%on_leader_of_result. by eapply leader_plain.
Qed.

(** An input that the broker is given at [b]: the clock is not at zero, the log has
    room for what it may write and a controller answers as one. *)
Definition input_ok (o : Outside) b (client : option (list Z)) (cmd : Command) : Prop :=
  now o ≠ 0 ∧ answers_ok o ∧ ∀ payload, writes o client cmd payload → room s0 b payload.

Lemma replica_execute_wp o i client cmd t b0 b Q :
  replica_topic cmd = Some t → wp_to b0 (execute o i client cmd) b Q.
Proof.
  intros Hcmd Hb Hl HQ.
  assert (execute o i client cmd =
    (resp ← co_catch (resp ← atomic (on_replication (Replicas.handle (now o) cmd)); mret (Some resp))
                     (λ _, Some (mret None));
     match resp with
     | None => mret None
     | Some resp => send i resp;; mret (Some client)
     end)) as -> by by destruct cmd.
  apply wp_bind, wp_catch, wp_bind. rewrite wp_atomic.
  destruct (on_replication _ b) as [a b1] eqn:E. cbn [fst snd].
  assert (broker_ok b1 ∧ broker_later b b1) as [Hb1 Hl1].
  { eapply on_replication_ok; [done| |exact E]. intros ? ?. by apply handle_ok, Hb. }
  destruct a as [resp|e]; rewrite ?wp_ret; [|apply HQ; fin].
  apply wp_bind. apply send_wp; [|done|chain|].
  - apply plain_acked. unfold on_replication, zoom in E.
    destruct (Replicas.handle _ _ _) as [a y] eqn:Eh. injection E as -> _. by eapply replica_plain.
  - intros b2 [u|e] b3 ? ? ?; rewrite ?wp_ret; apply HQ; fin.
Qed.

Lemma publish_wp o i id topic payload acks timeout b0 b Q :
  input_ok o b (Some id) (PublishCommand topic payload acks timeout) →
  given b i (PublishCommand topic payload acks timeout) →
  wp_to b0 (execute o i (Some id) (PublishCommand topic payload acks timeout)) b Q.
Proof.
  intros (Hn & _ & Hr) Hg Hb Hl HQ. cbn [execute]. apply wp_bind, wp_catch, wp_bind.
  apply handle_write_wp; [by apply Hr|done|by eexists _, _|done..|].
  intros b1 a b2 Hb2 ? Hlater Htold.
  assert (∀ b3 (r : result unit) b4, broker_ok b4 → broker_later b3 b4 → broker_later b2 b4 →
    match r with Ok _ => wp broker_ok broker_later broker_later b3 (mret (Some (Some id))) b4 Q
            | Raise e => Q b3 (Raise e) b4 end) as Hend.
  { intros b3 [u|e] b4 ? ? ?; rewrite ?wp_ret; apply HQ; fin. }
  destruct a as [offset|e].
  - rewrite wp_ret. apply wp_bind. destruct offset as [off|].
    + destruct (acks =? 0); [rewrite wp_ret; apply (Hend _ (Ok tt)); fin|]. apply send_wp; [|done|done|done].
      exists payload, timeout. split; [by apply Hlater|by apply Htold].
    + rewrite wp_ret. apply (Hend _ (Ok tt)); fin.
  - destruct (is_ValueError e); [|apply HQ; fin]. rewrite wp_ret. apply wp_bind. by apply send_wp.
Qed.

Lemma commit_wp o i id topic offset acks b0 b Q :
  input_ok o b (Some id) (CommitOffsetCommand topic offset acks) →
  given b i (CommitOffsetCommand topic offset acks) →
  wp_to b0 (execute o i (Some id) (CommitOffsetCommand topic offset acks)) b Q.
Proof.
  intros (Hn & _ & Hr) Hg Hb Hl HQ. cbn [execute]. apply wp_bind. rewrite wp_atomic. run.
  destruct (commit_payload _ _ _ _) as [payload|e] eqn:E; cbn [fst snd]; [|apply HQ; fin].
  apply wp_bind. apply handle_write_wp; [by apply Hr|done|by eexists _, _|done..|].
  intros b1 [off|e] b2 Hb2 ? ? _; [|apply HQ; fin]. apply wp_bind.
  assert (∀ b3 (r : result unit) b4, broker_ok b4 → broker_later b3 b4 → broker_later b2 b4 →
    match r with Ok _ => wp broker_ok broker_later broker_later b3 (mret (Some (Some id))) b4 Q
            | Raise e => Q b3 (Raise e) b4 end) as Hend.
  { intros b3 [u|e] b4 ? ? ?; rewrite ?wp_ret; apply HQ; fin. }
  destruct (acks =? 0); [rewrite wp_ret; apply (Hend _ (Ok tt)); fin|]. by apply send_wp.
Qed.

(** A part whose result is dropped. *)
Lemma then_wp {A B} (c : Co (Broker S) A) (a : B) b0 b Q :
  (∀ Q, wp_to b0 c b Q) → wp_to b0 (c;; mret a) b Q.
Proof.
  intros Hc Hb Hl HQ. apply wp_bind. apply Hc; [done..|].
  intros b1 [u|e] b2 ? ? ?; rewrite ?wp_ret; apply HQ; fin.
Qed.

Lemma heartbeat_wp {A} id t (c : Co (Broker S) A) b0 b Q :
  (∀ b1 b2 Q, wp_to b1 c b2 Q) → wp_to b0 (atomic (heartbeat id t);; c) b Q.
Proof.
  intros Hc Hb Hl HQ. apply wp_bind. rewrite wp_atomic.
  destruct (heartbeat_ok wc s0 b id t Hb) as [Hb1 Hl1].
  change (heartbeat id t b).1 with (Ok tt : result unit). cbv iota.
  apply Hc; [done|chain|]. intros b2 a b3 ? ? ?. apply HQ; fin.
Qed.

Lemma ret_wp {A} (a : A) b0 b Q : wp_to b0 (mret a) b Q.
Proof. intros Hb Hl HQ. rewrite wp_ret. apply HQ; fin. Qed.

Lemma execute_wp o i client cmd b0 b Q :
  input_ok o b client cmd → given b i cmd → wp_to b0 (execute o i client cmd) b Q.
Proof.
  intros Hi Hg. pose proof Hi as (_ & Ha & _).
  destruct (replica_topic cmd) as [t|] eqn:Ht; [by apply (replica_execute_wp _ _ _ _ t)|].
  assert (∀ x : option (option (list Z)), wp_to b0 (mret x) b Q) as Hret by (intros x; apply ret_wp).
  assert (∀ resp (x : option (option (list Z))), plain (packet resp) →
    ∀ b0 b Q, wp_to b0 (send i resp;; mret x) b Q) as Hsend.
  { intros resp x Hp ???. apply then_wp. intros ?. by apply send_wp, plain_acked. }
  destruct cmd; try discriminate Ht.
  all: try (destruct client as [id|]; [exact (publish_wp _ _ _ _ _ _ _ _ _ _ Hi Hg)|]).
  all: try (destruct client as [id|]; [exact (commit_wp _ _ _ _ _ _ _ _ _ Hi Hg)|]).
  all: cbn [execute]; try (destruct client as [id|]; [|by apply Hret]).
  all: try (by apply Hsend); try (by apply Hret).
  - apply heartbeat_wp. intros b1 b2 Q'. by apply Hsend.
  - apply heartbeat_wp. intros b1 b2 Q'. apply ret_wp.
  - apply then_wp. intros ?. apply pull_wp.
  - apply heartbeat_wp. intros b1 b2 Q'. by apply Hsend.
  - apply then_wp. intros ?. by apply ask_controller_wp.
  - apply then_wp. intros ?. by apply ask_controller_wp.
Qed.

(** The command that an input carries. *)
Definition carries (checks : bool) (input : received) (cmd : Command) : Prop :=
  ∃ data p, input = Frame data ∧ parse_command data checks = Ok p ∧ body p = cmd.

Lemma serve_wp o i client input b0 b Q :
  is_Some (connections b !! i) →
  (∀ cmd, carries (checksum_enable b) input cmd → input_ok o b client cmd) →
  wp_to b0 (serve o i client input) b Q.
Proof.
  intros [c Hc] Hi.
  assert (∀ resp (x : option (option (list Z))), plain (packet resp) →
    ∀ b0 b Q, wp_to b0 (send i resp;; mret x) b Q) as Hsend.
  { intros resp x Hp ???. apply then_wp. intros ?. by apply send_wp, plain_acked. }
  destruct input as [frame|at_eof| | |]; cbn [serve]; try apply ret_wp; try by apply Hsend.
  - intros Hb Hl HQ. apply wp_bind. rewrite wp_atomic. run. cbn [fst snd].
    destruct (parse_command _ _) as [command|e] eqn:E.
    + set (b' := (update_connection i (add_input client (body command)) b).2).
      destruct (update_connection_ok wc s0 b i (add_input client (body command)) Hb) as [Hb' Hl'].
      { intros c'. split; [done|]. intros r Hr. rewrite inputs_add. apply elem_of_app. by left. }
      { intros c' r. by left. }
      apply wp_bind. rewrite wp_atomic.
      change (update_connection i (add_input client (body command)) b).1 with (Ok tt : result unit). cbv iota.
      destruct (Hi (body command)) as (? & ? & Hr); [by exists frame, command|].
      apply execute_wp; [by split_and!| |done|chain|intros; apply HQ; fin].
      exists (add_input client (body command) c). cbn. rewrite lookup_alter_eq, Hc. split; [done|].
      change (body command ∈ inputs (add_input client (body command) c)). rewrite inputs_add. apply elem_of_app. right. left.
    + destruct e; try (by apply Hsend); cbn [wp]; apply HQ; fin.
  - apply then_wp. intros ?. destruct at_eof; [apply ret_wp|by apply send_wp].
Qed.

Lemma status_ok b i f :
  broker_ok b → (∀ c, open_read (f c) = open_read c ∧ handled (f c) = handled c ∧ sent (f c) = sent c) →
  broker_ok (update_connection i f b).2 ∧ broker_later b (update_connection i f b).2.
Proof.
  intros Hb Hf. apply update_connection_ok; [done| |]; intros c.
  - destruct (Hf c) as (? & E & _). unfold inputs. by rewrite E.
  - intros resp. destruct (Hf c) as (_ & _ & ->). by left.
Qed.

Lemma handle_round_wp o i input b0 b Q :
  (∀ c cmd, connections b !! i = Some c → carries (checksum_enable b) input cmd →
     input_ok o b (client_id c) cmd) →
  wp_to b0 (handle_round o i input) b Q.
Proof.
  intros Hi Hb Hl HQ. unfold handle_round. apply wp_bind. rewrite wp_atomic. run. cbn [fst snd].
  destruct (connections b !! i) as [c|] eqn:Hc; cbn [or_raise]; [|apply HQ; fin].
  apply wp_bind. rewrite wp_atomic.
  destruct (status_ok b i (set_status Serving) Hb) as [Hb1 Hl1]; [done|].
  set (b1 := (update_connection i (set_status Serving) b).2) in *.
  change (update_connection i (set_status Serving) b).1 with (Ok tt : result unit). cbv iota.
  apply wp_bind, wp_catch. apply serve_wp; [| |done|chain|].
  { unfold b1. cbn. rewrite lookup_alter_eq, Hc. by eexists. }
  { intros cmd Hcmd. destruct (Hi c cmd eq_refl Hcmd) as (? & ? & Hr). by split_and!. }
  intros b2 a b3 Hb3 Hl3 Hl13.
  assert (∀ f r, (∀ c, open_read (f c) = open_read c ∧ handled (f c) = handled c ∧ sent (f c) = sent c) →
    Q b2 r (update_connection i f b3).2) as Hend.
  { intros f r Hf. destruct (status_ok b3 i f Hb3 Hf). apply HQ; fin. }
  destruct a as [[client|]|e].
  - rewrite wp_atomic. by apply Hend.
  - rewrite wp_atomic. by apply Hend.
  - apply wp_bind. rewrite wp_atomic. cbn [wp].
    change (update_connection i (set_status Crashed) b3).1 with (Ok tt : result unit). by apply Hend.
Qed.
End steps.
