(* ===== verification/BrokerTheorems.v ===== *)
(** * What the broker guarantees

    All connections, the collectors and threads of the writer, the leaders' loops and
    the metadata from the controller, in any order. *)
From Stdlib Require Import String.
From S2P Require Import Prelude Coroutine PyData PyDict Messages Framer Encoder Parser RecordFacts Segment SegmentMemory Log LogNames LogInv LogRead LogTheorems LogApi Leader LeaderTheorems Fetcher Replicas ReplicasFacts ReplicasTheorems Writer WriterFacts WriterTheorems Broker BrokerFacts BrokerAccounts BrokerSteps.

(** ** Responses that can be encoded *)

Lemma py_str_63 n : 0 ≤ n < 2 ^ 63 → ∃ s, py_str n = Ok s ∧ zlen s ≤ 19.
Proof.
  intros Hn. assert (Z.abs n < 10 ^ Z.of_nat 19) as Hk by (change (10 ^ Z.of_nat 19) with 10000000000000000000; lia).
  eexists. split; [apply (py_str_total n 19); [done|lia|by vm_compute]|].
  pose proof (digits_length n 19 Hk ltac:(lia)). replace (n <? 0) with false by lia.
  cbn [app]. rewrite length_map. lia.
Qed.

(** A topic that can be sent. *)
Definition name_ok (topic : pystr) : Prop := ∃ e, utf8_encode topic = Ok e ∧ zlen e < 2 ^ 31.

Lemma utf8_app s t a b : utf8_encode s = Ok a → utf8_encode t = Ok b → utf8_encode (s ++ t) = Ok (a ++ b).
Proof.
  revert a. induction s as [|c s IH]; intros a; cbn; [by intros [= <-]|].
  destruct (utf8_char c) as [x|]; [|done]. cbn. destruct (utf8_encode s) as [y|]; [|done]. cbn.
  intros [= <-] Ht. rewrite (IH y) by done. cbn. by rewrite <-app_assoc.
Qed.

Lemma batch_encodes topic resp n :
  name_ok topic → 0 ≤ n < 2 ^ 63 →
  (∃ payload, resp = MessageResponse topic payload ∧ zlen payload = n) ∨
  (∃ path off, resp = FileResponse topic path off n) →
  ∃ f, encode_response (packet resp) = Ok f.
Proof.
  intros (e & He & Hl) Hp Hresp. destruct (py_str_63 n) as (d & Hn & Hln); [lia|].
  assert (utf8_encode (words [py "MSG"; topic; d]) = Ok ((py "MSG" ++ [32]) ++ e ++ [32] ++ d)) as Hw.
  { change (words [py "MSG"; topic; d]) with ((py "MSG" ++ [32]) ++ topic ++ [32] ++ d).
    apply utf8_app; [by vm_compute|]. apply utf8_app; [done|]. apply utf8_app; [by vm_compute|].
    by apply utf8_encode_ascii, (py_str_ascii n). }
  destruct (encode_frame_total ((py "MSG" ++ [32]) ++ e ++ [32] ++ d)) as [f Hf].
  { rewrite !zlen_app. change (zlen (py "MSG")) with 3. cbn [length]. lia. }
  unfold encode_response.
  destruct Hresp as [(payload & -> & <-)|(path & off & ->)]; cbn [encode_packet_header packet header body encode_response_body];
    rewrite Hn; cbn [mbind result_bind]; rewrite Hw; cbn [mbind result_bind].
  all: cbn; change (32 :: d) with ([32] ++ d); rewrite Hf; cbn; by eexists.
Qed.

Lemma message_encodes topic payload :
  name_ok topic → zlen payload < 2 ^ 63 →
  ∃ f, encode_response (packet (MessageResponse topic payload)) = Ok f.
Proof. intros Ht Hp. apply (batch_encodes topic _ (zlen payload)); [done|lia|]. left. by exists payload. Qed.


Section theorems.
Context {S : Type} `{LogAppendLaws S}.
Context (open_connection : pystr → Z → result unit) (wc : WriterConfig) (s0 : S).
Implicit Types (b : Broker S).

(** ** Everything that happens on a broker *)

(** A packet for a connection that waits for one, and what the controller asks of the
    replica manager. *)
Inductive broker_task b : Co (Broker S) unit → Prop :=
| task_round o i input c :
    connections b !! i = Some c → conn_status c = Reading →
    (∀ cmd, carries (checksum_enable b) input cmd → input_ok s0 o b (client_id c) cmd) →
    broker_task b (handle_round o i input)
| task_replication c :
    task open_connection (replication b) c → broker_task b (co_zoom replication set_replication c).

(** New connections, the steps of the writer with its appends, the rounds of the
    leaders, and whatever else reads from the log or tidies its cache. *)
Inductive broker_event : Broker S → Broker S → Prop :=
| event_connect i b : connections b !! i = None →
    broker_event b (set_connections (<[i := new_connection]> (connections b)) b)
| event_writer w s b : internal (writer b, the_log b) (w, s) →
    broker_event b (set_writer w
      (set_replication (mkReplication (manager (replication b)) (waits (replication b)) s) b))
| event_leader now r a x b : leader_round now r (replication b) = (a, x) →
    broker_event b (set_replication x b)
| event_log s b : api_same (the_log b) s →
    broker_event b
      (set_replication (mkReplication (manager (replication b)) (waits (replication b)) s) b).

Definition broker_run := rtc (sched broker_task broker_event).

Lemma writer_event_ok b w s :
  broker_ok wc s0 b → internal (writer b, the_log b) (w, s) →
  let b' := set_writer w
    (set_replication (mkReplication (manager (replication b)) (waits (replication b)) s) b) in
  broker_ok wc s0 b' ∧ broker_later b b'.
Proof.
  intros [B1 B2 B3 B4 B5 B6 BO B7] Hi b'. pose proof B3 as [F1 F2 F3].
  pose proof (internal_ok _ _ _ _ _ _ _ F1 F2 Hi B2) as Hw.
  destruct (internal_grows _ _ _ _ _ _ _ F1 F2 Hi B2) as (Hg & He & Hk & Hf).
  assert (extends (the_log b) s) as Hext.
  { split; [|done]. intros t. destruct (Hg t) as [more ->]. by eexists. }
  destruct (log_grows _ s B1 (wo_log _ _ _ _ _ Hw) Hext) as [Hm Hl].
  assert (broker_later b b') as Hlater by (split; [exact Hl|done|exact Hf|done]).
  split; [|done]. split; try done.
  - intros i c resp Hc Hr. eapply acked_later; [exact Hlater|]. by eapply B6.
  - by apply Hk.
Qed.

Lemma broker_event_ok b b' :
  broker_ok wc s0 b → broker_event b b' → broker_ok wc s0 b' ∧ broker_later b b'.
Proof.
  intros Hb Hev. destruct Hev as [i b Hi|w s b Hi|now r a x b E|s b Hs].
  - assert (∀ j cmd, given b j cmd →
      given (set_connections (<[i := new_connection]> (connections b)) b) j cmd) as Hg.
    { intros j cmd (c & Hc & Hin). exists c. split; [|done]. cbn. rewrite lookup_insert_ne; [done|congruence]. }
    apply connections_ok; try done; cbn.
    + intros j c resp [[<- <-]|[_ Hc]]%lookup_insert_Some Hr; [by apply elem_of_nil in Hr|].
      by eapply (bo_acks _ _ _ Hb).
    + rewrite (held_lookup _ i new_connection) by apply lookup_insert_eq.
      rewrite delete_insert_id by done. change (handle_of new_connection) with (∅ : gmultiset.gmultiset nat).
      rewrite (left_id_L ∅ _). apply Hb.
  - by apply writer_event_ok.
  - destruct (leader_round_ok _ _ _ _ _ (bo_manager _ _ _ Hb) E). by apply replication_ok.
  - destruct (same_own _ _ (bo_manager _ _ _ Hb) Hs). by apply replication_ok.
Qed.

Lemma broker_task_ok b c :
  broker_ok wc s0 b → broker_task b c →
  wp (broker_ok wc s0) broker_later broker_later b c b (λ b0 _ b, broker_ok wc s0 b ∧ broker_later b0 b).
Proof.
  intros Hb [o i input c' Hc Hs Hi|c' Hc].
  - apply handle_round_wp; [|done|done|done]. intros c2 cmd E. replace c2 with c' by congruence. apply Hi.
  - apply replication_wp; [|done|done]. apply (task_ok open_connection); [apply Hb|done].
Qed.

(** The log that a broker starts with. *)
Definition start_ok : Prop := api_ok s0 ∧ ∀ t, recs_len (api_log s0 t) < 2 ^ 63.

Lemma new_broker_ok rc ce : start_ok → broker_ok wc s0 (new_broker rc wc ce s0).
Proof.
  intros [Hs Hb]. split; try done.
  - by apply new_replication_ok.
  - by apply new_writer_ok.
  - split; [by intros r ?%elem_of_nil| |constructor]. intros t. specialize (Hb t).
    assert (recs_len (data <$> of_topic t (published (new_broker rc wc ce s0))) = 0) as -> by done. lia.
  - by intros r f ?%elem_of_nil.
  - by intros r r' f ?%elem_of_nil.
  - by intros r ?%elem_of_nil.
Qed.

Lemma broker_run_ok rc ce ts b :
  start_ok → broker_run ([], new_broker rc wc ce s0) (ts, b) → broker_ok wc s0 b.
Proof.
  intros Hs Hrun. apply (sched_rtc_ok (broker_ok wc s0) broker_later broker_later
    broker_task broker_event (λ _ _ Hl, Hl) broker_task_ok broker_event_ok _ _ Hrun).
  split; [by apply new_broker_ok|constructor].
Qed.

(** C1: no acknowledgement is wrong: at every point of every interleaving of the
    connections, the writer, the leaders and the controller's metadata, each
    acknowledgement that a connection was sent answers a publish of that connection,
    and the log holds its message at the offset that the acknowledgement names. *)
Theorem acknowledged_stored rc ce ts b i c t o acks :
  start_ok → broker_run ([], new_broker rc wc ce s0) (ts, b) →
  connections b !! i = Some c → packet (PubAckResponse t o acks) ∈ sent c →
  ∃ payload checks pre post, PublishCommand t payload acks checks ∈ inputs c ∧
    api_log (the_log b) t = pre ++ payload :: post ∧ recs_len pre = o.
Proof.
  intros Hs Hrun Hc Hr. pose proof (broker_run_ok _ _ _ _ Hs Hrun) as Hb.
  destruct (bo_acks _ _ _ Hb _ _ _ Hc Hr) as (p & k & (c' & Hc' & Hin) & r & _ & <- & <- & pre & post & Hl & Ho).
  assert (c' = c) as -> by congruence. exists (data r), k, pre, post. by split_and!.
Qed.

(** Every task keeps the requests accounted for. *)
#[local] Abbreviation anything := (λ _ _ : Broker S, True).
Lemma broker_run_accounted rc ce ts b : broker_run ([], new_broker rc wc ce s0) (ts, b) → accounted b.
Proof.
  intros Hrun.
  assert (∀ b0 c, accounted b0 → broker_task b0 c →
    wp accounted anything anything b0 c b0 (λ _ _ b1, accounted b1 ∧ anything b0 b1)) as Htask.
  { intros b0 c Hb [o i input c' _ _ _|c' _].
    - eapply wp_mono; [|by apply handle_round_accounted]. by split.
    - apply (parts_wp _ _ _ _ (replication_parts c') Hb). by split. }
  assert (∀ b1 b2, accounted b1 → broker_event b1 b2 → accounted b2 ∧ anything b1 b2) as Hevent.
  { intros b1 b2 [taken Ha] Hev. split; [|done]. exists taken. destruct Hev; [by apply accounts_new|done..]. }
  destruct (sched_rtc_ok accounted anything anything broker_task broker_event (λ _ _ Hl, Hl)
    Htask Hevent _ _ Hrun) as [[Hb _] _]; [|exact Hb].
  split; [|constructor]. exists []. split; [constructor..|done].
Qed.

(** C2: the log of a broker is what its clients published, each message once: at every
    point of every interleaving, the messages of a topic with those that are still on
    their way through the writer are the ones it started with and those of the requests,
    each exactly once, in order if the writer has one thread, and no job of the writer
    failed.  The requests are those of the commands that the connections have been given:
    there are commands [taken], no two of them the same and those of a connection in its
    order, so that each request is the one its command is to make, with its topic, its
    message, its client and a future unless [acks] is 0; and on each connection there are
    at most as many publishes without a request as refusals were sent over it. *)
Theorem broker_exactly_once rc ce ts b :
  start_ok → broker_run ([], new_broker rc wc ce s0) (ts, b) →
  crashed (writer b) = [] ∧
  (∃ taken, accounts (connections b) (published b) taken) ∧
  ∀ t, let actual := api_log (the_log b) t ++ (data <$> pending (writer b) t) in
    let expected := api_log s0 t ++ (data <$> of_topic t (published b)) in
    actual ≡ₚ expected ∧ (max_workers wc = 1%nat → actual = expected).
Proof.
  intros Hs Hrun. pose proof (broker_run_ok _ _ _ _ Hs Hrun) as Hb.
  split; [apply Hb|]. split; [by apply (broker_run_accounted rc ce ts)|]. intros t.
  pose proof (wo_content _ _ _ _ _ (bo_writer _ _ _ Hb) t) as Hc.
  split; [by eapply same_order_perm|]. intros E. by rewrite E in Hc.
Qed.

(** ** Pulling *)

(** The broker leads [t] and [l] is its leader. *)
Definition leads b (t : pystr) (l : ReplicaLeader) : Prop :=
  ∃ r st, dict_get (topics (manager (replication b))) t = Some r ∧
    objects (manager (replication b)) !! r = Some st ∧ ts_leader st = Some l.

Lemma leads_run b t l :
  manager_ok (replication b) → leads b t l →
  ∃ r, on_replication (get_leader t) b = (Ok r, b) ∧ topic l = t ∧
    ∃ hw x, on_replication (on_leader_of r _ get_high_watermark) b = (Ok hw, set_replication x b) ∧
      log x = the_log b ∧ manager_ok x ∧ _high_watermark l ≤ hw ≤ recs_len (api_log (the_log b) t) ∧
      api_exists (the_log b) t.
Proof.
  intros Hm (r & st & Hr & Hst & Hl). exists r.
  destruct (mo_topics _ Hm t r Hr) as (st' & Hst' & Ht & _).
  assert (st' = st) as -> by congruence.
  destruct (so_leader _ _ _ (mo_objects _ Hm r st Hst) l Hl) as (Hlo & Htl & _ & _ & Hrole).
  rewrite Ht in Htl. split; [|split; [done|]].
  - unfold on_replication, zoom, get_leader. run. rewrite find_topic_run, Hr. run.
    rewrite (deref_run _ _ _ Hst), Hrole, Hl. run. by destruct b.
  - destruct (high_watermark_run l (log (replication b)) Hlo) as (hw & E & Hhw & _).
    unfold on_replication, zoom.
    destruct (on_leader_of r Z get_high_watermark (replication b)) as [a x] eqn:Ex.
    destruct (on_leader_of_ok _ _ _ _ _ Hm leader_hw_call Ex) as [Hx _].
    assert (a = Ok hw ∧ log x = the_log b) as [-> Hlx].
    { revert Ex. unfold on_leader_of, assign, on_manager, Replicas.on_log. run.
      rewrite (deref_run _ _ _ Hst), Hl. cbn [or_raise]. run. rewrite E. run. by intros [= <- <-]. }
    exists hw, x. unfold leo in Hhw. rewrite Htl in Hhw. split_and!; try done; [apply Hhw|apply Hhw|rewrite <-Htl; apply Hlo].
Qed.

(** A pull up to the comparison of the offset with the watermark. *)
Lemma pull_run b i t l offset size :
  manager_ok (replication b) → leads b t l →
  ∃ hw b1, _high_watermark l ≤ hw ≤ recs_len (api_log (the_log b) t) ∧
    connections b1 = connections b ∧ (∀ t', api_log (the_log b1) t' = api_log (the_log b) t') ∧
    manager_ok (replication b1) ∧
    run (pull i t offset size) b = run
      (if offset >? hw then
         hw ← atomic (lift (py_str hw));
         send i (ErrorResponse 400 (py "Offset out of range. High watermark is " ++ hw))
       else if offset =? hw then send i (MessageResponse t [])
       else _push_message i t offset size) b1.
Proof.
  intros Hm Hl. destruct (leads_run b t l Hm Hl) as (r & E1 & _ & hw & x & E2 & Hlog & Hx & Hhw & _).
  exists hw, (set_replication x b). split_and!; [apply Hhw|apply Hhw|done| |done|].
  - intros t'. unfold the_log. cbn. by rewrite Hlog.
  - unfold pull. run_co. rewrite E1. run_co. by rewrite E2.
Qed.

(** The response of a connection, which may have given back a handle, with the topics as
    they were. *)
Definition answered_with b b' i (c : Connection) (resp : Response) : Prop :=
  (∃ h, connections b' !! i = Some (set_open h (write_response (packet resp) c))) ∧
  ∀ t, api_log (the_log b') t = api_log (the_log b) t.

(** The bytes that [resp] delivers to a consumer of [t]: they are in the response, or its
    header announces their number and they are sent from the slice of the file. *)
Definition delivers (s : S) (t : pystr) (resp : Response) (batch : bytes) : Prop :=
  match resp with
  | MessageResponse t' payload => t' = t ∧ payload = batch
  | FileResponse t' path offset length =>
      t' = t ∧ length = zlen batch ∧ 0 ≤ offset ∧
      take (Z.to_nat length) (drop (Z.to_nat offset) (api_file s path)) = batch
  | _ => False
  end.

Lemma set_open_same c : set_open (open_read c) c = c.
Proof. by destruct c. Qed.

Lemma send_run i resp b f c :
  encode_response (packet resp) = Ok f → connections b !! i = Some c →
  run (send i resp) b = (Ok tt, set_connections (alter (write_response (packet resp)) i (connections b)) b).
Proof. intros He Hc. unfold send, send_packet. run_co. run. by rewrite He. Qed.

Lemma send_answers i resp b f c :
  encode_response (packet resp) = Ok f → connections b !! i = Some c →
  ∃ b', run (send i resp) b = (Ok tt, b') ∧ answered_with b b' i c resp.
Proof.
  intros He Hc. rewrite (send_run i resp b f c) by done. eexists. split; [done|]. split; [|done].
  exists (open_read c). cbn. rewrite lookup_alter_eq, Hc. cbn. by rewrite <-(set_open_same (write_response _ c)).
Qed.

(** A batch that is read into memory, and one that is sent from its file. *)
Lemma push_bytes_run b i c t pre rest size :
  api_ok (the_log b) → connections b !! i = Some c → name_ok t → recs_len (api_log (the_log b) t) < 2 ^ 63 →
  api_log (the_log b) t = pre ++ rest → rest ≠ [] → size ≤ 1024 →
  ∃ batch got more b', run (_push_message i t (recs_len pre) size) b = (Ok tt, b') ∧
    answered_with b b' i c (MessageResponse t batch) ∧
    parse_records batch = got ∧ rest = got ++ more ∧ got ≠ [].
Proof.
  intros Hok Hc Hname Hend Hpre Hne Hsize. unfold _push_message. replace (size <=? 1024) with true by lia.
  destruct (api_read_bytes_ok (the_log b) t pre rest size) as (d & got & more & s & E & Hp & Hr & Hg & Hs & Hz); [done..|].
  destruct (api_read_bytes_same _ _ _ _ _ _ Hok E) as [[Hsame _] _].
  set (b2 := set_replication (mkReplication (manager (replication b)) (waits (replication b)) s) b).
  destruct (message_encodes t d Hname) as [f Hf].
  { rewrite Hz. rewrite Hpre, Hr, !recs_len_app in Hend.
    pose proof (recs_len_nonneg pre). pose proof (recs_len_nonneg more). lia. }
  destruct (send_answers i (MessageResponse t d) b2 f c Hf Hc) as (b3 & E3 & Ha & Hk).
  exists d, got, more, b3. split; [|split; [|by split_and!]].
  - run_co. unfold on_replication, zoom, Replicas.on_log. run. fold (the_log b). rewrite E. run. exact E3.
  - split; [exact Ha|]. intros t'. rewrite Hk. unfold b2, the_log. cbn. by rewrite Hsame.
Qed.

Lemma push_file_run b i c t pre rest size :
  api_ok (the_log b) → connections b !! i = Some c → name_ok t → recs_len (api_log (the_log b) t) < 2 ^ 63 →
  api_log (the_log b) t = pre ++ rest → rest ≠ [] → 1024 < size →
  ∃ path off batch got more b', run (_push_message i t (recs_len pre) size) b = (Ok tt, b') ∧
    answered_with b b' i c (FileResponse t path off (zlen batch)) ∧
    delivers (the_log b') t (FileResponse t path off (zlen batch)) batch ∧
    parse_records batch = got ∧ rest = got ++ more ∧ got ≠ [].
Proof.
  intros Hok Hc Hname Hend Hpre Hne Hsize. unfold _push_message. replace (size <=? 1024) with false by lia.
  destruct (api_read_ok (the_log b) t pre rest size) as (x & d & got & more & s & E & Hfile & Hlen & Hoff & Hp & Hr & Hg & Hz);
    [done..|].
  pose proof (api_read_opens _ _ _ _ _ _ ∅ Hok E) as Hopen.
  destruct (api_read_same _ _ _ _ _ _ Hok E) as [[Hsame _] _].
  destruct (api_release_ok _ _ _ Hopen) as [_ [Hrel _]].
  set (b2 := set_connections (alter (set_open (Some (_release x))) i (connections b))
    (set_replication (mkReplication (manager (replication b)) (waits (replication b)) s) b)).
  assert (connections b2 !! i = Some (set_open (Some (_release x)) c)) as Hc2 by (cbn; by rewrite lookup_alter_eq, Hc).
  set (fs := file_slice x) in *. destruct (batch_encodes t (FileResponse t (fs_filepath fs) (fs_offset fs) (fs_batch_size fs)) (zlen d))
    as [f Hf]; [done| |right; eexists _, _; by rewrite Hlen|].
  { rewrite Hz. rewrite Hpre, Hr, !recs_len_app in Hend. pose proof (recs_len_nonneg pre).
    pose proof (recs_len_nonneg got). pose proof (recs_len_nonneg more). lia. }
  pose proof (send_run i _ b2 f _ Hf Hc2) as E3. set (b3 := set_connections _ b2) in E3.
  assert (enter_read i t (recs_len pre) size b = (Ok x, b2)) as Ee.
  { unfold enter_read, on_replication, zoom, Replicas.on_log. run. fold (the_log b). rewrite E. by run. }
  assert (connections b3 !! i = Some (set_open (Some (_release x)) (write_response
    (packet (FileResponse t (fs_filepath fs) (fs_offset fs) (fs_batch_size fs))) c))) as Hc3.
  { unfold b3. cbn [connections set_connections]. rewrite lookup_alter_eq, Hc2. done. }
  exists (fs_filepath fs), (fs_offset fs), d, got, more, (exit_read i b3). rewrite <-Hlen.
  assert (the_log (exit_read i b3) = api_release (_release x) s) as Hlog by (unfold exit_read; by rewrite Hc3).
  split; [|split; [|split; [|by split_and!]]].
  - run_co. rewrite Ee. run_co. fold fs. by rewrite E3.
  - split.
    + exists None. unfold exit_read. rewrite Hc3. cbn [mbind option_bind open_read set_open].
      unfold update_connection. run. cbn [snd connections set_connections set_replication]. by rewrite lookup_alter_eq, Hc3.
    + intros t'. by rewrite Hlog, Hrel, Hsame.
  - cbn [delivers]. rewrite Hlog. split_and!; [done|done|done|]. by rewrite (api_release_file _ _ _ _ Hopen).
Qed.

(** Small batches are read into memory, the others are sent from their file. *)
Definition batch_response (t : pystr) (size : Z) (batch : bytes) (resp : Response) : Prop :=
  if size <=? 1024 then resp = MessageResponse t batch
  else ∃ path off, resp = FileResponse t path off (zlen batch).

Lemma push_message_run b i c t pre rest size :
  api_ok (the_log b) → connections b !! i = Some c → name_ok t → recs_len (api_log (the_log b) t) < 2 ^ 63 →
  api_log (the_log b) t = pre ++ rest → rest ≠ [] →
  ∃ resp batch got more b', run (_push_message i t (recs_len pre) size) b = (Ok tt, b') ∧
    answered_with b b' i c resp ∧ batch_response t size batch resp ∧ delivers (the_log b') t resp batch ∧
    parse_records batch = got ∧ rest = got ++ more ∧ got ≠ [].
Proof.
  intros Hok Hc Hname Hend Hpre Hne. unfold batch_response. destruct (size <=? 1024) eqn:Hs.
  - destruct (push_bytes_run b i c t pre rest size) as (batch & got & more & b' & ? & ? & ? & ? & ?); [done..|lia|].
    by exists (MessageResponse t batch), batch, got, more, b'.
  - destruct (push_file_run b i c t pre rest size) as (path & off & batch & got & more & b' & ? & ? & ? & ? & ? & ?);
      [done..|lia|].
    exists (FileResponse t path off (zlen batch)), batch, got, more, b'. split_and!; try done. by exists path, off.
Qed.

Lemma answered_back b b1 b2 i c resp :
  (∀ t, api_log (the_log b1) t = api_log (the_log b) t) → answered_with b1 b2 i c resp → answered_with b b2 i c resp.
Proof. intros Hlog [? Hk]. split; [done|]. intros t. by rewrite Hk, Hlog. Qed.

(** The same after the watermark has been computed. *)
Lemma push_batch b b1 i c t pre rest size :
  manager_ok (replication b1) → (∀ t', api_log (the_log b1) t' = api_log (the_log b) t') →
  connections b1 !! i = Some c → name_ok t → recs_len (api_log (the_log b) t) < 2 ^ 63 →
  api_log (the_log b) t = pre ++ rest → rest ≠ [] →
  ∃ resp batch got more b', run (_push_message i t (recs_len pre) size) b1 = (Ok tt, b') ∧
    answered_with b b' i c resp ∧ batch_response t size batch resp ∧ delivers (the_log b') t resp batch ∧
    parse_records batch = got ∧ rest = got ++ more ∧ got ≠ [].
Proof.
  intros Hm1 Hlog Hc Hname Hend Hpre Hne.
  destruct (push_message_run b1 i c t pre rest size) as (resp & batch & got & more & b2 & ? & Ha & ?);
    [by apply Hm1|done|done|by rewrite Hlog|by rewrite Hlog|done|].
  exists resp, batch, got, more, b2. split; [done|]. split; [by apply (answered_back b b1)|done].
Qed.



(** The log of a broker fits. *)
Lemma topic_bound b t : broker_ok wc s0 b → recs_len (api_log (the_log b) t) < 2 ^ 63.
Proof.
  intros Hb. pose proof (ft_bound _ _ (bo_fits _ _ _ Hb) t) as Hf.
  pose proof (recs_len_perm _ _ (same_order_perm _ _ _ (wo_content _ _ _ _ _ (bo_writer _ _ _ Hb) t))) as HP.
  rewrite !recs_len_app in HP. pose proof (recs_len_nonneg (data <$> pending (writer b) t)). lia.
Qed.

(** C3: published, acknowledged, consumed: once a connection has been acknowledged a
    publish at an offset below the high watermark, any connection that pulls at that
    offset, with any size, is sent a batch whose first message is what was published,
    whatever has happened in between. *)
Theorem acknowledged_pulled rc ce ts b i c t o acks j c' l size :
  start_ok → broker_run ([], new_broker rc wc ce s0) (ts, b) →
  connections b !! i = Some c → packet (PubAckResponse t o acks) ∈ sent c →
  connections b !! j = Some c' → leads b t l → name_ok t → o < _high_watermark l →
  ∃ payload checks resp batch more b', PublishCommand t payload acks checks ∈ inputs c ∧
    run (pull j t o size) b = (Ok tt, b') ∧ answered_with b b' j c' resp ∧
    batch_response t size batch resp ∧ delivers (the_log b') t resp batch ∧
    parse_records batch = payload :: more.
Proof.
  intros Hs Hrun Hc Hr Hc' Hl Hname Ho. pose proof (broker_run_ok _ _ _ _ Hs Hrun) as Hb.
  destruct (bo_acks _ _ _ Hb _ _ _ Hc Hr) as (p & k & (c2 & Hc2 & Hin) & r & _ & <- & <- & pre & post & Hlog & Hpre).
  assert (c2 = c) as -> by congruence. pose proof (recs_len_nonneg pre).
  destruct (pull_run b j (wr_topic r) l o size (bo_manager _ _ _ Hb) Hl) as (hw & b1 & Hhw & Hc1 & Hlog1 & Hm1 & ->).
  replace (o >? hw) with false by lia. replace (o =? hw) with false by lia. subst o.
  destruct (push_batch b b1 j c' (wr_topic r) pre (data r :: post) size)
    as (resp & batch & got & more & b' & E & Ha & Hb' & Hd & Hp & Hrest & Hg); [done|done|by rewrite Hc1|done| |done|done|].
  { by apply topic_bound. }
  destruct got as [|m got]; [done|]. injection Hrest as <- _.
  exists (data r), k, resp, batch, got, b'. by split_and!.
Qed.

(** ** Waiting for the replicas *)

(** [acks=-1] is answered too early: a producer whose message begins at the high
    watermark does not wait at all, though the message lies beyond the watermark and
    no follower needs to have it. *)
Theorem acks_all_premature x r st l pre payload post :
  manager_ok x → objects (manager x) !! r = Some st → ts_leader st = Some l →
  api_log (log x) (topic l) = pre ++ payload :: post →
  (get_high_watermark (l, log x)).1 = Ok (recs_len pre) →
  ∃ x' st' l', resume (wait_hw r (recs_len pre)) x = (Done (Ok tt), x') ∧
    objects (manager x') !! r = Some st' ∧ ts_leader st' = Some l' ∧
    _high_watermark l' = recs_len pre ∧ recs_len pre < recs_len (pre ++ [payload]).
Proof.
  intros Hx Hst Hl Hlog Hhw.
  destruct (so_leader _ _ _ (mo_objects _ Hx r st Hst) l Hl) as (Hlo & _).
  destruct (high_watermark_run l (log x) Hlo) as (hw & E & _). rewrite E in Hhw. injection Hhw as ->.
  unfold wait_hw, wait_for_hw. cbn [resume mbind Co_bind atomic].
  unfold on_leader_of, assign, on_manager, Replicas.on_log. run.
  rewrite (deref_run _ _ _ Hst), Hl. cbn [or_raise]. run. rewrite E. run. rewrite Z.leb_refl.
  eexists _, _, _. split; [reflexivity|]. cbn. rewrite list_lookup_alter_eq, Hst. cbn.
  split; [done|]. split; [done|]. split; [done|]. rewrite recs_len_app. cbn.
  lia.
Qed.

(** ** Packets that are refused *)

(** The commands for which a client must have an identifier. *)
Definition needs_id (cmd : Command) : bool :=
  match cmd with
  | RegisterCommand | ClientIdCommand _ | ReplicaCommand _ | ReplicaFetchCommand _ _ _ _
  | RegisterTopicCommand _ | MetadataRequestCommand _ => false
  | _ => true
  end.

(** Nothing but connection [i] differs. *)
Definition only_connection b b' (i : nat) (c : Connection) : Prop :=
  b' = set_connections (<[i := c]> (connections b)) b.

Lemma update_run b i f c :
  connections b !! i = Some c →
  update_connection i f b = (Ok tt, set_connections (<[i := f c]> (connections b)) b).
Proof.
  intros Hc. unfold update_connection. run. do 2 f_equal. apply map_eq. intros j.
  destruct (decide (i = j)) as [->|Hne].
  - by rewrite lookup_alter_eq, lookup_insert_eq, Hc.
  - by rewrite lookup_alter_ne, lookup_insert_ne.
Qed.

(** What happens to packets that are not served: a client without an identifier
    that publishes, pulls, commits or pings is disconnected without an answer and
    without any effect; so is, after an error message, one whose checksum or command
    is wrong; any other malformed packet ends the handler and leaves the connection
    open and unanswered for good. *)
Theorem refused_packets o i c data b :
  connections b !! i = Some c →
  match parse_command data (checksum_enable b) with
  | Ok p => needs_id (body p) = true → client_id c = None →
      ∃ b', run (handle_round o i (Frame data)) b = (Ok tt, b') ∧
        only_connection b b' i (set_status Closed (add_input None (body p) c))
  | Raise (ChecksumFailed _ _) =>
      ∃ b', run (handle_round o i (Frame data)) b = (Ok tt, b') ∧
        only_connection b b' i
          (set_status Closed (write_response (packet (ErrorResponse 400 (py "Checksum failed"))) c))
  | Raise (UnknownCommand _) =>
      ∃ b', run (handle_round o i (Frame data)) b = (Ok tt, b') ∧
        only_connection b b' i
          (set_status Closed (write_response (packet (ErrorResponse 400 (py "Unknown command"))) c))
  | Raise e =>
      ∃ b', run (handle_round o i (Frame data)) b = (Raise e, b') ∧
        only_connection b b' i (set_status Crashed c)
  end.
Proof.
  intros Hc. set (b1 := set_connections (<[i := set_status Serving c]> (connections b)) b).
  assert (∀ c1, connections (set_connections (<[i := c1]> (connections b)) b) !! i = Some c1) as Hi.
  { intros c1. apply lookup_insert_eq. }
  assert (∀ c1 f, update_connection i f (set_connections (<[i := c1]> (connections b)) b)
    = (Ok tt, set_connections (<[i := f c1]> (connections b)) b)) as Hupd.
  { intros c1 f. rewrite (update_run _ i f c1 (Hi c1)). unfold set_connections. cbn.
    by rewrite insert_insert_eq. }
  assert (run (handle_round o i (Frame data)) b =
    run (next ← co_catch (serve o i (client_id c) (Frame data))
           (λ e, Some (atomic (update_connection i (set_status Crashed));; Done (Raise e)));
         match next with
         | Some client => atomic (update_connection i (next_round client))
         | None => atomic (update_connection i (set_status Closed))
         end) b1) as Hrun.
  { unfold handle_round. rewrite run_co_bind, run_atomic. run. rewrite Hc. cbn [or_raise].
    by rewrite run_co_bind, run_atomic, (update_run _ i _ c Hc). }
  assert (∀ c1 resp f, encode_response (packet resp) = Ok f →
    run (send i resp) (set_connections (<[i := c1]> (connections b)) b)
    = (Ok tt, set_connections (<[i := write_response (packet resp) c1]> (connections b)) b)) as Hsend.
  { intros c1 resp f Hf. unfold send, send_packet. run_co. run. rewrite Hf. run. by rewrite Hupd. }
  rewrite Hrun. cbn [serve]. unfold b1.
  assert (∀ m, checksum_enable (set_connections m b) = checksum_enable b) as Hce by done.
  destruct (parse_command data (checksum_enable b)) as [p|e] eqn:E.
  - intros Hid Hno. run_co. run. rewrite Hce, E. run_co. rewrite Hupd. rewrite Hno.
    destruct (body p); try discriminate Hid; cbn [execute]; run_co; rewrite Hupd; eexists; split; reflexivity.
  - destruct e; run_co; run; rewrite Hce, E; run_co.
    all: try (erewrite Hsend by (vm_compute; reflexivity); run_co; rewrite Hupd; eexists; split; reflexivity).
    all: cbn [run]; run_co; rewrite Hupd; cbn [run]; eexists; split; reflexivity.
Qed.
End theorems.

(** ** A run of a broker with the log itself *)

#[local] Instance sample_append : LogAppend Log := log_append sample_config.
#[local] Instance sample_laws : LogAppendLaws Log := log_append_laws sample_config.

Definition one_writer : WriterConfig := mkWriterConfig 2 1000 2000 1.
Definition the_config : ReplicaConfig := mkReplicaConfig (py "b1") 512 1 2 10000.
Definition no_connection (_ : pystr) (_ : Z) : result unit := Raise ConnectionError.
Definition the_outside : Outside :=
  mkOutside 7 (py "7.0") (py "client") false (λ _, Ok None).

Lemma log0_start : start_ok log0.
Proof.
  split; [apply log0_ok|]. intros t. assert (api_log log0 t = []) as ->; [|done].
  cbn. unfold topic_log, log0, LogManager.init. cbn. by rewrite lookup_empty.
Qed.

Abbreviation Sched := (list (Co (Broker Log) unit) * Broker Log)%type.
Abbreviation sample_broker_run := (broker_run no_connection log0).

Inductive move := Connect (i : nat) | Spawn (c : Co (Broker Log) unit) | Resume (j : nat) | Write (a : action)
| Revise (now : Z) (r : nat).

Definition play (x : Sched) (m : move) : Sched :=
  let '(ts, b) := x in
  match m with
  | Connect i => (ts, set_connections (<[i := new_connection]> (connections b)) b)
  | Spawn c => (ts ++ [(resume c b).1], (resume c b).2)
  | Resume j =>
      match ts !! j with
      | Some (Await ready k) => if ready b then (<[j := (resume k b).1]> ts, (resume k b).2) else x
      | _ => x
      end
  | Write a =>
      match exec a (writer b, the_log b) with
      | Some (w, s) => (ts, set_writer w
          (set_replication (mkReplication (manager (replication b)) (waits (replication b)) s) b))
      | None => x
      end
  | Revise now r => (ts, set_replication (leader_round now r (replication b)).2 b)
  end.

Definition fair (x : Sched) (m : move) : Prop :=
  match m with
  | Connect i => connections x.2 !! i = None
  | Spawn c => broker_task no_connection log0 x.2 c
  | Resume _ | Revise _ _ => True
  | Write a => match a with Submit _ => False | _ => True end
  end.

Lemma play_ok x y m : fair y m → sample_broker_run x y → sample_broker_run x (play y m).
Proof.
  intros Hf Hx. etrans; [exact Hx|]. destruct y as [ts b], m as [i|c|j|a|now r]; cbn -[exec leader_round] in *.
  - by apply rtc_once, sched_env, event_connect.
  - eapply rtc_once, sched_spawn; [exact Hf|]. apply surjective_pairing.
  - destruct (ts !! j) as [[r|? m k|ready k]|] eqn:Hj; try reflexivity.
    destruct (ready b) eqn:Hr; [|reflexivity].
    eapply rtc_once, sched_resume; [exact Hj|exact Hr|]. apply surjective_pairing.
  - destruct (exec a (writer b, the_log b)) as [[w s]|] eqn:E; [|reflexivity]. apply exec_internal in E.
    eapply rtc_once, sched_env, event_writer. by destruct a.
  - eapply rtc_once, sched_env, event_leader. apply surjective_pairing.
Qed.

(** A packet of a connection that is ready for one. *)
Lemma packet_task b i data p :
  let c := default new_connection (connections b !! i) in
  connections b !! i = Some c → conn_status c = Reading →
  parse_command data (checksum_enable b) = Ok p →
  (∀ payload, writes the_outside (client_id c) (body p) payload → zlen payload < 1000) →
  recs_len (Writer.data <$> published b) < 1000 →
  broker_task no_connection log0 b (handle_round the_outside i (Frame data)).
Proof.
  intros c Hc Hs Hp Hw Hl. apply (task_round _ _ _ _ _ _ c); [done|done|].
  intros cmd (d & q & [= <-] & E & <-). rewrite Hp in E. injection E as <-. split; [done|]. split.
  - done.
  - intros payload Hpay. specialize (Hw _ Hpay). split; [lia|]. intros t.
    destruct log0_start as [_ _]. assert (api_log log0 t = []) as ->.
    { cbn. unfold topic_log, log0, LogManager.init. cbn. by rewrite lookup_empty. }
    pose proof (recs_len_of_topic t (published b)). cbn. lia.
Qed.

Definition frame (cmd : Command) : bytes :=
  match encode_command_body cmd false with Ok d => d | Raise _ => [] end.
Definition handler (i : nat) (cmd : Command) : Co (Broker Log) unit :=
  handle_round the_outside i (Frame (frame cmd)).
Definition publish : Command := PublishCommand orders (py "hello") 1 false.

Definition x0 : Sched := ([], new_broker the_config one_writer false log0).
Definition sample_meta : TopicMeta := mkTopicMeta orders (py "b1") (py "h1") 9001 [py "b1"; py "b2"] 1.
Definition assigned : Sched := fold_left play
  [Connect 0; Spawn (co_zoom replication set_replication (apply_metadata no_connection sample_meta))] x0.
Definition registered : Sched := fold_left play [Spawn (handler 0 RegisterCommand); Resume 1] assigned.
Definition publishing : Sched := play registered (Spawn (handler 0 publish)).
Definition writing : list move :=
  [Write (Collect orders); Write (Timeout 9000 orders); Write Start; Write (Append 0 0);
   Write (Finish 0); Write Callback].
Definition published_at : Sched := fold_left play (writing ++ [Resume 2; Resume 2]) publishing.
Definition pulled : Sched :=
  fold_left play [Spawn (handler 0 (PullCommand orders 0 512)); Resume 3] published_at.

Example sample_sent :
  (λ c, (client_id c, sent c)) <$> (connections pulled.2 !! 0%nat) = Some (Some (py "client"),
    packet <$> [ClientIDResponse (py "client"); PubAckResponse orders 0 1;
                MessageResponse orders ([0; 0; 0; 5] ++ py "hello")]).
Proof. vm_compute. reflexivity. Qed.

Lemma play_all_ok x y l :
  (∀ m, m ∈ l → match m with Resume _ | Write Start | Write Callback | Write (Collect _)
     | Write (Timeout _ _) | Write (Append _ _) | Write (Finish _) | Revise _ _ => True | _ => False end) →
  sample_broker_run x y → sample_broker_run x (fold_left play l y).
Proof.
  revert y. induction l as [|m l IH]; intros y Hl Hx; [done|]. cbn [fold_left]. apply IH.
  - intros m' Hm'. apply Hl. by right.
  - apply play_ok; [|done]. specialize (Hl m ltac:(by left)). by destruct m as [| | |[]|].
Qed.

Lemma registered_run : sample_broker_run x0 registered.
Proof.
  unfold registered, assigned. cbn [fold_left]. apply play_ok; [done|]. apply play_ok.
  - apply (packet_task _ 0 _ (packet RegisterCommand)); try (vm_compute; reflexivity). done.
  - apply play_ok; [|apply play_ok; [vm_compute; reflexivity|reflexivity]].
    apply task_replication, task_apply. intros _. apply topic_ok_orders.
Qed.

Lemma published_run : sample_broker_run x0 published_at.
Proof.
  unfold published_at, publishing. apply play_all_ok.
  - intros m Hm. by repeat (apply elem_of_cons in Hm as [->|Hm]; [done|]); apply elem_of_nil in Hm.
  - apply play_ok; [|apply registered_run].
    apply (packet_task _ 0 _ (packet publish)); try (vm_compute; reflexivity).
    intros payload E. vm_compute in E. subst payload. vm_compute. reflexivity.
Qed.

Lemma pulled_run : sample_broker_run x0 pulled.
Proof.
  unfold pulled. cbn [fold_left]. apply play_ok; [done|]. apply play_ok; [|apply published_run].
  apply (packet_task _ 0 _ (packet (PullCommand orders 0 512))); try (vm_compute; reflexivity). done.
Qed.

Definition the_connection : Connection := default new_connection (connections pulled.2 !! 0%nat).

Lemma the_connection_eq : connections pulled.2 !! 0%nat = Some the_connection.
Proof. vm_compute. reflexivity. Qed.

Lemma the_ack : packet (PubAckResponse orders 0 1) ∈ sent the_connection.
Proof.
  assert (sent the_connection = packet <$> [ClientIDResponse (py "client"); PubAckResponse orders 0 1;
    MessageResponse orders ([0; 0; 0; 5] ++ py "hello")]) as -> by (vm_compute; reflexivity).
  right. left.
Qed.

Lemma acknowledged_stored_witness :
  ∃ payload checks pre post, PublishCommand orders payload 1 checks ∈ inputs the_connection ∧
    api_log (the_log pulled.2) orders = pre ++ payload :: post ∧ recs_len pre = 0.
Proof.
  apply (acknowledged_stored no_connection one_writer log0 the_config false pulled.1 pulled.2 0 the_connection
    orders 0 1 log0_start).
  - rewrite <-surjective_pairing. exact pulled_run.
  - exact the_connection_eq.
  - exact the_ack.
Defined.

Lemma broker_exactly_once_witness :
  api_log (the_log pulled.2) orders ++ (Writer.data <$> pending (writer pulled.2) orders) = [py "hello"] ∧
  ∃ taken, accounts (connections pulled.2) (published pulled.2) taken.
Proof.
  destruct (broker_exactly_once no_connection one_writer log0 the_config false pulled.1 pulled.2 log0_start)
    as (_ & Ha & Hsame).
  - rewrite <-surjective_pairing. exact pulled_run.
  - split; [|exact Ha]. rewrite (proj2 (Hsame orders) eq_refl). vm_compute. reflexivity.
Defined.

(** The leader at a point of the run. *)
Definition leader_at (b : Broker Log) : ReplicaLeader :=
  default (mkReplicaLeader [] [] [] 0 0 [] ∅ 0 ∅ []) (objects (manager (replication b)) !! 0%nat ≫= ts_leader).

Lemma leads_at b :
  bool_decide (dict_get (topics (manager (replication b))) orders = Some 0%nat) = true →
  bool_decide (is_Some (objects (manager (replication b)) !! 0%nat ≫= ts_leader)) = true →
  leads b orders (leader_at b).
Proof.
  intros Ht%bool_decide_eq_true Ho%bool_decide_eq_true. unfold leader_at.
  destruct (objects _ !! _) as [st|] eqn:E; [|by destruct Ho].
  cbn in Ho |- *. destruct Ho as [l Hl]. exists 0%nat, st. rewrite Hl. done.
Qed.

Lemma orders_name : name_ok orders.
Proof. exists orders. split; vm_compute; reflexivity. Qed.



Lemma acknowledged_pulled_witness :
  ∃ payload checks resp batch more b', PublishCommand orders payload 1 checks ∈ inputs the_connection ∧
    run (pull 0 orders 0 4096) pulled.2 = (Ok tt, b') ∧
    answered_with pulled.2 b' 0 the_connection resp ∧ batch_response orders 4096 batch resp ∧
    delivers (the_log b') orders resp batch ∧ parse_records batch = payload :: more.
Proof.
  apply (acknowledged_pulled no_connection one_writer log0 the_config false pulled.1 pulled.2 0 the_connection
    orders 0 1 0 the_connection (leader_at pulled.2) 4096 log0_start).
  - rewrite <-surjective_pairing. exact pulled_run.
  - exact the_connection_eq.
  - exact the_ack.
  - exact the_connection_eq.
  - apply leads_at; vm_compute; reflexivity.
  - exact orders_name.
  - vm_compute. reflexivity.
Defined.

Lemma refused_packets_witness :
  ∃ b', run (handle_round the_outside 0 (Frame (frame publish))) (play x0 (Connect 0)).2 = (Ok tt, b') ∧
    only_connection (play x0 (Connect 0)).2 b' 0 (set_status Closed (add_input None publish new_connection)).
Proof.
  assert (connections (play x0 (Connect 0)).2 !! 0%nat = Some new_connection) as Hc by (vm_compute; reflexivity).
  pose proof (refused_packets the_outside 0 new_connection (frame publish) _ Hc) as Hr.
  assert (parse_command (frame publish) (checksum_enable (play x0 (Connect 0)).2) = Ok (packet publish)) as E
    by (vm_compute; reflexivity).
  rewrite E in Hr. exact (Hr eq_refl eq_refl).
Defined.

(** A follower joins the replicas in sync and stays behind: another producer publishes
    with [acks=-1]. *)
Definition fetch_command : Command := ReplicaFetchCommand orders 9 512 (py "b2").
Definition publish_all : Command := PublishCommand orders (py "world") (-1) false.
Definition in_sync : Sched := fold_left play
  [Resume 3; Connect 1; Spawn (handler 1 fetch_command); Revise 7 0] pulled.
Definition behind : Sched :=
  fold_left play (writing ++ [Resume 5; Resume 5]) (play in_sync (Spawn (handler 0 publish_all))).

Lemma in_sync_run : sample_broker_run x0 in_sync.
Proof.
  unfold in_sync. cbn [fold_left]. apply play_ok; [done|]. apply play_ok; [|apply play_ok].
  - apply (packet_task _ 1 _ (packet fetch_command)); try (vm_compute; reflexivity). done.
  - vm_compute. reflexivity.
  - apply play_ok; [done|]. apply pulled_run.
Qed.

Lemma behind_run : sample_broker_run x0 behind.
Proof.
  unfold behind. apply play_all_ok.
  - intros m Hm. by repeat (apply elem_of_cons in Hm as [->|Hm]; [done|]); apply elem_of_nil in Hm.
  - apply play_ok; [|apply in_sync_run].
    apply (packet_task _ 0 _ (packet publish_all)); try (vm_compute; reflexivity).
    intros payload E. vm_compute in E. subst payload. vm_compute. reflexivity.
Qed.

(** What a consumer is shown need not be replicated: in this run two replicas are
    in sync, one of them has fetched nine bytes and the high watermark is nine, yet
    the publish of the second message with [acks=-1] has been acknowledged, and a
    consumer that pulls from the first message gets the second as well. *)
Theorem unreplicated_visible :
  ∃ ts b l, sample_broker_run ([], new_broker the_config one_writer false log0) (ts, b) ∧ leads b orders l ∧
    in_sync_replica l = [py "b1"; py "b2"] ∧ offset_of l (py "b2") = 9 ∧ _high_watermark l = 9 ∧
    (λ c, last (sent c)) <$> (connections b !! 0%nat) = Some (Some (packet (PubAckResponse orders 9 (-1)))) ∧
    let b' := (run (pull 0 orders 0 512) b).2 in
    (λ c, last (sent c)) <$> (connections b' !! 0%nat) =
      Some (Some (packet (MessageResponse orders
        ([0; 0; 0; 5] ++ py "hello" ++ [0; 0; 0; 5] ++ py "world")))).
Proof.
  exists behind.1, behind.2, (leader_at behind.2). split.
  - rewrite <-surjective_pairing. exact behind_run.
  - split; [apply leads_at; vm_compute; reflexivity|].
    split; [vm_compute; reflexivity|]. split; [vm_compute; reflexivity|].
    split; [vm_compute; reflexivity|]. split; vm_compute; reflexivity.
Qed.

Lemma behind_ok : manager_ok (replication behind.2).
Proof.
  apply (bo_manager one_writer log0), (broker_run_ok no_connection one_writer log0 the_config false behind.1);
    [exact log0_start|]. rewrite <-surjective_pairing. exact behind_run.
Qed.

Lemma acks_all_premature_witness :
  ∃ x' l', resume (wait_hw 0 9) (replication behind.2) = (Done (Ok tt), x') ∧
    _high_watermark l' = 9 ∧ offset_of (leader_at behind.2) (py "b2") = 9 ∧ 9 < recs_len [py "hello"; py "world"].
Proof.
  destruct (objects (manager (replication behind.2)) !! 0%nat) as [st|] eqn:Hst; [|vm_compute in Hst; discriminate Hst].
  destruct (ts_leader st) as [l|] eqn:Hl.
  - assert (l = leader_at behind.2) as -> by (unfold leader_at; rewrite Hst; cbn; rewrite Hl; reflexivity).
    destruct (acks_all_premature (replication behind.2) 0 st (leader_at behind.2) [py "hello"] (py "world") [])
      as (x' & st' & l' & E & _ & _ & Hw & _).
    + exact behind_ok.
    + exact Hst.
    + exact Hl.
    + vm_compute. reflexivity.
    + vm_compute. reflexivity.
    + exists x', l'. split; [exact E|]. split; [exact Hw|]. split; [vm_compute; reflexivity|vm_compute; reflexivity].
  - exfalso. assert (bool_decide (is_Some (objects (manager (replication behind.2)) !! 0%nat ≫= ts_leader)) = true)
      as Hb by (vm_compute; reflexivity). rewrite Hst in Hb. cbn in Hb. rewrite Hl in Hb. discriminate Hb.
Defined.
