(* ===== verification/ProtocolTheorems.v ===== *)
(** * What the wire protocol promises

    The theorems about [encoder.py], [parser.py] and [framer.py]: round trips of
    commands, responses, batches and metadata lists through the framed stream,
    end-to-end checksums, and the exceptions the parser may raise. *)
From Stdlib Require Import String.
From S2P Require Import Prelude PyData Framer Messages Encoder Parser ProtocolFacts RecordFacts.

(** ** The exceptions of the parser *)

(** Malformed input ends in a [ValueError] or one of its subclasses, or in an
    [IndexError] when a field is missing. *)
Definition parse_exn (e : exn) : bool := is_ValueError e || bool_decide (e = IndexError).

(** A computation that raises nothing else. *)
Definition raises_parse {A} (m : result A) : Prop :=
  match m with Ok _ => True | Raise e => parse_exn e = true end.

Lemma raises_Ok {A} (a : A) : raises_parse (Ok a).
Proof. exact I. Qed.

Lemma raises_bind {A B} (m : result A) (f : A → result B) :
  raises_parse m → (∀ a, raises_parse (f a)) → raises_parse (m ≫= f).
Proof. destruct m; cbn; auto. Qed.

Lemma raises_if {A} (b : bool) (m n : result A) :
  raises_parse m → raises_parse n → raises_parse (if b then m else n).
Proof. by destruct b. Qed.

Lemma raises_require b e : parse_exn e = true → raises_parse (require b e).
Proof. by destruct b. Qed.

(** Walk through a parser built from the constructs above. *)
Ltac raises :=
  repeat first
    [ progress auto with raises | simple apply raises_bind; [|intros ?]
    | simple apply raises_if | simple apply raises_require; reflexivity | reflexivity ].

Create HintDb raises discriminated.
#[export] Hint Resolve raises_Ok : raises.

Lemma raises_utf8_char c : raises_parse (utf8_char c).
Proof. unfold utf8_char. raises. Qed.
#[export] Hint Resolve raises_utf8_char : raises.

Lemma raises_utf8_encode s : raises_parse (utf8_encode s).
Proof. induction s; cbn [utf8_encode]; raises. Qed.
#[export] Hint Resolve raises_utf8_encode : raises.

Lemma raises_utf8_decode b : raises_parse (utf8_decode b).
Proof.
  remember (length b) as n eqn:Hn. revert b Hn.
  induction n as [n IH] using lt_wf_ind; intros b ->.
  destruct b as [|b0 r0]; cbn [utf8_decode]; [done|].
  apply raises_if; [raises; eapply IH; [|done]; cbn; lia|].
  apply raises_if.
  { destruct r0 as [|b1 r1]; [done|]. raises. eapply IH; [|done]. cbn. lia. }
  apply raises_if.
  { destruct r0 as [|b1 [|b2 r2]]; [done..|]. raises. eapply IH; [|done]. cbn. lia. }
  apply raises_if; [|done].
  destruct r0 as [|b1 [|b2 [|b3 r3]]]; [done..|]. raises. eapply IH; [|done]. cbn. lia.
Qed.
#[export] Hint Resolve raises_utf8_decode : raises.

Lemma raises_py_int s : raises_parse (py_int s).
Proof.
  unfold py_int. case_match. apply raises_bind; [by destruct (int_digits _ _)|intros ds].
  raises.
Qed.
Lemma raises_py_index {A} (l : list A) i : raises_parse (py_index l i).
Proof. unfold py_index. raises. by destruct (l !! _). Qed.
#[export] Hint Resolve raises_py_int raises_py_index : raises.

Lemma raises_parse_command data ck : raises_parse (_parse_command data ck).
Proof. unfold _parse_command. cbv zeta. raises. Qed.

Lemma raises_parse_packet_header data : raises_parse (parse_packet_header data).
Proof. unfold parse_packet_header. raises. case_match; [case_match|]; raises. Qed.

Lemma raises_parse_meta parts i : raises_parse (parse_meta parts i).
Proof. unfold parse_meta. raises. Qed.
#[export] Hint Resolve raises_parse_command raises_parse_packet_header raises_parse_meta
  : raises.

Lemma raises_parse_response data : raises_parse (_parse_response data).
Proof. unfold _parse_response. raises. Qed.
#[export] Hint Resolve raises_parse_response : raises.

(** ** The properties *)

(** C18: a command that is encoded, put in front of any further bytes of the
    stream and read back parses to the same header and command; with checksums
    on, the payload of a publish keeps its checksum text in front. *)
Theorem command_wire_roundtrip p ck f rest :
  wire_header (header p) → wire_command (body p) → encode_command p ck = Ok f →
  ∃ data, read_packet (ef_header f ++ rest) = Ok (data, rest) ∧
          parse_command data ck = Ok (mkPacket (header p) (received ck (body p))).
Proof. apply command_roundtrip. Qed.

Definition sample_command : Packet Command :=
  mkPacket (Some (mkPacketHeader (py "7")))
    (PublishCommand (py "orders") (py "hello world") (-1) false).
Definition sample_frame : EncodedFrame :=
  match encode_command sample_command true with Ok f => f | Raise _ => plain_frame [] end.

Lemma command_wire_roundtrip_witness :
  ∃ data, read_packet (ef_header sample_frame ++ [1; 2]) = Ok (data, [1; 2]) ∧
          parse_command data true
          = Ok (mkPacket (header sample_command) (received true (body sample_command))).
Proof.
  apply (command_wire_roundtrip sample_command true).
  - cbn. split; [vm_compute; discriminate|]. by apply (bool_decide_unpack _).
  - cbn. split; [by apply (bool_decide_unpack _)|]. split; [by left|]. eexists. by vm_compute.
  - by vm_compute.
Defined.

(** C19: a response that is encoded, framed and read back parses to the header and
    the response the protocol announces for it: the same one, or the one that
    carries the length of the payload sent behind it. *)
Theorem response_wire_roundtrip p f rest :
  wire_header (header p) → wire_response (body p) → encode_response p = Ok f →
  ∃ data, read_packet (ef_header f ++ rest) = Ok (data, rest) ∧
          parse_response data = Ok (mkPacket (header p) (announced (body p))).
Proof. apply response_roundtrip. Qed.

Definition sample_response : Packet Response :=
  packet (TopicMetaDataResponse
    (mkTopicMeta (py "orders") (py "b1") (py "host") 9092 [py "b2"; py "b3"] 4)).
Definition sample_response_frame : EncodedFrame :=
  match encode_response sample_response with Ok f => f | Raise _ => plain_frame [] end.

Lemma response_wire_roundtrip_witness :
  ∃ data, read_packet (ef_header sample_response_frame ++ [9]) = Ok (data, [9]) ∧
          parse_response data
          = Ok (mkPacket (header sample_response) (announced (body sample_response))).
Proof.
  apply (response_wire_roundtrip sample_response).
  - exact I.
  - cbn. unfold wire_meta, replicas_ok.
    split_and!; by apply (bool_decide_unpack _); vm_compute.
  - by vm_compute.
Defined.

(** [parse_records] returns exactly the messages whose length-prefixed
    concatenation it is given, and one round per byte always ends the generator:
    further rounds yield nothing. *)
Theorem parse_records_correct payload :
  Forall is_byte payload →
  (∀ msgs, frames msgs = Ok payload → parse_records payload = msgs) ∧
  (∀ k, parse_records_loop (k + length payload) payload 0 = parse_records payload).
Proof.
  intros Hb. split; [intros msgs; apply parse_records_frames|].
  induction k as [|k IH]; [done|]. cbn [Nat.add].
  rewrite parse_records_fuel by (done || lia). apply IH.
Qed.

Definition sample_batch : bytes :=
  match frames [py "a"; []; py "xyz"] with Ok b => b | Raise _ => [] end.

Lemma parse_records_correct_witness :
  frames [py "a"; []; py "xyz"] = Ok sample_batch ∧
  parse_records sample_batch = [py "a"; []; py "xyz"].
Proof.
  split; [by vm_compute|]. apply parse_records_correct.
  - apply (bool_decide_unpack _). by vm_compute.
  - by vm_compute.
Defined.

(** End to end, a payload published with a checksum is what the consumer
    decodes: the payload the broker stores for the encoded command is a record
    whose checksum verifies and whose message is the published text. *)
Theorem checked_publish_end_to_end topic payload t acks flag hdr f rest :
  wire_header hdr → wire_command (PublishCommand topic payload acks flag) →
  utf8_decode payload = Ok t →
  encode_command (mkPacket hdr (PublishCommand topic payload acks flag)) true = Ok f →
  ∃ data stored,
    read_packet (ef_header f ++ rest) = Ok (data, rest) ∧
    parse_command data true = Ok (mkPacket hdr (PublishCommand topic stored acks true)) ∧
    decode_record stored = Ok (crc32 payload, t).
Proof.
  intros Hh Hc Ht Hf. set (p := mkPacket _ _) in *.
  destruct (command_roundtrip p _ _ rest Hh Hc Hf) as (data & Hr & Hp). subst p.
  cbn [header body received] in Hp. unfold encode_command in Hf. inv_ok.
  cbn [body encode_command_body] in Ha0. inv_ok. match goal with H : py_str (crc32 _) = _ |- _ => rewrite H in Hp end.
  do 2 eexists. split_and!; [done..|]. by apply decode_record_checked.
Qed.

Lemma checked_publish_end_to_end_witness :
  ∃ data stored,
    read_packet (ef_header sample_frame ++ []) = Ok (data, []) ∧
    parse_command data true
      = Ok (mkPacket (header sample_command) (PublishCommand (py "orders") stored (-1) true)) ∧
    decode_record stored = Ok (crc32 (py "hello world"), py "hello world").
Proof.
  apply (checked_publish_end_to_end _ _ _ _ false).
  - cbn. split; [vm_compute; discriminate|]. by apply (bool_decide_unpack _).
  - cbn. split; [by apply (bool_decide_unpack _)|]. split; [by left|]. eexists. by vm_compute.
  - by vm_compute.
  - by vm_compute.
Defined.

(** A stored record in which one byte of the message was changed is never
    accepted: the CRC of the changed message differs. *)
Theorem corrupt_record_refused p b b' s c r :
  Forall is_byte p → is_byte b → is_byte b' → Forall is_byte s → b ≠ b' →
  py_str (crc32 (p ++ b :: s)) = Ok c →
  decode_record (c ++ 32 :: (p ++ b' :: s)) ≠ Ok r.
Proof. apply decode_record_corrupt. Qed.

Lemma corrupt_record_refused_witness :
  decode_record (py "907060870" ++ 32 :: py "hellp") ≠ Ok (907060870, py "hellp").
Proof.
  apply (corrupt_record_refused (py "hell") 111 112 [] (py "907060870")).
  - apply (bool_decide_unpack _). by vm_compute.
  - split; by vm_compute.
  - split; by vm_compute.
  - constructor.
  - discriminate.
  - by vm_compute.
Defined.

(** The payload sent behind a metadata list parses back to the list, record
    by record, blank separators and empty replica lists included. *)
Theorem metadata_list_roundtrip l lines payload :
  Forall wire_meta_line l → meta_lines l = Ok lines →
  utf8_encode (py_join [10] lines) = Ok payload →
  parse_metadata_list_payload payload = Ok l.
Proof. apply metadata_list_payload. Qed.

Definition sample_metas : list TopicMeta :=
  [mkTopicMeta (py "t") (py "b1") (py "h") 1 [] 0;
   mkTopicMeta (py "u") (py "b2") (py "k") 2 [py "b1"; py "b3"] 7].

Lemma metadata_list_roundtrip_witness :
  parse_metadata_list_payload (match meta_lines sample_metas with
    | Ok lines => match utf8_encode (py_join [10] lines) with Ok b => b | _ => [] end
    | _ => [] end) = Ok sample_metas.
Proof.
  eapply metadata_list_roundtrip; [|by vm_compute..].
  repeat constructor; try (by apply (bool_decide_unpack _)); by vm_compute.
Defined.

(** Whatever bytes arrive, parsing a command, a response, a metadata list or a
    record raises nothing but a [ValueError] (or a subclass) or an [IndexError]. *)
Theorem parser_exceptions data ck :
  raises_parse (parse_command data ck) ∧ raises_parse (parse_response data).
Proof.
  unfold parse_command, parse_response.
  split; raises; destruct a; raises.
Qed.

(** Every frame written by [encode_frame] is its payload's length in four
    bytes and the payload; it exists exactly when the length fits. *)
Theorem encode_frame_bounds payload :
  is_Ok (encode_frame payload) ↔ zlen payload < 2 ^ 32.
Proof.
  split; [|apply encode_frame_total]. intros (f & (p & Hp & _)%encode_frame_Ok).
  apply to_bytes_Ok in Hp. lia.
Qed.
