(* ===== verification/Md5.v ===== *)
(** * [hashlib.md5]

    The hash the controller's ring uses, from its definition: padding, sixteen
    words per block, four rounds of sixteen steps. *)
From Stdlib Require Import String.
From S2P Require Import Prelude PyData.

Definition word (x : Z) : Z := Z.land x 0xFFFFFFFF.
Definition rotl (x c : Z) : Z :=
  word (Z.lor (Z.shiftl x c) (Z.shiftr (word x) (32 - c))).

(** The constants and rotations of the 64 steps. *)
Definition md5_K : list Z :=
  [
   0xd76aa478; 0xe8c7b756; 0x242070db; 0xc1bdceee; 0xf57c0faf; 0x4787c62a;
   0xa8304613; 0xfd469501; 0x698098d8; 0x8b44f7af; 0xffff5bb1; 0x895cd7be;
   0x6b901122; 0xfd987193; 0xa679438e; 0x49b40821; 0xf61e2562; 0xc040b340;
   0x265e5a51; 0xe9b6c7aa; 0xd62f105d; 0x02441453; 0xd8a1e681; 0xe7d3fbc8;
   0x21e1cde6; 0xc33707d6; 0xf4d50d87; 0x455a14ed; 0xa9e3e905; 0xfcefa3f8;
   0x676f02d9; 0x8d2a4c8a; 0xfffa3942; 0x8771f681; 0x6d9d6122; 0xfde5380c;
   0xa4beea44; 0x4bdecfa9; 0xf6bb4b60; 0xbebfbc70; 0x289b7ec6; 0xeaa127fa;
   0xd4ef3085; 0x04881d05; 0xd9d4d039; 0xe6db99e5; 0x1fa27cf8; 0xc4ac5665;
   0xf4292244; 0x432aff97; 0xab9423a7; 0xfc93a039; 0x655b59c3; 0x8f0ccc92;
   0xffeff47d; 0x85845dd1; 0x6fa87e4f; 0xfe2ce6e0; 0xa3014314; 0x4e0811a1;
   0xf7537e82; 0xbd3af235; 0x2ad7d2bb; 0xeb86d391].
Definition md5_S : list Z :=
  [
   7; 12; 17; 22; 7; 12; 17; 22; 7; 12; 17; 22; 7; 12; 17; 22;
   5; 9; 14; 20; 5; 9; 14; 20; 5; 9; 14; 20; 5; 9; 14; 20;
   4; 11; 16; 23; 4; 11; 16; 23; 4; 11; 16; 23; 4; 11; 16; 23;
   6; 10; 15; 21; 6; 10; 15; 21; 6; 10; 15; 21; 6; 10; 15; 21].

(** The little-endian words of a block, and the bytes of a word. *)
Definition le_word (b : bytes) : Z := from_bytes (rev b).
Definition le_bytes (x : Z) : bytes := rev (be_bytes 4 x).
Fixpoint words_of (n : nat) (b : bytes) : list Z :=
  match n with O => [] | S n => le_word (take 4 b) :: words_of n (drop 4 b) end.

Definition md5_state : Type := Z * Z * Z * Z.

(** Step [i] on the words [m] of a block. *)
Definition md5_step (m : list Z) (st : md5_state) (i : nat) : md5_state :=
  let '(a, b, c, d) := st in
  let notw x := Z.lxor x 0xFFFFFFFF in
  let '(f, g) :=
    if (i <? 16)%nat then (Z.lor (Z.land b c) (Z.land (notw b) d), i)
    else if (i <? 32)%nat then (Z.lor (Z.land d b) (Z.land (notw d) c), (5 * i + 1) mod 16)%nat
    else if (i <? 48)%nat then (Z.lxor b (Z.lxor c d), (3 * i + 5) mod 16)%nat
    else (Z.lxor c (Z.lor b (notw d)), (7 * i) mod 16)%nat in
  let f := word (f + a + nth i md5_K 0 + nth g m 0) in
  (d, word (b + rotl f (nth i md5_S 0)), b, c).

Definition md5_block (st : md5_state) (block : bytes) : md5_state :=
  let '(a, b, c, d) := st in
  let '(a', b', c', d') := fold_left (md5_step (words_of 16 block)) (seq 0 64) st in
  (word (a + a'), word (b + b'), word (c + c'), word (d + d')).

Fixpoint md5_blocks (n : nat) (st : md5_state) (data : bytes) : md5_state :=
  match n with
  | O => st
  | S n => md5_blocks n (md5_block st (take 64 data)) (drop 64 data)
  end.

Definition md5_pad (msg : bytes) : bytes :=
  let l := length msg in
  msg ++ 128 :: replicate ((119 - l mod 64) mod 64) 0
    ++ le_bytes (8 * Z.of_nat l) ++ le_bytes (Z.shiftr (8 * Z.of_nat l) 32).

(** [hashlib.md5(msg).digest()] *)
Definition md5 (msg : bytes) : bytes :=
  let data := md5_pad msg in
  let '(a, b, c, d) := md5_blocks (length data / 64) (0x67452301, 0xefcdab89, 0x98badcfe, 0x10325476) data in
  le_bytes a ++ le_bytes b ++ le_bytes c ++ le_bytes d.

(** Test vectors of the RFC. *)
Example md5_empty : from_bytes (md5 []) = 0xd41d8cd98f00b204e9800998ecf8427e.
Proof. by vm_compute. Qed.
Example md5_alphabet :
  from_bytes (md5 (py "abcdefghijklmnopqrstuvwxyz")) = 0xc3fcd3d76192e4007dfb496cca67e13b.
Proof. by vm_compute. Qed.
Example md5_digits :
  from_bytes (md5 (py "12345678901234567890123456789012345678901234567890123456789012345678901234567890"))
  = 0x57edf4a22be3c955ac49da2e2107b67a.
Proof. by vm_compute. Qed.
