(* ===== verification/Ring.v ===== *)
(** * The consistent-hash ring of [metastore/manager.py]

    The operations take the hash as an argument; [_hash] is the one of the code. *)
From Stdlib Require Import String.
From S2P Require Import Prelude PyData Bisect Md5.

(** [int(md5(key.encode()).hexdigest(), 16) & 0xFFFFFFFF] *)
Definition _hash (key : pystr) : result Z :=
  b ← utf8_encode key;
  Ok (Z.land (from_bytes (md5 b)) 0xFFFFFFFF).

(** [ring] is read by key only, and tested for being empty. *)
Record Ring := mkRing {
  replicas : nat;
  ring : gmap Z (list Z);
  _sorted_keys : list Z }.

Definition set_ring (m : gmap Z (list Z)) (k : list Z) (r : Ring) : Ring :=
  mkRing (replicas r) m k.

(** [ConsistentHashRing(replicas)]; the default is 50. *)
Definition new_ring (replicas : nat) : Ring := mkRing replicas ∅ [].

Section ring.
Context (hash : pystr → result Z).

(** The key of [f"{node_id}-vnode-{i}"]. *)
Definition vnode_key (node_id : pystr) (i : nat) : result Z :=
  n ← py_str (Z.of_nat i);
  hash (node_id ++ py "-vnode-" ++ n).

(** The bodies of the two loops over the virtual nodes. *)
Definition remove_vnode (node_id : pystr) (i : nat) : M Ring unit :=
  key ← lift (vnode_key node_id i);
  r ← get;
  match ring r !! key with
  | Some _ =>
      let idx := bisect_left (_sorted_keys r) key in
      let keys :=
        if bool_decide (_sorted_keys r !! idx = Some key)
        then delete idx (_sorted_keys r) else _sorted_keys r in
      modify (set_ring (delete key (ring r)) keys)
  | None => mret tt
  end.

Definition add_vnode (node_id : pystr) (i : nat) : M Ring unit :=
  key ← lift (vnode_key node_id i);
  modify (λ r, set_ring (<[key := node_id]> (ring r)) (insort (_sorted_keys r) key) r).

Fixpoint for_each (f : nat → M Ring unit) (l : list nat) : M Ring unit :=
  match l with
  | [] => mret tt
  | i :: l => f i;; for_each f l
  end.

Definition remove_node (node_id : pystr) : M Ring unit :=
  r ← get; for_each (remove_vnode node_id) (seq 0 (replicas r)).

Definition add_node (node_id : pystr) : M Ring unit :=
  remove_node node_id;;
  r ← get; for_each (add_vnode node_id) (seq 0 (replicas r)).

Definition get_node (r : Ring) (topic : pystr) : result (option (list Z)) :=
  if bool_decide (ring r = ∅) then Ok None
  else
    key ← hash topic;
    let idx := bisect_right (_sorted_keys r) key in
    let idx := if (idx =? length (_sorted_keys r))%nat then 0%nat else idx in
    k ← or_raise (_sorted_keys r !! idx) IndexError;
    n ← or_raise (ring r !! k) KeyError;
    Ok (Some n).

(** The loop of [get_replicas] from round [i] on. *)
Fixpoint replicas_loop (rounds : nat) (r : Ring) (idx i : nat) (count : Z)
    (found : list (list Z)) : result (list (list Z)) :=
  match rounds with
  | O => Ok found
  | S rounds =>
      let curr_idx := ((idx + i) mod length (_sorted_keys r))%nat in
      k ← or_raise (_sorted_keys r !! curr_idx) IndexError;
      node ← or_raise (ring r !! k) KeyError;
      if bool_decide (node ∈ found) then replicas_loop rounds r idx (S i) count found
      else
        let found := found ++ [node] in
        if zlen found =? count then Ok found
        else replicas_loop rounds r idx (S i) count found
  end.
Definition get_replicas (r : Ring) (topic : pystr) (count : Z) : result (list (list Z)) :=
  if bool_decide (ring r = ∅) then Ok []
  else
    key ← hash topic;
    let idx := bisect_right (_sorted_keys r) key in
    replicas_loop (length (_sorted_keys r)) r idx 0 count [].
End ring.
