(* ===== verification/RingFacts.v ===== *)
(** * Facts about the hash ring

    The ring represents the set of live brokers, and what the clockwise walk meets. *)
From Stdlib Require Import String.
From stdpp Require Import sorting fin_sets.
From S2P Require Import Prelude PyData Bisect Md5 Ring.

(** The dictionary and the sorted keys hold exactly the pairs of [Q]. *)
Record rep (r : Ring) (Q : Z → pystr → Prop) : Prop := {
  rep_ring : ∀ k n, ring r !! k = Some n ↔ Q k n;
  rep_sorted : StronglySorted Z.le (_sorted_keys r);
  rep_nodup : NoDup (_sorted_keys r);
  rep_keys : ∀ k, k ∈ _sorted_keys r ↔ is_Some (ring r !! k) }.

Lemma rep_ext r Q Q' : (∀ k n, Q k n ↔ Q' k n) → rep r Q → rep r Q'.
Proof. intros HQ [H1 H2 H3 H4]. split; auto. intros k n. by rewrite H1. Qed.

Lemma new_ring_rep R : rep (new_ring R) (λ _ _, False).
Proof.
  split; cbn.
  - intros k n. by rewrite lookup_empty.
  - constructor.
  - apply NoDup_nil_2.
  - intros k. rewrite lookup_empty, elem_of_nil. split; [done|by intros [? ?]].
Qed.

(** ** Finding, removing and inserting a key *)

Lemma bisect_left_found keys k :
  StronglySorted Z.le keys → k ∈ keys → keys !! bisect_left keys k = Some k.
Proof.
  intros Hs [j Hj]%list_elem_of_lookup_1.
  destruct (bisect_left_split keys k Hs) as (Hi & Ht & Hd).
  set (i := bisect_left keys k) in *. clearbody i. rewrite Forall_lookup in Ht, Hd.
  assert (i ≤ j)%nat as Hij.
  { destruct (decide (i ≤ j)%nat); [done|]. exfalso.
    specialize (Ht j k). rewrite lookup_take_lt in Ht by lia. specialize (Ht Hj). cbn in Ht. lia. }
  pose proof (lookup_lt_Some _ _ _ Hj).
  destruct (lookup_lt_is_Some_2 keys i) as [x Hx]; [lia|]. rewrite Hx. f_equal.
  pose proof (sorted_lookup keys i j x k Hs Hij Hx Hj).
  specialize (Hd 0%nat x). rewrite lookup_drop, Nat.add_0_r in Hd. specialize (Hd Hx). lia.
Qed.

Lemma delete_sorted (l : list Z) i : StronglySorted Z.le l → StronglySorted Z.le (delete i l).
Proof.
  intros Hl. revert i. induction Hl as [|x l Hl IH Hx]; intros [|i]; cbn; auto; constructor; auto.
  by apply Forall_delete.
Qed.

Lemma elem_of_delete (l : list Z) i k x :
  NoDup l → l !! i = Some k → x ∈ delete i l ↔ x ∈ l ∧ x ≠ k.
Proof.
  intros Hn Hi. pose proof (delete_Permutation l i k Hi) as Hp. rewrite Hp in Hn.
  apply NoDup_cons in Hn as [Hk _]. rewrite Hp at 2. rewrite elem_of_cons. naive_solver.
Qed.

Section facts.
Context (hash : pystr → result Z).

Lemma remove_vnode_rep node i key r Q :
  vnode_key hash node i = Ok key → rep r Q →
  ∃ r', remove_vnode hash node i r = (Ok tt, r') ∧ replicas r' = replicas r ∧
    rep r' (λ k n, Q k n ∧ k ≠ key).
Proof.
  intros Hk [H1 H2 H3 H4]. unfold remove_vnode. run. rewrite Hk. run.
  destruct (ring r !! key) as [n|] eqn:Hr; run.
  - assert (key ∈ _sorted_keys r) as Hin by (apply H4; eauto).
    pose proof (bisect_left_found _ _ H2 Hin) as Hi. rewrite bool_decide_eq_true_2 by done.
    eexists. split; [reflexivity|]. split; [done|]. split; cbn.
    + intros k m. rewrite lookup_delete_Some, H1. naive_solver.
    + by apply delete_sorted.
    + eapply sublist_NoDup; [exact H3|apply sublist_delete].
    + intros k. rewrite (elem_of_delete _ _ key), H4 by done. rewrite lookup_delete_is_Some.
      naive_solver.
  - exists r. split; [done|]. split; [done|]. split; auto.
    intros k m. rewrite H1. split; [|naive_solver]. intros HQ. split; [done|].
    intros ->. apply H1 in HQ. congruence.
Qed.

Lemma add_vnode_rep node i key r Q :
  vnode_key hash node i = Ok key → (∀ n, ¬ Q key n) → rep r Q →
  ∃ r', add_vnode hash node i r = (Ok tt, r') ∧ replicas r' = replicas r ∧
    rep r' (λ k n, Q k n ∨ (k = key ∧ n = node)).
Proof.
  intros Hk Hf [H1 H2 H3 H4]. unfold add_vnode. run. rewrite Hk. run.
  assert (ring r !! key = None) as Hn.
  { destruct (ring r !! key) eqn:E; [|done]. apply H1 in E. by apply Hf in E. }
  eexists. split; [reflexivity|]. split; [done|]. split; cbn.
  - intros k m. rewrite lookup_insert_Some, H1. split; [naive_solver|].
    intros [HQ|[-> ->]]; [right|by left]. split; [|done]. intros <-. by apply Hf in HQ.
  - by apply insort_sorted.
  - rewrite insort_perm. apply NoDup_cons. split; [|done]. rewrite H4, Hn. by intros [? ?].
  - intros k. rewrite insort_perm, elem_of_cons, H4, lookup_insert_is_Some'.
    split; intros [?|?]; subst; auto.
Qed.

Lemma remove_all_rep node l r Q :
  (∀ i, i ∈ l → is_Ok (vnode_key hash node i)) → rep r Q →
  ∃ r', for_each (remove_vnode hash node) l r = (Ok tt, r') ∧ replicas r' = replicas r ∧
    rep r' (λ k n, Q k n ∧ ∀ i, i ∈ l → vnode_key hash node i ≠ Ok k).
Proof.
  revert r Q. induction l as [|i l IH]; intros r Q Hok Hr; cbn [for_each].
  - exists r. split; [done|]. split; [done|]. eapply rep_ext; [|exact Hr].
    intros k n. split; [|naive_solver]. intros HQ. split; [done|]. by intros i ?%not_elem_of_nil.
  - destruct (Hok i) as [key Hk]; [left|].
    destruct (remove_vnode_rep _ _ _ _ _ Hk Hr) as (r1 & E1 & R1 & Hr1).
    destruct (IH r1 _ (λ j Hj, Hok j (list_elem_of_further _ _ _ Hj)) Hr1) as (r2 & E2 & R2 & Hr2).
    exists r2. run. rewrite E1. run. split; [done|]. split; [congruence|].
    eapply rep_ext; [|exact Hr2]. intros k n. cbn. split.
    + intros [[HQ Hne] Hl]. split; [done|]. intros j [->|Hj]%elem_of_cons; [congruence|auto].
    + intros [HQ Hl]. split; [split; [done|]|].
      * intros ->. by apply (Hl i); [left|].
      * intros j Hj. apply Hl. by right.
Qed.

Lemma add_all_rep node l r Q :
  NoDup l → (∀ i, i ∈ l → is_Ok (vnode_key hash node i)) →
  (∀ i j k, i ∈ l → j ∈ l → vnode_key hash node i = Ok k → vnode_key hash node j = Ok k → i = j) →
  (∀ i k n, i ∈ l → vnode_key hash node i = Ok k → ¬ Q k n) → rep r Q →
  ∃ r', for_each (add_vnode hash node) l r = (Ok tt, r') ∧ replicas r' = replicas r ∧
    rep r' (λ k n, Q k n ∨ (n = node ∧ ∃ i, i ∈ l ∧ vnode_key hash node i = Ok k)).
Proof.
  revert r Q. induction l as [|i l IH]; intros r Q Hnd Hok Hinj Hf Hr; cbn [for_each].
  - exists r. split; [done|]. split; [done|]. eapply rep_ext; [|exact Hr].
    intros k n. split; [by left|]. intros [?|(_ & i & ?%not_elem_of_nil & _)]; done.
  - apply NoDup_cons in Hnd as [Hi Hnd]. destruct (Hok i) as [key Hk]; [left|].
    destruct (add_vnode_rep node i key r Q Hk) as (r1 & E1 & R1 & Hr1); [|done|].
    { intros n. eapply Hf; [left|done]. }
    edestruct (IH r1 (λ k n, Q k n ∨ k = key ∧ n = node) Hnd) as (r2 & E2 & R2 & Hr2); [| | |exact Hr1|].
    + intros j Hj. apply Hok. by right.
    + intros j j' k Hj Hj'. apply Hinj; by right.
    + intros j k n Hj Hjk [HQ|[-> ->]]; [eapply Hf; [right; exact Hj|done..]|].
      apply Hi. rewrite (Hinj i j key); [done|left|by right|done|done].
    + exists r2. run. rewrite E1. run. split; [done|]. split; [congruence|].
      eapply rep_ext; [|exact Hr2]. intros k n. cbn. setoid_rewrite elem_of_cons.
      split; [naive_solver|]. intros [?|(-> & j & [->|Hj] & E)]; [auto|left; right|eauto 10].
      split; [congruence|done].
Qed.
End facts.

(** ** Brokers whose virtual nodes do not collide *)

Lemma mapM_result_lookup {A B} (f : A → result B) l k i x :
  mapM f l = Ok k → l !! i = Some x → ∃ y, k !! i = Some y ∧ f x = Ok y.
Proof.
  revert k i. induction l as [|a l IH]; intros k i Hm Hi; [done|]. cbn in Hm. inv_ok.
  destruct i as [|i]; cbn in *; [simplify_eq; eauto|]. by apply IH.
Qed.

Lemma elem_of_concat_lookup (kss : list (list Z)) a x i k :
  kss !! a = Some x → x !! i = Some k → k ∈ concat kss.
Proof.
  intros Ha Hi. apply list_elem_of_In, in_concat. exists x.
  split; apply list_elem_of_In; by eapply list_elem_of_lookup_2.
Qed.

Lemma NoDup_concat_lookup (kss : list (list Z)) a b i j x y k :
  NoDup (concat kss) → kss !! a = Some x → kss !! b = Some y →
  x !! i = Some k → y !! j = Some k → a = b ∧ i = j.
Proof.
  revert a b. induction kss as [|z kss IH]; intros a b Hnd Ha Hb Hi Hj; [done|].
  cbn in Hnd. apply NoDup_app in Hnd as (Hz & Hd & Hr).
  destruct a as [|a], b as [|b]; cbn in Ha, Hb.
  - injection Ha as ->. injection Hb as ->. split; [done|]. by apply (NoDup_lookup y i j k).
  - injection Ha as ->. exfalso. apply (Hd k); [by eapply list_elem_of_lookup_2|].
    by eapply elem_of_concat_lookup.
  - injection Hb as ->. exfalso. apply (Hd k); [by eapply list_elem_of_lookup_2|].
    by eapply elem_of_concat_lookup.
  - destruct (IH a b Hr Ha Hb Hi Hj) as [-> ->]. done.
Qed.

Section brokers.
Context (hash : pystr → result Z) (R : nat) (brokers : list (list Z)).

(** The keys of all virtual nodes of all brokers exist and are different. *)
Definition collision_free : Prop :=
  match mapM (λ n, mapM (vnode_key hash n) (seq 0 R)) brokers with
  | Ok kss => NoDup (concat kss)
  | Raise _ => False
  end.

#[export] Instance collision_free_dec : Decision collision_free.
Proof. unfold collision_free. destruct (mapM _ _); apply _. Defined.

Context (Hcf : collision_free).

Lemma vnode_lookup n i :
  n ∈ brokers → (i < R)%nat →
  ∃ kss a ks k, mapM (λ n, mapM (vnode_key hash n) (seq 0 R)) brokers = Ok kss ∧
    brokers !! a = Some n ∧ kss !! a = Some ks ∧ ks !! i = Some k ∧ vnode_key hash n i = Ok k.
Proof.
  intros [a Ha]%list_elem_of_lookup_1 Hi. unfold collision_free in Hcf.
  destruct (mapM _ brokers) as [kss|] eqn:E; [|done].
  destruct (mapM_result_lookup _ _ _ _ _ E Ha) as (ks & Hks & Em).
  destruct (mapM_result_lookup _ _ _ i i Em) as (k & Hk & Ek).
  { apply lookup_seq. lia. }
  by exists kss, a, ks, k.
Qed.

Lemma vnode_Ok n i : n ∈ brokers → (i < R)%nat → is_Ok (vnode_key hash n i).
Proof. intros Hn Hi. destruct (vnode_lookup n i Hn Hi) as (_ & _ & _ & k & _ & _ & _ & _ & E). by exists k. Qed.

Lemma vnode_inj n n' i i' k :
  n ∈ brokers → n' ∈ brokers → (i < R)%nat → (i' < R)%nat →
  vnode_key hash n i = Ok k → vnode_key hash n' i' = Ok k → n = n' ∧ i = i'.
Proof.
  intros Hn Hn' Hi Hi' E E'.
  destruct (vnode_lookup n i Hn Hi) as (kss & a & ks & k1 & Em & Ha & Hks & Hk & Ek).
  destruct (vnode_lookup n' i' Hn' Hi') as (kss' & b & ks' & k2 & Em' & Hb & Hks' & Hk' & Ek').
  assert (kss' = kss) as -> by congruence. assert (k1 = k) as -> by congruence.
  assert (k2 = k) as -> by congruence. unfold collision_free in Hcf. rewrite Em in Hcf.
  destruct (NoDup_concat_lookup kss a b i i' ks ks' k) as [-> ->]; [done..|].
  split; [congruence|done].
Qed.

(** The pairs of a ring whose members are [live]. *)
Definition owns (live : gset (list Z)) (k : Z) (n : pystr) : Prop :=
  n ∈ live ∧ ∃ i, (i < R)%nat ∧ vnode_key hash n i = Ok k.

Lemma remove_node_rep live n r :
  live ⊆ list_to_set brokers → n ∈ brokers → replicas r = R → rep r (owns live) →
  ∃ r', remove_node hash n r = (Ok tt, r') ∧ replicas r' = R ∧ rep r' (owns (live ∖ {[ n ]})).
Proof.
  intros Hl Hn HR Hr. unfold remove_node. run. rewrite HR.
  destruct (remove_all_rep hash n (seq 0 R) r (owns live)) as (r' & E & HR' & Hr'); [|done|].
  { intros i Hi%elem_of_seq. apply vnode_Ok; [done|lia]. }
  exists r'. split; [done|]. split; [congruence|]. eapply rep_ext; [|exact Hr'].
  intros k m. unfold owns. cbn. rewrite elem_of_difference, elem_of_singleton. split.
  - intros [[Hm (i & Hi & Ei)] Hall]. split; [|by eauto]. split; [done|]. intros ->.
    apply (Hall i); [apply elem_of_seq; lia|done].
  - intros [[Hm Hne] (i & Hi & Ei)]. split; [by eauto|]. intros j Hj%elem_of_seq Ej.
    apply Hne. eapply (vnode_inj m n i j k); [|done|done|lia|done|done].
    apply Hl in Hm. by apply elem_of_list_to_set in Hm.
Qed.

Lemma add_node_rep live n r :
  live ⊆ list_to_set brokers → n ∈ brokers → replicas r = R → rep r (owns live) →
  ∃ r', add_node hash n r = (Ok tt, r') ∧ replicas r' = R ∧ rep r' (owns ({[ n ]} ∪ live)).
Proof.
  intros Hl Hn HR Hr. destruct (remove_node_rep live n r Hl Hn HR Hr) as (r1 & E1 & HR1 & Hr1).
  unfold add_node. run. rewrite E1. run. rewrite HR1.
  destruct (add_all_rep hash n (seq 0 R) r1 (owns (live ∖ {[ n ]})))
    as (r2 & E2 & HR2 & Hr2); [apply NoDup_seq| | | |done|].
  - intros i Hi%elem_of_seq. apply vnode_Ok; [done|lia].
  - intros i j k Hi%elem_of_seq Hj%elem_of_seq Ei Ej.
    by apply (vnode_inj n n i j k); [..|lia|lia| |].
  - intros i k m Hi%elem_of_seq Ei [Hm (j & Hj & Ej)].
    rewrite elem_of_difference, elem_of_singleton in Hm. destruct Hm as [Hm Hne].
    apply Hne. eapply (vnode_inj m n j i k); [|done|done|lia|done|done].
    apply Hl in Hm. by apply elem_of_list_to_set in Hm.
  - exists r2. split; [done|]. split; [congruence|]. eapply rep_ext; [|exact Hr2].
    intros k m. unfold owns. cbn. rewrite elem_of_union, elem_of_difference, elem_of_singleton.
    split.
    + intros [[[? ?] ?]|(-> & i & Hi%elem_of_seq & E)]; [auto|]. split; [by left|].
      exists i. split; [lia|done].
    + intros [Hm (i & Hi & E)]. destruct (decide (m = n)) as [->|Hne].
      * right. split; [done|]. exists i. split; [apply elem_of_seq; lia|done].
      * left. destruct Hm as [?|Hm]; [done|]. eauto.
Qed.
End brokers.

(** How far the virtual node at [k] is from a topic that hashes to [key],
    clockwise; a node at [key] itself is the farthest. *)
Definition distance (key k : Z) : Z := (k - key - 1) mod 2 ^ 32.

Definition word (k : Z) : Prop := 0 <= k < 2 ^ 32.

Lemma distance_after key k : word key → word k → key < k → distance key k = k - key - 1.
Proof. unfold word, distance. intros. rewrite Z.mod_small; lia. Qed.
Lemma distance_before key k :
  word key → word k → k <= key → distance key k = k - key - 1 + 2 ^ 32.
Proof.
  unfold word, distance. intros. rewrite <-(Z.mod_add _ 1) by lia. rewrite Z.mod_small; lia.
Qed.

(** The sorted keys in the order of the walk. *)
Definition clockwise (keys : list Z) (key : Z) : list Z :=
  let i := bisect_right keys key in drop i keys ++ take i keys.

Lemma clockwise_perm keys key : clockwise keys key ≡ₚ keys.
Proof. unfold clockwise. rewrite Permutation_app_comm. by rewrite take_drop. Qed.

Lemma sorted_strict keys : StronglySorted Z.le keys → NoDup keys → StronglySorted Z.lt keys.
Proof.
  induction 1 as [|k keys Hs IH Hk]; intros Hn; constructor.
  - apply NoDup_cons in Hn as [_ Hn]. auto.
  - apply NoDup_cons in Hn as [Hn _]. rewrite Forall_forall in Hk |- *. intros x Hx.
    specialize (Hk x Hx). destruct (decide (k = x)) as [->|]; [done|lia].
Qed.

Lemma sorted_impl {A} (P Q : A → A → Prop) l :
  (∀ x y, x ∈ l → y ∈ l → P x y → Q x y) → StronglySorted P l → StronglySorted Q l.
Proof.
  intros HPQ Hs. revert HPQ. induction Hs as [|x l Hs IH Hx]; intros HPQ; constructor.
  - apply IH. intros y z Hy Hz. apply HPQ; by right.
  - rewrite Forall_forall in Hx |- *. intros y Hy. apply HPQ; [left|by right|auto].
Qed.

Lemma clockwise_sorted keys key :
  StronglySorted Z.le keys → NoDup keys → word key → Forall word keys →
  StronglySorted (λ k k', distance key k < distance key k') (clockwise keys key).
Proof.
  intros Hs Hn Hkey Hw. destruct (bisect_right_split keys key Hs) as (_ & Ht & Hd).
  unfold clockwise. set (i := bisect_right keys key) in *. clearbody i.
  pose proof (sorted_strict _ Hs Hn) as Hlt. rewrite <-(take_drop i keys) in Hlt, Hw.
  apply StronglySorted_app in Hlt as (_ & Hlt & Hld). apply Forall_app in Hw as [Hwt Hwd].
  rewrite Forall_forall in Ht, Hd, Hwt, Hwd.
  apply StronglySorted_app_2.
  - intros x y Hx Hy. specialize (Hd x Hx). specialize (Ht y Hy). cbn in *.
    rewrite (distance_after key x), (distance_before key y) by (auto; lia).
    specialize (Hwd x Hx). specialize (Hwt y Hy). unfold word in *. lia.
  - eapply sorted_impl; [|exact Hld]. intros x y Hx Hy Hxy.
    pose proof (Hd x Hx). pose proof (Hd y Hy). cbn in *.
    rewrite !distance_after by (auto; lia). lia.
  - eapply sorted_impl; [|exact Hlt]. intros x y Hx Hy Hxy.
    pose proof (Ht x Hx). pose proof (Ht y Hy). cbn in *.
    rewrite !distance_before by (auto; lia). lia.
Qed.

Lemma clockwise_lookup keys key j :
  StronglySorted Z.le keys → (j < length keys)%nat →
  clockwise keys key !! j = keys !! ((bisect_right keys key + j) mod length keys)%nat.
Proof.
  intros Hs Hj. unfold clockwise.
  assert (bisect_right keys key ≤ length keys)%nat as Hi.
  { by destruct (bisect_right_split keys key Hs). }
  set (i := bisect_right keys key) in *. clearbody i. rewrite lookup_app, lookup_drop, length_drop.
  destruct (decide (i + j < length keys)%nat) as [Hlt|Hge].
  - rewrite Nat.mod_small by done. by destruct (lookup_lt_is_Some_2 keys (i + j) Hlt) as [x ->].
  - rewrite (lookup_ge_None_2 keys (i + j)) by lia.
    assert ((i + j) mod length keys = i + j - length keys)%nat as ->.
    { symmetry. apply (Nat.mod_unique _ _ 1); lia. }
    rewrite lookup_take_lt by lia. f_equal. lia.
Qed.

(** ** The walk over the owners *)

(** [get_replicas] on the owners of the virtual nodes in the order of the walk. *)
Fixpoint walk (count : Z) (owners found : list (list Z)) : list (list Z) :=
  match owners with
  | [] => found
  | n :: owners =>
      if bool_decide (n ∈ found) then walk count owners found
      else if zlen (found ++ [n]) =? count then found ++ [n]
      else walk count owners (found ++ [n])
  end.

(** Every node of [keys] has an owner in [owners]. *)
Definition owned (r : Ring) (keys : list Z) (owners : list (list Z)) : Prop :=
  Forall2 (λ k n, ring r !! k = Some n) keys owners.

Lemma owners_exist r Q keys :
  rep r Q → (∀ k, k ∈ keys → k ∈ _sorted_keys r) → ∃ owners, owned r keys owners.
Proof.
  intros Hr. induction keys as [|k keys IH]; intros Hk; [by exists []; constructor|].
  destruct IH as [owners IH]; [intros x ?; apply Hk; by right|].
  destruct (proj1 (rep_keys _ _ Hr k)) as [n Hn]; [apply Hk; left|].
  exists (n :: owners). by constructor.
Qed.

Lemma replicas_loop_walk r key owners rounds i count found :
  StronglySorted Z.le (_sorted_keys r) → owned r (clockwise (_sorted_keys r) key) owners →
  (i + rounds = length (_sorted_keys r))%nat →
  replicas_loop rounds r (bisect_right (_sorted_keys r) key) i count found
  = Ok (walk count (drop i owners) found).
Proof.
  intros Hs Ho. set (keys := _sorted_keys r) in *.
  assert (length owners = length keys) as Hlen.
  { rewrite <-(Forall2_length _ _ _ Ho). apply Permutation_length, clockwise_perm. }
  revert i found. induction rounds as [|rounds IH]; intros i found Hi; cbn [replicas_loop].
  - by rewrite drop_ge by lia.
  - fold keys. rewrite <-clockwise_lookup by (auto; lia).
    destruct (lookup_lt_is_Some_2 (clockwise keys key) i) as [k Hk].
    { rewrite (Permutation_length (clockwise_perm keys key)). lia. }
    destruct (Forall2_lookup_l _ _ _ _ _ Ho Hk) as (n & Hn & Hkn).
    rewrite Hk. cbn. rewrite Hkn. cbn. rewrite (drop_S owners n i Hn). cbn [walk].
    destruct (bool_decide (n ∈ found)); [apply IH; lia|].
    destruct (zlen (found ++ [n]) =? count); [done|]. apply IH. lia.
Qed.

(** Some virtual node of [a] comes before all of [b]. *)
Definition nearer (Q : Z → pystr → Prop) (key : Z) (a b : list Z) : Prop :=
  ∃ ka, Q ka a ∧ ∀ kb, Q kb b → distance key ka < distance key kb.

(** [l] is what a walk with [count] has to return: different nodes of [Q] from
    the nearest to the farthest, nearer than all others, as many as asked for. *)
Record nearest (Q : Z → pystr → Prop) (key count : Z) (l : list (list Z)) : Prop := {
  nearest_nodup : NoDup l;
  nearest_sorted : StronglySorted (nearer Q key) l;
  nearest_live n : n ∈ l → ∃ k, Q k n;
  nearest_others n n' k : n ∈ l → n' ∉ l → Q k n' → nearer Q key n n';
  nearest_count : (1 <= count ∧ zlen l = count) ∨
    ((1 <= count → zlen l < count) ∧ ∀ k n, Q k n → n ∈ l) }.

Section walk.
Context (r : Ring) (Q : Z → pystr → Prop) (key : Z) (Hrep : rep r Q).

Let Q_key k n : Q k n → k ∈ _sorted_keys r.
Proof. intros Hq. apply (rep_keys _ _ Hrep). apply (rep_ring _ _ Hrep) in Hq. eauto. Qed.

Lemma owned_elem keys owners n : owned r keys owners → n ∈ owners → ∃ k, k ∈ keys ∧ Q k n.
Proof.
  intros Ho [i Hi]%list_elem_of_lookup_1.
  destruct (Forall2_lookup_r _ _ _ _ _ Ho Hi) as (k & Hk & Hn).
  exists k. split; [by eapply list_elem_of_lookup_2|]. by apply (rep_ring _ _ Hrep).
Qed.

Lemma owned_owner keys owners k n : owned r keys owners → k ∈ keys → Q k n → n ∈ owners.
Proof.
  intros Ho [i Hi]%list_elem_of_lookup_1 Hq. apply (rep_ring _ _ Hrep) in Hq.
  destruct (Forall2_lookup_l _ _ _ _ _ Ho Hi) as (m & Hm & E).
  assert (m = n) as -> by congruence. by eapply list_elem_of_lookup_2.
Qed.

(** [seen] is the part of the walk that is done. *)
Context (seen keys : list Z) (sown owners : list (list Z)).

Lemma seen_nearer n n' k :
  _sorted_keys r ≡ₚ seen ++ keys →
  StronglySorted (λ k k', distance key k < distance key k') (seen ++ keys) →
  owned r seen sown → n ∈ sown → n' ∉ sown → Q k n' → nearer Q key n n'.
Proof.
  intros Hp Hs Ho Hn Hn' _. destruct (owned_elem _ _ _ Ho Hn) as (ka & Hka & Hq).
  exists ka. split; [done|]. intros kb Hqb.
  assert (kb ∈ keys) as Hkb.
  { apply Q_key in Hqb as Hkb. rewrite Hp, elem_of_app in Hkb. destruct Hkb as [Hkb|]; [|done].
    exfalso. apply Hn'. by eapply owned_owner. }
  apply StronglySorted_app in Hs as (Hs & _ & _). auto.
Qed.
End walk.

Lemma walk_nearest r Q key count (Hrep : rep r Q) keys owners :
  ∀ seen sown found,
  _sorted_keys r ≡ₚ seen ++ keys →
  StronglySorted (λ k k', distance key k < distance key k') (seen ++ keys) →
  owned r seen sown → owned r keys owners →
  NoDup found → StronglySorted (nearer Q key) found → (∀ n, n ∈ found ↔ n ∈ sown) →
  (1 <= count → zlen found < count) →
  nearest Q key count (walk count owners found).
Proof.
  revert keys. induction owners as [|n owners IH]; intros keys seen sown found Hp Hs Hos Ho Hnd Hsf Hf Hc.
  - apply Forall2_nil_inv_r in Ho as ->. cbn [walk]. rewrite app_nil_r in Hp, Hs.
    assert (∀ k m, Q k m → m ∈ found) as Hall.
    { intros k m Hq. apply Hf. eapply owned_owner; [done|done| |done].
      rewrite <-Hp. apply (rep_keys _ _ Hrep). apply (rep_ring _ _ Hrep) in Hq. eauto. }
    split; auto.
    + intros m Hm%Hf. destruct (owned_elem r Q Hrep _ _ _ Hos Hm) as (k & _ & ?). by exists k.
    + intros m m' k _ Hm' Hq. by apply Hall in Hq.
  - apply Forall2_cons_inv_r in Ho as (k & ks & Hk & Ho & ->). cbn [walk].
    rewrite cons_middle, (assoc_L (++)) in Hp, Hs.
    assert (owned r (seen ++ [k]) (sown ++ [n])) as Hos'.
    { apply Forall2_app; [done|]. by repeat constructor. }
    case_bool_decide as Hin.
    { eapply (IH ks (seen ++ [k]) (sown ++ [n])); try done.
      intros m. rewrite elem_of_app, list_elem_of_singleton, <-Hf. naive_solver. }
    assert (NoDup (found ++ [n])) as Hnd'.
    { apply NoDup_app. split; [done|]. split; [|apply NoDup_singleton].
      intros m Hm ->%list_elem_of_singleton. done. }
    assert (∀ m, m ∈ found ++ [n] ↔ m ∈ sown ++ [n]) as Hf'.
    { intros m. by rewrite !elem_of_app, Hf. }
    assert (StronglySorted (nearer Q key) (found ++ [n])) as Hsf'.
    { apply StronglySorted_app_2; [|done|by repeat constructor].
      intros a b Ha ->%list_elem_of_singleton. rewrite <-(assoc_L (++)) in Hp, Hs.
      eapply (seen_nearer r Q key Hrep seen _ sown); [done..|by apply Hf|by rewrite <-Hf|].
      by apply (rep_ring _ _ Hrep). }
    destruct (Z.eqb_spec (zlen (found ++ [n])) count) as [Hcnt|Hcnt].
    + split; [done|done| | |].
      * intros m Hm%Hf'. destruct (owned_elem r Q Hrep _ _ _ Hos' Hm) as (j & _ & ?). by exists j.
      * intros a b j Ha%Hf' Hb Hq. eapply (seen_nearer r Q key Hrep); [done..|by rewrite <-Hf'|done].
      * left. split; [|done]. rewrite zlen_app in Hcnt. cbn in Hcnt. lia.
    + eapply (IH ks (seen ++ [k]) (sown ++ [n])); try done.
      intros Hc1. rewrite zlen_app in Hcnt |- *. cbn in *. lia.
Qed.

Lemma get_replicas_nearest hash r Q topic key count :
  rep r Q → (∀ k n, Q k n → word k) → hash topic = Ok key → word key →
  ∃ l, get_replicas hash r topic count = Ok l ∧ nearest Q key count l.
Proof.
  intros Hrep HQ Hh Hkey. unfold get_replicas. case_bool_decide as He.
  - exists []. split; [done|]. assert (∀ k n, ¬ Q k n) as Hno.
    { intros k n Hq%(rep_ring _ _ Hrep). rewrite He in Hq. by rewrite lookup_empty in Hq. }
    split; [apply NoDup_nil_2|constructor|by intros n ?%elem_of_nil|by intros n ? ? ?%elem_of_nil|].
    right. split; [cbn; lia|]. by intros k n ?%Hno.
  - rewrite Hh. cbn. destruct (owners_exist r Q (clockwise (_sorted_keys r) key) Hrep) as [owners Ho].
    { intros k. by rewrite clockwise_perm. }
    rewrite (replicas_loop_walk r key owners) by (done || lia || apply Hrep).
    eexists. split; [done|]. cbn [drop].
    apply (walk_nearest r Q key count Hrep (clockwise (_sorted_keys r) key) owners [] [] []); cbn [app].
    + by rewrite clockwise_perm.
    + apply clockwise_sorted; [apply Hrep|apply Hrep|done|]. apply Forall_forall.
      intros k [n Hn]%(rep_keys _ _ Hrep). eapply HQ. by apply (rep_ring _ _ Hrep).
    + constructor.
    + done.
    + apply NoDup_nil_2.
    + constructor.
    + done.
    + cbn; lia.
Qed.

Lemma get_node_nearest hash r Q topic key :
  rep r Q → (∀ k n, Q k n → word k) → hash topic = Ok key → word key →
  match get_node hash r topic with
  | Ok None => ∀ k n, ¬ Q k n
  | Ok (Some n) => ∃ k, Q k n ∧ ∀ k' n', Q k' n' → distance key k <= distance key k'
  | Raise _ => False
  end.
Proof.
  intros Hrep HQ Hh Hkey. unfold get_node. case_bool_decide as He.
  - intros k n Hq%(rep_ring _ _ Hrep). rewrite He in Hq. by rewrite lookup_empty in Hq.
  - rewrite Hh. cbn. set (keys := _sorted_keys r) in *.
    assert (StronglySorted Z.le keys) as Hs by apply Hrep.
    destruct (bisect_right_split keys key Hs) as (Hi & _ & _).
    assert (Forall word keys) as Hw.
    { apply Forall_forall. intros k [n Hn]%(rep_keys _ _ Hrep). eapply HQ. by apply (rep_ring _ _ Hrep). }
    pose proof (clockwise_sorted keys key Hs (rep_nodup _ _ Hrep) Hkey Hw) as Hc.
    assert (keys ≠ []) as Hne.
    { apply map_choose in He as (k & n & Hk). intros E.
      assert (k ∈ keys) as Hin by (apply (rep_keys _ _ Hrep); eauto). rewrite E in Hin.
      by apply not_elem_of_nil in Hin. }
    assert (0 < length keys)%nat as Hlen by (destruct keys; cbn; [done|lia]).
    assert ((if (bisect_right keys key =? length keys)%nat then 0 else bisect_right keys key)%nat
      = ((bisect_right keys key + 0) mod length keys)%nat) as ->.
    { rewrite Nat.add_0_r. destruct (Nat.eqb_spec (bisect_right keys key) (length keys)) as [->|].
      - by rewrite Nat.Div0.mod_same.
      - rewrite Nat.mod_small by lia. done. }
    rewrite <-clockwise_lookup by done. pose proof (clockwise_perm keys key) as Hp.
    destruct (clockwise keys key) as [|k l] eqn:E.
    { apply Permutation_nil in Hp. done. }
    assert (k ∈ keys) as [n Hn]%(rep_keys _ _ Hrep) by (rewrite <-Hp; left).
    cbn. rewrite Hn. cbn. exists k. split; [by apply (rep_ring _ _ Hrep)|].
    intros k' n' Hq. apply (rep_ring _ _ Hrep) in Hq.
    assert (k' ∈ k :: l) as [->|Hk']%elem_of_cons; [|lia|].
    { rewrite Hp. apply (rep_keys _ _ Hrep). eauto. }
    apply StronglySorted_inv in Hc as [_ Hc]. rewrite Forall_forall in Hc. specialize (Hc _ Hk'). lia.
Qed.

Lemma distance_inj key k k' : word k → word k' → distance key k = distance key k' → k = k'.
Proof.
  unfold distance, word. intros Hk Hk' E.
  pose proof (Z.div_mod (k - key - 1) (2 ^ 32)). pose proof (Z.div_mod (k' - key - 1) (2 ^ 32)). lia.
Qed.
