(* ===== verification/RingTheorems.v ===== *)
(** * What the hash ring guarantees

    Histories of brokers that join and leave, the placement of a topic, and how
    little of it changes with the membership. *)
From Stdlib Require Import String.
From stdpp Require Import sorting fin_sets.
From S2P Require Import Prelude PyData Bisect Md5 Ring RingFacts.

(** ** Histories of the membership *)

Inductive event := Join (n : list Z) | Leave (n : list Z).

Definition subject (e : event) : list Z := match e with Join n | Leave n => n end.

Definition ring_step (e : event) : M Ring unit :=
  match e with Join n => add_node _hash n | Leave n => remove_node _hash n end.

Fixpoint ring_run (es : list event) : M Ring unit :=
  match es with [] => mret tt | e :: es => ring_step e;; ring_run es end.

Definition live_step (live : gset (list Z)) (e : event) : gset (list Z) :=
  match e with Join n => {[ n ]} ∪ live | Leave n => live ∖ {[ n ]} end.

(** The brokers that joined and did not leave since. *)
Definition live_after (es : list event) : gset (list Z) := fold_left live_step es ∅.

Lemma _hash_word s k : _hash s = Ok k → word k.
Proof.
  unfold _hash, word. intros H. inv_ok. change 0xFFFFFFFF with (Z.ones 32).
  rewrite Z.land_ones by lia. apply Z.mod_pos_bound. lia.
Qed.

Lemma owns_word R live k n : owns _hash R live k n → word k.
Proof. intros (_ & i & _ & E). unfold vnode_key in E. inv_ok. by eapply _hash_word. Qed.

Lemma ring_step_rep R brokers live e r :
  collision_free _hash R brokers → live ⊆ list_to_set brokers → subject e ∈ brokers →
  replicas r = R → rep r (owns _hash R live) →
  ∃ r', ring_step e r = (Ok tt, r') ∧ replicas r' = R ∧
    rep r' (owns _hash R (live_step live e)) ∧ live_step live e ⊆ list_to_set brokers.
Proof.
  intros Hcf Hl He HR Hr. destruct e as [n|n]; cbn in *.
  - destruct (add_node_rep _hash R brokers Hcf live n r) as (r' & ? & ? & ?); [done..|].
    exists r'. split_and!; [done..|]. apply union_subseteq. split; [|done].
    apply singleton_subseteq_l. by apply elem_of_list_to_set.
  - destruct (remove_node_rep _hash R brokers Hcf live n r) as (r' & ? & ? & ?); [done..|].
    exists r'. split_and!; [done..|]. set_solver.
Qed.

Lemma ring_run_rep R brokers es live r :
  collision_free _hash R brokers → live ⊆ list_to_set brokers →
  Forall (λ e, subject e ∈ brokers) es → replicas r = R → rep r (owns _hash R live) →
  ∃ r', ring_run es r = (Ok tt, r') ∧ replicas r' = R ∧
    rep r' (owns _hash R (fold_left live_step es live)) ∧
    fold_left live_step es live ⊆ list_to_set brokers.
Proof.
  intros Hcf Hl Hes. revert live r Hl. induction Hes as [|e es He Hes IH]; intros live r Hl HR Hr.
  - by exists r.
  - destruct (ring_step_rep R brokers live e r) as (r1 & E1 & HR1 & Hr1 & Hl1); [done..|].
    destruct (IH _ r1 Hl1 HR1 Hr1) as (r2 & E2 & ?). exists r2. cbn. run. rewrite E1. run. by rewrite E2.
Qed.

Lemma new_ring_owns R : rep (new_ring R) (owns _hash R ∅).
Proof. eapply rep_ext; [|apply new_ring_rep]. intros k n. unfold owns. set_solver. Qed.

(** A ring that a history of [es] leaves behind. *)
Lemma reached R brokers es r :
  collision_free _hash R brokers → Forall (λ e, subject e ∈ brokers) es →
  ring_run es (new_ring R) = (Ok tt, r) →
  replicas r = R ∧ rep r (owns _hash R (live_after es)) ∧ live_after es ⊆ list_to_set brokers.
Proof.
  intros Hcf Hes E. destruct (ring_run_rep R brokers es ∅ (new_ring R)) as (r' & E' & ?);
    [done|set_solver|done|done|apply new_ring_owns|]. rewrite E in E'. by injection E' as <-.
Qed.

(** ** Placement *)

Lemma nearest_unique r Q key k n k' n' :
  rep r Q → (∀ k n, Q k n → word k) → Q k n → Q k' n' →
  distance key k = distance key k' → n = n'.
Proof.
  intros Hr HQ Hq Hq' E. assert (k = k') as ->.
  { eapply (distance_inj key); [by eapply HQ..|done]. }
  apply (rep_ring _ _ Hr) in Hq, Hq'. congruence.
Qed.

Lemma get_node_is hash r Q topic key k n :
  rep r Q → (∀ k n, Q k n → word k) → hash topic = Ok key → word key →
  Q k n → (∀ k' n', Q k' n' → distance key k <= distance key k') →
  get_node hash r topic = Ok (Some n).
Proof.
  intros Hr HQ Hh Hkey Hq Hmin. pose proof (get_node_nearest hash r Q topic key Hr HQ Hh Hkey) as H.
  destruct (get_node hash r topic) as [[m|]|]; [|by apply H in Hq|done].
  destruct H as (k' & Hq' & Hmin'). do 2 f_equal. eapply (nearest_unique r Q key k' m k n); try done.
  specialize (Hmin _ _ Hq'). specialize (Hmin' _ _ Hq). lia.
Qed.

Lemma get_node_inv hash r Q topic n :
  rep r Q → (∀ k n, Q k n → word k) → (∀ s k, hash s = Ok k → word k) →
  get_node hash r topic = Ok (Some n) →
  ∃ key k, hash topic = Ok key ∧ Q k n ∧ ∀ k' n', Q k' n' → distance key k <= distance key k'.
Proof.
  intros Hr HQ Hw E. destruct (hash topic) as [key|] eqn:Eh.
  - pose proof (get_node_nearest hash r Q topic key Hr HQ Eh (Hw _ _ Eh)) as H.
    rewrite E in H. destruct H as (k & ? & ?). by exists key, k.
  - unfold get_node in E. case_bool_decide; [done|]. by rewrite Eh in E.
Qed.

Lemma get_node_head hash r Q topic key count l :
  rep r Q → (∀ k n, Q k n → word k) → hash topic = Ok key → word key →
  nearest Q key count l → get_node hash r topic = Ok (head l).
Proof.
  intros Hr HQ Hh Hkey [N1 N2 N3 N4 N5].
  pose proof (get_node_nearest hash r Q topic key Hr HQ Hh Hkey) as Hg. destruct l as [|m l].
  - destruct (get_node hash r topic) as [[n|]|] eqn:En; [|done..]. exfalso.
    destruct Hg as (k & Hq & _). destruct N5 as [[Hc Hz]|[_ Hall]]; [cbn in Hz; lia|].
    by apply Hall, elem_of_nil in Hq.
  - destruct (N3 m) as [km Hkm]; [left|].
    destruct (get_node hash r topic) as [[n|]|] eqn:En; [|by apply Hg in Hkm|done].
    cbn. do 2 f_equal. destruct Hg as (k & Hq & Hmin). destruct (decide (n = m)); [done|]. exfalso.
    assert (nearer Q key m n) as (ka & Hka & Hlt).
    { destruct (decide (n ∈ m :: l)) as [[->|Hin]%elem_of_cons|Hin]; [done| |].
      - apply StronglySorted_inv in N2 as [_ N2]. rewrite Forall_forall in N2. auto.
      - apply (N4 m n k); [left|done|done]. }
    specialize (Hlt _ Hq). specialize (Hmin _ _ Hka). lia.
Qed.

(** Starting from an empty ring, every history of brokers that join, join
    again and leave runs without an exception, and leaves a dictionary and a list of
    keys that hold exactly the [R] virtual nodes of each live broker, sorted and
    without duplicates; the virtual nodes of the brokers must not collide. *)
Theorem ring_history R brokers es :
  collision_free _hash R brokers → Forall (λ e, subject e ∈ brokers) es →
  ∃ r, ring_run es (new_ring R) = (Ok tt, r) ∧
    (∀ k n, ring r !! k = Some n ↔
      n ∈ live_after es ∧ ∃ i, (i < R)%nat ∧ vnode_key _hash n i = Ok k) ∧
    StronglySorted Z.lt (_sorted_keys r) ∧ (∀ k, k ∈ _sorted_keys r ↔ is_Some (ring r !! k)).
Proof.
  intros Hcf Hes. destruct (ring_run_rep R brokers es ∅ (new_ring R)) as (r & E & _ & Hr & _);
    [done|set_solver|done|done|apply new_ring_owns|].
  exists r. split; [done|]. destruct Hr as [H1 H2 H3 H4]. split_and!; [exact H1| |done].
  by apply sorted_strict.
Qed.

(** C35: after such a history [get_replicas] returns different live brokers, in
    the order in which a clockwise walk from the hash of the topic first meets them,
    as many as asked for or all that there are (all of them for a count below one),
    and [get_node] returns the first of them, or [None] when no broker is live. *)
Theorem get_replicas_correct R brokers es r topic key count :
  collision_free _hash R brokers → Forall (λ e, subject e ∈ brokers) es →
  (0 < R)%nat → ring_run es (new_ring R) = (Ok tt, r) → _hash topic = Ok key →
  let near := nearer (owns _hash R (live_after es)) key in
  ∃ l, get_replicas _hash r topic count = Ok l ∧
    NoDup l ∧ (∀ n, n ∈ l → n ∈ live_after es) ∧ StronglySorted near l ∧
    (∀ n n', n ∈ l → n' ∈ live_after es → n' ∉ l → near n n') ∧
    zlen l = (if 1 <=? count then Z.min count (Z.of_nat (size (live_after es)))
              else Z.of_nat (size (live_after es))) ∧
    get_node _hash r topic = Ok (head l).
Proof.
  intros Hcf Hes HR E Hh near. destruct (reached _ _ _ _ Hcf Hes E) as (_ & Hr & Hl).
  set (Q := owns _hash R (live_after es)) in *. pose proof (owns_word R (live_after es)) as HQ.
  pose proof (_hash_word _ _ Hh) as Hkey.
  assert (∀ n, n ∈ live_after es → ∃ k, Q k n) as Hlive.
  { intros n Hn. destruct (vnode_Ok _hash R brokers Hcf n 0) as [k Hk]; [|lia|].
    - apply Hl in Hn. by apply elem_of_list_to_set in Hn.
    - exists k. split; [done|]. by exists 0%nat. }
  destruct (get_replicas_nearest _hash r Q topic key count Hr HQ Hh Hkey) as (l & El & [N1 N2 N3 N4 N5]).
  assert (∀ n, n ∈ l → n ∈ live_after es) as Hsub.
  { intros n [k [? _]]%N3. done. }
  exists l. split_and!; try done.
  - intros n n' Hn Hn' Hout. destruct (Hlive n' Hn') as [k Hk]. by apply (N4 n n' k).
  - assert (zlen l <= Z.of_nat (size (live_after es))) as Hle.
    { apply inj_le. rewrite <-(size_list_to_set (C:=gset (list Z)) l N1). apply subseteq_size.
      intros n Hn%elem_of_list_to_set. auto. }
    destruct N5 as [[Hc <-]|[Hc Hall]].
    + destruct (Z.leb_spec 1 (zlen l)); lia.
    + assert (Z.of_nat (size (live_after es)) <= zlen l) as Hge.
      { apply inj_le. rewrite <-(size_list_to_set (C:=gset (list Z)) l N1). apply subseteq_size.
        intros n Hn. apply elem_of_list_to_set. destruct (Hlive n Hn) as [k Hk]. by apply (Hall k). }
      destruct (Z.leb_spec 1 count); lia.
  - apply (get_node_head _hash r Q topic key count l Hr HQ Hh Hkey). by split.
Qed.

(** C36: consistency: when a broker leaves, the topics it did not hold stay where
    they are, and when one joins, a topic stays or moves to the broker that joined. *)
Theorem ring_consistent R brokers es r m topic n :
  collision_free _hash R brokers → Forall (λ e, subject e ∈ brokers) es → m ∈ brokers →
  ring_run es (new_ring R) = (Ok tt, r) → get_node _hash r topic = Ok (Some n) →
  (∃ r', remove_node _hash m r = (Ok tt, r') ∧
    (n ≠ m → get_node _hash r' topic = Ok (Some n))) ∧
  (∃ r', add_node _hash m r = (Ok tt, r') ∧
    (get_node _hash r' topic = Ok (Some n) ∨ get_node _hash r' topic = Ok (Some m))).
Proof.
  intros Hcf Hes Hm E En. destruct (reached _ _ _ _ Hcf Hes E) as (HR & Hr & Hl).
  destruct (get_node_inv _ _ _ _ _ Hr (owns_word R _) _hash_word En) as (key & k & Hh & Hq & Hmin).
  pose proof (_hash_word _ _ Hh) as Hkey. split.
  - destruct (remove_node_rep _hash R brokers Hcf _ m r Hl Hm HR Hr) as (r' & E' & _ & Hr').
    exists r'. split; [done|]. intros Hne.
    apply (get_node_is _ _ _ _ key k _ Hr' (owns_word R _)); [done..| |].
    + destruct Hq as [? ?]. split; [set_solver|done].
    + intros k' n' [Hn' Hi]. apply (Hmin k' n'). split; [set_solver|done].
  - destruct (add_node_rep _hash R brokers Hcf _ m r Hl Hm HR Hr) as (r' & E' & _ & Hr').
    exists r'. split; [done|].
    pose proof (get_node_nearest _ _ _ _ _ Hr' (owns_word R _) Hh Hkey) as H.
    assert (owns _hash R ({[m]} ∪ live_after es) k n) as Hq'.
    { destruct Hq as [? ?]. split; [set_solver|done]. }
    destruct (get_node _hash r' topic) as [[n'|]|]; [|by apply H in Hq'|done].
    destruct (decide (n' = m)) as [->|Hne]; [by right|left]. do 2 f_equal.
    destruct H as (k' & [Hn' Hi] & Hmin'). apply elem_of_union in Hn' as [?%elem_of_singleton|Hn']; [done|].
    eapply (nearest_unique r _ key k' n' k n Hr (owns_word R _)); [by split|done|].
    specialize (Hmin k' n'). specialize (Hmin' k n Hq'). unfold owns in Hmin at 1.
    specialize (Hmin (conj Hn' Hi)). lia.
Qed.

(** ** A broker two of whose virtual nodes coincide *)

Definition broker_a : list Z := py "broker-1".
Definition broker_b : list Z := py "broker-811987".

(** The side condition is needed: of the 50 virtual nodes of [broker-811987] two
    have the same key, which its registration inserts twice into the sorted list and
    its removal removes once, so that later the lookup of a topic that falls on the
    key left behind raises [KeyError]. *)
Theorem ring_dangling_key :
  ∃ r i j, ring_run [Join broker_a; Join broker_b; Leave broker_b] (new_ring 50) = (Ok tt, r) ∧
    (i < j < 50)%nat ∧ vnode_key _hash broker_b i = vnode_key _hash broker_b j ∧
    get_node _hash r (py "topic-269") = Raise KeyError ∧
    get_replicas _hash r (py "topic-269") 3 = Raise KeyError.
Proof.
  eexists _, 38%nat, 47%nat. split; [vm_compute; reflexivity|]. split; [lia|].
  split_and!; vm_compute; reflexivity.
Qed.

(** ** Witnesses *)

Definition three_brokers : list (list Z) := [py "b1"; py "b2"; py "b3"].
Definition three_events : list event := [Join (py "b1"); Join (py "b2"); Join (py "b3"); Join (py "b1"); Leave (py "b2")].

Lemma three_collision_free : collision_free _hash 50 three_brokers.
Proof. apply (bool_decide_unpack _). vm_compute. exact I. Qed.

Lemma three_collision_free_4 : collision_free _hash 4 three_brokers.
Proof. apply (bool_decide_unpack _). vm_compute. exact I. Qed.

Lemma three_subjects : Forall (λ e, subject e ∈ three_brokers) three_events.
Proof. apply (bool_decide_unpack _). vm_compute. exact I. Qed.

Lemma b2_in : py "b2" ∈ three_brokers.
Proof. apply (bool_decide_unpack _). vm_compute. exact I. Qed.

Lemma ring_history_witness :
  ∃ r, ring_run three_events (new_ring 50) = (Ok tt, r) ∧ StronglySorted Z.lt (_sorted_keys r).
Proof.
  destruct (ring_history 50 three_brokers three_events three_collision_free three_subjects)
    as (r & E & _ & Hs & _).
  exists r. split; [exact E|exact Hs].
Defined.

Lemma get_replicas_correct_witness :
  ∃ r l, ring_run three_events (new_ring 50) = (Ok tt, r) ∧
    get_replicas _hash r (py "orders") 3 = Ok l ∧ get_node _hash r (py "orders") = Ok (head l).
Proof.
  destruct (ring_history 50 three_brokers three_events three_collision_free three_subjects)
    as (r & E & _).
  assert (∃ key, _hash (py "orders") = Ok key) as [key Hk] by (eexists; vm_compute; reflexivity).
  pose proof (get_replicas_correct 50 three_brokers three_events r (py "orders") key 3
    three_collision_free three_subjects (Nat.lt_0_succ 49) E Hk) as (l & El & _ & _ & _ & _ & _ & Eg).
  exists r, l. split; [exact E|]. split; [exact El|exact Eg].
Defined.

Lemma ring_consistent_witness :
  ∃ r r' n, ring_run three_events (new_ring 4) = (Ok tt, r) ∧
    get_node _hash r (py "orders") = Ok (Some n) ∧
    add_node _hash (py "b2") r = (Ok tt, r') ∧
    (get_node _hash r' (py "orders") = Ok (Some n) ∨
     get_node _hash r' (py "orders") = Ok (Some (py "b2"))).
Proof.
  destruct (ring_run three_events (new_ring 4)) as [x r] eqn:E.
  assert (x = Ok tt) as -> by (vm_compute in E; congruence).
  assert (∃ n, get_node _hash r (py "orders") = Ok (Some n)) as [n En].
  { vm_compute in E. injection E as <-. eexists. vm_compute. reflexivity. }
  destruct (ring_consistent 4 three_brokers three_events r (py "b2") (py "orders") n
    three_collision_free_4 three_subjects b2_in E En) as [_ (r' & E' & H)].
  exists r, r', n. split_and!; [reflexivity|exact En|exact E'|exact H].
Defined.
