(* ===== verification/Metastore.v ===== *)
(** * The metastore of the controller

    [metastore/models.py], the in-memory [MetastoreStorage] of [metastore/storage.py],
    and [MetastoreManager] of [metastore/manager.py] over any storage.

    The storage hands out its [TopicMetadata] objects and the manager assigns to
    their fields; each object it changes it stores back under the same name before
    the call can be suspended (an [asyncio.Lock] that nobody holds does not suspend),
    so objects are values here. *)
From Stdlib Require Import String.
From S2P Require Import Prelude PyData PyDict Md5 Ring.

(** ** The data *)

Record BrokerNode := mkBrokerNode {
  node_id : list Z;
  host : list Z;
  port : Z }.

Record TopicMetadata := mkTopicMetadata {
  topic : list Z;
  leader_id : list Z;
  replica_list : list (list Z);
  isr_list : list (list Z);
  version : Z }.

Definition set_replica_list (l : list (list Z)) (m : TopicMetadata) : TopicMetadata :=
  mkTopicMetadata (topic m) (leader_id m) l (isr_list m) (version m).
Definition set_isr_list (l : list (list Z)) (m : TopicMetadata) : TopicMetadata :=
  mkTopicMetadata (topic m) (leader_id m) (replica_list m) l (version m).
Definition set_leader_id (l : list Z) (m : TopicMetadata) : TopicMetadata :=
  mkTopicMetadata (topic m) l (replica_list m) (isr_list m) (version m).
Definition next_version (m : TopicMetadata) : TopicMetadata :=
  mkTopicMetadata (topic m) (leader_id m) (replica_list m) (isr_list m) (version m + 1).

(** ** What the manager asks of a storage *)

Class StorageApi (S : Type) := {
  st_add_node : BrokerNode → M S unit;
  st_remove_node : pystr → M S (option BrokerNode);
  st_get_node : pystr → M S (option BrokerNode);
  st_get_all_nodes : M S (list BrokerNode);
  st_add_topic : TopicMetadata → M S unit;
  st_update_topic : TopicMetadata → M S unit;
  st_remove_topic : pystr → M S (option TopicMetadata);
  st_get_topic : pystr → M S (option TopicMetadata);
  st_get_all_topics : M S (list TopicMetadata) }.

(** ** The storage in memory *)

Module MetastoreStorage.

Record Storage := mkStorage {
  _nodes : list (list Z * BrokerNode);
  _topics : list (list Z * TopicMetadata) }.

Definition set_nodes (d : list (list Z * BrokerNode)) (s : Storage) : Storage :=
  mkStorage d (_topics s).
Definition set_topics (d : list (list Z * TopicMetadata)) (s : Storage) : Storage :=
  mkStorage (_nodes s) d.

Definition new_storage : Storage := mkStorage [] [].

Definition add_node (node : BrokerNode) : M Storage unit :=
  modify (λ s, set_nodes (dict_set (_nodes s) (node_id node) node) s).

Definition remove_node (id : pystr) : M Storage (option BrokerNode) :=
  s ← get;
  put (set_nodes (dict_del (_nodes s) id) s);;
  mret (dict_get (_nodes s) id).

Definition get_node (id : pystr) : M Storage (option BrokerNode) :=
  reads (λ s, Ok (dict_get (_nodes s) id)).

Definition get_all_nodes : M Storage (list BrokerNode) :=
  reads (λ s, Ok (dict_values (_nodes s))).

Definition add_topic (m : TopicMetadata) : M Storage unit :=
  s ← get;
  match dict_get (_topics s) (topic m) with
  | Some _ => raise ValueError
  | None => put (set_topics (dict_set (_topics s) (topic m) m) s)
  end.

Definition update_topic (m : TopicMetadata) : M Storage unit :=
  s ← get;
  match dict_get (_topics s) (topic m) with
  | None => raise ValueError
  | Some _ => put (set_topics (dict_set (_topics s) (topic m) m) s)
  end.

Definition remove_topic (topic_name : pystr) : M Storage (option TopicMetadata) :=
  s ← get;
  put (set_topics (dict_del (_topics s) topic_name) s);;
  mret (dict_get (_topics s) topic_name).

Definition get_topic (topic_name : pystr) : M Storage (option TopicMetadata) :=
  reads (λ s, Ok (dict_get (_topics s) topic_name)).

Definition get_all_topics : M Storage (list TopicMetadata) :=
  reads (λ s, Ok (dict_values (_topics s))).

End MetastoreStorage.

#[export] Instance memory_storage : StorageApi MetastoreStorage.Storage := {
  st_add_node := MetastoreStorage.add_node;
  st_remove_node := MetastoreStorage.remove_node;
  st_get_node := MetastoreStorage.get_node;
  st_get_all_nodes := MetastoreStorage.get_all_nodes;
  st_add_topic := MetastoreStorage.add_topic;
  st_update_topic := MetastoreStorage.update_topic;
  st_remove_topic := MetastoreStorage.remove_topic;
  st_get_topic := MetastoreStorage.get_topic;
  st_get_all_topics := MetastoreStorage.get_all_topics }.

(** ** The manager *)

Module MetastoreManager.
Section manager.
Context {S : Type} `{StorageApi S}.

Record Manager := mkManager {
  storage : S;
  ring : Ring;
  replicas_per_topic : Z }.

Definition set_storage (s : S) (m : Manager) : Manager := mkManager s (ring m) (replicas_per_topic m).
Definition set_ring (r : Ring) (m : Manager) : Manager := mkManager (storage m) r (replicas_per_topic m).

Definition on_storage {A} (c : M S A) : M Manager A := zoom storage set_storage c.
Definition on_ring {A} (c : M Ring A) : M Manager A := zoom ring set_ring c.

(** The ring has its default of 50 virtual nodes per broker. *)
Definition new_manager (replicas_per_topic : Z) (storage : S) : Manager :=
  mkManager storage (new_ring 50) replicas_per_topic.

Definition _elect_leader (topic_meta : TopicMetadata) : M Manager pystr :=
  match isr_list topic_meta with
  | n :: _ => mret n
  | [] =>
      match replica_list topic_meta with
      | n :: _ => mret n
      | [] =>
          n ← reads (λ s, Ring.get_node _hash (ring s) (topic topic_meta));
          mret (default (py "") n)
      end
  end.

Definition register_broker (id host : pystr) (port : Z) : M Manager BrokerNode :=
  let node := mkBrokerNode id host port in
  on_storage (st_add_node node);;
  on_ring (Ring.add_node _hash id);;
  mret node.

(** [for r in h_replicas: ...] *)
Fixpoint fill_replicas (count : Z) (h_replicas new_replicas : list (list Z)) : list (list Z) :=
  match h_replicas with
  | [] => new_replicas
  | r :: h_replicas =>
      if bool_decide (r ∈ new_replicas) then fill_replicas count h_replicas new_replicas
      else
        let new_replicas := new_replicas ++ [r] in
        if zlen new_replicas =? count then new_replicas
        else fill_replicas count h_replicas new_replicas
  end.

(** The replica list that replaces one that held [id]. *)
Definition replace_replica (id : pystr) (active_node_ids : list (list Z))
    (topic_meta : TopicMetadata) : M Manager (list (list Z)) :=
  s ← get;
  let new_replicas := filter (λ r, r ≠ id) (replica_list topic_meta) in
  if (zlen new_replicas <? replicas_per_topic s) && negb (bool_decide (active_node_ids = []))
  then
    h_replicas ← lift (get_replicas _hash (ring s) (topic topic_meta) (replicas_per_topic s));
    mret (fill_replicas (replicas_per_topic s) h_replicas new_replicas)
  else mret new_replicas.

(** The body of the loop over the topics; [None] when nothing changed. *)
Definition deregister_topic (id : pystr) (active_node_ids : list (list Z))
    (topic_meta : TopicMetadata) : M Manager (option TopicMetadata) :=
  p ← (if bool_decide (id ∈ replica_list topic_meta) then
         new_replicas ← replace_replica id active_node_ids topic_meta;
         mret (set_replica_list new_replicas topic_meta, true)
       else mret (topic_meta, false));
  let '(topic_meta, needs_update) := p in
  p ← (if bool_decide (leader_id topic_meta = id) then
         let topic_meta :=
           set_isr_list (filter (λ r, r ≠ id) (isr_list topic_meta)) topic_meta in
         l ← _elect_leader topic_meta;
         mret (set_leader_id l topic_meta, true)
       else mret (topic_meta, needs_update));
  let '(topic_meta, needs_update) := p in
  if (needs_update : bool) then
    let topic_meta := next_version topic_meta in
    on_storage (st_update_topic topic_meta);;
    mret (Some topic_meta)
  else mret None.

Fixpoint deregister_topics (id : pystr) (active_node_ids : list (list Z))
    (all_topics : list TopicMetadata) : M Manager (list TopicMetadata) :=
  match all_topics with
  | [] => mret []
  | topic_meta :: all_topics =>
      u ← deregister_topic id active_node_ids topic_meta;
      us ← deregister_topics id active_node_ids all_topics;
      mret (option_list u ++ us)
  end.

Definition deregister_broker (id : pystr) : M Manager (list TopicMetadata) :=
  on_storage (st_remove_node id);;
  on_ring (Ring.remove_node _hash id);;
  all_topics ← on_storage st_get_all_topics;
  all_nodes ← on_storage st_get_all_nodes;
  deregister_topics id (node_id <$> all_nodes) all_topics.

Definition register_topic (topic_name : pystr) : M Manager TopicMetadata :=
  existing ← on_storage (st_get_topic topic_name);
  match existing with
  | Some existing => mret existing
  | None =>
      s ← get;
      replicas ← lift (get_replicas _hash (ring s) topic_name (replicas_per_topic s));
      let leader := default (py "") (head replicas) in
      let meta := mkTopicMetadata topic_name leader replicas replicas 1 in
      on_storage (st_add_topic meta);;
      mret meta
  end.

Definition update_topic_isr (topic_name : pystr) (isr : list (list Z)) :
    M Manager (option TopicMetadata) :=
  topic_meta ← on_storage (st_get_topic topic_name);
  match topic_meta with
  | Some topic_meta =>
      let topic_meta := set_isr_list isr topic_meta in
      topic_meta ← (if bool_decide (leader_id topic_meta ∈ isr) then mret topic_meta
                    else
                      l ← _elect_leader topic_meta;
                      mret (set_leader_id l topic_meta));
      let topic_meta := next_version topic_meta in
      on_storage (st_update_topic topic_meta);;
      mret (Some topic_meta)
  | None => mret None
  end.

Definition get_topic_metadata (topic_name : pystr) : M Manager (option TopicMetadata) :=
  on_storage (st_get_topic topic_name).
Definition get_all_topics : M Manager (list TopicMetadata) := on_storage st_get_all_topics.
Definition get_node (id : pystr) : M Manager (option BrokerNode) := on_storage (st_get_node id).

End manager.
Arguments Manager : clear implicits.
End MetastoreManager.
