(* ===== verification/StorageFacts.v ===== *)
(** * What the manager relies on in a storage

    The laws of the interface [StorageApi], in terms of the finite maps a storage
    state stands for, and the storage in memory as an instance. *)
From Stdlib Require Import String.
From stdpp Require Import fin_maps fin_map_dom.
From S2P Require Import Prelude PyData PyDict Metastore.

Class StorageLaws (S : Type) `{StorageApi S} := {
  st_ok : S → Prop;
  st_nodes : S → gmap (list Z) BrokerNode;
  st_topics : S → gmap (list Z) TopicMetadata;
  st_named s t m : st_ok s → st_topics s !! t = Some m → topic m = t;
  st_identified s n x : st_ok s → st_nodes s !! n = Some x → node_id x = n;
  st_add_node_ok s x : st_ok s →
    ∃ s', st_add_node x s = (Ok tt, s') ∧ st_ok s' ∧ st_topics s' = st_topics s ∧
      st_nodes s' = <[node_id x := x]> (st_nodes s);
  st_remove_node_ok s n : st_ok s →
    ∃ s', st_remove_node n s = (Ok (st_nodes s !! n), s') ∧ st_ok s' ∧
      st_topics s' = st_topics s ∧ st_nodes s' = delete n (st_nodes s);
  st_get_node_ok s n : st_ok s → st_get_node n s = (Ok (st_nodes s !! n), s);
  st_get_all_nodes_ok s : st_ok s →
    ∃ l, st_get_all_nodes s = (Ok l, s) ∧ l ≡ₚ (map_to_list (st_nodes s)).*2;
  st_add_topic_ok s m : st_ok s →
    match st_topics s !! topic m with
    | Some _ => st_add_topic m s = (Raise ValueError, s)
    | None => ∃ s', st_add_topic m s = (Ok tt, s') ∧ st_ok s' ∧ st_nodes s' = st_nodes s ∧
        st_topics s' = <[topic m := m]> (st_topics s)
    end;
  st_update_topic_ok s m : st_ok s →
    match st_topics s !! topic m with
    | None => st_update_topic m s = (Raise ValueError, s)
    | Some _ => ∃ s', st_update_topic m s = (Ok tt, s') ∧ st_ok s' ∧ st_nodes s' = st_nodes s ∧
        st_topics s' = <[topic m := m]> (st_topics s)
    end;
  st_remove_topic_ok s t : st_ok s →
    ∃ s', st_remove_topic t s = (Ok (st_topics s !! t), s') ∧ st_ok s' ∧
      st_nodes s' = st_nodes s ∧ st_topics s' = delete t (st_topics s);
  st_get_topic_ok s t : st_ok s → st_get_topic t s = (Ok (st_topics s !! t), s);
  st_get_all_topics_ok s : st_ok s →
    ∃ l, st_get_all_topics s = (Ok l, s) ∧ l ≡ₚ (map_to_list (st_topics s)).*2 }.

Section laws.
Context {S : Type} `{StorageLaws S}.

Lemma st_all_topics_ok s : st_ok s →
  ∃ l, st_get_all_topics s = (Ok l, s) ∧ NoDup (topic <$> l) ∧
    ∀ m, m ∈ l ↔ st_topics s !! topic m = Some m.
Proof.
  intros Hs. destruct (st_get_all_topics_ok s Hs) as (l & E & Hl). exists l. split; [done|]. split.
  - rewrite Hl, <-list_fmap_compose.
    assert (topic ∘ snd <$> map_to_list (st_topics s) = fst <$> map_to_list (st_topics s)) as ->.
    { apply list_fmap_ext. intros i [t m] Hm%list_elem_of_lookup_2%elem_of_map_to_list. cbn.
      by apply (st_named s). }
    apply NoDup_fst_map_to_list.
  - intros m. rewrite Hl, list_elem_of_fmap. split.
    + intros ([t m'] & -> & Hm%elem_of_map_to_list). cbn. by rewrite (st_named s t m').
    + intros Hm. exists (topic m, m). split; [done|]. by apply elem_of_map_to_list.
Qed.

Lemma st_all_nodes_ok s : st_ok s →
  ∃ l, st_get_all_nodes s = (Ok l, s) ∧ ∀ n, n ∈ node_id <$> l ↔ n ∈ dom (st_nodes s).
Proof.
  intros Hs. destruct (st_get_all_nodes_ok s Hs) as (l & E & Hl). exists l. split; [done|].
  intros n. rewrite Hl, elem_of_dom, list_elem_of_fmap. split.
  - intros (x & -> & ([k y] & -> & Hx%elem_of_map_to_list)%list_elem_of_fmap).
    cbn. rewrite (st_identified s k y Hs Hx). by exists y.
  - intros [x Hx]. exists x. rewrite (st_identified s n x Hs Hx). split; [done|].
    apply list_elem_of_fmap. exists (n, x). split; [done|]. by apply elem_of_map_to_list.
Qed.
End laws.

(** ** Dictionaries as finite maps *)

Section dict_map.
Context {V : Type}.
Implicit Types d : list (list Z * V).

Definition dict_map d : gmap (list Z) V := list_to_map d.

Lemma dict_map_lookup d k : dict_map d !! k = dict_get d k.
Proof.
  unfold dict_map. induction d as [|[k' v] d IH]; cbn; [apply lookup_empty|].
  case_decide as E; subst; [by rewrite lookup_insert_eq|].
  rewrite lookup_insert_ne by congruence. done.
Qed.

Lemma dict_map_set d k v : dict_map (dict_set d k v) = <[k := v]> (dict_map d).
Proof.
  apply map_eq. intros j. rewrite dict_map_lookup. destruct (decide (k = j)) as [->|].
  - by rewrite dict_get_set_eq, lookup_insert_eq.
  - by rewrite dict_get_set_ne, lookup_insert_ne, dict_map_lookup by done.
Qed.

Lemma dict_map_del d k : dict_ok d → dict_map (dict_del d k) = delete k (dict_map d).
Proof.
  intros Hd. apply map_eq. intros j. rewrite dict_map_lookup. destruct (decide (k = j)) as [->|].
  - by rewrite dict_get_del_eq, lookup_delete_eq.
  - by rewrite dict_get_del_ne, lookup_delete_ne, dict_map_lookup by done.
Qed.

Lemma dict_map_values d : dict_ok d → dict_values d ≡ₚ (map_to_list (dict_map d)).*2.
Proof. intros Hd. unfold dict_map, dict_values. by rewrite map_to_list_to_map by done. Qed.

(** Every value is stored under its name. *)
Definition keyed (name : V → list Z) d : Prop :=
  dict_ok d ∧ ∀ k v, dict_get d k = Some v → name v = k.

Lemma keyed_set name d v : keyed name d → keyed name (dict_set d (name v) v).
Proof.
  intros [Hd Hk]. split; [by apply dict_set_ok|]. intros k w.
  destruct (decide (name v = k)) as [<-|].
  - rewrite dict_get_set_eq. by intros [= <-].
  - rewrite dict_get_set_ne by done. apply Hk.
Qed.

Lemma keyed_del name d k : keyed name d → keyed name (dict_del d k).
Proof.
  intros [Hd Hk]. split; [by apply dict_del_ok|]. intros j w.
  destruct (decide (k = j)) as [<-|]; [by rewrite dict_get_del_eq|].
  rewrite dict_get_del_ne by done. apply Hk.
Qed.
End dict_map.
Arguments dict_map : simpl never.
#[export] Hint Resolve keyed_set keyed_del : py.

Import MetastoreStorage.

#[export] Instance memory_storage_laws : StorageLaws MetastoreStorage.Storage.
Proof.
  refine {|
    st_ok := λ s, keyed node_id (_nodes s) ∧ keyed topic (_topics s);
    st_nodes := λ s, dict_map (_nodes s); st_topics := λ s, dict_map (_topics s) |}.
  - intros s t m [_ [_ Hk]]. rewrite dict_map_lookup. apply Hk.
  - intros s n x [[_ Hk] _]. rewrite dict_map_lookup. apply Hk.
  - intros s x [Hn Ht]. eexists. split; [reflexivity|]. cbn. rewrite dict_map_set. auto with py.
  - intros s n [Hn Ht]. eexists. split; [cbn; by rewrite dict_map_lookup|].
    cbn. rewrite dict_map_del by apply Hn. auto with py.
  - intros s n _. cbn. by rewrite dict_map_lookup.
  - intros s [Hn _]. eexists. split; [reflexivity|]. apply dict_map_values, Hn.
  - intros s m [Hn Ht]. rewrite dict_map_lookup. cbn. unfold add_topic. run.
    destruct (dict_get (_topics s) (topic m)); [done|].
    eexists. split; [reflexivity|]. cbn. rewrite dict_map_set. auto with py.
  - intros s m [Hn Ht]. rewrite dict_map_lookup. cbn. unfold update_topic. run.
    destruct (dict_get (_topics s) (topic m)); [|done].
    eexists. split; [reflexivity|]. cbn. rewrite dict_map_set. auto with py.
  - intros s t [Hn Ht]. eexists. split; [cbn; by rewrite dict_map_lookup|].
    cbn. rewrite dict_map_del by apply Ht. auto with py.
  - intros s t _. cbn. by rewrite dict_map_lookup.
  - intros s [_ Ht]. eexists. split; [reflexivity|]. apply dict_map_values, Ht.
Defined.

Lemma new_storage_ok : st_ok new_storage.
Proof. by split; split; try apply NoDup_nil_2. Qed.
