(* ===== verification/ManagerFacts.v ===== *)
(** * The calls of the metastore manager, one at a time

    Over any storage that obeys [StorageLaws]. *)
From Stdlib Require Import String.
From stdpp Require Import sorting fin_maps fin_map_dom fin_sets.
From S2P Require Import Prelude PyData PyDict Bisect Md5 Ring RingFacts RingTheorems Metastore StorageFacts.
Import MetastoreManager.

(** ** Lists of different brokers *)

Lemma NoDup_size_le (l : list (list Z)) (X : gset (list Z)) :
  NoDup l → (∀ n, n ∈ l → n ∈ X) → zlen l <= Z.of_nat (size X).
Proof.
  intros Hn Hl. apply inj_le. rewrite <-(size_list_to_set (C:=gset (list Z)) l Hn).
  apply subseteq_size. intros n Hin%elem_of_list_to_set. auto.
Qed.

Lemma NoDup_size_ge (l : list (list Z)) (X : gset (list Z)) :
  NoDup l → (∀ n, n ∈ X → n ∈ l) → Z.of_nat (size X) <= zlen l.
Proof.
  intros Hn Hl. apply inj_le. rewrite <-(size_list_to_set (C:=gset (list Z)) l Hn).
  apply subseteq_size. intros n Hin. apply elem_of_list_to_set. auto.
Qed.

Lemma NoDup_length_le (l k : list (list Z)) :
  NoDup l → (∀ n, n ∈ l → n ∈ k) → zlen l <= zlen k.
Proof.
  intros Hn Hl. apply inj_le, submseteq_length, NoDup_submseteq; [done|]. exact Hl.
Qed.

Lemma fill_replicas_ok count h new :
  NoDup new → zlen new < count →
  ∃ added, fill_replicas count h new = new ++ added ∧ NoDup (new ++ added) ∧
    (∀ n, n ∈ added → n ∈ h) ∧ zlen (new ++ added) <= count ∧
    (zlen (new ++ added) = count ∨ ∀ n, n ∈ h → n ∈ new ++ added).
Proof.
  revert new. induction h as [|r h IH]; intros new Hn Hc; cbn [fill_replicas].
  - exists []. rewrite app_nil_r. split_and!; [done|done|done|lia|].
    right. by intros n ?%elem_of_nil.
  - case_bool_decide as Hr.
    + destruct (IH new Hn Hc) as (a & -> & H1 & H2 & H3 & H4). exists a.
      split_and!; [done|done|intros; right; auto|done|]. destruct H4 as [|H4]; [by left|right].
      intros n [->|?]%elem_of_cons; [apply elem_of_app; by left|auto].
    + assert (NoDup (new ++ [r])) as Hnr.
      { apply NoDup_app. split; [done|]. split; [|apply NoDup_singleton].
        intros m Hm ->%list_elem_of_singleton. done. }
      destruct (Z.eqb_spec (zlen (new ++ [r])) count) as [E|E].
      * exists [r]. split_and!; [done|done| |lia|by left].
        intros n ->%list_elem_of_singleton. left.
      * destruct (IH (new ++ [r])) as (a & -> & H1 & H2 & H3 & H4); [done|rewrite zlen_app in *; cbn in *; lia|].
        exists (r :: a). rewrite (cons_middle r new a), (assoc_L (++) new [r] a).
        split_and!; [done|done| |done|].
        -- intros n [->|?]%elem_of_cons; [left|right; auto].
        -- destruct H4 as [|H4]; [by left|right]. intros n [->|?]%elem_of_cons; [|auto].
           apply elem_of_app. left. apply elem_of_app. right. left.
Qed.

Section manager.
Context {S : Type} `{StorageLaws S} (brokers : list (list Z)).
Context (Hcf : collision_free _hash 50 brokers).
Implicit Types s : Manager S.

(** The brokers that are registered. *)
Definition live s : gset (list Z) := dom (st_nodes (storage s)).
Definition topics s : gmap (list Z) TopicMetadata := st_topics (storage s).

(** The storage is sound and the ring holds the registered brokers. *)
Record cluster s : Prop := {
  cl_store : st_ok (storage s);
  cl_replicas : replicas (ring s) = 50%nat;
  cl_ring : rep (ring s) (owns _hash 50 (live s));
  cl_members : live s ⊆ list_to_set brokers }.

Lemma cluster_placed s t count :
  cluster s → is_Ok (_hash t) →
  ∃ l, get_replicas _hash (ring s) t count = Ok l ∧ NoDup l ∧ (∀ n, n ∈ l → n ∈ live s) ∧
    zlen l = (if 1 <=? count then Z.min count (Z.of_nat (size (live s)))
              else Z.of_nat (size (live s))) ∧
    Ring.get_node _hash (ring s) t = Ok (head l).
Proof.
  intros [_ _ Hr Hm] [key Hk]. pose proof (_hash_word _ _ Hk) as Hw.
  destruct (get_replicas_nearest _hash _ _ t key count Hr (owns_word 50 (live s)) Hk Hw)
    as (l & E & Hl). pose proof Hl as [N1 _ N3 _ N5].
  assert (∀ n, n ∈ l → n ∈ live s) as Hsub by (intros n [k [? _]]%N3; done).
  exists l. split_and!; [done|done|done| |].
  - pose proof (NoDup_size_le l (live s) N1 Hsub). destruct N5 as [[? <-]|[Hc Hall]].
    + destruct (Z.leb_spec 1 (zlen l)); lia.
    + assert (Z.of_nat (size (live s)) <= zlen l).
      { apply NoDup_size_ge; [done|]. intros n Hn. destruct (vnode_Ok _hash 50 brokers Hcf n 0) as [k ?].
        - apply Hm in Hn. by apply elem_of_list_to_set in Hn.
        - lia.
        - apply (Hall k). split; [done|]. exists 0%nat. split; [lia|done]. }
      destruct (Z.leb_spec 1 count); lia.
  - by apply (get_node_head _hash _ _ t key count l Hr (owns_word 50 _)).
Qed.

(** ** Registering *)

Lemma register_broker_ok s n h p :
  cluster s → n ∈ brokers →
  ∃ s', register_broker n h p s = (Ok (mkBrokerNode n h p), s') ∧ cluster s' ∧
    live s' = {[ n ]} ∪ live s ∧ st_nodes (storage s') = <[n := mkBrokerNode n h p]> (st_nodes (storage s)) ∧
    topics s' = topics s ∧ replicas_per_topic s' = replicas_per_topic s.
Proof.
  intros [H1 H2 H3 H4] Hn.
  destruct (st_add_node_ok (storage s) (mkBrokerNode n h p) H1) as (d & E & Hd & Ht & Hns).
  destruct (add_node_rep _hash 50 brokers Hcf (live s) n (ring s)) as (r & Er & Hr & Hrep); [done..|].
  unfold register_broker, on_storage, on_ring. run. rewrite E. run. cbn [ring set_storage]. rewrite Er. run.
  eexists. split; [reflexivity|]. cbn in Hns.
  assert (live (set_ring r (set_storage d s)) = {[ n ]} ∪ live s) as Hlive.
  { unfold live. cbn. by rewrite Hns, dom_insert_L. }
  split_and!; [|done|done|done|done]. split; cbn; [done|done|by rewrite Hlive|].
  rewrite Hlive. apply union_subseteq. split; [|done].
  apply singleton_subseteq_l. by apply elem_of_list_to_set.
Qed.

Lemma register_topic_ok s t :
  cluster s → is_Ok (_hash t) →
  match topics s !! t with
  | Some m => register_topic t s = (Ok m, s)
  | None => ∃ l s', get_replicas _hash (ring s) t (replicas_per_topic s) = Ok l ∧
      let m := mkTopicMetadata t (default (py "") (head l)) l l 1 in
      register_topic t s = (Ok m, s') ∧ cluster s' ∧ live s' = live s ∧
      st_nodes (storage s') = st_nodes (storage s) ∧
      topics s' = <[t := m]> (topics s) ∧ replicas_per_topic s' = replicas_per_topic s
  end.
Proof.
  intros Hc Ht. pose proof (st_get_topic_ok (storage s) t (cl_store _ Hc)) as Eg.
  unfold topics. destruct (st_topics (storage s) !! t) as [m|] eqn:Em.
  { unfold register_topic, on_storage. run. rewrite Eg. run. by destruct s. }
  destruct (cluster_placed s t (replicas_per_topic s) Hc Ht) as (l & El & _).
  exists l. pose proof (st_add_topic_ok (storage s) (mkTopicMetadata t (default (py "") (head l)) l l 1)
    (cl_store _ Hc)) as Ha. cbn in Ha. rewrite Em in Ha. destruct Ha as (d & Ea & Hd & Hn & Hts).
  exists (set_storage d s). split; [done|]. cbn zeta.
  unfold register_topic, on_storage. run. rewrite Eg. run. cbn [ring set_storage replicas_per_topic].
  rewrite El. run. cbn [storage set_storage]. rewrite Ea. run.
  assert (live (set_storage d s) = live s) as Hlive by (unfold live; cbn; by rewrite Hn).
  split_and!; [by destruct s| |done|done|done|done].
  split; cbn; [done|apply Hc|rewrite Hlive; apply Hc|rewrite Hlive; apply Hc].
Qed.
(** ** Deregistering *)

(** The replica list of a topic holds different live brokers, at most the
    configured number of them. *)
Record well_placed (live : gset (list Z)) (count : Z) (m : TopicMetadata) : Prop := {
  wp_nodup : NoDup (replica_list m);
  wp_live n : n ∈ replica_list m → n ∈ live;
  wp_count : zlen (replica_list m) <= count }.

Lemma replace_replica_ok s id active m :
  cluster s → is_Ok (_hash (topic m)) → 1 <= replicas_per_topic s →
  (∀ n, n ∈ active ↔ n ∈ live s) → id ∈ replica_list m → id ∉ live s →
  well_placed ({[ id ]} ∪ live s) (replicas_per_topic s) m →
  ∃ added, let l := filter (λ r, r ≠ id) (replica_list m) ++ added in
    replace_replica id active m s = (Ok l, s) ∧ NoDup l ∧ (∀ n, n ∈ l → n ∈ live s) ∧
    zlen l = Z.min (replicas_per_topic s) (Z.of_nat (size (live s))).
Proof.
  intros Hc Ht Hrpt Hact Hid Hdead [W1 W2 W3]. unfold replace_replica. run.
  set (new := filter (λ r, r ≠ id) (replica_list m)).
  assert (NoDup new) as Hn by (by apply NoDup_filter).
  assert (∀ n, n ∈ new → n ∈ live s) as Hnl.
  { intros n [Hne Hin]%list_elem_of_filter. specialize (W2 n Hin). set_solver. }
  assert (zlen new < replicas_per_topic s) as Hlt.
  { assert (length new < length (replica_list m))%nat; [|lia].
    apply (length_filter_lt _ _ id); [done|]. cbn. by intros ?. }
  replace (zlen new <? replicas_per_topic s) with true by lia. cbn [andb].
  case_bool_decide as Ha; cbn [negb]; run.
  - assert (live s = ∅) as Hl.
    { apply elem_of_equiv_empty_L. intros n Hin%Hact. rewrite Ha in Hin.
      by apply elem_of_nil in Hin. }
    exists []. rewrite app_nil_r. split_and!; [done..|]. rewrite Hl, size_empty.
    destruct new as [|n l]; [cbn; lia|]. exfalso. specialize (Hnl n (list_elem_of_here _ _)). set_solver.
  - destruct (cluster_placed s (topic m) (replicas_per_topic s) Hc Ht)
      as (h & Eh & Hhn & Hhl & Hhs & _). rewrite Eh. run.
    destruct (fill_replicas_ok (replicas_per_topic s) h new Hn Hlt)
      as (added & -> & F1 & F2 & F3 & F4).
    exists added. cbn zeta.
    assert (∀ n, n ∈ new ++ added → n ∈ live s) as Hl.
    { intros n [?|?]%elem_of_app; auto. }
    split_and!; [done..|]. pose proof (NoDup_size_le _ _ F1 Hl).
    destruct F4 as [|F4]; [lia|]. replace (1 <=? replicas_per_topic s) with true in Hhs by lia.
    pose proof (NoDup_length_le h (new ++ added) Hhn F4). lia.
Qed.

Lemma elect_leader_ok s m :
  cluster s → is_Ok (_hash (topic m)) →
  ∃ x, _elect_leader m s
         = (Ok (default (py "") (head (isr_list m ++ replica_list m ++ option_list x))), s) ∧
    ∀ n, x = Some n → n ∈ live s.
Proof.
  intros Hc Ht. destruct (cluster_placed s (topic m) 1 Hc Ht) as (h & _ & _ & Hl & _ & Eg).
  exists (head h). split; [|intros n Hn; apply Hl; destruct h; [done|]; injection Hn as ->; left].
  unfold _elect_leader. destruct (isr_list m); [|done]. destruct (replica_list m); [|done].
  run. rewrite Eg. run. by destruct h.
Qed.
(** The broker [id] is concerned: a replica or the leader of the topic. *)
Definition concerned (id : list Z) (m : TopicMetadata) : Prop :=
  id ∈ replica_list m ∨ leader_id m = id.

#[export] Instance concerned_dec id m : Decision (concerned id m).
Proof. unfold concerned. apply _. Defined.

(** What becomes of the metadata [m] of a topic when [id] is deregistered. *)
Record deregistered (live : gset (list Z)) (count : Z) (id : list Z) (m m' : TopicMetadata) : Prop := {
  dr_topic : topic m' = topic m;
  dr_gone : ¬ concerned id m';
  dr_placed : well_placed live count m';
  dr_survivors : ∃ added, replica_list m' = filter (λ r, r ≠ id) (replica_list m) ++ added;
  dr_count : id ∈ replica_list m → zlen (replica_list m') = Z.min count (Z.of_nat (size live));
  dr_kept : leader_id m ≠ id → leader_id m' = leader_id m ∧ isr_list m' = isr_list m;
  dr_elected : leader_id m = id →
    isr_list m' = filter (λ r, r ≠ id) (isr_list m) ∧
    ∃ x, leader_id m' = default (py "") (head (isr_list m' ++ replica_list m' ++ option_list x)) ∧
      ∀ n, x = Some n → n ∈ live;
  dr_version : concerned id m → version m' = version m + 1;
  dr_unconcerned : ¬ concerned id m → m' = m }.

(** The two conditional assignments of the loop, as one step each. *)
Lemma reassign_ok s id active m :
  cluster s → is_Ok (_hash (topic m)) → 1 <= replicas_per_topic s →
  (∀ n, n ∈ active ↔ n ∈ live s) → id ∉ live s →
  well_placed ({[ id ]} ∪ live s) (replicas_per_topic s) m →
  ∃ l added, l = filter (λ r, r ≠ id) (replica_list m) ++ added ∧
    (if bool_decide (id ∈ replica_list m) then
       new_replicas ← replace_replica id active m;
       mret (set_replica_list new_replicas m, true)
     else mret (m, false)) s = (Ok (set_replica_list l m, bool_decide (id ∈ replica_list m)), s) ∧
    id ∉ l ∧ well_placed (live s) (replicas_per_topic s) (set_replica_list l m) ∧
    (id ∈ replica_list m → zlen l = Z.min (replicas_per_topic s) (Z.of_nat (size (live s)))) ∧
    (id ∉ replica_list m → l = replica_list m).
Proof.
  intros Hc Ht Hrpt Hact Hdead Hw. case_bool_decide as Hid.
  - destruct (replace_replica_ok s id active m Hc Ht Hrpt Hact Hid Hdead Hw)
      as (added & E & H1 & H2 & H3). cbn zeta in *.
    eexists _, added. split; [reflexivity|]. run. rewrite E. run.
    split_and!; [done| | |done|done].
    + intros Hin%H2. done.
    + split; cbn; [done|done|lia].
  - exists (replica_list m), []. rewrite app_nil_r, filter_absent by done. destruct Hw as [W1 W2 W3].
    split_and!; [done|by destruct m|done| |done|done].
    split; cbn; [done| |done]. intros n Hn. specialize (W2 n Hn). set_solver.
Qed.

Lemma reelect_ok s id m needs :
  cluster s → is_Ok (_hash (topic m)) → id ∉ live s → id ∉ replica_list m → id ≠ py "" →
  ∃ m', (if bool_decide (leader_id m = id) then
           let topic_meta := set_isr_list (filter (λ r, r ≠ id) (isr_list m)) m in
           l ← _elect_leader topic_meta;
           mret (set_leader_id l topic_meta, true)
         else mret (m, needs)) s = (Ok (m', bool_decide (leader_id m = id) || needs), s) ∧
    topic m' = topic m ∧ replica_list m' = replica_list m ∧ version m' = version m ∧
    leader_id m' ≠ id ∧ (leader_id m ≠ id → m' = m) ∧
    (leader_id m = id → isr_list m' = filter (λ r, r ≠ id) (isr_list m) ∧
      ∃ x, leader_id m' = default (py "") (head (isr_list m' ++ replica_list m' ++ option_list x)) ∧
        ∀ n, x = Some n → n ∈ live s).
Proof.
  intros Hc Ht Hdead Hid Hne. case_bool_decide as Hl; [|by exists m].
  set (m1 := set_isr_list (filter (λ r, r ≠ id) (isr_list m)) m).
  destruct (elect_leader_ok s m1 Hc Ht) as (x & E & Hx). cbn zeta. run. rewrite E. run.
  eexists. split; [reflexivity|]. cbn. split_and!; try done; [|by eauto].
  destruct (head _) as [n|] eqn:Hh; cbn; [|congruence]. intros ->.
  apply head_Some_elem_of in Hh. rewrite !elem_of_app in Hh.
  destruct Hh as [[Hh _]%list_elem_of_filter|[?|Hh]]; [done|done|].
  destruct x as [n|]; cbn in Hh; [|by apply elem_of_nil in Hh].
  apply list_elem_of_singleton in Hh as ->. by apply Hdead, Hx.
Qed.
(** [s'] differs from [s] in the topics only. *)
Definition same_brokers s s' : Prop :=
  cluster s' ∧ st_nodes (storage s') = st_nodes (storage s) ∧ ring s' = ring s ∧
  replicas_per_topic s' = replicas_per_topic s.

Lemma same_brokers_refl s : cluster s → same_brokers s s.
Proof. by split. Qed.
Lemma same_brokers_trans s s1 s2 : same_brokers s s1 → same_brokers s1 s2 → same_brokers s s2.
Proof. unfold same_brokers. intros (? & ? & ? & ?) (? & ? & ? & ?). split_and!; congruence. Qed.
Lemma same_brokers_live s s' : same_brokers s s' → live s' = live s.
Proof. unfold same_brokers, live. by intros (_ & -> & _). Qed.

Lemma update_topic_stored s m :
  cluster s → is_Some (topics s !! topic m) →
  ∃ s', on_storage (st_update_topic m) s = (Ok tt, s') ∧ same_brokers s s' ∧
    topics s' = <[topic m := m]> (topics s).
Proof.
  intros Hc [m0 Hm]. pose proof (st_update_topic_ok (storage s) m (cl_store _ Hc)) as Hu.
  unfold topics in *. rewrite Hm in Hu. destruct Hu as (d & E & Hd & Hn & Ht).
  exists (set_storage d s). unfold on_storage. run. rewrite E.
  split; [done|]. split; [|done]. split_and!; [|done|done|done].
  destruct Hc. split; unfold live in *; cbn; rewrite ?Hn; done.
Qed.

Lemma deregister_topic_ok s id active m :
  cluster s → topics s !! topic m = Some m → is_Ok (_hash (topic m)) → 1 <= replicas_per_topic s →
  (∀ n, n ∈ active ↔ n ∈ live s) → id ∉ live s → id ≠ py "" →
  well_placed ({[ id ]} ∪ live s) (replicas_per_topic s) m →
  ∃ m' s', deregister_topic id active m s
      = (Ok (if decide (concerned id m) then Some m' else None), s') ∧
    deregistered (live s) (replicas_per_topic s) id m m' ∧ same_brokers s s' ∧
    topics s' = <[topic m := m']> (topics s).
Proof.
  intros Hc Hm Ht Hrpt Hact Hdead Hne Hw.
  destruct (reassign_ok s id active m Hc Ht Hrpt Hact Hdead Hw)
    as (l & added & Hl & E1 & R1 & R2 & R3 & R4).
  destruct (reelect_ok s id (set_replica_list l m) (bool_decide (id ∈ replica_list m)) Hc Ht Hdead R1 Hne)
    as (m2 & E2 & T2 & L2 & V2 & N2 & K2 & X2).
  unfold deregister_topic. run. rewrite E1. run. cbv zeta in E2. rewrite E2. run. clear E1 E2.
  cbn [topic replica_list version leader_id isr_list set_replica_list] in *.
  destruct R2 as [W1 W2 W3]. cbn in W1, W2, W3.
  assert (∀ v, deregistered (live s) (replicas_per_topic s) id m
    (mkTopicMetadata (topic m2) (leader_id m2) (replica_list m2) (isr_list m2) v)
    ↔ (concerned id m → v = version m + 1) ∧ (¬ concerned id m → v = version m)) as Hspec.
  { intros v. split.
    - intros D. split; [apply D|]. intros Hn. by rewrite <-(dr_unconcerned _ _ _ _ _ D Hn).
    - intros [D1 D2]. split; cbn; rewrite ?L2; auto.
      + intros [?|?]; cbn in *; congruence.
      + by split.
      + eauto.
      + intros Hn. rewrite (K2 Hn). done.
      + intros Hn. rewrite <-L2. by apply X2.
      + intros Hn. specialize (D2 Hn). subst v. unfold concerned in Hn.
        rewrite K2 by tauto. cbn. rewrite (R4 (λ h, Hn (or_introl h))). by destruct m. }
  assert (bool_decide (leader_id m = id) || bool_decide (id ∈ replica_list m)
    = bool_decide (concerned id m)) as ->.
  { repeat case_bool_decide; unfold concerned in *; cbn; tauto. }
  case_bool_decide as Hcd.
  - destruct (decide (concerned id m)) as [_|]; [|done].
    destruct (update_topic_stored s (next_version m2) Hc) as (s' & Eu & Hs' & Ht').
    { cbn. rewrite T2. eauto. }
    run. rewrite Eu. run. eexists _, s'. split; [reflexivity|]. split; [|split; [done|]].
    + apply Hspec. split; [|done]. intros _. cbn. lia.
    + rewrite Ht'. cbn. by rewrite T2.
  - destruct (decide (concerned id m)) as [|_]; [done|]. run. exists m, s. split; [done|]. split; [|split].
    + replace m with (mkTopicMetadata (topic m2) (leader_id m2) (replica_list m2) (isr_list m2) (version m)) at 2.
      { apply Hspec. split; done. }
      unfold concerned in Hcd. rewrite K2 by tauto. cbn. rewrite (R4 (λ h, Hcd (or_introl h))).
      by destruct m.
    + by apply same_brokers_refl.
    + by rewrite insert_id.
Qed.
Lemma deregister_topics_ok id active l s :
  cluster s → 1 <= replicas_per_topic s → (∀ n, n ∈ active ↔ n ∈ live s) →
  id ∉ live s → id ≠ py "" → NoDup (topic <$> l) →
  (∀ m, m ∈ l → topics s !! topic m = Some m ∧ is_Ok (_hash (topic m)) ∧
    well_placed ({[ id ]} ∪ live s) (replicas_per_topic s) m) →
  ∃ us s', deregister_topics id active l s = (Ok us, s') ∧ same_brokers s s' ∧
    (∀ t, t ∉ topic <$> l → topics s' !! t = topics s !! t) ∧
    (∀ m, m ∈ l → ∃ m', topics s' !! topic m = Some m' ∧
      deregistered (live s) (replicas_per_topic s) id m m' ∧ (concerned id m → m' ∈ us)) ∧
    (∀ u, u ∈ us → ∃ m, m ∈ l ∧ concerned id m ∧ topics s' !! topic m = Some u).
Proof.
  intros Hc Hrpt Hact Hdead Hne. revert s Hc Hrpt Hact Hdead.
  induction l as [|m l IH]; intros s Hc Hrpt Hact Hdead Hn Hl; cbn [deregister_topics].
  - exists [], s. split_and!; [done|by apply same_brokers_refl|done| |]; by intros ? ?%elem_of_nil.
  - rewrite fmap_cons in Hn. apply NoDup_cons in Hn as [Hm Hn].
    destruct (Hl m) as (Hs & Hh & Hw); [left|].
    destruct (deregister_topic_ok s id active m Hc Hs Hh Hrpt Hact Hdead Hne Hw)
      as (m' & s1 & E1 & Hd & Hs1 & Ht1).
    pose proof (same_brokers_live _ _ Hs1) as Hlive. destruct Hs1 as (Hc1 & Hn1 & Hr1 & Hp1).
    destruct (IH s1) as (us & s2 & E2 & Hs2 & Hout & Hin & Hus); rewrite ?Hlive, ?Hp1; try done.
    { intros x Hx. destruct (Hl x) as (? & ? & ?); [by right|]. split; [|done]. rewrite Ht1.
      rewrite lookup_insert_ne; [done|]. intros E. apply Hm. rewrite E.
      by apply list_elem_of_fmap_2. }
    rewrite Hlive, Hp1 in Hin. run. rewrite E1. run. rewrite E2. run.
    eexists _, s2. split; [reflexivity|]. split; [by eapply same_brokers_trans|]. split; [|split].
    + intros t Ht. rewrite fmap_cons, not_elem_of_cons in Ht. destruct Ht as [Ht1' Ht2'].
      rewrite (Hout t Ht2'), Ht1. by rewrite lookup_insert_ne.
    + intros x [->|Hx]%elem_of_cons.
      * exists m'. rewrite (Hout _ Hm), Ht1, lookup_insert_eq. split_and!; [done..|].
        intros Hcn. destruct (decide (concerned id m)); [left|done].
      * destruct (Hin x Hx) as (x' & ? & ? & Hu). exists x'. split_and!; [done..|].
        intros Hcn. apply elem_of_app. right. auto.
    + intros u [Hu|Hu]%elem_of_app.
      * exists m. destruct (decide (concerned id m)); cbn in Hu; [|by apply elem_of_nil in Hu].
        apply list_elem_of_singleton in Hu as ->. split_and!; [left|done|].
        by rewrite (Hout _ Hm), Ht1, lookup_insert_eq.
      * destruct (Hus u Hu) as (x & ? & ? & ?). exists x. split_and!; [by right|done|done].
Qed.

(** The metadata of all topics are hashable names placed on live brokers. *)
Definition all_placed s : Prop :=
  ∀ t m, topics s !! t = Some m → is_Ok (_hash t) ∧ well_placed (live s) (replicas_per_topic s) m.

Lemma deregister_broker_ok s id :
  cluster s → 1 <= replicas_per_topic s → all_placed s → id ∈ brokers → id ≠ py "" →
  ∃ us s', deregister_broker id s = (Ok us, s') ∧ cluster s' ∧
    st_nodes (storage s') = delete id (st_nodes (storage s)) ∧ live s' = live s ∖ {[ id ]} ∧
    replicas_per_topic s' = replicas_per_topic s ∧ dom (topics s') = dom (topics s) ∧
    (∀ t m, topics s !! t = Some m → ∃ m', topics s' !! t = Some m' ∧
      deregistered (live s') (replicas_per_topic s) id m m' ∧ (concerned id m → m' ∈ us)) ∧
    (∀ u, u ∈ us → ∃ t m, topics s !! t = Some m ∧ concerned id m ∧ topics s' !! t = Some u).
Proof.
  intros [H1 H2 H3 H4] Hrpt Hp Hid Hne.
  destruct (st_remove_node_ok (storage s) id H1) as (d & E & Hd & Ht & Hns).
  destruct (remove_node_rep _hash 50 brokers Hcf (live s) id (ring s)) as (r & Er & Hr & Hrep); [done..|].
  set (s1 := set_ring r (set_storage d s)).
  assert (live s1 = live s ∖ {[ id ]}) as Hl1.
  { unfold live. cbn. by rewrite Hns, dom_delete_L. }
  assert (cluster s1) as Hc1.
  { split; cbn; [done|done|by rewrite Hl1|rewrite Hl1; set_solver]. }
  assert (topics s1 = topics s) as Ht1 by done.
  destruct (st_all_topics_ok d Hd) as (l & El & Hln & Hlm).
  destruct (st_all_nodes_ok d Hd) as (ns & En & Hnm).
  assert (∀ t m, topics s !! t = Some m → topic m = t ∧ m ∈ l) as Hname.
  { intros t m Hm. pose proof (st_named (storage s) t m H1 Hm) as <-. rewrite Hlm, Ht. by split. }
  destruct (deregister_topics_ok id (node_id <$> ns) l s1 Hc1 Hrpt) as (us & s2 & E2 & Hs2 & Hout & Hin & Hus).
  - done.
  - rewrite Hl1. set_solver.
  - done.
  - done.
  - intros m Hm%Hlm. rewrite Ht in Hm. destruct (Hp _ m Hm) as [? [W1 W2 W3]].
    split_and!; [by rewrite Ht1|done|]. split; [done| |done]. intros n Hnl%W2. rewrite Hl1.
    destruct (decide (n = id)); set_solver.
  - pose proof (same_brokers_live _ _ Hs2) as Hl2. destruct Hs2 as (Hc2 & Hn2 & _ & Hp2).
    exists us, s2. split.
    { unfold deregister_broker, on_storage, on_ring. run. rewrite E. run. cbn [ring set_storage].
      rewrite Er. run. cbn [storage set_ring set_storage]. rewrite El. run.
      cbn [storage set_ring set_storage]. rewrite En. run. done. }
    rewrite Hl2, Hl1 in *. split_and!; [done|by rewrite Hn2|done|done| | |].
    + apply set_eq. intros t. rewrite !elem_of_dom. destruct (decide (t ∈ topic <$> l)) as [Hin'|Hin'].
      * apply list_elem_of_fmap in Hin' as (m & -> & Hm). destruct (Hin m Hm) as (m' & -> & _).
        apply Hlm in Hm. rewrite Ht in Hm. unfold topics. rewrite Hm. split; eauto.
      * by rewrite (Hout t Hin'), Ht1.
    + intros t m [<- Hm]%Hname. destruct (Hin m Hm) as (m' & ? & ? & ?). by exists m'.
    + intros u Hu. destruct (Hus u Hu) as (m & Hm%Hlm & ? & ?). rewrite Ht in Hm.
      by exists (topic m), m.
Qed.
(** ** Changing the list of replicas in sync *)

Record isr_updated (live : gset (list Z)) (isr : list (list Z)) (m m' : TopicMetadata) : Prop := {
  iu_topic : topic m' = topic m;
  iu_replicas : replica_list m' = replica_list m;
  iu_isr : isr_list m' = isr;
  iu_version : version m' = version m + 1;
  iu_kept : leader_id m ∈ isr → leader_id m' = leader_id m;
  iu_elected : leader_id m ∉ isr →
    ∃ x, leader_id m' = default (py "") (head (isr ++ replica_list m ++ option_list x)) ∧
      ∀ n, x = Some n → n ∈ live }.

Lemma update_topic_isr_ok s t isr :
  cluster s → (∀ m, topics s !! t = Some m → is_Ok (_hash t)) →
  match topics s !! t with
  | None => update_topic_isr t isr s = (Ok None, s)
  | Some m => ∃ m' s', update_topic_isr t isr s = (Ok (Some m'), s') ∧ same_brokers s s' ∧
      isr_updated (live s) isr m m' ∧ topics s' = <[t := m']> (topics s)
  end.
Proof.
  intros Hc Hh. pose proof (st_get_topic_ok (storage s) t (cl_store _ Hc)) as Eg.
  assert (set_storage (storage s) s = s) as Hset by by destruct s.
  destruct (topics s !! t) as [m|] eqn:Em; unfold topics in Em; rewrite Em in Eg.
  2: { unfold update_topic_isr, on_storage. run. rewrite Eg. run. by rewrite Hset. }
  pose proof (st_named (storage s) t m (cl_store _ Hc) Em) as Hn.
  assert (is_Ok (_hash (topic m))) as Ht by (rewrite Hn; by eapply Hh).
  set (m1 := set_isr_list isr m).
  assert (∃ m2, (if bool_decide (leader_id m1 ∈ isr) then mret m1
                 else l ← _elect_leader m1; mret (set_leader_id l m1)) s = (Ok m2, s) ∧
    topic m2 = t ∧ isr_updated (live s) isr m (next_version m2)) as (m2 & E2 & Hm2 & Hu).
  { case_bool_decide as Hin.
    - exists m1. split_and!; [done|done|]. by split.
    - destruct (elect_leader_ok s m1 Hc Ht) as (x & E & Hx). run. rewrite E. run.
      eexists. split; [reflexivity|]. split; [done|]. split; try done. intros _. by exists x. }
  destruct (update_topic_stored s (next_version m2) Hc) as (s' & Eu & Hs' & Hts).
  { cbn. rewrite Hm2. unfold topics. eauto. }
  exists (next_version m2), s'. split; [|split; [done|split; [done|by rewrite Hts; cbn; rewrite Hm2]]].
  unfold update_topic_isr. run. unfold on_storage at 1. run. rewrite Eg. run. rewrite Hset.
  subst m1. cbv zeta in E2 |- *. rewrite E2. run. by rewrite Eu.
Qed.
End manager.
