(* ===== verification/MetastoreTheorems.v ===== *)
(** * What the metastore manager guarantees

    Histories of calls to the manager, over any storage that obeys its laws. *)
From Stdlib Require Import String.
From stdpp Require Import sorting fin_maps fin_map_dom fin_sets.
From S2P Require Import Prelude PyData PyDict Bisect Md5 Ring RingFacts RingTheorems Metastore StorageFacts ManagerFacts.
Import MetastoreManager.

(** ** Histories *)

Inductive call :=
| RegisterBroker (id host : list Z) (port : Z)
| DeregisterBroker (id : list Z)
| RegisterTopic (t : list Z)
| UpdateTopicIsr (t : list Z) (isr : list (list Z)).

Section histories.
Context {S : Type} `{StorageLaws S}.
Implicit Types s : Manager S.

Definition do_call (c : call) : M (Manager S) unit :=
  match c with
  | RegisterBroker id host port => register_broker id host port;; mret tt
  | DeregisterBroker id => deregister_broker id;; mret tt
  | RegisterTopic t => register_topic t;; mret tt
  | UpdateTopicIsr t isr => update_topic_isr t isr;; mret tt
  end.

Fixpoint do_calls (cs : list call) : M (Manager S) unit :=
  match cs with [] => mret tt | c :: cs => do_call c;; do_calls cs end.

(** The brokers are those of [brokers], with non-empty names, and the names of
    topics can be encoded. *)
Definition allowed (brokers : list (list Z)) (c : call) : Prop :=
  match c with
  | RegisterBroker id _ _ | DeregisterBroker id => id ∈ brokers ∧ id ≠ py ""
  | RegisterTopic t => is_Ok (_hash t)
  | UpdateTopicIsr _ _ => True
  end.

#[export] Instance allowed_dec brokers c : Decision (allowed brokers c).
Proof.
  destruct c as [id| id|t|]; cbn; [apply _|apply _| |apply _].
  destruct (_hash t) as [k|]; [left; by exists k|right; by intros [k ?]].
Defined.

Definition empty_storage (d : S) : Prop := st_ok d ∧ st_nodes d = ∅ ∧ st_topics d = ∅.

(** The leader is in sync unless nobody is. *)
Definition led (m : TopicMetadata) : Prop := isr_list m ≠ [] → leader_id m ∈ isr_list m.

Record good (brokers : list (list Z)) (count : Z) s : Prop := {
  gd_cluster : cluster brokers s;
  gd_count : replicas_per_topic s = count;
  gd_placed : all_placed s;
  gd_led t m : topics s !! t = Some m → led m }.

Lemma well_placed_mono l l' n m : l ⊆ l' → well_placed l n m → well_placed l' n m.
Proof. intros Hl [H1 H2 H3]. split; auto. Qed.

Lemma head_led l r x : l ≠ [] → default (py "") (head (l ++ r ++ option_list x)) ∈ l.
Proof. destruct l; [done|]. intros _. left. Qed.

Lemma deregistered_led l n id m m' : deregistered l n id m m' → led m → led m'.
Proof.
  intros D Hm Hne. destruct (decide (leader_id m = id)) as [E|E].
  - destruct (dr_elected _ _ _ _ _ D E) as (_ & x & -> & _). by apply head_led.
  - destruct (dr_kept _ _ _ _ _ D E) as [-> Ei]. rewrite Ei in Hne |- *. auto.
Qed.

Lemma isr_updated_led l isr m m' : isr_updated l isr m m' → led m'.
Proof.
  unfold led. intros [? ? -> ? Hk He] Hne. destruct (decide (leader_id m ∈ isr)) as [Hin|Hin].
  - by rewrite (Hk Hin).
  - destruct (He Hin) as (x & -> & _). by apply head_led.
Qed.

Lemma new_manager_good brokers count d : empty_storage d → good brokers count (new_manager count d).
Proof.
  intros (Hd & Hn & Ht). split.
  - split; cbn; [done|done| |]; unfold live; cbn; rewrite Hn, dom_empty_L; [apply new_ring_owns|set_solver].
  - done.
  - intros t m. unfold topics. cbn. by rewrite Ht, lookup_empty.
  - intros t m. unfold topics. cbn. by rewrite Ht, lookup_empty.
Qed.

Section calls.
Context (brokers : list (list Z)) (Hcf : collision_free _hash 50 brokers).
Context (count : Z) (Hcount : 1 <= count).

(** Every allowed call succeeds and keeps the state good. *)
Lemma do_call_good c s :
  allowed brokers c → good brokers count s → ∃ s', do_call c s = (Ok tt, s') ∧ good brokers count s'.
Proof.
  intros Ha [Hc <- Hp Hl]. destruct c as [id h p|id|t|t isr]; cbn in Ha; cbn [do_call].
  - destruct Ha as [Hin _].
    destruct (register_broker_ok brokers Hcf s id h p Hc Hin) as (s' & E & Hc' & Hlive & _ & Ht & Hr).
    exists s'. run. rewrite E. split; [done|]. split; [done|done| |by rewrite Ht].
    intros t m Hm. rewrite Ht in Hm. destruct (Hp t m Hm) as [? Hw]. split; [done|].
    rewrite Hr, Hlive. eapply well_placed_mono; [|done]. set_solver.
  - destruct Ha as [Hin Hne].
    destruct (deregister_broker_ok brokers Hcf s id Hc Hcount Hp Hin Hne)
      as (us & s' & E & Hc' & _ & Hlive & Hr & Hd & Hall & _).
    assert (∀ t m', topics s' !! t = Some m' → ∃ m, topics s !! t = Some m ∧
      deregistered (live s') (replicas_per_topic s) id m m') as Hback.
    { intros t m' Hm'. assert (is_Some (topics s !! t)) as [m Hm].
      { apply elem_of_dom. rewrite <-Hd. apply elem_of_dom. eauto. }
      destruct (Hall t m Hm) as (x & Hx & D & _). exists m. split; [done|]. by simplify_eq. }
    exists s'. run. rewrite E. split; [done|]. split; [done|done| |].
    + intros t m' Hm'. destruct (Hback t m' Hm') as (m & Hm & D). rewrite Hr.
      split; [by eapply Hp|apply D].
    + intros t m' Hm'. destruct (Hback t m' Hm') as (m & Hm & D).
      eapply deregistered_led; [exact D|by eapply Hl].
  - pose proof (register_topic_ok brokers Hcf s t Hc Ha) as Hr.
    destruct (topics s !! t) as [m|] eqn:Em; [exists s; run; rewrite Hr; by split|].
    destruct Hr as (l & s' & El & E & Hc' & Hlive & _ & Ht & Hr). exists s'. run. rewrite E.
    split; [done|].
    destruct (cluster_placed brokers Hcf s t (replicas_per_topic s) Hc Ha) as (l' & El' & L1 & L2 & L3 & _).
    assert (l' = l) as -> by congruence. replace (1 <=? replicas_per_topic s) with true in L3 by lia.
    split; [done|done| |].
    + intros t' m Hm. rewrite Ht in Hm. rewrite Hlive, Hr.
      apply lookup_insert_Some in Hm as [[<- <-]|[_ Hm]]; [|by apply Hp]. split; [done|].
      split; cbn; [done|done|lia].
    + intros t' m Hm. rewrite Ht in Hm. apply lookup_insert_Some in Hm as [[<- <-]|[_ Hm]]; [|by eapply Hl].
      intros Hne. cbn in *. destruct l; [done|left].
  - pose proof (update_topic_isr_ok brokers Hcf s t isr Hc (λ m Hm, proj1 (Hp t m Hm))) as Hu.
    destruct (topics s !! t) as [m|] eqn:Em; [|exists s; run; rewrite Hu; by split].
    destruct Hu as (m' & s' & E & Hs' & D & Ht). exists s'. run. rewrite E. split; [done|].
    pose proof (same_brokers_live brokers _ _ Hs') as Hlive. destruct Hs' as (Hc' & _ & _ & Hr).
    split; [done|done| |].
    + intros t' x Hx. rewrite Ht in Hx. rewrite Hlive, Hr.
      apply lookup_insert_Some in Hx as [[<- <-]|[_ Hx]]; [|by apply Hp].
      destruct (Hp t m Em) as [? [W1 W2 W3]]. split; [done|].
      split; rewrite (iu_replicas _ _ _ _ D); done.
    + intros t' x Hx. rewrite Ht in Hx. apply lookup_insert_Some in Hx as [[<- <-]|[_ Hx]]; [|by eapply Hl].
      by eapply isr_updated_led.
Qed.

Lemma do_calls_good cs s :
  Forall (allowed brokers) cs → good brokers count s →
  ∃ s', do_calls cs s = (Ok tt, s') ∧ good brokers count s'.
Proof.
  intros Hcs. revert s. induction Hcs as [|c cs Hc Hcs IH]; intros s Hs; cbn [do_calls]; [by exists s|].
  destruct (do_call_good c s Hc Hs) as (s1 & E1 & Hs1). destruct (IH s1 Hs1) as (s2 & E2 & Hs2).
  exists s2. run. rewrite E1. run. by rewrite E2.
Qed.

Lemma reached_good cs d s :
  empty_storage d → Forall (allowed brokers) cs →
  do_calls cs (new_manager count d) = (Ok tt, s) → good brokers count s.
Proof.
  intros Hd Hcs E. destruct (do_calls_good cs _ Hcs (new_manager_good brokers count d Hd)) as (s' & E' & Hs').
  rewrite E in E'. by injection E' as <-.
Qed.
End calls.
End histories.

(** ** The theorems *)

Section theorems.
Context {S : Type} `{StorageLaws S}.

(** C34: whatever brokers register and leave, topics are registered and lists of
    replicas in sync are reported, no call fails, and afterwards the replicas of every
    topic are different registered brokers, at most the configured number of them, and
    the leader is in sync unless the list is empty. *)
Theorem topics_well_placed brokers count d cs :
  collision_free _hash 50 brokers → 1 <= count → empty_storage d → Forall (allowed brokers) cs →
  ∃ s, do_calls cs (new_manager count d) = (Ok tt, s) ∧
    ∀ t m, topics s !! t = Some m →
      NoDup (replica_list m) ∧ (∀ n, n ∈ replica_list m → n ∈ live s) ∧
      zlen (replica_list m) <= count ∧ (isr_list m ≠ [] → leader_id m ∈ isr_list m).
Proof.
  intros Hcf Hc Hd Hcs.
  destruct (do_calls_good brokers Hcf count Hc cs _ Hcs (new_manager_good brokers count d Hd))
    as (s & E & [_ Hr Hp Hl]).
  exists s. split; [done|]. intros t m Hm. destruct (Hp t m Hm) as [_ [W1 W2 W3]].
  rewrite <-Hr. split_and!; [done..|]. by eapply Hl.
Qed.

(** Registering a topic that is known returns its metadata and changes nothing; a
    new topic is placed on the brokers [get_replicas] picks, as many of the registered
    ones as configured, with the owner of its place in the ring as leader and all of
    them in sync, and no other topic changes. *)
Theorem register_topic_correct brokers count d cs s t :
  collision_free _hash 50 brokers → 1 <= count → empty_storage d → Forall (allowed brokers) cs →
  do_calls cs (new_manager count d) = (Ok tt, s) → is_Ok (_hash t) →
  ∃ m s', register_topic t s = (Ok m, s') ∧ topics s' = <[t := m]> (topics s) ∧ live s' = live s ∧
    match topics s !! t with
    | Some m' => m = m' ∧ s' = s
    | None => topic m = t ∧ version m = 1 ∧ isr_list m = replica_list m ∧
        NoDup (replica_list m) ∧ (∀ n, n ∈ replica_list m → n ∈ live s) ∧
        zlen (replica_list m) = Z.min count (Z.of_nat (size (live s))) ∧
        ∃ o, Ring.get_node _hash (ring s) t = Ok o ∧ leader_id m = default (py "") o
    end.
Proof.
  intros Hcf Hcount Hd Hcs E Ht.
  destruct (reached_good brokers Hcf count Hcount cs d s Hd Hcs E) as [Hc <- Hp Hl].
  pose proof (register_topic_ok brokers Hcf s t Hc Ht) as Hr.
  destruct (topics s !! t) as [m|] eqn:Em.
  { exists m, s. by rewrite insert_id. }
  destruct Hr as (l & s' & El & Er & _ & Hlive & _ & Hts & _).
  destruct (cluster_placed brokers Hcf s t (replicas_per_topic s) Hc Ht) as (l' & El' & L1 & L2 & L3 & L4).
  assert (l' = l) as -> by congruence. replace (1 <=? replicas_per_topic s) with true in L3 by lia.
  eexists _, s'. split_and!; [exact Er|done|done|done|done|done|done|done|done|]. by exists (head l).
Qed.

(** C33: deregistering a broker leaves it neither leader nor replica of any topic; the
    other replicas stay, in their order, and live brokers take its place until there
    are as many replicas as configured or as there are brokers; a leader stays unless
    it is the one that left, and then the first broker in sync, else the first replica,
    else the owner in the ring replaces it; exactly the topics concerned get a new
    version and are returned. *)
Theorem deregister_correct brokers count d cs s id :
  collision_free _hash 50 brokers → 1 <= count → empty_storage d → Forall (allowed brokers) cs →
  do_calls cs (new_manager count d) = (Ok tt, s) → id ∈ brokers → id ≠ py "" →
  ∃ us s', deregister_broker id s = (Ok us, s') ∧ live s' = live s ∖ {[ id ]} ∧
    (∀ u, u ∈ us ↔ ∃ t m, topics s !! t = Some m ∧ concerned id m ∧ topics s' !! t = Some u) ∧
    dom (topics s') = dom (topics s) ∧
    ∀ t m, topics s !! t = Some m →
      ∃ m', topics s' !! t = Some m' ∧ deregistered (live s') count id m m'.
Proof.
  intros Hcf Hcount Hd Hcs E Hin Hne.
  destruct (reached_good brokers Hcf count Hcount cs d s Hd Hcs E) as [Hc <- Hp Hl].
  destruct (deregister_broker_ok brokers Hcf s id Hc Hcount Hp Hin Hne)
    as (us & s' & Ed & _ & _ & Hlive & _ & Hdom & Hall & Hus).
  exists us, s'. split_and!; [done|done| |done|].
  - intros u. split; [apply Hus|]. intros (t & m & Hm & Hcd & Hu).
    destruct (Hall t m Hm) as (m' & Hm' & _ & Hi). simplify_eq. auto.
  - intros t m Hm. destruct (Hall t m Hm) as (m' & ? & ? & _). by exists m'.
Qed.

(** Reporting the replicas in sync of a known topic stores the list with a new
    version and keeps the replicas; the leader stays when it is in the list, otherwise
    the first broker of the list, else of the replicas, else of the ring becomes
    leader.  For an unknown topic nothing happens. *)
Theorem update_topic_isr_correct brokers count d cs s t isr :
  collision_free _hash 50 brokers → 1 <= count → empty_storage d → Forall (allowed brokers) cs →
  do_calls cs (new_manager count d) = (Ok tt, s) →
  match topics s !! t with
  | None => update_topic_isr t isr s = (Ok None, s)
  | Some m => ∃ m' s', update_topic_isr t isr s = (Ok (Some m'), s') ∧
      topics s' = <[t := m']> (topics s) ∧ live s' = live s ∧ isr_updated (live s) isr m m'
  end.
Proof.
  intros Hcf Hcount Hd Hcs E.
  destruct (reached_good brokers Hcf count Hcount cs d s Hd Hcs E) as [Hc Hr Hp Hl].
  pose proof (update_topic_isr_ok brokers Hcf s t isr Hc (λ m Hm, proj1 (Hp t m Hm))) as Hu.
  destruct (topics s !! t) as [m|]; [|done]. destruct Hu as (m' & s' & Eu & Hs' & Hi & Ht).
  exists m', s'. split_and!; [done|done|by eapply same_brokers_live|done].
Qed.
(** ** Two failures of the placement *)

Definition orphaned (m : TopicMetadata) : Prop := leader_id m = py "" ∧ replica_list m = [].

Lemma orphan_step brokers count c s s' t m :
  collision_free _hash 50 brokers → 1 <= count → good brokers count s → allowed brokers c →
  (∀ isr, c ≠ UpdateTopicIsr t isr) → topics s !! t = Some m → orphaned m →
  do_call c s = (Ok tt, s') → topics s' !! t = Some m.
Proof.
  intros Hcf Hcount [Hc <- Hp Hl] Ha Hu Hm [Hlead Hrep] E.
  destruct c as [id h p|id|t'|t' isr]; cbn in Ha; cbn [do_call] in E; run_in E.
  - destruct (register_broker_ok brokers Hcf s id h p Hc (proj1 Ha)) as (s1 & E1 & _ & _ & _ & Ht & _).
    rewrite E1 in E. run_in E. injection E as <-. by rewrite Ht.
  - destruct Ha as [Hin Hne].
    destruct (deregister_broker_ok brokers Hcf s id Hc Hcount Hp Hin Hne)
      as (us & s1 & E1 & _ & _ & _ & _ & _ & Hall & _).
    rewrite E1 in E. run_in E. injection E as <-. destruct (Hall t m Hm) as (m' & Hm' & D & _).
    rewrite (dr_unconcerned _ _ _ _ _ D) in Hm'; [done|]. unfold concerned.
    rewrite Hlead, Hrep, elem_of_nil. by intros [?|?].
  - pose proof (register_topic_ok brokers Hcf s t' Hc Ha) as Hr.
    destruct (topics s !! t') as [m'|] eqn:Em.
    + rewrite Hr in E. run_in E. by injection E as <-.
    + destruct Hr as (l & s1 & _ & E1 & _ & _ & _ & Ht & _). rewrite E1 in E. run_in E. injection E as <-.
      rewrite Ht, lookup_insert_ne; [done|]. congruence.
  - assert (t' ≠ t) as Ht' by (intros ->; by apply (Hu isr)).
    pose proof (update_topic_isr_ok brokers Hcf s t' isr Hc (λ m Hm, proj1 (Hp t' m Hm))) as Hr.
    destruct (topics s !! t') as [m'|].
    + destruct Hr as (m2 & s1 & E1 & _ & _ & Ht). rewrite E1 in E. run_in E. injection E as <-.
      by rewrite Ht, lookup_insert_ne.
    + rewrite Hr in E. run_in E. by injection E as <-.
Qed.

Lemma orphan_run brokers count cs s t m :
  collision_free _hash 50 brokers → 1 <= count → good brokers count s → Forall (allowed brokers) cs →
  (∀ isr, UpdateTopicIsr t isr ∉ cs) → topics s !! t = Some m → orphaned m →
  ∃ s', do_calls cs s = (Ok tt, s') ∧ topics s' !! t = Some m.
Proof.
  intros Hcf Hcount Hs Hcs. revert s Hs. induction Hcs as [|c cs Hc Hcs IH]; intros s Hs Hu Hm Ho; [by exists s|].
  destruct (do_call_good brokers Hcf count Hcount c s Hc Hs) as (s1 & E1 & Hs1).
  destruct (IH s1 Hs1) as (s2 & E2 & Ht2); [| |done|].
  - intros isr Hin. apply (Hu isr). by right.
  - eapply (orphan_step brokers count c s); try done. intros isr ->. apply (Hu isr). left.
  - exists s2. cbn [do_calls]. run. rewrite E1. run. by rewrite E2.
Qed.

Lemma do_calls_app cs cs' s : do_calls (cs ++ cs') s = (do_calls cs;; do_calls cs') s.
Proof.
  revert s. induction cs as [|c cs IH]; intros s; [done|]. cbn [do_calls app]. run.
  destruct (do_call c s) as [[[]|e] s1]; [|done]. rewrite IH. by run.
Qed.

Lemma good_after brokers count c s s' :
  collision_free _hash 50 brokers → 1 <= count → good brokers count s → allowed brokers c →
  do_call c s = (Ok tt, s') → good brokers count s'.
Proof.
  intros Hcf Hcount Hs Hc E. destruct (do_call_good brokers Hcf count Hcount c s Hc Hs) as (x & E' & Hx).
  rewrite E in E'. by injection E' as <-.
Qed.

Lemma deregister_in brokers count s id t m :
  collision_free _hash 50 brokers → 1 <= count → good brokers count s → id ∈ brokers → id ≠ py "" →
  topics s !! t = Some m →
  ∃ s' m', do_call (DeregisterBroker id) s = (Ok tt, s') ∧ good brokers count s' ∧
    topics s' !! t = Some m' ∧ live s' = live s ∖ {[ id ]} ∧ deregistered (live s') count id m m'.
Proof.
  intros Hcf Hcount Hs Hin Hne Hm. pose proof Hs as [Hc <- Hp _].
  destruct (deregister_broker_ok brokers Hcf s id Hc Hcount Hp Hin Hne)
    as (us & s' & E & _ & _ & Hl & _ & _ & Hall & _).
  destruct (Hall t m Hm) as (m' & Hm' & D & _).
  assert (do_call (DeregisterBroker id) s = (Ok tt, s')) as Ec by (cbn [do_call]; run; by rewrite E).
  exists s', m'. split_and!; try done.
  eapply (good_after brokers _ (DeregisterBroker id) s); done.
Qed.

(** The only broker leaves a topic that was placed on it. *)
Lemma last_replica_gone brokers count s id t m :
  collision_free _hash 50 brokers → 1 <= count → good brokers count s → id ∈ brokers → id ≠ py "" →
  live s = {[ id ]} → topics s !! t = Some m → isr_list m = replica_list m →
  leader_id m = default (py "") (head (replica_list m)) →
  ∃ s' m', do_call (DeregisterBroker id) s = (Ok tt, s') ∧ good brokers count s' ∧
    topics s' !! t = Some m' ∧ orphaned m'.
Proof.
  intros Hcf Hcount Hs Hin Hne Hlive Hm Hisr Hlead.
  destruct (deregister_in brokers count s id t m Hcf Hcount Hs Hin Hne Hm)
    as (s' & m' & E & Hg & Hm' & Hl & D).
  assert (live s' = ∅) as Hl' by (rewrite Hl, Hlive; set_solver). rewrite Hl' in D.
  exists s', m'. split_and!; [done..|].
  assert (∀ n, n ∈ replica_list m → n = id) as Hl1.
  { intros n Hn. apply (wp_live _ _ _ (proj2 (gd_placed _ _ _ Hs t m Hm))) in Hn. rewrite Hlive in Hn. set_solver. }
  assert (replica_list m' = []) as Hrep.
  { pose proof (wp_live _ _ _ (dr_placed _ _ _ _ _ D)) as W. destruct (replica_list m') as [|n k]; [done|].
    exfalso. specialize (W n (list_elem_of_here _ _)). set_solver. }
  split; [|done]. destruct (decide (leader_id m = id)) as [Eid|Nid].
  - destruct (dr_elected _ _ _ _ _ D Eid) as (Ei & x & -> & Hx). rewrite Ei, Hisr, Hrep.
    assert (filter (λ r, r ≠ id) (replica_list m) = []) as ->.
    { destruct (filter (λ r, r ≠ id) (replica_list m)) as [|n k] eqn:Ef; [done|]. exfalso.
      assert (n ∈ filter (λ r, r ≠ id) (replica_list m)) as [? ?%Hl1]%list_elem_of_filter; [|done].
      rewrite Ef. left. }
    destruct x as [n|]; [|done]. specialize (Hx n eq_refl). set_solver.
  - destruct (dr_kept _ _ _ _ _ D Nid) as [-> _]. rewrite Hlead in *.
    destruct (replica_list m) as [|n k]; [done|]. exfalso. apply Nid, Hl1. left.
Qed.

Lemma first_topic brokers count d id h p t :
  collision_free _hash 50 brokers → 1 <= count → empty_storage d → id ∈ brokers → id ≠ py "" →
  is_Ok (_hash t) →
  ∃ s m, do_calls [RegisterBroker id h p; RegisterTopic t] (new_manager count d) = (Ok tt, s) ∧
    good brokers count s ∧ live s = {[ id ]} ∧ topics s !! t = Some m ∧
    isr_list m = replica_list m ∧ leader_id m = default (py "") (head (replica_list m)).
Proof.
  intros Hcf Hcount Hd Hin Hne Ht. pose proof (new_manager_good brokers count d Hd) as Hg.
  destruct Hd as (_ & Hd1 & Hd2).
  destruct (register_broker_ok brokers Hcf _ id h p (gd_cluster _ _ _ Hg) Hin)
    as (s1 & E1 & Hc1 & Hl1 & _ & Ht1 & _). unfold live at 2 in Hl1. unfold topics at 2 in Ht1.
  cbn in Hl1, Ht1. rewrite Hd1, dom_empty_L, (right_id_L ∅ (∪)) in Hl1. rewrite Hd2 in Ht1.
  pose proof (register_topic_ok brokers Hcf s1 t Hc1 Ht) as R2. rewrite Ht1, lookup_empty in R2.
  destruct R2 as (l & s2 & El & E2 & Hc2 & Hl2 & _ & Ht2 & _).
  assert (do_calls [RegisterBroker id h p; RegisterTopic t] (new_manager count d) = (Ok tt, s2)) as E.
  { cbn [do_calls do_call]. run. rewrite E1. run. by rewrite E2. }
  exists s2, (mkTopicMetadata t (default (py "") (head l)) l l 1).
  split; [done|]. split; [|split; [congruence|split; [by rewrite Ht2, lookup_insert_eq|done]]].
  assert (Forall (allowed brokers) [RegisterBroker id h p; RegisterTopic t]) as Ha by by repeat constructor.
  destruct (do_calls_good brokers Hcf count Hcount _ _ Ha Hg) as (x & Ex & Hx).
  rewrite E in Ex. by injection Ex as <-.
Qed.

(** When the last broker that holds a topic is deregistered, the topic has
    neither leader nor replicas, and no call but a report of its replicas in sync, which
    only a leader sends, ever changes that: brokers that register afterwards, the same
    one included, are not given the topic, and registering it again does nothing. *)
Theorem outage_orphans_topic brokers count d id h p t cs :
  collision_free _hash 50 brokers → 1 <= count → empty_storage d → id ∈ brokers → id ≠ py "" →
  is_Ok (_hash t) → Forall (allowed brokers) cs → (∀ isr, UpdateTopicIsr t isr ∉ cs) →
  ∃ s m, do_calls ([RegisterBroker id h p; RegisterTopic t; DeregisterBroker id] ++ cs)
           (new_manager count d) = (Ok tt, s) ∧
    topics s !! t = Some m ∧ leader_id m = py "" ∧ replica_list m = [].
Proof.
  intros Hcf Hcount Hd Hin Hne Ht Hcs Hu.
  destruct (first_topic brokers count d id h p t Hcf Hcount Hd Hin Hne Ht)
    as (s2 & m & E2 & Hg2 & Hl2 & Hm & Hi & Hlead).
  destruct (last_replica_gone brokers count s2 id t m Hcf Hcount Hg2 Hin Hne Hl2 Hm Hi Hlead)
    as (s3 & m' & E3 & Hg3 & Hm' & Ho).
  destruct (orphan_run brokers count cs s3 t m' Hcf Hcount Hg3 Hcs Hu Hm' Ho) as (s & E & Hs).
  exists s, m'. split; [|by destruct Ho].
  change ([RegisterBroker id h p; RegisterTopic t; DeregisterBroker id] ++ cs)
    with ([RegisterBroker id h p; RegisterTopic t] ++ DeregisterBroker id :: cs).
  rewrite do_calls_app. run. rewrite E2. cbn [do_calls]. run. rewrite E3. run. done.
Qed.

(** A follower that is deregistered stays in the list of replicas in sync, so that
    when the leader is deregistered next, the broker that is gone becomes leader. *)
Theorem dead_follower_elected brokers count d cs s t m b :
  collision_free _hash 50 brokers → 1 <= count → empty_storage d → Forall (allowed brokers) cs →
  do_calls cs (new_manager count d) = (Ok tt, s) → topics s !! t = Some m →
  let a := leader_id m in
  a ∈ brokers → a ≠ py "" → b ∈ brokers → b ≠ py "" → a ≠ b →
  ∃ s' m', do_calls [UpdateTopicIsr t [a; b]; DeregisterBroker b; DeregisterBroker a] s = (Ok tt, s') ∧
    topics s' !! t = Some m' ∧ leader_id m' = b ∧ b ∉ live s'.
Proof.
  intros Hcf Hcount Hd Hcs E Hm a Ha Hae Hb Hbe Hab.
  pose proof (reached_good brokers Hcf count Hcount cs d s Hd Hcs E) as Hg.
  pose proof (update_topic_isr_ok brokers Hcf s t [a; b] (gd_cluster _ _ _ Hg)
    (λ m Hm, proj1 (gd_placed _ _ _ Hg t m Hm))) as Hu. rewrite Hm in Hu.
  destruct Hu as (m1 & s1 & E1 & _ & U & Ht1).
  assert (topics s1 !! t = Some m1) as Hm1 by by rewrite Ht1, lookup_insert_eq.
  assert (do_call (UpdateTopicIsr t [a; b]) s = (Ok tt, s1)) as C1 by (cbn [do_call]; run; by rewrite E1).
  pose proof (good_after brokers count (UpdateTopicIsr t [a; b]) s s1 Hcf Hcount Hg I C1) as Hg1.
  assert (leader_id m1 = a) as La by (apply (iu_kept _ _ _ _ U); left).
  pose proof (iu_isr _ _ _ _ U) as Ia.
  destruct (deregister_in brokers count s1 b t m1 Hcf Hcount Hg1 Hb Hbe Hm1) as (s2 & m2 & C2 & Hg2 & Hm2 & Hl2 & D2).
  destruct (dr_kept _ _ _ _ _ D2) as [L2 I2]; [congruence|]. rewrite La in L2. rewrite Ia in I2.
  destruct (deregister_in brokers count s2 a t m2 Hcf Hcount Hg2 Ha Hae Hm2) as (s3 & m3 & C3 & _ & Hm3 & Hl3 & D3).
  destruct (dr_elected _ _ _ _ _ D3 L2) as (I3 & x & L3 & _).
  exists s3, m3. split; [|split; [done|split]].
  - cbn [do_calls]. run. rewrite C1. run. rewrite C2. run. by rewrite C3.
  - rewrite L3, I3, I2. rewrite filter_cons_False by (intros Hne; by apply Hne).
    by rewrite filter_cons_True by congruence.
  - rewrite Hl3, Hl2. set_solver.
Qed.
End theorems.

(** ** Witnesses, with the storage in memory *)

Definition orders : list Z := py "orders".
Definition b1 : list Z := py "b1".
Definition b2 : list Z := py "b2".
Definition b3 : list Z := py "b3".
Definition localhost : list Z := py "127.0.0.1".

Definition setup : list call :=
  [RegisterBroker b1 localhost 9092; RegisterBroker b2 localhost 9093; RegisterTopic orders].
Definition later : list call :=
  [RegisterBroker b1 localhost 9092; RegisterBroker b3 localhost 9094; RegisterTopic orders].

Abbreviation start count := (new_manager count MetastoreStorage.new_storage).

Lemma new_storage_empty : empty_storage MetastoreStorage.new_storage.
Proof. split; [exact new_storage_ok|done]. Qed.

Lemma setup_allowed : Forall (allowed three_brokers) setup.
Proof. apply (bool_decide_unpack _). vm_compute. exact I. Qed.
Lemma later_allowed : Forall (allowed three_brokers) later.
Proof. apply (bool_decide_unpack _). vm_compute. exact I. Qed.
Lemma orders_hash : is_Ok (_hash orders).
Proof. eexists. vm_compute. reflexivity. Qed.
Lemma brokers_in : b1 ∈ three_brokers ∧ b2 ∈ three_brokers.
Proof. apply (bool_decide_unpack _). vm_compute. exact I. Qed.
Lemma one_le_two : 1 <= 2. Proof. lia. Qed.

Lemma setup_state :
  ∃ s m, do_calls setup (start 2) = (Ok tt, s) ∧ topics s !! orders = Some m ∧ leader_id m = b2.
Proof. eexists _, _. split; [vm_compute; reflexivity|]. split; vm_compute; reflexivity. Qed.

Lemma topics_well_placed_witness :
  ∃ s, do_calls setup (start 2) = (Ok tt, s) ∧
    ∀ t m, topics s !! t = Some m → NoDup (replica_list m).
Proof.
  destruct (topics_well_placed three_brokers 2 _ setup three_collision_free one_le_two
    new_storage_empty setup_allowed) as (s & E & Hs).
  exists s. split; [exact E|]. intros t m Hm. exact (proj1 (Hs t m Hm)).
Defined.

Lemma register_topic_correct_witness :
  ∃ s m s', do_calls setup (start 2) = (Ok tt, s) ∧ register_topic orders s = (Ok m, s').
Proof.
  destruct setup_state as (s & m & E & _).
  destruct (register_topic_correct three_brokers 2 _ setup s orders three_collision_free one_le_two
    new_storage_empty setup_allowed E orders_hash) as (m' & s' & E' & _).
  exists s, m', s'. split; [exact E|exact E'].
Defined.

Lemma deregister_correct_witness :
  ∃ s us s', do_calls setup (start 2) = (Ok tt, s) ∧ deregister_broker b1 s = (Ok us, s') ∧
    live s' = live s ∖ {[ b1 ]}.
Proof.
  destruct setup_state as (s & m & E & _).
  destruct (deregister_correct three_brokers 2 _ setup s b1 three_collision_free one_le_two
    new_storage_empty setup_allowed E (proj1 brokers_in) ltac:(discriminate)) as (us & s' & E' & Hl & _).
  exists s, us, s'. split; [exact E|]. split; [exact E'|exact Hl].
Defined.

Lemma update_topic_isr_correct_witness :
  ∃ s m', do_calls setup (start 2) = (Ok tt, s) ∧
    (update_topic_isr orders [b2] s).1 = Ok (Some m') ∧ isr_list m' = [b2].
Proof.
  destruct setup_state as (s & m & E & Hm & _).
  pose proof (update_topic_isr_correct three_brokers 2 _ setup s orders [b2] three_collision_free one_le_two
    new_storage_empty setup_allowed E) as Hu. rewrite Hm in Hu.
  destruct Hu as (m' & s' & E' & _ & _ & Hi). exists s, m'. split; [exact E|].
  split; [rewrite E'; reflexivity|exact (iu_isr _ _ _ _ Hi)].
Defined.

Lemma outage_orphans_topic_witness :
  ∃ s m, do_calls ([RegisterBroker b1 localhost 9092; RegisterTopic orders; DeregisterBroker b1] ++ later)
           (start 2) = (Ok tt, s) ∧
    topics s !! orders = Some m ∧ leader_id m = py "" ∧ replica_list m = [].
Proof.
  apply (outage_orphans_topic three_brokers 2 _ b1 localhost 9092 orders later three_collision_free
    one_le_two new_storage_empty (proj1 brokers_in) ltac:(discriminate) orders_hash later_allowed).
  intros isr. unfold later. rewrite !not_elem_of_cons. split_and!; [discriminate..|apply not_elem_of_nil].
Defined.

Lemma dead_follower_elected_witness :
  ∃ s s' m', do_calls setup (start 2) = (Ok tt, s) ∧
    do_calls [UpdateTopicIsr orders [b2; b1]; DeregisterBroker b1; DeregisterBroker b2] s = (Ok tt, s') ∧
    topics s' !! orders = Some m' ∧ leader_id m' = b1 ∧ b1 ∉ live s'.
Proof.
  destruct setup_state as (s & m & E & Hm & Hl).
  pose proof (dead_follower_elected three_brokers 2 _ setup s orders m b1 three_collision_free one_le_two
    new_storage_empty setup_allowed E Hm) as H. cbv zeta in H. rewrite Hl in H.
  destruct (H (proj2 brokers_in) ltac:(discriminate) (proj1 brokers_in) ltac:(discriminate)
    ltac:(discriminate)) as (s' & m' & H').
  exists s, s', m'. split; [exact E|exact H'].
Defined.
