(* ===== verification/Controller.v ===== *)
(** * [server.py] of the controller

    The connections of the brokers, the metadata that is broadcast to them and the
    election, over the metastore manager.  A call of the manager is atomic, as it is
    with the storage in memory.  Sockets, the clock and the answers of ZooKeeper are
    inputs. *)
From Stdlib Require Import String.
From S2P Require Import Prelude Coroutine PyData PyDict Messages Framer Encoder Parser Metastore.
Import MetastoreManager.

(** A connection: whether its transport takes writes, the responses written to it, the
    local [broker_id] of its handler and what the handler does. *)
Inductive phase := Reading | Handling | Ended.

#[export] Instance phase_eq_dec : EqDecision phase.
Proof. solve_decision. Defined.

Record Link := mkLink {
  link_open : bool;
  answers : list (Packet Response);
  link_broker : option (list Z);
  link_phase : phase }.

Definition new_link : Link := mkLink true [] None Reading.

(** The values of [active_brokers]; the writer is that of connection [ab_link]. *)
Record ActiveBroker := mkActiveBroker {
  ab_link : nat;
  ab_heartbeat : Z;
  ab_host : list Z;
  ab_port : Z }.

Record Server (S : Type) := mkServer {
  manager : Manager S;
  active_brokers : list (list Z * ActiveBroker);
  links : gmap nat Link;
  is_leader : bool;
  election_lock : bool }.
Arguments mkServer {S}.
Arguments manager {S}.
Arguments active_brokers {S}.
Arguments links {S}.
Arguments is_leader {S}.
Arguments election_lock {S}.

Definition new_server {S} `{StorageApi S} (replicas_per_topic : Z) (storage : S) : Server S :=
  mkServer (new_manager replicas_per_topic storage) [] ∅ true false.

(** The controller that ZooKeeper names. *)
Record LeaderInfo := mkLeaderInfo {
  controller_id : pystr;
  leader_host : pystr;
  leader_port : Z }.

(** What ZooKeeper answers to [create_ephemeral]. *)
Inductive creation := Created | NodeExists | NotCreated (e : exn).

(** What the read of a round ends with. *)
Inductive read_result := Frame (data : bytes) | Disconnected.

Section server.
Context {S : Type} `{StorageApi S}.

Definition on_manager {A} : M (Manager S) A → M (Server S) A :=
  zoom manager (λ m s, mkServer m (active_brokers s) (links s) (is_leader s) (election_lock s)).
Definition set_active (d : list (list Z * ActiveBroker)) (s : Server S) : Server S :=
  mkServer (manager s) d (links s) (is_leader s) (election_lock s).
Definition set_links (m : gmap nat Link) (s : Server S) : Server S :=
  mkServer (manager s) (active_brokers s) m (is_leader s) (election_lock s).
Definition set_leader (b : bool) (s : Server S) : Server S :=
  mkServer (manager s) (active_brokers s) (links s) b (election_lock s).
Definition set_lock (b : bool) (s : Server S) : Server S :=
  mkServer (manager s) (active_brokers s) (links s) (is_leader s) b.

Definition update_link (i : nat) (f : Link → Link) : M (Server S) unit :=
  modify (λ s, set_links (alter f i (links s)) s).
(** [writer.write]: a closed transport drops the bytes. *)
Definition write_answer (resp : Packet Response) (l : Link) : Link :=
  if link_open l then mkLink true (answers l ++ [resp]) (link_broker l) (link_phase l) else l.
Definition close_link (l : Link) : Link := mkLink false (answers l) (link_broker l) (link_phase l).
Definition set_phase (p : phase) (l : Link) : Link := mkLink (link_open l) (answers l) (link_broker l) p.
Definition set_broker (b : pystr) (l : Link) : Link := mkLink (link_open l) (answers l) (Some b) (link_phase l).

(** [await writer.drain()] *)
Definition drain (i : nat) : Co (Server S) unit :=
  pause;;
  atomic (reads (λ s, match links s !! i with
                      | Some l => if link_open l then Ok tt else Raise ConnectionError
                      | None => Raise ConnectionError
                      end)).

(** [writer.close()] and [await writer.wait_closed()] *)
Definition close_writer (i : nat) : Co (Server S) unit := atomic (update_link i close_link);; pause.

(** [_send_response]: the header is that of the command. *)
Definition _send_response (i : nat) (resp : Response) (header : option PacketHeader) : Co (Server S) unit :=
  atomic (lift (encode_response (mkPacket header resp)));;
  atomic (update_link i (write_answer (mkPacket header resp)));;
  drain i.

(** ** Metadata *)

Definition topic_response (t : TopicMetadata) : M (Manager S) TopicMeta :=
  leader_node ← get_node (leader_id t);
  mret (mkTopicMeta (topic t) (leader_id t)
    (match leader_node with Some n => host n | None => py "0.0.0.0" end)
    (match leader_node with Some n => port n | None => 0 end)
    (replica_list t) (version t)).

Fixpoint topic_responses (ts : list TopicMetadata) : M (Manager S) (list TopicMeta) :=
  match ts with
  | [] => mret []
  | t :: ts => m ← topic_response t; ms ← topic_responses ts; mret (m :: ms)
  end.

Definition metadata_list : M (Manager S) (list TopicMeta) :=
  all_topics ← get_all_topics;
  topic_responses all_topics.

(** The first loop of [broadcast_metadata]: the brokers it cannot reach. *)
Fixpoint send_all (resp : Packet Response) (brokers : list (list Z * ActiveBroker)) :
    Co (Server S) (list (list Z)) :=
  match brokers with
  | [] => mret []
  | (id, a) :: brokers =>
      failed ← co_catch
        (atomic (update_link (ab_link a) (write_answer resp));; drain (ab_link a);; mret [])
        (λ _, Some (mret [id]));
      rest ← send_all resp brokers;
      mret (failed ++ rest)
  end.

Fixpoint for_each (f : pystr → Co (Server S) unit) (ids : list (list Z)) : Co (Server S) unit :=
  match ids with
  | [] => mret tt
  | id :: ids => f id;; for_each f ids
  end.

Definition broadcast_with (disconnect : pystr → Co (Server S) unit) : Co (Server S) unit :=
  meta_list ← atomic (on_manager metadata_list);
  let resp := packet (TopicMetaDataListResponse meta_list) in
  atomic (lift (encode_response resp));;
  brokers ← atomic (reads (λ s, Ok (active_brokers s)));
  disconnected ← send_all resp brokers;
  for_each disconnect disconnected.

Definition pop_active (id : pystr) : M (Server S) (option ActiveBroker) :=
  s ← get;
  put (set_active (dict_del (active_brokers s) id) s);;
  mret (dict_get (active_brokers s) id).

(** The recursion of [_handle_broker_disconnect] and [broadcast_metadata], to the depth
    that the interpreter allows. *)
Fixpoint _handle_broker_disconnect (depth : nat) (id : pystr) : Co (Server S) unit :=
  match depth with
  | O => Done (Raise RuntimeError)
  | Datatypes.S depth =>
      a ← atomic (pop_active id);
      match a with
      | None => mret tt
      | Some a =>
          close_writer (ab_link a);;
          atomic (on_manager (deregister_broker id));;
          broadcast_with (_handle_broker_disconnect depth)
      end
  end.

Definition broadcast_metadata (depth : nat) : Co (Server S) unit :=
  broadcast_with (_handle_broker_disconnect depth).

(** ** Connections *)

Definition touch (i : nat) (now : Z) (id : option (list Z)) : M (Server S) unit :=
  s ← get;
  match id with
  | Some id =>
      match dict_get (active_brokers s) id with
      | Some a => put (set_active (dict_set (active_brokers s) id
                         (mkActiveBroker i now (ab_host a) (ab_port a))) s)
      | None => mret tt
      end
  | None => mret tt
  end.

(** The chain of [isinstance] for a command of connection [i]. *)
Definition handle_command (depth : nat) (now : Z) (i : nat) (broker : option (list Z)) (cmd : Packet Command) :
    Co (Server S) unit :=
  let hdr := header cmd in
  match body cmd with
  | BrokerRegisterCommand id host port =>
      atomic (update_link i (set_broker id));;
      atomic (modify (λ s, set_active (dict_set (active_brokers s) id (mkActiveBroker i now host port)) s));;
      atomic (on_manager (register_broker id host port));;
      meta_list ← atomic (on_manager metadata_list);
      _send_response i (TopicMetaDataListResponse meta_list) hdr;;
      broadcast_metadata depth
  | ControllerPingCommand _ =>
      atomic (touch i now broker);;
      _send_response i ControllerPingResponse hdr
  | RegisterTopicCommand t =>
      topic_meta ← atomic (on_manager (register_topic t));
      m ← atomic (on_manager (topic_response topic_meta));
      _send_response i (TopicMetaDataResponse m) hdr;;
      broadcast_metadata depth
  | MetadataRequestCommand t =>
      topic_meta ← atomic (on_manager (get_topic_metadata t));
      match topic_meta with
      | Some topic_meta =>
          m ← atomic (on_manager (topic_response topic_meta));
          _send_response i (TopicMetaDataResponse m) hdr
      | None => _send_response i (ErrorResponse 404 (py "Topic " ++ t ++ py " not found")) hdr
      end
  | ISRChangeCommand t isr_list => atomic (on_manager (update_topic_isr t isr_list));; mret tt
  | _ => _send_response i (ErrorResponse 400 (py "Invalid command for controller")) hdr
  end.

(** The [finally] of [handle_connection]; an empty name counts as none. *)
Definition end_connection (depth : nat) (i : nat) : Co (Server S) unit :=
  l ← atomic (reads (λ s, or_raise (links s !! i) KeyError));
  atomic (update_link i (set_phase Ended));;
  match link_broker l with
  | Some (c :: id) => _handle_broker_disconnect depth (c :: id)
  | _ => close_writer i
  end.

(** One round of the loop; an exception ends the loop. *)
Definition connection_round (depth : nat) (now : Z) (i : nat) (input : read_result) : Co (Server S) unit :=
  l ← atomic (reads (λ s, or_raise (links s !! i) KeyError));
  atomic (update_link i (set_phase Handling));;
  match input with
  | Disconnected => end_connection depth i
  | Frame data =>
      go_on ← co_catch
        (cmd ← atomic (lift (parse_command data false));
         handle_command depth now i (link_broker l) cmd;;
         mret true)
        (λ _, Some (mret false));
      if (go_on : bool) then atomic (update_link i (set_phase Reading)) else end_connection depth i
  end.

(** What a controller that does not lead answers. *)
Definition not_leader (leader : option LeaderInfo) : Response :=
  match leader with
  | Some l => NotLeaderControllerResponse (controller_id l) (leader_host l) (leader_port l)
  | None => NotLeaderControllerResponse [] [] 0
  end.

(** [get_leader] as ZooKeeper answers it; without ZooKeeper the server leads and
    nobody asks. *)
Definition get_leader (leader : result (option LeaderInfo)) : Co (Server S) (option LeaderInfo) :=
  pause;; atomic (lift leader).

(** The beginning of [handle_connection]. *)
Definition accept (leader : result (option LeaderInfo)) (i : nat) : Co (Server S) unit :=
  atomic (modify (λ s : Server S, set_links (<[i := new_link]> (links s)) s));;
  leads ← atomic (reads (λ s : Server S, Ok (is_leader s)));
  if (leads : bool) then mret tt
  else
    atomic (update_link i (set_phase Ended));;
    leader ← get_leader leader;
    co_catch (_send_response i (not_leader leader) None) (λ _, Some (mret tt));;
    close_writer i.

(** One round of [_heartbeat_checker_loop]. *)
Definition stale_brokers (now heartbeat_timeout : Z) (d : list (list Z * ActiveBroker)) : list (list Z) :=
  dict_keys (filter (λ x : list Z * ActiveBroker, heartbeat_timeout < now - ab_heartbeat x.2) d).

Definition heartbeat_round (depth : nat) (now heartbeat_timeout : Z) : Co (Server S) unit :=
  stale ← atomic (reads (λ s : Server S, Ok (stale_brokers now heartbeat_timeout (active_brokers s))));
  for_each (_handle_broker_disconnect depth) stale.

(** ** The election *)

(** [async with self._election_lock] *)
Definition with_lock (c : Co (Server S) unit) : Co (Server S) unit :=
  Await (λ s : Server S, negb (election_lock s)) (Done (Ok tt));;
  atomic (modify (set_lock true));;
  co_finally c (set_lock false).

Definition _run_election (created : creation) (leader : result (option LeaderInfo)) :
    Co (Server S) unit :=
  with_lock (
    pause;;
    match created with
    | Created => atomic (modify (set_leader true))
    | NodeExists => atomic (modify (set_leader false));; get_leader leader;; mret tt
    | NotCreated e => Done (Raise e)
    end).

Fixpoint reject_brokers (resp : Packet Response) (ids : list (list Z)) : Co (Server S) unit :=
  match ids with
  | [] => mret tt
  | id :: ids =>
      a ← atomic (pop_active id);
      match a with
      | None => mret tt
      | Some a =>
          co_catch (atomic (update_link (ab_link a) (write_answer resp));;
                    drain (ab_link a);;
                    close_writer (ab_link a))
                   (λ _, Some (mret tt))
      end;;
      reject_brokers resp ids
  end.

Definition _broadcast_not_leader (leader : result (option LeaderInfo)) : Co (Server S) unit :=
  leader ← get_leader leader;
  let resp := packet (not_leader leader) in
  atomic (lift (encode_response resp));;
  broker_ids ← atomic (reads (λ s : Server S, Ok (dict_keys (active_brokers s))));
  reject_brokers resp broker_ids.

(** ZooKeeper is asked for the leader twice. *)
Definition _on_leader_gone (leader : result (option LeaderInfo)) (created : creation)
    (leader' : result (option LeaderInfo)) : Co (Server S) unit :=
  atomic (modify (set_leader false));;
  _broadcast_not_leader leader;;
  _run_election created leader'.
End server.
