(* ===== verification/ControllerFacts.v ===== *)
(** * The controller, one coroutine at a time

    The invariant of the server and that everything that runs on it keeps it, in any
    interleaving. *)
From Stdlib Require Import String.
From stdpp Require Import fin_maps fin_map_dom.
From S2P Require Import Prelude Coroutine PyData PyDict Md5 Messages Framer Encoder Parser Ring RingFacts Metastore StorageFacts ManagerFacts MetastoreTheorems Controller.
Import MetastoreManager.

Section later.
Context {S : Type} `{StorageLaws S}.
Implicit Types (s : Server S).

(** No topic is forgotten; what was written stays, connections are not opened again. *)
Definition link_later (l l' : Link) : Prop :=
  answers l `prefix_of` answers l' ∧ (link_open l' = true → link_open l = true).

(** What calls make of a manager. *)
Definition happened : relation (Manager S) := rtc (λ m m', ∃ c x, do_call c m = (x, m')).

Record later s s' : Prop := {
  lt_topics : dom (topics (manager s)) ⊆ dom (topics (manager s'));
  lt_history : happened (manager s) (manager s');
  lt_links i l : links s !! i = Some l → ∃ l', links s' !! i = Some l' ∧ link_later l l' }.

#[export] Instance link_later_preorder : PreOrder link_later.
Proof.
  split; [by intros l|]. intros a b c [? ?] [? ?]. split; [by etrans|auto].
Qed.

#[export] Instance later_preorder : PreOrder later.
Proof.
  split; [intros s; split; [done..|]; intros i l Hl; by exists l|]. intros a b c [T1 H1 L1] [T2 H2 L2].
  split; [by etrans|by etrans|]. intros i l (l1 & Hl1 & ?)%L1. destruct (L2 i l1 Hl1) as (l2 & ? & ?).
  exists l2. split; [done|]. by etrans.
Qed.

Lemma srv_later_trans s s' s'' : later s s' → later s' s'' → later s s''.
Proof. apply transitivity. Qed.
Lemma srv_later_refl s : later s s.
Proof. reflexivity. Qed.
Lemma later_same s s' : manager s' = manager s → links s' = links s → later s s'.
Proof. intros Em El. split; [by rewrite Em..|]. rewrite El. intros i l Hl. by exists l. Qed.
End later.

Section facts.
Context {S : Type} `{StorageLaws S}.
Context (brokers : list (list Z)) (Hcf : collision_free _hash 50 brokers).
Context (count : Z) (Hcount : 1 <= count).
Implicit Types (s : Server S) (m : Manager S).

(** The metadata [t] as it is sent. *)
Definition response_of m (t : TopicMetadata) : TopicMeta :=
  let node := st_nodes (storage m) !! leader_id t in
  mkTopicMeta (topic t) (leader_id t)
    (match node with Some n => host n | None => py "0.0.0.0" end)
    (match node with Some n => port n | None => 0 end)
    (replica_list t) (version t).

(** A state of the manager on the way from an empty storage. *)
Definition reached m : Prop := ∃ d, empty_storage d ∧ happened (new_manager count d) m.

(** The metadata of a topic at some time up to [m]. *)
Definition once m (x : TopicMeta) : Prop :=
  ∃ m0 t, good brokers count m0 ∧ reached m0 ∧ happened m0 m ∧
    topics m0 !! topic t = Some t ∧ x = response_of m0 t.
Definition told_well m (resp : Packet Response) : Prop :=
  match body resp with
  | TopicMetaDataListResponse l => Forall (once m) l
  | TopicMetaDataResponse x => once m x
  | _ => True
  end.

Lemma told_later m m' resp : happened m m' → told_well m resp → told_well m' resp.
Proof.
  intros Hm. assert (∀ x, once m x → once m' x) as Ho.
  { intros x (m0 & t & ? & ? & ? & ?). exists m0, t. split_and!; [done|done|by etrans|tauto..]. }
  unfold told_well. destruct (body resp); auto. intros Hl. by eapply Forall_impl.
Qed.

Record server_ok s : Prop := {
  sv_good : good brokers count (manager s);
  sv_active : dict_ok (active_brokers s);
  sv_named id a : dict_get (active_brokers s) id = Some a → id ∈ brokers ∧ id ≠ py "";
  sv_brokers i l id : links s !! i = Some l → link_broker l = Some id → id ∈ brokers;
  sv_told i l resp : links s !! i = Some l → resp ∈ answers l → told_well (manager s) resp;
  sv_reached : reached (manager s) }.

(** ** The manager *)

Lemma manager_call c m x m' :
  allowed brokers c → good brokers count m → do_call c m = (x, m') →
  good brokers count m' ∧ dom (topics m) ⊆ dom (topics m').
Proof.
  intros Ha Hg E. destruct (do_call_good brokers Hcf count Hcount c m Ha Hg) as (m2 & E2 & Hg2).
  rewrite E2 in E. injection E as _ <-. split; [done|].
  destruct Hg as [Hc <- Hp Hl]. destruct c as [id h p|id|t|t isr]; cbn in Ha; cbn [do_call] in E2; run_in E2.
  - destruct (register_broker_ok brokers Hcf m id h p Hc (proj1 Ha)) as (s' & E & _ & _ & _ & Ht & _).
    rewrite E in E2. injection E2 as <-. by rewrite Ht.
  - destruct (deregister_broker_ok brokers Hcf m id Hc Hcount Hp (proj1 Ha) (proj2 Ha))
      as (us & s' & E & _ & _ & _ & _ & Hd & _). rewrite E in E2. injection E2 as <-. by rewrite Hd.
  - pose proof (register_topic_ok brokers Hcf m t Hc Ha) as Hr.
    destruct (topics m !! t) eqn:Em; [rewrite Hr in E2; by injection E2 as <-|].
    destruct Hr as (l & s' & _ & E & _ & _ & _ & Ht & _). rewrite E in E2. injection E2 as <-.
    rewrite Ht, dom_insert. set_solver.
  - pose proof (update_topic_isr_ok brokers Hcf m t isr Hc (λ y Hy, proj1 (Hp t y Hy))) as Hu.
    destruct (topics m !! t) eqn:Em; [|rewrite Hu in E2; by injection E2 as <-].
    destruct Hu as (y & s' & E & _ & _ & Ht). rewrite E in E2. injection E2 as <-.
    rewrite Ht, dom_insert. set_solver.
Qed.

(** What the server asks of the manager. *)
Definition calls {A} (f : M (Manager S) A) : Prop :=
  ∀ m, good brokers count m →
    good brokers count (f m).2 ∧ dom (topics m) ⊆ dom (topics (f m).2) ∧ happened m (f m).2.

Lemma call_calls {A} c (f : M (Manager S) A) :
  allowed brokers c → (∀ m, (do_call c m).2 = (f m).2) → calls f.
Proof.
  intros Ha Hf m Hg. rewrite <-Hf. destruct (do_call c m) as [x m'] eqn:E.
  destruct (manager_call c m x m' Ha Hg E). split_and!; [done..|]. apply rtc_once. by exists c, x.
Qed.

Lemma drop_result {A} (f : M (Manager S) A) m : ((f;; mret tt) m).2 = (f m).2.
Proof. run. by destruct (f m) as [[a|e] m']. Qed.

Lemma register_broker_calls id h p : id ∈ brokers → id ≠ py "" → calls (register_broker id h p).
Proof. intros Hin Hne. apply (call_calls (RegisterBroker id h p)); [done|]. intros m. apply drop_result. Qed.
Lemma deregister_broker_calls id : id ∈ brokers → id ≠ py "" → calls (deregister_broker id).
Proof. intros Hin Hne. apply (call_calls (DeregisterBroker id)); [done|]. intros m. apply drop_result. Qed.
Lemma register_topic_calls t : is_Ok (_hash t) → calls (register_topic t).
Proof. intros Ht. apply (call_calls (RegisterTopic t)); [done|]. intros m. apply drop_result. Qed.
Lemma update_topic_isr_calls t isr : calls (update_topic_isr t isr).
Proof. apply (call_calls (UpdateTopicIsr t isr)); [done|]. intros m. apply drop_result. Qed.

(** ** Metadata *)

Lemma topic_response_run m t : st_ok (storage m) → topic_response t m = (Ok (response_of m t), m).
Proof.
  intros Hs. unfold topic_response, get_node, on_storage. run. unfold zoom. rewrite st_get_node_ok by done. run.
  by destruct m.
Qed.

Lemma topic_responses_run m ts :
  st_ok (storage m) → topic_responses ts m = (Ok (response_of m <$> ts), m).
Proof.
  intros Hs. induction ts as [|t ts IH]; cbn [topic_responses]; [done|].
  run. rewrite topic_response_run by done. run. by rewrite IH.
Qed.

(** The list names every topic once. *)
Lemma metadata_list_run m : st_ok (storage m) →
  ∃ ts, metadata_list m = (Ok (response_of m <$> ts), m) ∧ NoDup (topic <$> ts) ∧
    ∀ t, t ∈ ts ↔ topics m !! topic t = Some t.
Proof.
  intros Hs. destruct (st_all_topics_ok (storage m) Hs) as (ts & E & Hn & Hall).
  exists ts. split; [|done]. unfold metadata_list, get_all_topics, on_storage. run. unfold zoom. rewrite E. run.
  replace (set_storage (storage m) m) with m by by destruct m. by rewrite topic_responses_run.
Qed.

Lemma once_response m t :
  good brokers count m → reached m → topics m !! topic t = Some t → once m (response_of m t).
Proof. intros Hg Hr Ht. by exists m, t. Qed.

Lemma once_list m ts :
  good brokers count m → reached m → (∀ t, t ∈ ts → topics m !! topic t = Some t) →
  Forall (once m) (response_of m <$> ts).
Proof. intros Hg Hr Hts. apply Forall_fmap, Forall_forall. intros t Ht. by apply once_response, Hts. Qed.
End facts.
