(* ===== verification/ControllerSteps.v ===== *)
(** * The controller's coroutines in any interleaving *)
From Stdlib Require Import String.
From stdpp Require Import fin_maps fin_map_dom.
From S2P Require Import Prelude Coroutine PyData PyDict Md5 Messages Framer Encoder Parser Ring RingFacts Metastore StorageFacts ManagerFacts MetastoreTheorems Controller ControllerFacts.
Import MetastoreManager.

Section steps.
Context {S : Type} `{StorageLaws S}.
Context (brokers : list (list Z)) (Hcf : collision_free _hash 50 brokers).
Context (count : Z) (Hcount : 1 <= count).
Implicit Types (s : Server S) (m : Manager S).

Abbreviation server_ok := (server_ok brokers count).
Abbreviation told_well := (told_well brokers count).
Abbreviation wpc := (wp server_ok later later).

(** What is known when a call returns. *)
Abbreviation wp_to s0 c s Q :=
  (server_ok s → later s0 s →
   (∀ s1 a s', server_ok s' → later s1 s' → later s s' → Q s1 a s') → wpc s0 c s Q)
  (only parsing).

Ltac chain := solve [eauto 6 using srv_later_trans, srv_later_refl].
Ltac fin := first [done|chain].

(** ** Parts of the state *)

Lemma later_history s s' : later s s' → happened (manager s) (manager s').
Proof. by intros []. Qed.

Lemma atomic_wp {A} (f : M (Server S) A) s0 s Q :
  (server_ok s → server_ok (f s).2 ∧ later s (f s).2) → wp_to s0 (atomic f) s Q.
Proof. intros Hf Hs Hl HQ. rewrite wp_atomic. destruct (Hf Hs). apply HQ; fin. Qed.

Lemma update_link_ok s i f :
  server_ok s →
  (∀ l id, link_broker (f l) = Some id → link_broker l = Some id ∨ id ∈ brokers) →
  (∀ l resp, resp ∈ answers (f l) → resp ∈ answers l ∨ told_well (manager s) resp) →
  (∀ l, link_later l (f l)) →
  server_ok (update_link i f s).2 ∧ later s (update_link i f s).2.
Proof.
  intros [V1 V2 V3 V4 V5 V6] Hb Hr Hl. split; [|split; [done..|]].
  - split; try done; cbn.
    + intros j l id. rewrite lookup_alter. case_decide as E; [subst j|by apply V4].
      destruct (links s !! i) as [l'|] eqn:Ej; [|done]. intros [= <-] [?|?]%Hb; [|done]. by eapply V4.
    + intros j l resp. rewrite lookup_alter. case_decide as E; [subst j|by apply V5].
      destruct (links s !! i) as [l'|] eqn:Ej; [|done]. intros [= <-] [?|?]%Hr; [|done]. by eapply V5.
  - cbn. intros j l Hj. rewrite lookup_alter. case_decide as E; [subst j|by exists l].
    rewrite Hj. by exists (f l).
Qed.

Lemma plain_link_ok s i f :
  server_ok s → (∀ l, link_broker (f l) = link_broker l) → (∀ l, answers (f l) = answers l) →
  (∀ l, link_open (f l) = true → link_open l = true) →
  server_ok (update_link i f s).2 ∧ later s (update_link i f s).2.
Proof.
  intros Hs Hb Hr Ho. apply update_link_ok; [done| | |].
  - intros l x. rewrite Hb. by left.
  - intros l x. rewrite Hr. by left.
  - intros l. split; [by rewrite Hr|apply Ho].
Qed.

Lemma answer_ok s i resp :
  server_ok s → told_well (manager s) resp →
  server_ok (update_link i (write_answer resp) s).2 ∧ later s (update_link i (write_answer resp) s).2.
Proof.
  intros Hs Hr. apply update_link_ok; [done| | |].
  - intros l x. unfold write_answer. by destruct (link_open l); cbn; auto.
  - intros l x. unfold write_answer. destruct (link_open l); cbn; auto.
    rewrite elem_of_app, list_elem_of_singleton. intros [?| ->]; auto.
  - intros l. unfold write_answer. destruct (link_open l) eqn:E; [|by split]. split; [by eexists|done].
Qed.

Lemma on_manager_ok {A} (f : M (Manager S) A) s :
  calls brokers count f → server_ok s → server_ok (on_manager f s).2 ∧ later s (on_manager f s).2.
Proof.
  intros Hf [V1 V2 V3 V4 V5 V6]. destruct (Hf _ V1) as (Hg & Hd & Hh). unfold on_manager, zoom.
  destruct (f (manager s)) as [a m']. cbn [snd] in *. split; [|split; [done..|]; intros i l Hl; by exists l].
  split; try done; cbn.
  - intros i l resp Hi Hr. eapply told_later; [exact Hh|by eapply V5].
  - destruct V6 as (d & Hd0 & Hm). exists d. split; [done|by etrans].
Qed.

Lemma on_manager_wp {A} (f : M (Manager S) A) s0 s Q :
  calls brokers count f → wp_to s0 (atomic (on_manager f)) s Q.
Proof. intros Hf. apply atomic_wp. by apply on_manager_ok. Qed.

Lemma set_active_ok s d :
  server_ok s → dict_ok d → (∀ id a, dict_get d id = Some a → id ∈ brokers ∧ id ≠ py "") →
  server_ok (set_active d s) ∧ later s (set_active d s).
Proof. intros [V1 V2 V3 V4 V5 V6] Hd Hn. split; [by split|by apply later_same]. Qed.

Lemma entry_ok s id a :
  server_ok s → id ∈ brokers → id ≠ py "" →
  server_ok (set_active (dict_set (active_brokers s) id a) s) ∧
  later s (set_active (dict_set (active_brokers s) id a) s).
Proof.
  intros Hs Hin Hne. apply set_active_ok; [done|by apply dict_set_ok, Hs|]. intros id' x.
  destruct (decide (id = id')) as [<-|Hd]; [done|].
  rewrite dict_get_set_ne by done. apply (sv_named _ _ _ Hs).
Qed.

Lemma set_broker_ok s i id :
  server_ok s → id ∈ brokers →
  server_ok (update_link i (set_broker id) s).2 ∧ later s (update_link i (set_broker id) s).2.
Proof.
  intros Hs Hin. apply update_link_ok; [done| | |by intros l]; intros l x; cbn.
  - intros [= <-]. by right.
  - by left.
Qed.

Lemma pop_active_ok s id :
  server_ok s → (pop_active id s).1 = Ok (dict_get (active_brokers s) id) ∧
  server_ok (pop_active id s).2 ∧ later s (pop_active id s).2.
Proof.
  intros Hs. unfold pop_active. run. split; [done|]. pose proof (sv_active _ _ _ Hs) as Hd. cbn [snd].
  apply set_active_ok; [done|by apply dict_del_ok|]. intros id' a Ha. apply (sv_named _ _ _ Hs id' a).
  destruct (decide (id = id')) as [->|]; [by rewrite dict_get_del_eq in Ha|].
  by rewrite dict_get_del_ne in Ha.
Qed.

(** ** Writing *)

Lemma drain_wp i s0 s Q : wp_to s0 (drain i) s Q.
Proof.
  intros Hs Hl HQ. unfold drain. apply wp_bind, wp_pause. split_and!; [done..|]. intros s' ? ?.
  rewrite wp_atomic. apply HQ; fin.
Qed.

Lemma close_writer_wp i s0 s Q : wp_to s0 (close_writer i) s Q.
Proof.
  intros Hs Hl HQ. unfold close_writer. apply wp_bind. rewrite wp_atomic. cbn [fst].
  destruct (plain_link_ok s i close_link Hs) as [Hs' Hl']; [done..|].
  change (update_link i close_link s).1 with (Ok tt : result unit). cbv iota.
  apply wp_pause. split_and!; [done|chain|]. intros s2 ? ?. apply HQ; fin.
Qed.

Lemma send_response_wp i resp hdr s0 s Q :
  told_well (manager s) (mkPacket hdr resp) → wp_to s0 (_send_response i resp hdr) s Q.
Proof.
  intros Hr Hs Hl HQ. unfold _send_response. apply wp_bind. rewrite wp_atomic. run.
  destruct (encode_response _) as [frame|e]; cbn [fst snd]; [|apply HQ; fin].
  apply wp_bind. rewrite wp_atomic.
  destruct (answer_ok s i (mkPacket hdr resp) Hs Hr) as [Hs' Hl'].
  match goal with |- context [(update_link ?i ?f s).1] =>
    change (update_link i f s).1 with (Ok tt : result unit) end. cbv iota.
  apply drain_wp; [done|chain|]. intros s1 a s2 ? ? ?. apply HQ; fin.
Qed.

Lemma send_all_wp resp l s0 s Q : told_well (manager s) resp → wp_to s0 (send_all resp l) s Q.
Proof.
  revert s0 s Q. induction l as [|[id a] l IH]; intros s0 s Q Hr Hs Hl HQ; cbn [send_all].
  - rewrite wp_ret. apply HQ; fin.
  - apply wp_bind, wp_catch, wp_bind. rewrite wp_atomic.
    destruct (answer_ok s (ab_link a) resp Hs Hr) as [Hs' Hl'].
    match goal with |- context [(update_link ?i ?f s).1] =>
      change (update_link i f s).1 with (Ok tt : result unit) end. cbv iota.
    apply wp_bind. apply drain_wp; [done|chain|]. intros s1 x s2 Hs2 Hl2 Hl3.
    assert (∀ (failed : list (list Z)),
      wpc s1 (rest ← send_all resp l; mret (failed ++ rest)) s2 Q) as Hend.
    { intros failed. apply wp_bind. apply IH; [by eapply told_later; [apply (later_history s s2); chain|]|done|done|].
      intros s3 [rest|e] s4 ? ? ?; rewrite ?wp_ret; apply HQ; fin. }
    destruct x as [u|e]; rewrite wp_ret; apply Hend.
Qed.

Lemma for_each_wp f l s0 s Q :
  (∀ id s0 s Q, wp_to s0 (f id) s Q) → wp_to s0 (for_each f l) s Q.
Proof.
  intros Hf. revert s0 s Q. induction l as [|id l IH]; intros s0 s Q Hs Hl HQ; cbn [for_each].
  - rewrite wp_ret. apply HQ; fin.
  - apply wp_bind. apply Hf; [done..|]. intros s1 [u|e] s2 ? ? ?; [|apply HQ; fin].
    apply IH; [done..|]. intros s3 a s4 ? ? ?. apply HQ; fin.
Qed.

(** ** Metadata *)

Lemma metadata_list_ok s : server_ok s →
  ∃ l, on_manager metadata_list s = (Ok l, s) ∧ Forall (once brokers count (manager s)) l.
Proof.
  intros Hs. pose proof (sv_good _ _ _ Hs) as Hg.
  destruct (metadata_list_run (manager s)) as (ts & E & _ & Hts); [apply Hg|].
  exists (response_of (manager s) <$> ts). split.
  - unfold on_manager, zoom. rewrite E. by destruct s.
  - apply once_list; [done|apply Hs|]. intros t. apply Hts.
Qed.

Lemma broadcast_wp f s0 s Q :
  (∀ id s0 s Q, wp_to s0 (f id) s Q) → wp_to s0 (broadcast_with f) s Q.
Proof.
  intros Hf Hs Hl HQ. unfold broadcast_with. apply wp_bind. rewrite wp_atomic.
  destruct (metadata_list_ok s Hs) as (l & E & Hp). rewrite E. cbn [fst snd].
  apply wp_bind. rewrite wp_atomic. run.
  destruct (encode_response _) as [frame|e]; cbn [fst snd]; [|apply HQ; fin].
  apply wp_bind. rewrite wp_atomic. run. cbn [fst snd].
  apply wp_bind. apply send_all_wp; [done..|]. intros s1 [failed|e] s2 ? ? ?; [|apply HQ; fin].
  apply for_each_wp; [done..|]. intros s3 a s4 ? ? ?. apply HQ; fin.
Qed.

Lemma disconnect_wp depth id s0 s Q : wp_to s0 (_handle_broker_disconnect depth id) s Q.
Proof.
  revert id s0 s Q. induction depth as [|depth IH]; intros id s0 s Q Hs Hl HQ; cbn [_handle_broker_disconnect].
  - apply HQ; fin.
  - apply wp_bind. rewrite wp_atomic. destruct (pop_active_ok s id Hs) as (E & Hs1 & Hl1). rewrite E.
    destruct (dict_get _ id) as [a|] eqn:Ha; [|rewrite wp_ret; apply HQ; fin].
    destruct (sv_named _ _ _ Hs id a Ha) as [Hin Hne].
    apply wp_bind. apply close_writer_wp; [done|chain|].
    intros s2 [u|e] s3 ? ? ?; [|apply HQ; fin]. apply wp_bind.
    apply on_manager_wp; [by apply deregister_broker_calls|done..|].
    intros s4 [us|e] s5 ? ? ?; [|apply HQ; fin].
    apply broadcast_wp; [done..|]. intros s6 x s7 ? ? ?. apply HQ; fin.
Qed.

Lemma broadcast_metadata_wp depth s0 s Q : wp_to s0 (broadcast_metadata depth) s Q.
Proof. apply broadcast_wp. intros. by apply disconnect_wp. Qed.

(** ** Commands *)

(** The call of the manager that a command makes. *)
Definition call_of (cmd : Command) : option call :=
  match cmd with
  | BrokerRegisterCommand id host port => Some (RegisterBroker id host port)
  | RegisterTopicCommand t => Some (RegisterTopic t)
  | ISRChangeCommand t isr => Some (UpdateTopicIsr t isr)
  | _ => None
  end.
Definition command_ok (cmd : Command) : Prop := ∀ c, call_of cmd = Some c → allowed brokers c.

(** A part whose result is dropped. *)
Lemma srv_then_wp {A B} (c : Co (Server S) A) (k : Co (Server S) B) s0 s Q :
  (∀ s0 s Q, wp_to s0 c s Q) → (∀ s0 s Q, wp_to s0 k s Q) → wp_to s0 (c;; k) s Q.
Proof.
  intros Hc Hk Hs Hl HQ. apply wp_bind. apply Hc; [done..|].
  intros s1 [a|e] s2 ? ? ?; [|apply HQ; fin]. apply Hk; [done..|]. intros s3 x s4 ? ? ?. apply HQ; fin.
Qed.

Lemma srv_ret_wp {A} (a : A) s0 s Q : wp_to s0 (mret a) s Q.
Proof. intros Hs Hl HQ. rewrite wp_ret. apply HQ; fin. Qed.

Lemma send_list_wp i hdr s0 s Q :
  wp_to s0 (meta_list ← atomic (on_manager metadata_list);
            _send_response i (TopicMetaDataListResponse meta_list) hdr) s Q.
Proof.
  intros Hs Hl HQ. apply wp_bind. rewrite wp_atomic.
  destruct (metadata_list_ok s Hs) as (l & E & Hp). rewrite E. cbn [fst snd]. by apply send_response_wp.
Qed.

(** Sending the metadata of a topic that is stored. *)
Lemma send_topic_wp i t hdr s0 s Q :
  topics (manager s) !! topic t = Some t →
  wp_to s0 (x ← atomic (on_manager (topic_response t)); _send_response i (TopicMetaDataResponse x) hdr) s Q.
Proof.
  intros Ht Hs Hl HQ. apply wp_bind. rewrite wp_atomic. pose proof (sv_good _ _ _ Hs) as Hg.
  unfold on_manager, zoom. rewrite topic_response_run by apply Hg. cbn [fst snd].
  replace (mkServer _ _ _ _ _) with s by by destruct s.
  apply send_response_wp; [|done..]. by apply (once_response brokers count); [|apply Hs|].
Qed.

Lemma register_topic_stored m t a m' :
  good brokers count m → is_Ok (_hash t) → register_topic t m = (Ok a, m') →
  topics m' !! topic a = Some a.
Proof.
  intros [Hc _ _ _] Ht E. pose proof (register_topic_ok brokers Hcf m t Hc Ht) as Hr.
  destruct (topics m !! t) as [x|] eqn:Em.
  - rewrite Hr in E. injection E as <- <-. by rewrite (st_named _ t x (cl_store _ _ Hc) Em).
  - destruct Hr as (l & m2 & _ & E2 & _ & _ & _ & Htop & _). rewrite E2 in E. injection E as <- <-.
    rewrite Htop. cbn. apply lookup_insert_eq.
Qed.

Lemma register_wp depth now i broker hdr id h p s0 s Q :
  allowed brokers (RegisterBroker id h p) →
  wp_to s0 (handle_command depth now i broker (mkPacket hdr (BrokerRegisterCommand id h p))) s Q.
Proof.
  intros [Hin Hne]. unfold handle_command. cbn [header body]. apply srv_then_wp.
  { intros s1 s2 Q'. apply atomic_wp. intros Hs. by apply set_broker_ok. }
  intros s1 s2 Q1. apply srv_then_wp.
  { intros s3 s4 Q'. apply atomic_wp. intros Hs. by apply entry_ok. }
  intros s3 s4 Q2. apply srv_then_wp.
  { intros s5 s6 Q'. apply on_manager_wp. by apply register_broker_calls. }
  intros s5 s6 Q3 Hs Hl HQ. apply wp_bind. rewrite wp_atomic.
  destruct (metadata_list_ok s6 Hs) as (l & E & Hp). rewrite E. cbn [fst snd].
  apply wp_bind. apply send_response_wp; [done..|]. intros s7 [u|e] s8 ? ? ?; [|apply HQ; fin].
  apply broadcast_metadata_wp; [done..|]. intros s9 a s10 ? ? ?. apply HQ; fin.
Qed.

Lemma touch_ok s i now id : server_ok s → server_ok (touch i now id s).2 ∧ later s (touch i now id s).2.
Proof.
  intros Hs. assert (server_ok s ∧ later s s) as Hsame by (split; [done|apply srv_later_refl]).
  unfold touch. run. destruct id as [id|]; [|exact Hsame].
  destruct (dict_get _ id) as [a|] eqn:Ha; [|exact Hsame]. run. cbn [snd].
  apply entry_ok; [done| |]; by apply (sv_named _ _ _ Hs id a).
Qed.

Lemma handle_command_wp depth now i broker cmd s0 s Q :
  command_ok (body cmd) → wp_to s0 (handle_command depth now i broker cmd) s Q.
Proof.
  intros Hc. destruct cmd as [hdr cmd]. cbn [body] in Hc.
  assert (∀ resp, (∀ m, told_well m (mkPacket hdr resp)) → ∀ s0 s Q, wp_to s0 (_send_response i resp hdr) s Q) as Hsend.
  { intros resp Hr ???. by apply send_response_wp. }
  destruct cmd as [| | | | | | | | | |t|t|id h p|bid| |t isr]; try (by apply Hsend).
  - unfold handle_command. cbn [header body]. intros Hs Hl HQ. apply wp_bind. rewrite wp_atomic.
    pose proof (sv_good _ _ _ Hs) as Hg. specialize (Hc _ eq_refl). cbn in Hc.
    destruct (on_manager_ok (register_topic t) s (register_topic_calls brokers Hcf count Hcount t Hc) Hs) as [Hs1 Hl1].
    destruct (on_manager (register_topic t) s) as [a s1] eqn:E. cbn [fst snd] in *.
    destruct a as [a|e]; [|apply HQ; fin].
    assert (topics (manager s1) !! topic a = Some a) as Ha.
    { unfold on_manager, zoom in E. destruct (register_topic t (manager s)) as [x m'] eqn:Er.
      injection E as -> <-. by eapply register_topic_stored. }
    apply wp_bind. rewrite wp_atomic. unfold on_manager, zoom. rewrite topic_response_run by apply Hs1.
    cbn [fst snd]. replace (mkServer _ _ _ _ _) with s1 by by destruct s1.
    apply wp_bind. apply send_response_wp; [|done|chain|].
    { by apply (once_response brokers count); [apply Hs1..|]. }
    intros s2 [u|e] s3 ? ? ?; [|apply HQ; fin].
    apply broadcast_metadata_wp; [done..|]. intros s4 x s5 ? ? ?. apply HQ; fin.
  - unfold handle_command. cbn [header body]. intros Hs Hl HQ. apply wp_bind. rewrite wp_atomic.
    pose proof (sv_good _ _ _ Hs) as Hg. unfold on_manager, zoom, get_topic_metadata, on_storage. run.
    unfold zoom. rewrite st_get_topic_ok by apply Hg. cbn [fst snd].
    replace (set_storage (storage (manager s)) (manager s)) with (manager s) by by destruct (manager s).
    replace (mkServer _ _ _ _ _) with s by by destruct s.
    destruct (st_topics _ !! t) as [x|] eqn:Ex; [|by apply Hsend].
    apply send_topic_wp; [|done..]. by rewrite (st_named _ t x (cl_store _ _ (gd_cluster _ _ _ Hg)) Ex).
  - apply register_wp. by apply Hc.
  - unfold handle_command. cbn [header body]. apply srv_then_wp.
    + intros s1 s2 Q'. apply atomic_wp. apply touch_ok.
    + by apply Hsend.
  - unfold handle_command. cbn [header body]. apply srv_then_wp; [|intros ???; apply srv_ret_wp].
    intros s1 s2 Q'. apply on_manager_wp. by apply update_topic_isr_calls.
Qed.

(** ** Connections *)

Lemma end_connection_wp depth i s0 s Q : wp_to s0 (end_connection depth i) s Q.
Proof.
  intros Hs Hl HQ. unfold end_connection. apply wp_bind. rewrite wp_atomic. run. cbn [fst snd].
  destruct (links s !! i) as [l|] eqn:El; cbn [or_raise]; [|apply HQ; fin].
  apply wp_bind. rewrite wp_atomic. destruct (plain_link_ok s i (set_phase Ended) Hs) as [Hs1 Hl1]; [done..|].
  change (update_link i (set_phase Ended) s).1 with (Ok tt : result unit). cbv iota.
  assert (∀ s2 a s3, server_ok s3 → later s2 s3 → later (update_link i (set_phase Ended) s).2 s3 → Q s2 a s3) as HQ1.
  { intros. apply HQ; fin. }
  destruct (link_broker l) as [[|c id]|]; [apply close_writer_wp; fin|apply disconnect_wp; fin|apply close_writer_wp; fin].
Qed.

Definition carries (input : read_result) (cmd : Command) : Prop :=
  ∃ data p, input = Frame data ∧ parse_command data false = Ok p ∧ body p = cmd.

Lemma connection_round_wp depth now i input s0 s Q :
  (∀ cmd, carries input cmd → command_ok cmd) → wp_to s0 (connection_round depth now i input) s Q.
Proof.
  intros Hi Hs Hl HQ. unfold connection_round. apply wp_bind. rewrite wp_atomic. run. cbn [fst snd].
  destruct (links s !! i) as [l|] eqn:El; cbn [or_raise]; [|apply HQ; fin].
  apply wp_bind. rewrite wp_atomic. destruct (plain_link_ok s i (set_phase Handling) Hs) as [Hs1 Hl1]; [done..|].
  change (update_link i (set_phase Handling) s).1 with (Ok tt : result unit). cbv iota.
  set (s1 := (update_link i (set_phase Handling) s).2) in *.
  assert (∀ s2 a s3, server_ok s3 → later s2 s3 → later s1 s3 → Q s2 a s3) as HQ1.
  { intros. apply HQ; fin. }
  destruct input as [data|]; [|apply end_connection_wp; fin].
  apply wp_bind, wp_catch, wp_bind. rewrite wp_atomic. run. cbn [fst snd].
  assert (∀ s2 s3, server_ok s3 → later s2 s3 → later s1 s3 →
    wpc s2 (end_connection depth i) s3 Q) as Hend.
  { intros s2 s3 ? ? ?. apply end_connection_wp; [done..|]. intros s4 a s5 ? ? ?. apply HQ1; fin. }
  destruct (parse_command data false) as [cmd|e] eqn:E; [|rewrite wp_ret; apply Hend; fin].
  apply wp_bind. apply handle_command_wp; [apply Hi; by exists data, cmd|done|chain|].
  intros s2 [u|e] s3 ? ? ?; rewrite ?wp_ret; [|apply Hend; fin].
  rewrite wp_atomic. destruct (plain_link_ok s3 i (set_phase Reading)) as [? ?]; [done..|]. apply HQ1; fin.
Qed.

Lemma pause_wp s0 s Q : wp_to s0 pause s Q.
Proof. intros Hs Hl HQ. apply wp_pause. split_and!; [done..|]. intros s1 ? ?. apply HQ; fin. Qed.

Lemma get_leader_wp leader s0 s Q : wp_to s0 (get_leader leader) s Q.
Proof.
  unfold get_leader. apply srv_then_wp; [intros ???; apply pause_wp|]. intros ???. apply atomic_wp.
  intros ?. by split; [|apply srv_later_refl].
Qed.

Lemma accept_wp leader i s0 s Q :
  links s !! i = None → wp_to s0 (accept leader i) s Q.
Proof.
  intros Hi Hs Hl HQ. unfold accept. apply wp_bind. rewrite wp_atomic. run. cbn [fst snd].
  set (s1 := set_links _ s). assert (server_ok s1 ∧ later s s1) as [Hs1 Hl1].
  { destruct Hs as [V1 V2 V3 V4 V5 V6]. split; [|split; [done..|]]. 1: split; try done; cbn.
    - intros j l id [[<- <-]|[_ ?]]%lookup_insert_Some; [done|by eapply V4].
    - intros j l resp [[<- <-]|[_ ?]]%lookup_insert_Some; [by intros ?%elem_of_nil|by eapply V5].
    - intros j l Hj. exists l. split; [|done]. cbn. rewrite lookup_insert_ne; [done|congruence]. }
  assert (∀ s2 a s3, server_ok s3 → later s2 s3 → later s1 s3 → Q s2 a s3) as HQ1.
  { intros. apply HQ; fin. }
  apply wp_bind. rewrite wp_atomic. run. cbn [fst snd].
  destruct (is_leader s1); [rewrite wp_ret; apply HQ1; fin|].
  apply wp_bind. rewrite wp_atomic. destruct (plain_link_ok s1 i (set_phase Ended) Hs1) as [Hs2 Hl2]; [done..|].
  change (update_link i (set_phase Ended) s1).1 with (Ok tt : result unit). cbv iota.
  apply wp_bind, get_leader_wp; [done|chain|]. intros s2 [leads|e] s3 Hs3 ? ?; [|apply HQ1; fin].
  apply wp_bind, wp_catch. apply send_response_wp; [by destruct leads|done..|].
  intros s4 [u|e] s5 ? ? ?; rewrite ?wp_ret; (apply close_writer_wp; [done..|]; intros; apply HQ1; fin).
Qed.

Lemma heartbeat_round_wp depth now timeout s0 s Q : wp_to s0 (heartbeat_round depth now timeout) s Q.
Proof.
  intros Hs Hl HQ. unfold heartbeat_round. apply wp_bind. rewrite wp_atomic. run. cbn [fst snd].
  apply for_each_wp; [intros; by apply disconnect_wp|done..].
Qed.

(** ** The election *)

Lemma set_leader_wp c s0 s Q : wp_to s0 (atomic (modify (set_leader c))) s Q.
Proof.
  apply atomic_wp. intros [V1 V2 V3 V4 V5 V6]. run. cbn [snd]. split; [by split|by apply later_same].
Qed.

Lemma set_lock_ok c s : server_ok s → server_ok (set_lock c s) ∧ later s (set_lock c s).
Proof. intros [V1 V2 V3 V4 V5 V6]. split; [by split|by apply later_same]. Qed.

Lemma with_lock_wp c s0 s Q : (∀ s0 s Q, wp_to s0 c s Q) → wp_to s0 (with_lock c) s Q.
Proof.
  intros Hc Hs Hl HQ. unfold with_lock. apply wp_bind. cbn [wp]. split_and!; [done..|].
  intros s1 Hs1 Hl1 _. apply wp_bind. rewrite wp_atomic. run. cbn [fst snd].
  destruct (set_lock_ok true s1 Hs1). apply wp_finally, Hc; [done|chain|].
  intros s2 a s3 Hs3 ? ?. destruct (set_lock_ok false s3 Hs3). apply HQ; fin.
Qed.

Lemma run_election_wp created leader s0 s Q : wp_to s0 (_run_election created leader) s Q.
Proof.
  unfold _run_election. apply with_lock_wp. intros s1 s2 Q1. apply srv_then_wp; [intros ???; apply pause_wp|].
  intros s3 s4 Q2. destruct created as [| |e].
  - apply set_leader_wp.
  - apply srv_then_wp; [intros ???; apply set_leader_wp|]. intros s5 s6 Q3. apply srv_then_wp; intros ???.
    + apply get_leader_wp.
    + apply srv_ret_wp.
  - intros Hs Hl HQ. cbn [wp]. apply HQ; fin.
Qed.

Lemma reject_brokers_wp resp ids s0 s Q : (∀ m, told_well m resp) → wp_to s0 (reject_brokers resp ids) s Q.
Proof.
  intros Hr. revert s0 s Q. induction ids as [|id ids IH]; intros s0 s Q Hs Hl HQ; cbn [reject_brokers].
  - rewrite wp_ret. apply HQ; fin.
  - apply wp_bind. rewrite wp_atomic. destruct (pop_active_ok s id Hs) as (E & Hs1 & Hl1). rewrite E.
    assert (∀ s2 s3, server_ok s3 → later s2 s3 → later s s3 → wpc s2 (reject_brokers resp ids) s3 Q) as Hend.
    { intros s2 s3 ? ? ?. apply IH; [done..|]. intros; apply HQ; fin. }
    apply wp_bind. destruct (dict_get _ id) as [a|]; [|rewrite wp_ret; apply Hend; fin].
    apply wp_catch, wp_bind. rewrite wp_atomic.
    destruct (answer_ok (pop_active id s).2 (ab_link a) resp Hs1 (Hr _)) as [Hs2 Hl2].
    match goal with |- context [(update_link ?i ?f ?s).1] =>
      change (update_link i f s).1 with (Ok tt : result unit) end. cbv iota.
    apply wp_bind. apply drain_wp; [done|chain|].
    intros s3 [u|e] s4 ? ? ?; rewrite ?wp_ret; [|apply Hend; fin].
    apply close_writer_wp; [done..|]. intros s5 [u'|e] s6 ? ? ?; rewrite ?wp_ret; apply Hend; fin.
Qed.

Lemma broadcast_not_leader_wp leader s0 s Q : wp_to s0 (_broadcast_not_leader leader) s Q.
Proof.
  intros Hs Hl HQ. unfold _broadcast_not_leader. apply wp_bind, get_leader_wp; [done..|].
  intros s1 [l|e] s2 ? ? ?; [|apply HQ; fin]. apply wp_bind. rewrite wp_atomic. run.
  destruct (encode_response _); cbn [fst snd]; [|apply HQ; fin].
  apply wp_bind. rewrite wp_atomic. run. cbn [fst snd].
  apply reject_brokers_wp; [by destruct l|done|chain|]. intros; apply HQ; fin.
Qed.

Lemma on_leader_gone_wp leader created leader' s0 s Q :
  wp_to s0 (_on_leader_gone leader created leader') s Q.
Proof.
  unfold _on_leader_gone. apply srv_then_wp; [intros ???; apply set_leader_wp|]. intros ???.
  apply srv_then_wp; intros ???; [apply broadcast_not_leader_wp|apply run_election_wp].
Qed.
End steps.
