(* ===== verification/ControllerRun.v ===== *)
(** * The controller without interruptions

    Broadcasts and disconnections that run to their end. *)
From Stdlib Require Import String.
From stdpp Require Import fin_maps fin_map_dom.
From S2P Require Import Prelude Coroutine PyData PyDict Md5 Messages Framer Encoder Parser Ring RingFacts Metastore StorageFacts ManagerFacts MetastoreTheorems Controller ControllerFacts ControllerSteps.
Import MetastoreManager.

(** ** Encoding does not exhaust the stack *)

Definition no_overflow {A} (r : result A) : Prop := r ≠ Raise RuntimeError.

Lemma no_overflow_bind {A B} (f : A → result B) (r : result A) :
  no_overflow r → (∀ a, no_overflow (f a)) → no_overflow (r ≫= f).
Proof. unfold no_overflow. destruct r as [a|e]; cbn; [auto|congruence]. Qed.

Lemma no_overflow_str n : no_overflow (py_str n).
Proof. unfold py_str. by case_match. Qed.

Lemma no_overflow_utf8 l : no_overflow (utf8_encode l).
Proof.
  induction l as [|c l IH]; cbn; [done|]. apply no_overflow_bind.
  - unfold utf8_char. repeat case_match; done.
  - intros a. by apply no_overflow_bind.
Qed.

Lemma no_overflow_frame l : no_overflow (encode_frame l).
Proof. unfold encode_frame, to_bytes. apply no_overflow_bind; [by case_match|done]. Qed.

Create HintDb overflow.
#[export] Hint Resolve no_overflow_bind no_overflow_str no_overflow_utf8 no_overflow_frame : overflow.

Lemma no_overflow_list hdr l : no_overflow (encode_response (mkPacket hdr (TopicMetaDataListResponse l))).
Proof.
  assert (∀ x, no_overflow (meta_fields x)) as Hf.
  { intros x. unfold meta_fields. repeat first [apply no_overflow_bind; [auto with overflow|intros ?]|done]. }
  assert (no_overflow (meta_lines l)) as Hl.
  { induction l as [|x l IH]; cbn [meta_lines]; [done|].
    repeat first [apply no_overflow_bind; [by auto with overflow|intros ?]|done]. }
  unfold encode_response. cbn [body encode_response_body].
  apply no_overflow_bind; [unfold encode_packet_header; cbn [header]; by case_match; auto with overflow|]. intros h. apply no_overflow_bind.
  - repeat first [apply no_overflow_bind; [by auto with overflow|intros ?]|done].
  - intros [b fr]. repeat first [apply no_overflow_bind; [by auto with overflow|intros ?]|done].
Qed.

Section run.
Context {S : Type} `{StorageLaws S}.
Context (brokers : list (list Z)) (Hcf : collision_free _hash 50 brokers).
Context (count : Z) (Hcount : 1 <= count).
Implicit Types (s : Server S).

Abbreviation server_ok := (server_ok brokers count).

(** ** What never waits for anything *)

Lemma prompt_send_all resp l : prompt (send_all (S := S) resp l).
Proof.
  induction l as [|[id a] l IH]; cbn [send_all]; [done|].
  apply prompt_bind; [|eauto with co]. apply prompt_catch; [by repeat (apply prompt_bind; intros)|].
  by intros e c [= <-].
Qed.
Lemma prompt_close_writer i : prompt (close_writer (S := S) i).
Proof. by apply prompt_bind. Qed.
Lemma prompt_for_each f l : (∀ id, prompt (f id)) → prompt (for_each (S := S) f l).
Proof. intros Hf. induction l; cbn [for_each]; [done|]. apply prompt_bind; auto. Qed.
Lemma prompt_broadcast f : (∀ id, prompt (f id)) → prompt (broadcast_with (S := S) f).
Proof.
  intros Hf. unfold broadcast_with. repeat (apply prompt_bind; [done|intros]).
  apply prompt_bind; [apply prompt_send_all|]. intros. by apply prompt_for_each.
Qed.
Lemma prompt_disconnect depth id : prompt (_handle_broker_disconnect (S := S) depth id).
Proof.
  revert id. induction depth as [|depth IH]; intros id; cbn [_handle_broker_disconnect]; [done|].
  apply prompt_bind; [done|]. intros [a|]; [|done]. apply prompt_bind; [apply prompt_close_writer|intros _].
  apply prompt_bind; [done|intros _].
  by apply prompt_broadcast.
Qed.

Lemma srv_run_ok {A} (c : Co (Server S) A) s :
  prompt c → server_ok s →
  (∀ Q, (∀ s1 a s', server_ok s' → later s1 s' → later s s' → Q s1 a s') →
     wp server_ok later later s c s Q) →
  server_ok (run c s).2 ∧ later s (run c s).2.
Proof.
  intros Hp Hs Hc. destruct (wp_run server_ok later later c s s (λ _ _ s', server_ok s' ∧ later s s')) as [_ ?];
    [done| |done]. by apply Hc.
Qed.

Lemma run_update {A} i f (k : Co (Server S) A) s :
  run (atomic (update_link i f);; k) s = run k (update_link i f s).2.
Proof. by rewrite run_co_bind, run_atomic. Qed.

(** ** Sending *)

(** The connection takes writes, and [resp] is the last that was written. *)
Definition up s (i : nat) : bool := match links s !! i with Some l => link_open l | None => false end.
Definition heard s (i : nat) (resp : Packet Response) : Prop :=
  ∃ l, links s !! i = Some l ∧ last (answers l) = Some resp.

(** Nothing but connections has changed. *)
Definition same_but_links s s' : Prop :=
  manager s' = manager s ∧ active_brokers s' = active_brokers s ∧ ∀ i, up s' i = up s i.

Lemma write_up s i resp j : up (update_link i (write_answer resp) s).2 j = up s j.
Proof.
  unfold up. cbn. rewrite lookup_alter. case_decide as E; [subst j|done].
  destruct (links s !! i) as [l|]; cbn; [|done]. unfold write_answer. by destruct (link_open l) eqn:E.
Qed.

Lemma write_heard s i resp : up s i = true → heard (update_link i (write_answer resp) s).2 i resp.
Proof.
  unfold up, heard. cbn. rewrite lookup_alter_eq. destruct (links s !! i) as [l|]; cbn; [|done].
  intros E. eexists. split; [done|]. unfold write_answer. rewrite E. apply last_snoc.
Qed.

Lemma write_keeps_heard s i resp j :
  heard s j resp → heard (update_link i (write_answer resp) s).2 j resp.
Proof.
  intros (l & Hl & Hr). unfold heard. cbn. rewrite lookup_alter. case_decide as E; [subst j|eauto].
  rewrite Hl. eexists. split; [done|]. unfold write_answer. destruct (link_open l); [|done]. apply last_snoc.
Qed.

Lemma drain_run i s : run (drain i) s = (if up s i then Ok tt else Raise ConnectionError, s).
Proof.
  unfold drain, up. run_co. run. destruct (links s !! i) as [l|]; [|done]. by destruct (link_open l).
Qed.

Lemma send_response_run i resp hdr s : up s i = true →
  run (_send_response i resp hdr) s =
    match encode_response (mkPacket hdr resp) with
    | Ok _ => (Ok tt, (update_link i (write_answer (mkPacket hdr resp)) s).2)
    | Raise e => (Raise e, s)
    end.
Proof.
  intros Hu. unfold _send_response. rewrite run_co_bind, run_atomic. run.
  destruct (encode_response _); [|done]. rewrite run_update, drain_run, write_up. by rewrite Hu.
Qed.

Definition unreachable s (l : list (list Z * ActiveBroker)) : list (list Z) :=
  dict_keys (filter (λ x : list Z * ActiveBroker, up s (ab_link x.2) = false) l).

Lemma unreachable_cons s id a l :
  unreachable s ((id, a) :: l) = (if up s (ab_link a) then [] else [id]) ++ unreachable s l.
Proof.
  unfold unreachable. destruct (up s (ab_link a)) eqn:E.
  - by rewrite filter_cons_False by (cbn; congruence).
  - by rewrite filter_cons_True.
Qed.

Lemma send_all_run resp l s :
  ∃ s', run (send_all resp l) s = (Ok (unreachable s l), s') ∧ same_but_links s s' ∧
    (∀ i, heard s i resp → heard s' i resp) ∧
    (∀ id a, (id, a) ∈ l → up s (ab_link a) = true → heard s' (ab_link a) resp).
Proof.
  revert s. induction l as [|[id a] l IH]; intros s; cbn [send_all].
  - exists s. split; [done|]. split; [done|]. split; [done|]. intros id a ?%elem_of_nil. done.
  - rewrite run_co_bind, run_co_catch, run_co_bind, run_atomic.
    change (update_link (ab_link a) (write_answer resp) s)
      with (Ok tt : result unit, (update_link (ab_link a) (write_answer resp) s).2).
    cbv iota beta. set (s1 := (update_link (ab_link a) (write_answer resp) s).2).
    rewrite run_co_bind, drain_run. assert (up s1 (ab_link a) = up s (ab_link a)) as -> by apply write_up.
    destruct (IH s1) as (s' & E & (Hm & Ha & Hup) & Hkeep & Hh).
    assert (unreachable s1 l = unreachable s l) as Hun.
    { unfold unreachable. f_equal. apply list_filter_iff. intros [id' a']. unfold s1. by rewrite write_up. }
    assert (∀ i, up s' i = up s i) as Hup'. { intros i. rewrite Hup. apply write_up. }
    exists s'. destruct (up s (ab_link a)) eqn:Eup; cbv iota beta; run_co; rewrite E; run_co;
      (split; [|split; [done|split]]).
    + by rewrite unreachable_cons, Eup, Hun.
    + intros i Hi. by apply Hkeep, write_keeps_heard.
    + intros id' a' [[= -> ->]|Hin]%elem_of_cons Hu.
      * apply Hkeep. by apply write_heard.
      * apply (Hh id' a' Hin). unfold s1. by rewrite write_up.
    + by rewrite unreachable_cons, Eup, Hun.
    + intros i Hi. by apply Hkeep, write_keeps_heard.
    + intros id' a' [[= -> ->]|Hin]%elem_of_cons Hu; [congruence|].
      apply (Hh id' a' Hin). unfold s1. by rewrite write_up.
Qed.

(** ** Disconnecting *)

Definition current_list s : list TopicMeta :=
  match (metadata_list (manager s)).1 with Ok l => l | Raise _ => [] end.
(** Broker [a] has been told the current metadata. *)
Definition told s (a : ActiveBroker) : Prop :=
  up s (ab_link a) = true ∧
  heard s (ab_link a) (packet (TopicMetaDataListResponse (current_list s))).
Definition informed s : Prop := ∀ id a, dict_get (active_brokers s) id = Some a → told s a.

Abbreviation nodes s := (st_nodes (storage (manager s))).
Definition gone s s' (id : list Z) : Prop :=
  is_Some (dict_get (active_brokers s) id) ∧ dict_get (active_brokers s') id = None.

(** Some brokers are gone, and these are deregistered; but for the connections in [P],
    those that took writes still do and their brokers stay. *)
Record shrinks (P : nat → Prop) s s' : Prop := {
  sh_down i : up s' i = true → up s i = true;
  sh_up i : ¬ P i → up s i = true → up s' i = true;
  sh_kept id a : dict_get (active_brokers s) id = Some a → up s (ab_link a) = true → ¬ P (ab_link a) →
    dict_get (active_brokers s') id = Some a;
  sh_active id a : dict_get (active_brokers s') id = Some a → dict_get (active_brokers s) id = Some a;
  sh_length : (length (active_brokers s') <= length (active_brokers s))%nat;
  sh_gone id : gone s s' id → nodes s' !! id = None;
  sh_stay id : ¬ gone s s' id → nodes s' !! id = nodes s !! id }.

Lemma shrinks_same P s s' : same_but_links s s' → shrinks P s s'.
Proof.
  intros (Em & Ea & Hu). assert (∀ id, ¬ gone s s' id) as Hn.
  { unfold gone. rewrite Ea. intros id [[x Hx] ?]. congruence. }
  split; try (intros i; rewrite Hu; done); rewrite ?Ea, ?Em; try done. intros id ?%Hn. done.
Qed.

Lemma shrinks_mono (P Q : nat → Prop) s s' :
  (∀ i, P i → up s i = true → Q i) → shrinks P s s' → shrinks Q s s'.
Proof.
  intros HPQ [D U K A L G N]. split; try done.
  - intros i Hi Hup. apply U; [|done]. intros Hp. by apply Hi, HPQ.
  - intros id a Ha Hup Hi. apply K; [done..|]. intros Hp. by apply Hi, HPQ.
Qed.

Lemma shrinks_trans P s s1 s2 : shrinks P s s1 → shrinks P s1 s2 → shrinks P s s2.
Proof.
  intros [D1 U1 K1 A1 L1 G1 N1] [D2 U2 K2 A2 L2 G2 N2]. split; [auto..|auto|lia| |].
  - intros id [Hs H2]. destruct (dict_get (active_brokers s1) id) eqn:E1.
    + by apply G2.
    + rewrite N2; [by apply G1|]. intros [[x Hx] _]. congruence.
  - intros id Hg. unfold gone in *.
    assert (dict_get (active_brokers s) id = None ∨ is_Some (dict_get (active_brokers s2) id)) as [Hn|[x Hx]].
    { destruct (dict_get (active_brokers s) id), (dict_get (active_brokers s2) id); eauto.
      destruct Hg. eauto. }
    + assert (dict_get (active_brokers s1) id = None) as H1.
      { destruct (dict_get (active_brokers s1) id) eqn:E; [|done]. apply A1 in E. congruence. }
      rewrite N2, N1; [done| |]; intros [[x Hx] _]; congruence.
    + rewrite N2, N1; [done|intros [_ ?%eq_None_not_Some]|intros [_ ?]]; [|congruence].
      apply A2 in Hx. eauto.
Qed.

Definition link_of s (id : list Z) (i : nat) : Prop :=
  ∃ a, dict_get (active_brokers s) id = Some a ∧ ab_link a = i.
Definition links_of s (ids : list (list Z)) (i : nat) : Prop := ∃ id, id ∈ ids ∧ link_of s id i.

Lemma close_up s i (j : nat) :
  match alter close_link i (links s) !! j with Some l => link_open l | None => false end =
  if decide (i = j) then false else up s j.
Proof.
  unfold up. rewrite lookup_alter. case_decide as E; [subst j|done]. by destruct (links s !! i).
Qed.

(** The broker is popped, its connection is closed and it leaves the ring. *)
Lemma drop_run s id a :
  server_ok s → dict_get (active_brokers s) id = Some a →
  ∃ s', (∀ k : Co (Server S) unit,
      run (close_writer (ab_link a);; atomic (on_manager (deregister_broker id));; k) (pop_active id s).2 =
      run k s') ∧ server_ok s' ∧ shrinks (link_of s id) s s' ∧
    dict_get (active_brokers s') id = None ∧ up s' (ab_link a) = false ∧
    (length (active_brokers s') < length (active_brokers s))%nat.
Proof.
  intros Hs Ha. destruct (sv_named _ _ _ Hs id a Ha) as [Hin Hne]. pose proof (sv_active _ _ _ Hs) as Hd.
  destruct (sv_good _ _ _ Hs) as [Hc Hr Hp _].
  destruct (deregister_broker_ok brokers Hcf (manager s) id Hc) as (us & m' & E & _ & Hn & _);
    [by rewrite Hr|done..|].
  set (s' := mkServer m' (dict_del (active_brokers s) id) (alter close_link (ab_link a) (links s))
               (is_leader s) (election_lock s)).
  assert (∀ k : Co (Server S) unit,
      run (close_writer (ab_link a);; atomic (on_manager (deregister_broker id));; k) (pop_active id s).2 =
      run k s') as Hrun.
  { intros k. rewrite run_co_bind. unfold close_writer. rewrite run_co_bind, run_atomic.
    match goal with |- context [update_link ?i ?f ?s] =>
      change (update_link i f s) with (Ok tt : result unit, (update_link i f s).2) end. cbv iota.
    rewrite run_pause, run_co_bind, run_atomic. unfold on_manager, zoom, pop_active. run. cbn. rewrite E. reflexivity. }
  exists s'. split; [exact Hrun|]. split.
  { specialize (Hrun (mret tt)). cbn [run] in Hrun.
    destruct (pop_active_ok brokers count s id Hs) as (_ & Hs1 & _).
    eassert (server_ok (run _ (pop_active id s).2).2) as Hok; [|rewrite Hrun in Hok; exact Hok].
    apply srv_run_ok; [apply prompt_bind; [apply prompt_close_writer|intros _; by apply prompt_bind]|done|].
    intros Q HQ. apply (srv_then_wp brokers count); [by intros ???; apply close_writer_wp| |done|reflexivity|done].
    intros ???. apply (srv_then_wp brokers count); [|by intros ???; apply srv_ret_wp].
    intros ???. apply on_manager_wp. by apply deregister_broker_calls. }
  pose proof (Permutation_length (dict_del_perm _ _ _ Ha)) as Hl. cbn [length] in Hl.
  assert (∀ x, gone s s' x ↔ x = id) as Hg.
  { intros x. unfold gone. cbn. split.
    - intros [[b Hb] Hx]. destruct (decide (id = x)); [done|]. rewrite dict_get_del_ne in Hx by done. congruence.
    - intros ->. split; [eauto|by apply dict_get_del_eq]. }
  cbn. split; [|split; [by apply dict_get_del_eq|split; [|lia]]].
  2: { unfold up. cbn. rewrite close_up. by rewrite decide_True. }
  split; cbn.
  - intros i. unfold up at 1. cbn. rewrite close_up. by case_decide.
  - intros i Hi. unfold up at 2. cbn. rewrite close_up. case_decide; [|done]. destruct Hi. by exists a.
  - intros x b Hx _ Hi. rewrite dict_get_del_ne; [done|]. intros <-. apply Hi. by exists b.
  - intros x b. destruct (decide (id = x)) as [<-|]; [by rewrite dict_get_del_eq|by rewrite dict_get_del_ne].
  - lia.
  - intros x ->%Hg. rewrite Hn. apply lookup_delete_eq.
  - intros x Hx. rewrite Hn. apply lookup_delete_ne. intros <-. by apply Hx, Hg.
Qed.

(** What is known about a disconnection to depth [d]. *)
Definition disconnects d (f : pystr → Co (Server S) unit) : Prop := ∀ id s,
  server_ok s → (length (active_brokers s) < d)%nat →
  server_ok (run (f id) s).2 ∧ (run (f id) s).1 ≠ Raise RuntimeError ∧ shrinks (link_of s id) s (run (f id) s).2 ∧
  dict_get (active_brokers (run (f id) s).2) id = None ∧
  match dict_get (active_brokers s) id with
  | None => run (f id) s = (Ok tt, s)
  | Some a => up (run (f id) s).2 (ab_link a) = false ∧
      ((run (f id) s).1 = Ok tt → informed (run (f id) s).2)
  end.

Definition almost_informed (ids : list (list Z)) s : Prop :=
  ∀ id a, dict_get (active_brokers s) id = Some a → id ∈ ids ∨ told s a.

Lemma for_each_run d f ids s :
  disconnects d f → server_ok s → (length (active_brokers s) < d)%nat →
  let r := run (for_each f ids) s in
  r.1 ≠ Raise RuntimeError ∧ shrinks (links_of s ids) s r.2 ∧
  (r.1 = Ok tt → (∀ id, id ∈ ids → dict_get (active_brokers r.2) id = None) ∧
    (almost_informed ids s ∨ Exists (λ id, is_Some (dict_get (active_brokers s) id)) ids → informed r.2)).
Proof.
  intros Hf. revert s. induction ids as [|id ids IH]; intros s Hs Hl; cbn [for_each].
  - cbn. split; [done|]. split; [by apply shrinks_same|]. intros _. split; [by intros id ?%elem_of_nil|].
    intros [Ha|?%Exists_nil]; [|done]. intros id a Hi. destruct (Ha id a Hi) as [?%elem_of_nil|?]; done.
  - destruct (Hf id s Hs Hl) as (Hs1 & Hr & Hsh & Hid & Hb). rewrite run_co_bind.
    destruct (run (f id) s) as [[u|e] s1] eqn:E; cbn [fst snd] in *.
    2: { split; [congruence|]. split; [|done]. eapply shrinks_mono; [|done].
         intros i Hi _. exists id. by split; [left|]. }
    destruct (IH s1 Hs1) as (Hr2 & Hsh2 & Hok); [pose proof (sh_length _ _ _ Hsh); lia|].
    split; [done|]. split.
    { eapply shrinks_trans; (eapply shrinks_mono; [|done]).
      - intros i Hi _. exists id. by split; [left|].
      - intros i (id' & Hin & a & Ha & <-) _. exists id'. split; [by right|].
        exists a. split; [|done]. by apply (sh_active _ _ _ Hsh). }
    intros Eok. destruct (Hok Eok) as [Hgone Hinf].
    destruct u. split.
    + intros id' [->|?]%elem_of_cons; [|by apply Hgone].
      apply eq_None_not_Some. intros [a Ha]. apply (sh_active _ _ _ Hsh2) in Ha. congruence.
    + intros Hpre. apply Hinf. destruct (dict_get (active_brokers s) id) as [a|] eqn:Ea.
      * left. intros id' a' Ha'. right. by eapply (proj2 Hb eq_refl).
      * injection Hb as ->. destruct Hpre as [Ha|[[? Hx]|Hx]%Exists_cons].
        -- left. intros id' a' Ha'. destruct (Ha id' a' Ha') as [[->|?]%elem_of_cons|?]; [congruence|by left|by right].
        -- congruence.
        -- by right.
Qed.

Lemma current_list_run s : server_ok s → on_manager metadata_list s = (Ok (current_list s), s).
Proof.
  intros Hs. destruct (metadata_list_run (manager s)) as (ts & E & _); [apply (sv_good _ _ _ Hs)|].
  unfold current_list, on_manager, zoom. rewrite E. by destruct s.
Qed.

Lemma current_list_same s s' : manager s' = manager s → current_list s' = current_list s.
Proof. unfold current_list. by intros ->. Qed.

(** A broadcast: it returns, or the list cannot be encoded. *)
Lemma broadcast_run d f s :
  disconnects d f → server_ok s → (length (active_brokers s) < d)%nat →
  let r := run (broadcast_with f) s in
  r.1 ≠ Raise RuntimeError ∧ shrinks (λ _, False) s r.2 ∧ (r.1 = Ok tt → informed r.2).
Proof.
  intros Hf Hs Hl. unfold broadcast_with. rewrite run_co_bind, run_atomic, current_list_run by done.
  cbv iota. rewrite run_co_bind, run_atomic. run.
  destruct (encode_response _) as [fr|e] eqn:Ee; cbn [fst snd].
  2: { split; [|split; [by apply shrinks_same|done]].
    cbn. intros [= ->]. by apply (no_overflow_list None (current_list s)). }
  cbv iota. rewrite run_co_bind, run_atomic. run. cbv iota.
  rewrite run_co_bind. set (resp := packet _).
  destruct (send_all_run resp (active_brokers s) s) as (s1 & E & (Em & Ea & Hup) & _ & Hh).
  assert (server_ok s1) as Hs1.
  { destruct (srv_run_ok (send_all resp (active_brokers s)) s) as [Hs1 _]; [apply prompt_send_all|done| |by rewrite E in Hs1].
    intros Q HQ. apply (send_all_wp brokers count); [|done|reflexivity|done].
    destruct (metadata_list_ok brokers count s Hs) as (l & El & Hp).
    rewrite current_list_run in El by done. injection El as <-. done. }
  rewrite E. cbv iota.
  destruct (for_each_run d f (unreachable s (active_brokers s)) s1 Hf Hs1) as (Hr & Hsh & Hok); [by rewrite Ea|].
  split; [done|]. split.
  - eapply shrinks_trans; [by apply shrinks_same|]. eapply shrinks_mono; [|exact Hsh].
    intros i (id & Hin & a & Ha & <-) Hu. rewrite Hup in Hu. rewrite Ea in Ha.
    apply list_elem_of_fmap in Hin as ([id' a'] & -> & [Hf' Hin]%list_elem_of_filter).
    cbn in *. rewrite (dict_elem_get _ _ _ (sv_active _ _ _ Hs) Hin) in Ha. congruence.
  - intros Eok. apply (Hok Eok). left. intros id a Hi. rewrite Ea in Hi.
    destruct (up s (ab_link a)) eqn:Eup.
    + right. split; [by rewrite Hup|]. rewrite (current_list_same s s1) by done.
      apply (Hh id a); [|done]. by apply dict_get_elem.
    + left. unfold unreachable, dict_keys. apply list_elem_of_fmap. exists (id, a). split; [done|].
      apply list_elem_of_filter. split; [done|]. by apply dict_get_elem.
Qed.

Lemma disconnect_run depth : disconnects depth (_handle_broker_disconnect depth).
Proof.
  induction depth as [|depth IH]; intros id s Hs Hl; [lia|].
  split.
  { apply srv_run_ok; [apply prompt_disconnect|done|]. intros Q HQ.
    by apply (disconnect_wp brokers Hcf count Hcount); [|reflexivity|]. }
  cbn [_handle_broker_disconnect]. rewrite run_co_bind, run_atomic.
  destruct (pop_active_ok brokers count s id Hs) as (Ep & Hs1 & _).
  rewrite (surjective_pairing (pop_active id s)), Ep. cbv iota.
  destruct (dict_get (active_brokers s) id) as [a|] eqn:Ea.
  - destruct (drop_run s id a Hs Ea) as (s2 & E & Hs2 & Hsh & Hid & Hdown & Hlt). rewrite E.
    destruct (broadcast_run depth _ s2 IH Hs2) as (Hr & Hsh2 & Hok); [lia|].
    split; [done|]. split; [eapply shrinks_trans; [done|]; by eapply shrinks_mono; [|done]|]. split; [|split; [|done]].
    2: { apply not_true_iff_false. intros Hu%(sh_down _ _ _ Hsh2). congruence. }
    apply eq_None_not_Some. intros [b Hb]. apply (sh_active _ _ _ Hsh2) in Hb. congruence.
  - assert (set_active (dict_del (active_brokers s) id) s = s) as Hdel.
    { rewrite dict_del_absent by done. by destruct s. }
    cbn. unfold pop_active. run. rewrite Hdel. split_and!; try done. by apply shrinks_same.
Qed.
End run.
