(* ===== verification/ControllerTheorems.v ===== *)
(** * What the controller guarantees

    All connections, the heartbeat checker and the election, in any order, over any
    storage that obeys its laws; at the end a run in which two broadcasts overtake each
    other. *)
From Stdlib Require Import String.
From stdpp Require Import fin_maps fin_map_dom.
From S2P Require Import Prelude Coroutine PyData PyDict Framer Messages Encoder Parser Md5 Ring RingFacts RingTheorems Metastore StorageFacts ManagerFacts MetastoreTheorems Controller ControllerFacts ControllerSteps ControllerRun.
From S2P Require Log LogTheorems LogApi Replicas ReplicasTheorems.
Import MetastoreManager.

Section theorems.
Context {S : Type} `{StorageLaws S}.
Context (brokers : list (list Z)) (count : Z).
Implicit Types (s : Server S).

(** ** Everything that happens on a controller *)

Inductive server_task s : Co (Server S) unit → Prop :=
| task_accept leader i : links s !! i = None → server_task s (accept leader i)
| task_round depth now i input l :
    links s !! i = Some l → link_phase l = Reading →
    (∀ cmd, carries input cmd → command_ok brokers cmd) →
    server_task s (connection_round depth now i input)
| task_heartbeat depth now timeout : server_task s (heartbeat_round depth now timeout)
| task_election created leader : server_task s (_run_election created leader)
| task_leader_gone leader created leader' : server_task s (_on_leader_gone leader created leader').

(** The other end closes a connection. *)
Inductive server_event s : Server S → Prop :=
| event_lost i : server_event s (update_link i close_link s).2.

Definition server_run := rtc (sched server_task server_event).

Section invariant.
Context (Hcf : collision_free _hash 50 brokers) (Hcount : 1 <= count).
Abbreviation server_ok := (server_ok brokers count).

Lemma server_task_ok s c : server_ok s → server_task s c →
  wp server_ok later later s c s (λ s0 _ s, server_ok s ∧ later s0 s).
Proof.
  intros Hs Hc. destruct Hc; [apply (accept_wp brokers count)|apply (connection_round_wp brokers Hcf count Hcount)
    |apply (heartbeat_round_wp brokers Hcf count Hcount)|apply (run_election_wp brokers count)
    |apply (on_leader_gone_wp brokers count)]; auto; reflexivity.
Qed.

Lemma server_event_ok s s' : server_ok s → server_event s s' → server_ok s' ∧ later s s'.
Proof. intros Hs []. by apply plain_link_ok. Qed.

Lemma server_run_ok a b : server_run a b → sched_ok server_ok later later a →
  sched_ok server_ok later later b ∧ later a.2 b.2.
Proof. apply sched_rtc_ok; [apply _|done|apply server_task_ok|apply server_event_ok]. Qed.

Lemma new_server_ok d : empty_storage d → server_ok (new_server count d).
Proof. intros Hd. split; try done; [by apply new_manager_good|constructor|]. by exists d. Qed.

Lemma srv_started_ok d ts s : empty_storage d → server_run ([], new_server count d) (ts, s) →
  sched_ok server_ok later later (ts, s).
Proof. intros Hd Hrun. apply (server_run_ok _ _ Hrun). split; [by apply new_server_ok|constructor]. Qed.
End invariant.

(** What the controller decides about a topic: different brokers that are registered, at
    most the configured number, and a leader in sync unless nobody is. *)
Definition decided (m : Manager S) (t : TopicMetadata) : Prop :=
  topics m !! topic t = Some t ∧ NoDup (replica_list t) ∧ (∀ n, n ∈ replica_list t → n ∈ live m) ∧
  zlen (replica_list t) <= count ∧ (isr_list t ≠ [] → leader_id t ∈ isr_list t).

Lemma good_decided m t : good brokers count m → topics m !! topic t = Some t → decided m t.
Proof.
  intros [_ Hr Hp Hl] Ht. destruct (Hp _ _ Ht) as [_ [W1 W2 W3]]. rewrite Hr in W3. split_and!; [done..|].
  by eapply Hl.
Qed.

(** The metadata in an answer. *)
Definition mentioned (resp : Packet Response) : list TopicMeta :=
  match body resp with
  | TopicMetaDataListResponse l => l
  | TopicMetaDataResponse x => [x]
  | _ => []
  end.

(** C5: however the controller's tasks interleave with each other and with what the brokers
    do, from an empty storage on: the replicas of every topic are distinct live brokers,
    at most the configured number of them, and its leader is one of its in-sync replicas
    if there are any.  Every metadata in an answer that was ever written to a connection is
    what the controller had decided about the topic at some time: its replicas, leader,
    version and the address of the leader, as they were in a state the manager went
    through, with the replicas live then and the leader in sync.  A topic that exists
    stays. *)
Theorem controller_places_topics d ts s :
  collision_free _hash 50 brokers → 1 <= count → empty_storage d →
  server_run ([], new_server count d) (ts, s) →
  (∀ t m, topics (manager s) !! t = Some m → topic m = t ∧ decided (manager s) m) ∧
  (∀ i l resp x, links s !! i = Some l → resp ∈ answers l → x ∈ mentioned resp →
     ∃ m t, reached count m ∧ happened m (manager s) ∧ decided m t ∧ x = response_of m t) ∧
  (∀ ts' s' t, server_run (ts, s) (ts', s') → is_Some (topics (manager s) !! t) →
     is_Some (topics (manager s') !! t)).
Proof.
  intros Hcf Hc Hd Hrun. pose proof (srv_started_ok Hcf Hc d ts s Hd Hrun) as Hok. pose proof Hok as [Hs _].
  split_and!.
  - intros t m Hm. pose proof (sv_good _ _ _ Hs) as Hg.
    pose proof (st_named _ t m (cl_store _ _ (gd_cluster _ _ _ Hg)) Hm) as Ht. rewrite <-Ht in Hm.
    split; [done|by apply good_decided].
  - intros i l resp x Hl Hr Hx. pose proof (sv_told _ _ _ Hs i l resp Hl Hr) as Ht.
    assert (once brokers count (manager s) x) as (m & t & Hg & Hm & Hh & Ht' & ->).
    { unfold told_well, mentioned in *. destruct (body resp); try by apply not_elem_of_nil in Hx.
      - by apply list_elem_of_singleton in Hx as ->.
      - rewrite Forall_forall in Ht. by apply Ht. }
    exists m, t. split_and!; [done..|by apply good_decided|done].
  - intros ts' s' t Hrun' Ht. destruct (server_run_ok Hcf Hc _ _ Hrun' Hok) as [_ [Hl _ _]].
    apply elem_of_dom. apply Hl. by apply elem_of_dom.
Qed.

(** ** Without interruptions *)

Context (Hcf : collision_free _hash 50 brokers) (Hcount : 1 <= count).
Abbreviation server_ok := (server_ok brokers count).
Abbreviation nodes s := (st_nodes (storage (manager s))).

(** C6: a broadcast reaches everybody.  Telling a broker whose connection is lost removes
    it, which changes the metadata and starts another broadcast within the first one;
    this recursion ends within the number of active brokers.  Unless a list cannot be
    encoded, in the end every broker whose connection takes writes is still active, has
    kept its node, and has been sent, last, the metadata as it is then; every other
    broker is no longer active and has no node. *)
Theorem broadcast_informs depth s :
  server_ok s → (length (active_brokers s) < depth)%nat →
  ∃ r s', run (broadcast_metadata depth) s = (r, s') ∧ r ≠ Raise RuntimeError ∧
    (r = Ok tt → ∀ id, match dict_get (active_brokers s) id with
       | Some a =>
           if up s (ab_link a)
           then dict_get (active_brokers s') id = Some a ∧ told s' a ∧ nodes s' !! id = nodes s !! id
           else dict_get (active_brokers s') id = None ∧ nodes s' !! id = None
       | None => dict_get (active_brokers s') id = None ∧ nodes s' !! id = nodes s !! id
       end).
Proof.
  intros Hs Hl.
  destruct (broadcast_run brokers count depth _ s (disconnect_run brokers Hcf count Hcount depth) Hs Hl)
    as (Hr & Hsh & Hinf).
  unfold broadcast_metadata. destruct (run _ s) as [r s'] eqn:E. cbn [fst snd] in *.
  exists r, s'. split; [done|]. split; [done|]. intros Hok id. specialize (Hinf Hok). clear E.
  destruct (dict_get (active_brokers s) id) as [a|] eqn:Ea.
  - destruct (up s (ab_link a)) eqn:Eu.
    + pose proof (sh_kept _ _ _ Hsh id a Ea Eu ltac:(auto)) as Ha. split; [done|].
      split; [by eapply Hinf|]. apply (sh_stay _ _ _ Hsh). intros [_ ?]. congruence.
    + assert (dict_get (active_brokers s') id = None) as Hn.
      { apply eq_None_not_Some. intros [b Hb]. pose proof (sh_active _ _ _ Hsh id b Hb) as Hb'.
        destruct (Hinf id b Hb) as [Hu _]. apply (sh_down _ _ _ Hsh) in Hu. congruence. }
      split; [done|]. apply (sh_gone _ _ _ Hsh). split; [by eexists|done].
  - assert (dict_get (active_brokers s') id = None) as Hn.
    { apply eq_None_not_Some. intros [b Hb]. apply (sh_active _ _ _ Hsh) in Hb. congruence. }
    split; [done|]. apply (sh_stay _ _ _ Hsh). intros [[??] _]. congruence.
Qed.

(** A round of the heartbeat checker removes the silent and no one else.  A broker whose
    connection takes writes, and over whose connection nobody has been silent, stays,
    with its node.  Unless a list cannot be encoded, the brokers that remain were there
    before and have been heard of within the timeout; if anybody was silent they have
    been sent the list as it is now; and the node of every broker that was removed is
    gone from the storage.  Removing a broker
    may find further ones that are lost; the stack that needs is bounded by their
    number. *)
Theorem heartbeat_correct depth now timeout s :
  server_ok s → (length (active_brokers s) < depth)%nat →
  ∃ r s', run (heartbeat_round depth now timeout) s = (r, s') ∧ r ≠ Raise RuntimeError ∧
    (r = Ok tt →
      (∀ id a, dict_get (active_brokers s') id = Some a →
         dict_get (active_brokers s) id = Some a ∧ now - ab_heartbeat a ≤ timeout ∧
         (stale_brokers now timeout (active_brokers s) ≠ [] → told s' a)) ∧
      (∀ id, is_Some (dict_get (active_brokers s) id) → dict_get (active_brokers s') id = None →
         nodes s' !! id = None)) ∧
    (∀ id a, dict_get (active_brokers s) id = Some a → up s (ab_link a) = true →
       (∀ id' a', dict_get (active_brokers s) id' = Some a' → ab_link a' = ab_link a →
          now - ab_heartbeat a' ≤ timeout) →
       dict_get (active_brokers s') id = Some a ∧ nodes s' !! id = nodes s !! id).
Proof.
  intros Hs Hl. unfold heartbeat_round. rewrite run_co_bind, run_atomic. run. cbv iota.
  set (stale := stale_brokers _ _ _).
  destruct (for_each_run brokers count depth _ stale s (disconnect_run brokers Hcf count Hcount depth) Hs Hl)
    as (Hr & Hsh & Hok).
  destruct (run _ s) as [r s']. cbn [fst snd] in *. exists r, s'. split; [done|]. split; [done|].
  split.
  2: { intros id a Ha Hu Hn. assert (dict_get (active_brokers s') id = Some a) as Ha'.
    { apply (sh_kept _ _ _ Hsh); [done..|]. intros (id' & Hid & a' & Hg & El).
      apply list_elem_of_fmap in Hid as ([id2 b] & -> & [Hlt Hb]%list_elem_of_filter). cbn in *.
      pose proof (dict_elem_get _ _ _ (sv_active _ _ _ Hs) Hb). specialize (Hn id2 a' Hg El).
      assert (a' = b) as -> by congruence. lia. }
    split; [done|]. apply (sh_stay _ _ _ Hsh). intros [_ ?]. congruence. }
  intros E. destruct (Hok E) as [Hgone Hinf]. split; [|intros id ??; by apply (sh_gone _ _ _ Hsh)].
  intros id a Ha. pose proof (sh_active _ _ _ Hsh id a Ha) as Ha'. split; [done|]. split.
  - destruct (decide (timeout < now - ab_heartbeat a)) as [Hlt|]; [|lia]. exfalso.
    assert (id ∈ stale) as Hin; [|apply Hgone in Hin; congruence].
    apply list_elem_of_fmap. exists (id, a). split; [done|]. apply list_elem_of_filter. split; [done|].
    by apply dict_get_elem.
  - intros Hne. eapply Hinf; [|done]. right. destruct stale as [|x l] eqn:El; [done|]. left.
    assert (x ∈ stale) as Hx by (rewrite El; left).
    apply list_elem_of_fmap in Hx as ([id' a'] & -> & [_ Hx]%list_elem_of_filter). cbn.
    exists a'. apply dict_elem_get; [apply Hs|done].
Qed.

(** Registering, up to the broadcast. *)
Lemma register_run depth now i l broker hdr id host port s :
  server_ok s → allowed brokers (RegisterBroker id host port) →
  links s !! i = Some l → link_open l = true →
  ∃ s3, server_ok s3 ∧ active_brokers s3 = dict_set (active_brokers s) id (mkActiveBroker i now host port) ∧
    links s3 = alter (set_broker id) i (links s) ∧ nodes s3 !! id = Some (mkBrokerNode id host port) ∧
    let answer := mkPacket hdr (TopicMetaDataListResponse (current_list s3)) in
    run (handle_command depth now i broker (mkPacket hdr (BrokerRegisterCommand id host port))) s =
      match encode_response answer with
      | Ok _ => run (broadcast_metadata depth) (update_link i (write_answer answer) s3).2
      | Raise e => (Raise e, s3)
      end.
Proof.
  intros Hs [Hin Hne] Hi Ho. unfold handle_command. cbn [header body].
  rewrite run_update, run_co_bind, run_atomic. run. cbv iota.
  set (a := mkActiveBroker i now host port).
  destruct (set_broker_ok brokers count s i id Hs Hin) as [Hs1 _].
  set (s1 := (update_link i (set_broker id) s).2) in *.
  destruct (entry_ok brokers count s1 id a Hs1 Hin Hne) as [Hs2 _].
  set (s2 := set_active _ s1) in *. rewrite run_co_bind, run_atomic.
  destruct (on_manager_ok brokers count (register_broker id host port) s2
    (register_broker_calls brokers Hcf count Hcount id host port Hin Hne) Hs2) as [Hs3 _].
  destruct (register_broker_ok brokers Hcf (manager s) id host port) as (m & Em & _ & _ & Hn & _);
    [apply (sv_good _ _ _ Hs)|done|].
  assert (on_manager (register_broker id host port) s2 = (Ok (mkBrokerNode id host port),
    mkServer m (active_brokers s2) (links s2) (is_leader s2) (election_lock s2))) as E.
  { unfold on_manager, zoom. change (manager s2) with (manager s). by rewrite Em. }
  rewrite E in *. cbn [snd] in Hs3. set (s3 := mkServer m _ _ _ _) in *. cbv iota. exists s3.
  split_and!; [done..|cbn; rewrite Hn; apply lookup_insert_eq|]. cbv zeta.
  rewrite run_co_bind, run_atomic, (current_list_run brokers count) by done. cbv iota.
  assert (up s3 i = true) as Hu.
  { unfold up. change (links s3) with (alter (set_broker id) i (links s)). by rewrite lookup_alter_eq, Hi. }
  rewrite run_co_bind, send_response_run by done. by destruct (encode_response _).
Qed.

(** A broker that registers over a connection that takes writes is served: unless its
    data, or what is stored, cannot be encoded, it is among the active brokers with the
    address it gave, its node is in the storage, the list of all topics is the first
    thing written to its connection after what was there, with the identifier of its
    request, and the list it was sent last is the current one.  The handler does not
    run out of stack if there is room for a disconnection per active broker. *)
Theorem registration_served depth now i l broker hdr id host port s :
  server_ok s → allowed brokers (RegisterBroker id host port) →
  (length (active_brokers s) + 1 < depth)%nat → links s !! i = Some l → link_open l = true →
  ∃ r s', run (handle_command depth now i broker (mkPacket hdr (BrokerRegisterCommand id host port))) s = (r, s') ∧
    r ≠ Raise RuntimeError ∧
    (r = Ok tt →
       let a := mkActiveBroker i now host port in
       dict_get (active_brokers s') id = Some a ∧ told s' a ∧
       nodes s' !! id = Some (mkBrokerNode id host port) ∧
       (∃ l' metas, links s' !! i = Some l' ∧
          answers l ++ [mkPacket hdr (TopicMetaDataListResponse metas)] `prefix_of` answers l')).
Proof.
  intros Hs Hal Hl Hi Ho.
  destruct (register_run depth now i l broker hdr id host port s Hs Hal Hi Ho)
    as (s3 & Hs3 & Eact & Elinks & Hnode & ->).
  set (a := mkActiveBroker i now host port) in *. set (answer := mkPacket hdr _).
  destruct (encode_response answer) as [fr|e] eqn:Ee.
  2: { exists (Raise e), s3. split; [done|]. split; [|done]. intros [= ->]. by apply no_overflow_list in Ee. }
  set (s4 := (update_link i _ s3).2).
  assert (server_ok s4) as Hs4.
  { apply answer_ok; [done|]. destruct (metadata_list_ok brokers count s3 Hs3) as (x & Ex & Hp).
    rewrite (current_list_run brokers count) in Ex by done. by injection Ex as <-. }
  assert (active_brokers s4 = dict_set (active_brokers s) id a) as Eact4 by done.
  assert (dict_get (active_brokers s4) id = Some a) as Ha by (rewrite Eact4; apply dict_get_set_eq).
  assert (length (active_brokers s4) < depth)%nat as Hd.
  { pose proof (dict_set_length (active_brokers s) id a). rewrite Eact4. lia. }
  destruct (broadcast_run brokers count depth _ s4 (disconnect_run brokers Hcf count Hcount depth) Hs4 Hd)
    as (Hr & Hsh & Hinf).
  destruct (srv_run_ok brokers count (broadcast_metadata depth) s4) as [_ Hlater];
    [apply prompt_broadcast; intros; apply prompt_disconnect|done
    |intros Q HQ; by apply (broadcast_metadata_wp brokers Hcf count Hcount)|].
  unfold broadcast_metadata in *. destruct (run _ s4) as [r s'] eqn:Er. cbn [fst snd] in *.
  exists r, s'. split; [done|]. split; [done|]. intros Hok.
  assert (links s4 !! i = Some (write_answer answer (set_broker id l))) as Hi4.
  { unfold s4. cbn. rewrite lookup_alter_eq, Elinks, lookup_alter_eq, Hi. done. }
  assert (dict_get (active_brokers s') id = Some a) as Ha'.
  { apply (sh_kept _ _ _ Hsh); [done| |auto]. unfold up. change (ab_link a) with i. rewrite Hi4. cbn. unfold write_answer. cbn. by rewrite Ho. }
  split; [done|]. split; [by apply (Hinf Hok id)|]. split.
  - rewrite (sh_stay _ _ _ Hsh); [done|]. intros [_ ?]. congruence.
  - destruct (lt_links _ _ Hlater i _ Hi4) as (l' & Hl' & Hp & _). exists l', (current_list s3). split; [done|].
    unfold write_answer in Hp. cbn [set_broker link_open answers] in Hp. by rewrite Ho in Hp.
Qed.

(** A broker that has registered again is thrown out when its old connection ends.
    The connection that ends is not the one the broker is active on, but the controller
    only looks at its name: the broker is no longer active, its node is gone from the
    storage, and the connection it was using is closed. *)
Theorem reregistered_kicked depth now i l id a s :
  server_ok s → (length (active_brokers s) < depth)%nat →
  links s !! i = Some l → link_broker l = Some id → dict_get (active_brokers s) id = Some a →
  ab_link a ≠ i →
  ∃ r s', run (connection_round depth now i Disconnected) s = (r, s') ∧ r ≠ Raise RuntimeError ∧
    dict_get (active_brokers s') id = None ∧ nodes s' !! id = None ∧ up s' (ab_link a) = false.
Proof.
  intros Hs Hl Hi Hb Ha _. destruct (sv_named _ _ _ Hs id a Ha) as [_ Hne].
  unfold connection_round, end_connection.
  rewrite run_co_bind, run_atomic. run. rewrite Hi. cbn [or_raise]. cbv iota.
  rewrite run_update, run_co_bind, run_atomic. run. cbn [links update_link modify snd set_links].
  rewrite lookup_alter_eq, Hi. cbn [fmap option_fmap option_map or_raise]. cbv iota. rewrite run_update.
  cbn [set_phase link_broker]. rewrite Hb. destruct id as [|c id]; [done|].
  set (s1 := (update_link i (set_phase Ended) _).2).
  assert (server_ok s1) as Hs1 by (repeat (apply plain_link_ok; [|done..]); done).
  destruct (disconnect_run brokers Hcf count Hcount depth (c :: id) s1 Hs1 Hl) as (_ & Hr & Hsh & Hg & Hd).
  change (active_brokers s1) with (active_brokers s) in Hd. rewrite Ha in Hd.
  destruct (run _ s1) as [r s'] eqn:E. cbn [fst snd] in *. exists r, s'. split; [done|]. split; [done|].
  split; [done|]. split; [|apply Hd]. apply (sh_gone _ _ _ Hsh). split; [by exists a|done].
Qed.
End theorems.

(** ** A sample controller, with the storage in memory *)

Definition Sched : Type := list (Co (Server MetastoreStorage.Storage) unit) * Server MetastoreStorage.Storage.

Inductive move :=
| Accept (i : nat)
| Receive (i : nat) (cmd : Command)
| Eof (i : nat)
| Resume (j : nat)
| Check_heartbeats (now : Z)
| Lose (i : nat).

Definition frame (cmd : Command) : bytes :=
  match encode_command (packet cmd) false with Ok f => drop 4 (ef_header f) | Raise _ => [] end.

Definition sample_task (m : move) : option (Co (Server MetastoreStorage.Storage) unit) :=
  match m with
  | Accept i => Some (accept (Ok None) i)
  | Receive i cmd => Some (connection_round 20 0 i (Frame (frame cmd)))
  | Eof i => Some (connection_round 20 0 i Disconnected)
  | Check_heartbeats now => Some (heartbeat_round 20 now 15)
  | Resume _ | Lose _ => None
  end.

Definition play (x : Sched) (m : move) : Sched :=
  let '(ts, s) := x in
  match m with
  | Lose i => (ts, (update_link i close_link s).2)
  | Resume j =>
      match ts !! j with
      | Some (Await ready k) => if ready s then (<[j := (resume k s).1]> ts, (resume k s).2) else x
      | _ => x
      end
  | _ => match sample_task m with
         | Some c => (ts ++ [(resume c s).1], (resume c s).2)
         | None => x
         end
  end.

(** A move that the event loop can make. *)
Definition fair (x : Sched) (m : move) : bool :=
  match m with
  | Accept i => bool_decide (links x.2 !! i = None)
  | Receive i cmd =>
      bool_decide (link_phase <$> links x.2 !! i = Some Reading) &&
      match parse_command (frame cmd) false with
      | Ok p => match call_of (body p) with
                | Some c => bool_decide (allowed three_brokers c)
                | None => true
                end
      | Raise _ => true
      end
  | Eof i => bool_decide (link_phase <$> links x.2 !! i = Some Reading)
  | _ => true
  end.

Abbreviation sample_run := (server_run three_brokers).

Lemma phase_link s i : link_phase <$> links s !! i = Some Reading →
  ∃ l, links (S := MetastoreStorage.Storage) s !! i = Some l ∧ link_phase l = Reading.
Proof. destruct (links s !! i) as [l|] eqn:E; [|done]. intros [= Hl]. by exists l. Qed.

Lemma srv_play_ok x y m : fair y m = true → sample_run x y → sample_run x (play y m).
Proof.
  intros Hf Hx. etrans; [exact Hx|]. destruct y as [ts s], m as [i|i cmd|i|j|now|i]; cbn -[connection_round heartbeat_round] in *.
  - apply bool_decide_eq_true in Hf. eapply rtc_once, sched_spawn; [by apply task_accept|]. apply surjective_pairing.
  - apply andb_true_iff in Hf as [Hp%bool_decide_eq_true Hc]. apply phase_link in Hp as (l & Hl & Hp).
    eapply rtc_once, sched_spawn; [|apply surjective_pairing]. eapply task_round; [done..|].
    intros cmd' (data & p & [= <-] & E & <-) c Ec. rewrite E, Ec in Hc. by apply bool_decide_eq_true in Hc.
  - apply bool_decide_eq_true, phase_link in Hf as (l & Hl & Hp).
    eapply rtc_once, sched_spawn; [|apply surjective_pairing]. eapply task_round; [done..|].
    intros cmd' (data & p & [=] & _).
  - destruct (ts !! j) as [[r|? m k|ready k]|] eqn:Hj; try reflexivity.
    destruct (ready s) eqn:Hr; [|reflexivity].
    eapply rtc_once, sched_resume; [exact Hj|exact Hr|]. apply surjective_pairing.
  - eapply rtc_once, sched_spawn; [|apply surjective_pairing]. apply task_heartbeat.
  - apply rtc_once, sched_env, event_lost.
Qed.

(** All moves are fair. *)
Fixpoint fair_all (x : Sched) (l : list move) : bool :=
  match l with [] => true | m :: l => fair x m && fair_all (play x m) l end.

Lemma srv_play_all_ok x y l : fair_all y l = true → sample_run x y → sample_run x (fold_left play l y).
Proof.
  revert y. induction l as [|m l IH]; intros y; cbn [fair_all fold_left]; [done|].
  intros [Hm Hl]%andb_true_iff Hx. by apply IH, srv_play_ok.
Qed.

Definition x0 : Sched := ([], new_server 2 MetastoreStorage.new_storage).

(** Two brokers register, each over its connection. *)
Definition joining : list move :=
  [Accept 0; Receive 0 (BrokerRegisterCommand b1 localhost 9092); Resume 1; Resume 1;
   Accept 1; Receive 1 (BrokerRegisterCommand b2 localhost 9093); Resume 3; Resume 3; Resume 3].
Definition joined : Sched := fold_left play joining x0.

Definition topics_made : Sched :=
  fold_left play [Receive 0 (RegisterTopicCommand orders); Resume 4; Resume 4; Resume 4] joined.
(** The first broker registers again over a third connection. *)
Definition rejoined : Sched :=
  fold_left play [Accept 2; Receive 2 (BrokerRegisterCommand b1 localhost 9092);
                  Resume 6; Resume 6; Resume 6; Resume 6] topics_made.

Lemma rejoined_run : sample_run x0 rejoined.
Proof.
  unfold rejoined. apply srv_play_all_ok; [vm_compute; reflexivity|].
  unfold topics_made. apply srv_play_all_ok; [vm_compute; reflexivity|].
  unfold joined. apply srv_play_all_ok; [vm_compute; reflexivity|reflexivity].
Qed.

Lemma srv_reached_ok x : sample_run x0 x → server_ok three_brokers 2 x.2.
Proof.
  destruct x as [ts s]. intros Hrun.
  destruct (srv_started_ok three_brokers 2 three_collision_free one_le_two _ ts s new_storage_empty Hrun) as [Hs _].
  exact Hs.
Qed.

(** The controller as it is then. *)
Definition the_server : Server MetastoreStorage.Storage := Eval vm_compute in rejoined.2.
Lemma rejoined_server : rejoined.2 = the_server.
Proof. vm_compute. reflexivity. Qed.

Lemma rejoined_ok : server_ok three_brokers 2 the_server.
Proof. rewrite <-rejoined_server. exact (srv_reached_ok _ rejoined_run). Qed.

Lemma rejoined_active :
  dict_get (active_brokers the_server) b1 = Some (mkActiveBroker 2 0 localhost 9092) ∧
  dict_get (active_brokers the_server) b2 = Some (mkActiveBroker 1 0 localhost 9093) ∧
  length (active_brokers the_server) = 2%nat ∧ up the_server 1 = true ∧ up the_server 2 = true ∧
  (link_broker <$> links the_server !! 0%nat) = Some (Some b1).
Proof. split_and!; vm_compute; reflexivity. Qed.

Lemma orders_there : is_Some (topics (manager the_server) !! orders).
Proof. eexists. vm_compute. reflexivity. Qed.

Lemma controller_places_topics_witness :
  (∃ t, topics (manager the_server) !! orders = Some t ∧ decided 2 (manager the_server) t) ∧
  ∀ x l, links the_server !! 1%nat = Some l → x ∈ mentioned (default (packet ControllerPingResponse) (last (answers l))) →
    ∃ m t, reached 2 m ∧ happened m (manager the_server) ∧ decided 2 m t ∧ x = response_of m t.
Proof.
  destruct (controller_places_topics three_brokers 2 MetastoreStorage.new_storage rejoined.1 the_server
    three_collision_free one_le_two new_storage_empty) as (Ht & Htold & _).
  - rewrite <-rejoined_server, <-surjective_pairing. exact rejoined_run.
  - split.
    + destruct orders_there as [m E]. exists m. split; [exact E|]. exact (proj2 (Ht orders m E)).
    + intros x l Hl Hx. destruct (last (answers l)) as [resp|] eqn:E; [|destruct (not_elem_of_nil _ Hx)].
      exact (Htold 1%nat l resp x Hl (last_Some_elem_of _ _ E) Hx).
Defined.

(** The connection of the second broker breaks. *)
Definition broken : Server MetastoreStorage.Storage := (update_link 1 close_link the_server).2.

Lemma broken_ok : server_ok three_brokers 2 broken.
Proof.
  pose proof (srv_reached_ok _ (srv_play_ok _ _ (Lose 1) eq_refl rejoined_run)) as Hok.
  unfold broken. rewrite <-rejoined_server. destruct rejoined as [ts s]. exact Hok.
Qed.

Lemma broken_broadcast : (run (broadcast_metadata 3) broken).1 = Ok tt.
Proof. vm_compute. reflexivity. Qed.

Lemma broadcast_informs_witness :
  ∃ s', (run (broadcast_metadata 3) broken) = (Ok tt, s') ∧
    told s' (mkActiveBroker 2 0 localhost 9092) ∧ dict_get (active_brokers s') b2 = None ∧
    st_nodes (storage (manager s')) !! b2 = None.
Proof.
  assert (length (active_brokers broken) < 3)%nat as Hl by (apply (bool_decide_unpack _); vm_compute; exact I).
  destruct (broadcast_informs three_brokers 2 three_collision_free one_le_two 3 broken broken_ok Hl)
    as (r & s' & E & _ & Hall).
  pose proof broken_broadcast as Hr. rewrite E in Hr. cbn in Hr. subst r. specialize (Hall eq_refl).
  exists s'. split; [exact E|]. pose proof (Hall b1) as H1. pose proof (Hall b2) as H2.
  assert (dict_get (active_brokers broken) b1 = Some (mkActiveBroker 2 0 localhost 9092)) as E1
    by (vm_compute; reflexivity).
  assert (dict_get (active_brokers broken) b2 = Some (mkActiveBroker 1 0 localhost 9093)) as E2
    by (vm_compute; reflexivity).
  rewrite E1 in H1. rewrite E2 in H2.
  assert (up broken 2 = true) as U2 by (vm_compute; reflexivity).
  assert (up broken 1 = false) as U1 by (vm_compute; reflexivity).
  cbn [ab_link] in H1, H2. rewrite U2 in H1. rewrite U1 in H2.
  split; [exact (proj1 (proj2 H1))|]. exact H2.
Defined.

Lemma rejoined_heartbeat : (run (heartbeat_round 3 20 15) the_server).1 = Ok tt.
Proof. vm_compute. reflexivity. Qed.

Lemma heartbeat_correct_witness :
  ∃ s', run (heartbeat_round 3 20 15) the_server = (Ok tt, s') ∧
    dict_get (active_brokers s') b1 = None ∧ st_nodes (storage (manager s')) !! b1 = None.
Proof.
  assert (length (active_brokers the_server) < 3)%nat as Hl by (apply (bool_decide_unpack _); vm_compute; exact I).
  destruct (heartbeat_correct three_brokers 2 three_collision_free one_le_two 3 20 15 the_server rejoined_ok Hl)
    as (r & s' & E & _ & Hall & _).
  pose proof rejoined_heartbeat as Hr. rewrite E in Hr. cbn in Hr. subst r. destruct (Hall eq_refl) as [H1 H2].
  exists s'. split; [exact E|].
  assert (dict_get (active_brokers s') b1 = None) as Hn.
  { destruct (dict_get (active_brokers s') b1) as [a|] eqn:Ea; [|reflexivity].
    destruct (H1 b1 a Ea) as (Ha & Hh & _). rewrite (proj1 rejoined_active) in Ha. injection Ha as <-.
    cbn in Hh. lia. }
  split; [exact Hn|]. apply H2; [|exact Hn]. rewrite (proj1 rejoined_active). eexists. reflexivity.
Defined.

Definition accepted : Sched := play x0 (Accept 0).

Lemma accepted_ok : server_ok three_brokers 2 accepted.2.
Proof. exact (srv_reached_ok _ (srv_play_ok x0 x0 (Accept 0) eq_refl (rtc_refl _ _))). Qed.

Lemma registration_served_witness :
  ∃ r s', run (handle_command 20 7 0 None (packet (BrokerRegisterCommand b1 localhost 9092))) accepted.2 = (r, s') ∧
    r = Ok tt ∧ dict_get (active_brokers s') b1 = Some (mkActiveBroker 0 7 localhost 9092) ∧
    st_nodes (storage (manager s')) !! b1 = Some (mkBrokerNode b1 localhost 9092).
Proof.
  assert (allowed three_brokers (RegisterBroker b1 localhost 9092)) as Ha.
  { split; [exact (proj1 brokers_in)|discriminate]. }
  destruct (registration_served three_brokers 2 three_collision_free one_le_two 20 7 0 new_link None None
    b1 localhost 9092 accepted.2 accepted_ok Ha) as (r & s' & E & _ & Hall).
  - apply (bool_decide_unpack _). vm_compute. exact I.
  - vm_compute. reflexivity.
  - reflexivity.
  - assert (r = Ok tt) as ->.
    { change r with (r, s').1. rewrite <-E. vm_compute. reflexivity. }
    destruct (Hall eq_refl) as (H1 & _ & H3 & _). exists (Ok tt), s'.
    split; [exact E|]. split; [reflexivity|]. split; [exact H1|exact H3].
Defined.

Lemma reregistered_kicked_witness :
  ∃ r s', run (connection_round 20 0 0 Disconnected) the_server = (r, s') ∧
    dict_get (active_brokers s') b1 = None ∧ st_nodes (storage (manager s')) !! b1 = None ∧ up s' 2 = false.
Proof.
  destruct rejoined_active as (H1 & _ & Hlen & _ & _ & Hb).
  destruct (links the_server !! 0%nat) as [l|] eqn:El; [|discriminate Hb]. injection Hb as Hb.
  destruct (reregistered_kicked three_brokers 2 three_collision_free one_le_two 20 0 0 l b1
    (mkActiveBroker 2 0 localhost 9092) the_server rejoined_ok) as (r & s' & E & _ & H).
  - rewrite Hlen. apply (bool_decide_unpack _). vm_compute. exact I.
  - exact El.
  - exact Hb.
  - exact H1.
  - discriminate.
  - exists r, s'. split; [exact E|exact H].
Defined.

Import MetastoreManager.

(** Everything has run to its end. *)
Definition quiet (x : Sched) : bool :=
  forallb (λ c, match c with Done (Ok _) => true | _ => false end) x.1.

Definition audit : list Z := py "audit".

(** Each broker registers a topic; the broadcast of the first registration waits until
    its first broker takes the data, that of the second one overtakes it. *)
Definition overtaking : list move :=
  [Receive 0 (RegisterTopicCommand orders); Resume 4;
   Receive 1 (RegisterTopicCommand audit); Resume 5; Resume 5; Resume 5;
   Resume 4; Resume 4].
Definition overtaken : Sched := fold_left play overtaking joined.

(** The second broker, as the controller's lists make it. *)
#[local] Existing Instance LogApi.log_api.
#[local] Instance sample_append : LogApi.LogAppend Log.Log := LogApi.log_append LogTheorems.sample_config.
Definition second_broker : Replicas.Replication Log.Log :=
  Replicas.new_replication (Replicas.mkReplicaConfig b2 512 1 2 10000) LogTheorems.log3.
Definition follow (b : Replicas.Replication Log.Log) (resp : Packet Response) : Replicas.Replication Log.Log :=
  match body resp with
  | TopicMetaDataListResponse metas =>
      (run (Replicas.apply_metadata_list ReplicasTheorems.reachable metas) b).2
  | _ => b
  end.

Lemma overtaken_run : sample_run x0 overtaken.
Proof.
  unfold overtaken. apply srv_play_all_ok; [vm_compute; reflexivity|].
  unfold joined. apply srv_play_all_ok; [vm_compute; reflexivity|reflexivity].
Qed.

(** The controller as it is then. *)
Definition outcome : Server MetastoreStorage.Storage := Eval vm_compute in overtaken.2.
Lemma overtaken_outcome : overtaken.2 = outcome.
Proof. vm_compute. reflexivity. Qed.

Definition the_link : Link := default new_link (links outcome !! 1%nat).

(** A broadcast that waits for a slow broker goes on with the list it began with.  In
    this run, on a controller whose storage was empty, two brokers register and each
    of them registers a topic; the broadcast for the first topic is still waiting when
    the one for the second topic begins and ends.  When everything has run to its end,
    without any error, the second broker leads the second topic according to the
    controller, but the last list on its connection is the one without that topic, and
    a broker that applies the lists in the order in which they arrive has dropped it. *)
Theorem stale_broadcast :
  sample_run x0 overtaken ∧ quiet overtaken = true ∧ overtaken.2 = outcome ∧
  (leader_id <$> st_topics (storage (manager outcome)) !! audit) = Some b2 ∧
  links outcome !! 1%nat = Some the_link ∧ link_broker the_link = Some b2 ∧
  (∃ metas, last (answers the_link) = Some (packet (TopicMetaDataListResponse metas)) ∧ audit ∉ tm_topic <$> metas) ∧
  is_Some (dict_get (Replicas.topics (Replicas.manager (fold_left follow (removelast (answers the_link)) second_broker))) audit) ∧
  dict_get (Replicas.topics (Replicas.manager (fold_left follow (answers the_link) second_broker))) audit = None.
Proof.
  split; [exact overtaken_run|]. split; [vm_compute; reflexivity|]. split; [exact overtaken_outcome|].
  split; [vm_compute; reflexivity|]. split; [vm_compute; reflexivity|]. split; [vm_compute; reflexivity|].
  split; [|split; [eexists; vm_compute; reflexivity|vm_compute; reflexivity]].
  eexists. split; [vm_compute; reflexivity|]. apply (bool_decide_unpack _). vm_compute. exact I.
Qed.
