(* ===== verification/ControllerConnection.v ===== *)
(** * [network/controller.py]

    The connection of a broker to the controller: it is found, kept, and found again.
    What the network does is in the state: [dials] says how the next attempts to
    connect end, and a socket holds what has arrived on it.  A coroutine that could
    go round without ever suspending gets a number of rounds, and sets [hung] when
    it has used them up; other loops just stop after their number of rounds.
    [self._lock] and [self._reconnect_lock] are only held where nobody else can
    want them. *)
From Stdlib Require Import String.
From S2P Require Import Prelude Coroutine PyData PyDict Messages Framer Encoder Parser Segment Log LogApi Leader Replicas.

Record ControllerAddress := mkControllerAddress {
  controller_id : pystr;
  host : pystr;
  port : Z }.

Record ConnectionConfig := mkConnectionConfig {
  own_host : pystr;
  own_port : Z;
  controller_list : list ControllerAddress }.

(** Both directions of a connection: whether writes go through, the commands written,
    the bytes that have arrived and are not read, whether the other end has closed
    it, and the error of the transport. *)
Record Socket := mkSocket {
  writable : bool;
  sent : list (Packet Command);
  inbox : bytes;
  at_eof : bool;
  failure : option exn }.

Definition set_inbox (data : bytes) (sk : Socket) : Socket :=
  mkSocket (writable sk) (sent sk) data (at_eof sk) (failure sk).
Definition add_sent (cmd : Packet Command) (sk : Socket) : Socket :=
  mkSocket (writable sk) (sent sk ++ [cmd]) (inbox sk) (at_eof sk) (failure sk).

Record Flags := mkFlags {
  connected : bool;
  reconnecting : bool;
  connection_id : Z;
  conn_status_event : bool;
  conn_disconnect_event : bool }.

(** [expected] has the correlation identifier for which each future was created; a
    future that is not done is not in [read_results]. *)
Record ControllerConnection (S : Type) := mkConnection {
  conn_config : ConnectionConfig;
  replica_manager : Replication S;
  flags : Flags;
  pending_reads : list (list Z * nat);
  expected : list (list Z);
  read_results : gmap nat (result (Packet Response));
  sockets : list Socket;
  stream : option nat;
  dials : list (result Socket);
  dialed : list ControllerAddress;
  reports_isr : bool;
  hung : bool }.
Arguments mkConnection {S}.
Arguments conn_config {S}.
Arguments replica_manager {S}.
Arguments flags {S}.
Arguments pending_reads {S}.
Arguments expected {S}.
Arguments read_results {S}.
Arguments sockets {S}.
Arguments stream {S}.
Arguments dials {S}.
Arguments dialed {S}.
Arguments reports_isr {S}.
Arguments hung {S}.

Definition new_flags : Flags := mkFlags false false 0 false false.
Definition new_connection {S} (c : ConnectionConfig) (r : Replication S) (network : list (result Socket)) :
    ControllerConnection S :=
  mkConnection c r new_flags [] [] ∅ [] None network [] false false.

Definition set_disconnected (b : bool) (f : Flags) : Flags :=
  mkFlags (connected f) (reconnecting f) (connection_id f) (conn_status_event f) b.
(** The flags while a new connection is looked for, and when it has been found. *)
Definition lost_flags (f : Flags) : Flags :=
  mkFlags (connected f) true (connection_id f) false false.
Definition found_flags (f : Flags) : Flags :=
  mkFlags true false (connection_id f + 1) true (conn_disconnect_event f).
Definition started_flags (f : Flags) : Flags :=
  mkFlags true (reconnecting f) (connection_id f) true false.

(** What a call to [_try_controller] returns. *)
Inductive trial := Accepted (k : nat) | NotLeader (leader_id leader_host : pystr) (leader_port : Z) | NoAnswer.

(** [except (ConnectionError, BrokenPipeError, ConnectionResetError, OSError)] *)
Definition is_OSError (e : exn) : bool :=
  match e with ConnectionError | TimeoutError | OSError => true | _ => false end.

Section connection.
Context {S : Type} `{LogApi S} `{LogAppend S}.
Context (open_replica : pystr → Z → result unit).
Abbreviation Conn := (ControllerConnection S).

Definition set_replicas (r : Replication S) (x : Conn) : Conn :=
  mkConnection (conn_config x) r (flags x) (pending_reads x) (expected x) (read_results x) (sockets x)
    (stream x) (dials x) (dialed x) (reports_isr x) (hung x).
Definition set_flags (f : Flags) (x : Conn) : Conn :=
  mkConnection (conn_config x) (replica_manager x) f (pending_reads x) (expected x) (read_results x) (sockets x)
    (stream x) (dials x) (dialed x) (reports_isr x) (hung x).
Definition set_pending (d : list (list Z * nat)) (l : list (list Z)) (m : gmap nat (result (Packet Response))) (x : Conn) : Conn :=
  mkConnection (conn_config x) (replica_manager x) (flags x) d l m (sockets x)
    (stream x) (dials x) (dialed x) (reports_isr x) (hung x).
Definition set_sockets (l : list Socket) (x : Conn) : Conn :=
  mkConnection (conn_config x) (replica_manager x) (flags x) (pending_reads x) (expected x) (read_results x) l
    (stream x) (dials x) (dialed x) (reports_isr x) (hung x).
Definition set_stream (k : nat) (x : Conn) : Conn :=
  mkConnection (conn_config x) (replica_manager x) (flags x) (pending_reads x) (expected x) (read_results x) (sockets x)
    (Some k) (dials x) (dialed x) (reports_isr x) (hung x).
Definition set_dials (l : list (result Socket)) (c : list ControllerAddress) (x : Conn) : Conn :=
  mkConnection (conn_config x) (replica_manager x) (flags x) (pending_reads x) (expected x) (read_results x) (sockets x)
    (stream x) l c (reports_isr x) (hung x).
Definition set_reports (x : Conn) : Conn :=
  mkConnection (conn_config x) (replica_manager x) (flags x) (pending_reads x) (expected x) (read_results x) (sockets x)
    (stream x) (dials x) (dialed x) true (hung x).
Definition set_hung (x : Conn) : Conn :=
  mkConnection (conn_config x) (replica_manager x) (flags x) (pending_reads x) (expected x) (read_results x) (sockets x)
    (stream x) (dials x) (dialed x) (reports_isr x) true.

Definition change_flags (f : Flags → Flags) : M Conn unit := modify (λ x, set_flags (f (flags x)) x).

(** The rounds are used up. *)
Definition forever {A} : Co Conn A := Await (λ _, false) (Done (Raise RuntimeError)).
Definition spin {A} : Co Conn A := atomic (modify set_hung);; forever.

(** [Event.wait] of an event that is set does not suspend. *)
Definition wait_event (event : Flags → bool) : Co Conn unit :=
  b ← atomic (reads (λ x, Ok (event (flags x))));
  if (b : bool) then mret tt else Await (λ x, event (flags x)) (mret tt).

(** ** Sockets *)

Definition get_socket (k : nat) : M Conn Socket := reads (λ x, or_raise (sockets x !! k) AttributeError).
Definition put_socket (k : nat) (sk : Socket) : M Conn unit :=
  modify (λ x, set_sockets (<[k := sk]> (sockets x)) x).

(** [asyncio.open_connection]; an attempt that nothing answers runs into the timeout
    of the caller. *)
Definition open_connection (c : ControllerAddress) : Co Conn nat :=
  pause;;
  atomic (
    x ← get;
    match dials x with
    | [] => put (set_dials [] (dialed x ++ [c]) x);; raise TimeoutError
    | Raise e :: network => put (set_dials network (dialed x ++ [c]) x);; raise e
    | Ok sk :: network =>
        put (set_sockets (sockets x ++ [sk]) (set_dials network (dialed x ++ [c]) x));;
        mret (length (sockets x))
    end).

Definition write (k : nat) (cmd : Packet Command) : M Conn unit :=
  lift (encode_command cmd true);;
  sk ← get_socket k;
  if writable sk then put_socket k (add_sent cmd sk) else mret tt.

Definition drain (k : nat) : Co Conn unit :=
  pause;;
  atomic (sk ← get_socket k; if writable sk then mret tt else raise ConnectionError).

(** [reader.readexactly(n)]; a caller with a timeout ([impatient]) does not wait for
    more to arrive. *)
Definition readable (k : nat) (n : Z) (x : Conn) : bool :=
  match sockets x !! k with
  | Some sk => (n <=? zlen (inbox sk)) || at_eof sk || bool_decide (failure sk ≠ None)
  | None => true
  end.
Definition read_bytes (k : nat) (n : Z) : M Conn bytes :=
  sk ← get_socket k;
  match failure sk with
  | Some e => raise e
  | None =>
      match readexactly n (inbox sk) with
      | Ok (data, rest) => put_socket k (set_inbox rest sk);; mret data
      | Raise e =>
          if at_eof sk
          then put_socket k (set_inbox [] sk);; raise e
          else raise TimeoutError
      end
  end.
Definition read_socket (impatient : bool) (k : nat) (n : Z) : Co Conn bytes :=
  Await (λ x, impatient || readable k n x) (mret tt);;
  atomic (read_bytes k n).

Definition _read_response (impatient : bool) (k : nat) : Co Conn (option (Packet Response)) :=
  len_data ← read_socket impatient k (Z.of_nat PREFIX_SIZE);
  data ← read_socket impatient k (decode_length len_data);
  if bool_decide (data = []) then mret None else
  co_catch (
    resp ← atomic (lift (parse_response data));
    match body resp with
    | TopicMetaDataListHeaderResponse payload_length =>
        meta_list ← (if payload_length >? 0
                     then payload_data ← read_socket impatient k payload_length;
                          atomic (lift (parse_metadata_list_payload payload_data))
                     else mret []);
        mret (Some (mkPacket (header resp) (TopicMetaDataListResponse meta_list)))
    | _ => mret (Some resp)
    end)
    (λ e, if is_ValueError e then Some (mret None) else None).

(** ** Looking for the leader *)

Definition apply_metadata (meta : TopicMeta) : Co Conn unit :=
  co_zoom replica_manager set_replicas (Replicas.apply_metadata open_replica meta).
Definition apply_metadata_list (metas : list TopicMeta) : Co Conn unit :=
  co_zoom replica_manager set_replicas (Replicas.apply_metadata_list open_replica metas).

Definition register_command (x : Conn) : Packet Command :=
  packet (BrokerRegisterCommand (broker_id (manager (replica_manager x)))
            (own_host (conn_config x)) (own_port (conn_config x))).

Definition _connect (c : ControllerAddress) : Co Conn nat :=
  k ← open_connection c;
  atomic (x ← get; write k (register_command x));;
  drain k;;
  mret k.

Definition _try_controller (c : ControllerAddress) : Co Conn trial :=
  co_catch (
    k ← _connect c;
    resp ← _read_response true k;
    match body <$> resp with
    | Some (NotLeaderControllerResponse leader_id leader_host leader_port) =>
        mret (NotLeader leader_id leader_host leader_port)
    | Some (TopicMetaDataListResponse metas) => apply_metadata_list metas;; mret (Accepted k)
    | _ => mret (Accepted k)
    end)
    (λ e, if is_OSError e then Some (mret NoAnswer) else None).

(** The address that a controller refers to. *)
Definition leader_hint (leader_id leader_host : pystr) (leader_port : Z) : option ControllerAddress :=
  if bool_decide (leader_id ≠ []) && bool_decide (leader_host ≠ py "0.0.0.0") && negb (leader_port =? 0)
  then Some (mkControllerAddress leader_id leader_host leader_port) else None.

(** [_connect_loop]: at the top with a hint or without, or at the controllers [todo]
    of the list. *)
Fixpoint _connect_loop (fuel : nat) (hint : option ControllerAddress) (todo : list ControllerAddress) :
    Co Conn nat :=
  match fuel with
  | O => forever
  | Datatypes.S fuel =>
      all ← atomic (reads (λ x, Ok (controller_list (conn_config x))));
      match hint, todo with
      | Some c, _ =>
          result ← _try_controller c;
          match result with
          | Accepted k => mret k
          | NotLeader leader_id leader_host leader_port =>
              _connect_loop fuel (leader_hint leader_id leader_host leader_port) all
          | NoAnswer => _connect_loop fuel None all
          end
      | None, [] => pause;; _connect_loop fuel None all
      | None, c :: todo =>
          result ← _try_controller c;
          match result with
          | Accepted k => mret k
          | NotLeader leader_id leader_host leader_port =>
              match leader_hint leader_id leader_host leader_port with
              | Some hint => pause;; _connect_loop fuel (Some hint) all
              | None => _connect_loop fuel None todo
              end
          | NoAnswer => _connect_loop fuel None todo
          end
      end
  end.

(** ** Waiting for the connection *)

Definition usable (stale_id : Z) (f : Flags) : bool :=
  connected f && negb (reconnecting f) && (stale_id <? connection_id f).

(** The [while True] of [_wait_for_connection]. *)
Fixpoint wait_usable (fuel : nat) (stale_id : Z) : Co Conn unit :=
  match fuel with
  | O => spin
  | Datatypes.S fuel =>
      wait_event conn_status_event;;
      b ← atomic (reads (λ x, Ok (usable stale_id (flags x))));
      if (b : bool) then mret tt else wait_usable fuel stale_id
  end.

Definition _wait_for_connection (fuel : nat) (stale_id : Z) : Co Conn unit :=
  f ← atomic (reads (λ x, Ok (flags x)));
  if negb (connected f) then Done (Raise RuntimeError)
  else if usable stale_id f then mret tt
  else wait_usable fuel stale_id.

Definition _handle_disconnect (fuel : nat) : Co Conn unit :=
  f ← atomic (reads (λ x, Ok (flags x)));
  if negb (connected f) then mret tt
  else
    atomic (change_flags (set_disconnected true));;
    _wait_for_connection fuel (connection_id f).

(** ** Commands *)

(** [uuid] is what [uuid4] returns. *)
Definition with_correlation (uuid : pystr) (await_response : bool) (cmd : Packet Command) : Packet Command :=
  match header cmd with
  | None => if await_response then mkPacket (Some (mkPacketHeader uuid)) (body cmd) else cmd
  | Some _ => cmd
  end.

(** [create_future], entered in [_pending_reads]. *)
Definition expect_response (correlation_id : pystr) : M Conn nat :=
  x ← get;
  put (set_pending (dict_set (pending_reads x) correlation_id (length (expected x)))
         (expected x ++ [correlation_id]) (read_results x) x);;
  mret (length (expected x)).

Definition _send_command (fuel : nat) (uuid : pystr) (cmd : Packet Command) (await_response : bool) :
    Co Conn (option nat) :=
  let cmd := with_correlation uuid await_response cmd in
  _wait_for_connection fuel (-1);;
  fut ← (match header cmd with
         | Some h => if await_response then f ← atomic (expect_response (correlation_id h)); mret (Some f)
                     else mret None
         | None => mret None
         end);
  atomic (x ← get; k ← lift (or_raise (stream x) AttributeError); write k cmd);;
  k ← atomic (reads (λ x, or_raise (stream x) AttributeError));
  drain k;;
  mret fut.

(** [await fut] *)
Definition await_read (f : nat) : Co Conn (Packet Response) :=
  Await (λ x, bool_decide (is_Some (read_results x !! f))) (mret tt);;
  atomic (x ← get; lift (r ← or_raise (read_results x !! f) InvalidStateError; r)).

Fixpoint _send_command_loop (fuel : nat) (uuid : pystr) (cmd : Packet Command) (await_response : bool) :
    Co Conn (option (Packet Response)) :=
  match fuel with
  | O => forever
  | Datatypes.S fuel' =>
      done ← co_catch (
        fut ← _send_command fuel uuid cmd await_response;
        match fut with
        | None => mret (Some None)
        | Some f => resp ← await_read f; mret (Some (Some resp))
        end)
        (λ e, if is_OSError e then Some (_handle_disconnect fuel;; mret None) else None);
      match done with
      | Some resp => mret resp
      | None => _send_command_loop fuel' uuid (with_correlation uuid await_response cmd) await_response
      end
  end.

Definition register_topic (fuel : nat) (uuid topic : pystr) : Co Conn (option (Packet Response)) :=
  _send_command_loop fuel uuid (packet (RegisterTopicCommand topic)) true.
Definition update_isr (fuel : nat) (topic : pystr) (isr_list : list (list Z)) : Co Conn unit :=
  _send_command_loop fuel [] (packet (ISRChangeCommand topic isr_list)) false;; mret tt.
Definition request_metadata (fuel : nat) (uuid topic : pystr) : Co Conn (option (Packet Response)) :=
  _send_command_loop fuel uuid (packet (MetadataRequestCommand topic)) true.

(** ** The loops *)

(** [except Exception: await asyncio.sleep(1)] *)
Definition retry_later (c : Co Conn unit) : Co Conn unit := co_catch c (λ _, Some pause).

Definition fail_reads (d : list (list Z * nat)) (m : gmap nat (result (Packet Response))) :
    gmap nat (result (Packet Response)) :=
  fold_left (λ m f, match m !! f with Some _ => m | None => <[f := Raise ConnectionError]> m end)
    (dict_values d) m.

Definition forget_reads : M Conn unit :=
  modify (λ x, set_pending [] (expected x) (fail_reads (pending_reads x) (read_results x)) x).

Definition reconnect (fuel : nat) : Co Conn unit :=
  atomic (change_flags lost_flags);;
  atomic forget_reads;;
  all ← atomic (reads (λ x, Ok (controller_list (conn_config x))));
  k ← _connect_loop fuel None all;
  atomic (modify (set_stream k));;
  atomic (change_flags found_flags).

Fixpoint _connection_retry_loop (fuel : nat) : Co Conn unit :=
  match fuel with
  | O => forever
  | Datatypes.S fuel' =>
      f ← atomic (reads (λ x, Ok (flags x)));
      if negb (connected f) then mret tt
      else
        wait_event conn_disconnect_event;;
        f ← atomic (reads (λ x, Ok (flags x)));
        if negb (connected f) then mret tt
        else retry_later (reconnect fuel);; _connection_retry_loop fuel'
  end.

Fixpoint _heartbeat_loop (fuel : nat) : Co Conn unit :=
  match fuel with
  | O => forever
  | Datatypes.S fuel' =>
      f ← atomic (reads (λ x, Ok (flags x)));
      if negb (connected f) then mret tt
      else
        retry_later (
          x ← atomic get;
          _send_command_loop fuel []
            (packet (ControllerPingCommand (broker_id (manager (replica_manager x))))) false;;
          pause);;
        _heartbeat_loop fuel'
  end.

Definition _handle_unsolicited_response (fuel : nat) (resp : Response) : Co Conn unit :=
  match resp with
  | NotLeaderControllerResponse _ _ _ => _handle_disconnect fuel
  | TopicMetaDataResponse meta => apply_metadata meta
  | TopicMetaDataListResponse metas => apply_metadata_list metas
  | _ => mret tt
  end.

(** The pending read that [resp] answers, if any; an empty identifier counts as none. *)
Definition answered (resp : Packet Response) (x : Conn) : option (list Z * nat) :=
  match header resp with
  | Some h =>
      if bool_decide (correlation_id h = []) then None
      else (λ f, (correlation_id h, f)) <$> dict_get (pending_reads x) (correlation_id h)
  | None => None
  end.

Definition answer_read (correlation_id : pystr) (f : nat) (resp : Packet Response) : M Conn unit :=
  modify (λ x, set_pending (dict_del (pending_reads x) correlation_id) (expected x)
    (match read_results x !! f with Some _ => read_results x | None => <[f := Ok resp]> (read_results x) end) x).

(** One round of the reader loop. *)
Definition reader_round (fuel : nat) : Co Conn unit :=
  co_catch (
    k ← atomic (reads (λ x, or_raise (stream x) AttributeError));
    resp ← _read_response false k;
    match resp with
    | None => Done (Raise ConnectionError)
    | Some resp =>
        a ← atomic (reads (λ x, Ok (answered resp x)));
        match a with
        | Some (correlation_id, f) => atomic (answer_read correlation_id f resp)
        | None => _handle_unsolicited_response fuel (body resp)
        end
    end)
    (λ e, if is_OSError e || bool_decide (e = IncompleteReadError)
          then Some (_handle_disconnect fuel) else Some pause).

Fixpoint _reader_loop (fuel : nat) : Co Conn unit :=
  match fuel with
  | O => forever
  | Datatypes.S fuel' =>
      f ← atomic (reads (λ x, Ok (flags x)));
      if negb (connected f) then mret tt
      else reader_round fuel;; _reader_loop fuel'
  end.

(** [_start]; the loops are started by the event loop. *)
Definition _start (fuel : nat) : Co Conn unit :=
  f ← atomic (reads (λ x, Ok (flags x)));
  if connected f then mret tt
  else
    all ← atomic (reads (λ x, Ok (controller_list (conn_config x))));
    k ← _connect_loop fuel None all;
    atomic (modify (set_stream k));;
    atomic (change_flags started_flags);;
    atomic (modify set_reports).
End connection.
