(* ===== verification/ConnectionFacts.v ===== *)
(** * The connection to the controller, one call at a time *)
From Stdlib Require Import String.
From S2P Require Import Prelude Coroutine PyData PyDict Messages Framer Encoder Parser ProtocolFacts RecordFacts Segment Log LogApi Leader Replicas ReplicasFacts ReplicasRun ControllerConnection.

(** ** What the controller sends *)

Definition ascii_meta (m : TopicMeta) : Prop :=
  forallb asciib (tm_topic m) ∧ forallb asciib (tm_leader_id m) ∧ forallb asciib (tm_leader_addr m) ∧
  Forall (λ r, forallb asciib r) (tm_replica_list m).

(** The responses that arrive as they were sent.  The length of a list is announced in
    characters and read in bytes, so its names are ASCII. *)
Definition sendable (r : Response) : Prop :=
  match r with
  | TopicMetaDataListResponse l => Forall wire_meta_line l ∧ Forall ascii_meta l
  | TopicMetaDataResponse _ | ControllerPingResponse | NotLeaderControllerResponse _ _ _ | ErrorResponse _ _ =>
      wire_response r
  | _ => False
  end.

(** The bytes of a response. *)
Definition wire (f : EncodedFrame) : bytes := ef_header f ++ default [] (ef_payload f).

Lemma meta_fields_ascii m w : ascii_meta m → meta_fields m = Ok w → Forall (λ s, forallb asciib s) w.
Proof.
  intros (H1 & H2 & H3 & H4) Hw. unfold meta_fields in Hw. inv_ok.
  repeat constructor; try done.
  - by apply Is_true_true, (py_str_ascii _ _ Ha).
  - unfold replicas_str. case_bool_decide; [by vm_compute|]. by apply join_ascii.
  - by apply Is_true_true, (py_str_ascii _ _ Ha0).
Qed.

Lemma meta_lines_ascii l lines :
  Forall ascii_meta l → meta_lines l = Ok lines → Forall (λ s, forallb asciib s) lines.
Proof.
  intros Hl. revert lines. induction Hl as [|m l Hm Hl IH]; cbn; intros lines E; inv_ok; [done|].
  constructor; [|by apply IH]. apply join_ascii; [done|]. by eapply meta_fields_ascii.
Qed.

Section facts.
Context {S : Type} `{LogApi S} `{LogAppend S}.
Context (open_replica : pystr → Z → result unit).
Implicit Types (x : ControllerConnection S).

Definition put_inbox (k : nat) (sk : Socket) (data : bytes) x : ControllerConnection S :=
  set_sockets (<[k := set_inbox data sk]> (sockets x)) x.

Lemma read_socket_run b k n x sk data rest :
  sockets x !! k = Some sk → failure sk = None → readexactly n (inbox sk) = Ok (data, rest) →
  run (read_socket b k n) x = (Ok data, put_inbox k sk rest x).
Proof.
  intros Hk Hf Hr. unfold read_socket. rewrite run_co_bind. cbn [run]. rewrite run_co_ret, run_atomic.
  unfold read_bytes, get_socket. run. rewrite Hk. cbn [or_raise]. run. rewrite Hf. rewrite Hr. done.
Qed.

Lemma put_inbox_lookup k sk data x : (k < length (sockets x))%nat →
  sockets (put_inbox k sk data x) !! k = Some (set_inbox data sk).
Proof. intros Hk. cbn. by apply list_lookup_insert_eq. Qed.

Lemma put_inbox_twice k sk d d' x :
  put_inbox k (set_inbox d sk) d' (put_inbox k sk d x) = put_inbox k sk d' x.
Proof. unfold put_inbox, set_sockets. cbn. by rewrite list_insert_insert_eq. Qed.

(** Reading a packet in two steps. *)
Lemma read_packet_run b k x sk data rest {A} (c : bytes → Co (ControllerConnection S) A) :
  sockets x !! k = Some sk → failure sk = None → read_packet (inbox sk) = Ok (data, rest) →
  run (len_data ← read_socket b k (Z.of_nat PREFIX_SIZE);
       data ← read_socket b k (decode_length len_data); c data) x =
  run (c data) (put_inbox k sk rest x).
Proof.
  intros Hk Hf Hr. unfold read_packet in Hr.
  destruct (readexactly (Z.of_nat PREFIX_SIZE) (inbox sk)) as [[prefix mid]|e] eqn:E1; [|done].
  cbn [mbind result_bind] in Hr.
  rewrite run_co_bind, (read_socket_run b k _ x sk prefix mid) by done.
  assert (k < length (sockets x))%nat as Hlen by by eapply lookup_lt_Some.
  rewrite run_co_bind, (read_socket_run b k _ _ (set_inbox mid sk) data rest);
    [|by apply put_inbox_lookup|done|done]. by rewrite put_inbox_twice.
Qed.

Lemma encode_response_shape p f :
  encode_response p = Ok f → sendable (body p) →
  match body p with
  | TopicMetaDataListResponse l => ∃ lines payload, meta_lines l = Ok lines ∧
      utf8_encode (py_join [10] lines) = Ok payload ∧ ef_payload f = Some payload ∧
      zlen payload = zlen (py_join [10] lines)
  | _ => ef_payload f = None
  end.
Proof.
  intros He Hs. unfold encode_response in He. inv_ok. destruct a0 as [b fr]. inv_ok.
  destruct (body p); try done; cbn [encode_response_body] in Ha0; inv_ok;
    try (injection Ha0 as <- <-; done).
  all: try (injection Hb as <- <-; done).
  all: try done.
  match goal with H : meta_lines _ = Ok ?l, H' : utf8_encode (py_join _ ?l) = Ok ?p |- _ =>
    exists l, p; split_and!; try done;
    enough (Hp : utf8_encode (py_join [10] l) = Ok (py_join [10] l)) by congruence end.
  apply utf8_encode_ascii, Is_true_true, join_ascii; [done|]. destruct Hs as [_ Hs]. by eapply meta_lines_ascii.
Qed.

Lemma parse_response_nonempty data p : parse_response data = Ok p → data ≠ [].
Proof. intros E ->. vm_compute in E. discriminate E. Qed.

(** What the controller sends is what the broker reads. *)
Lemma read_response_run b k x sk p f rest :
  sockets x !! k = Some sk → failure sk = None → inbox sk = wire f ++ rest →
  wire_header (header p) → sendable (body p) → encode_response p = Ok f →
  run (_read_response b k) x = (Ok (Some p), put_inbox k sk rest x).
Proof.
  intros Hk Hf Hin Hh Hs He. pose proof (encode_response_shape p f He Hs) as Hshape.
  unfold wire in Hin. rewrite <-app_assoc in Hin.
  assert (wire_response (body p)) as Hw by (by destruct (body p); try apply Hs).
  destruct (response_roundtrip p f (default [] (ef_payload f) ++ rest) Hh Hw He) as (data & Hread & Hparse).
  rewrite <-Hin in Hread. unfold _read_response. rewrite (read_packet_run b k x sk data _ _ Hk Hf Hread).
  rewrite bool_decide_eq_false_2 by by eapply parse_response_nonempty.
  rewrite run_co_catch, run_co_bind, run_atomic. run. rewrite Hparse. cbv iota.
  assert (k < length (sockets x))%nat as Hlen by by eapply lookup_lt_Some.
  destruct p as [hdr r]. cbn [header body] in *. destruct r as [| | | | | | | | | | | | | |m| |l| |i h p0]; try done;
    try (rewrite Hshape; done).
  destruct Hshape as (lines & payload & Hm & Hu & Hp & Hz). rewrite Hp. cbn [announced]. rewrite Hm.
  cbn [body]. rewrite <-Hz. destruct Hs as [Hs _]. cbn [default]. destruct (zlen payload >? 0) eqn:Ez.
  - rewrite !run_co_bind, (read_socket_run b k _ _ (set_inbox (payload ++ rest) sk) payload rest);
      [|by apply put_inbox_lookup|done|by apply readexactly_app].
    rewrite run_atomic. run. rewrite (metadata_list_payload l lines payload) by done. cbv iota.
    cbn [run mret Co_ret]. by rewrite put_inbox_twice.
  - rewrite run_co_bind. cbn [run mret Co_ret].
    assert (payload = []) as -> by (destruct payload; [done|cbn in Ez; lia]).
    assert (l = []) as ->; [|done].
    pose proof (metadata_list_payload l lines [] Hs Hm Hu) as E. by injection E as <-.
Qed.

(** ** Connecting *)

Definition register_ok x : Prop := is_Ok (encode_command (register_command x) true).

(** The state after an attempt. *)
Definition attempted (c : ControllerAddress) (network : list (result Socket)) (l : list Socket) x :
    ControllerConnection S :=
  set_sockets (sockets x ++ l) (set_dials network (dialed x ++ [c]) x).

Lemma connect_run c x sk network :
  dials x = Ok sk :: network → writable sk = true → register_ok x →
  run (_connect c) x = (Ok (length (sockets x)), attempted c network [add_sent (register_command x) sk] x).
Proof.
  intros Hd Hw [fr He]. unfold _connect. rewrite run_co_bind. unfold open_connection.
  rewrite run_co_bind, run_pause, run_atomic. run. rewrite Hd. run.
  rewrite run_co_bind, run_atomic. run. unfold write, get_socket, put_socket. run.
  change (register_command (set_sockets _ _)) with (register_command x). rewrite He. run. cbn [sockets set_sockets].
  rewrite lookup_app_r, Nat.sub_diag by done. cbn [lookup list_lookup or_raise]. run. rewrite Hw. run.
  cbn [sockets set_sockets]. rewrite insert_app_r_alt, Nat.sub_diag by done. cbn [insert list_insert].
  unfold drain. rewrite run_co_bind, run_co_bind, run_pause, run_atomic. unfold get_socket. run.
  cbn [sockets set_sockets]. rewrite lookup_app_r, Nat.sub_diag by done. cbn [lookup list_lookup or_raise]. run.
  cbn [writable add_sent]. rewrite Hw. run. done.
Qed.

Lemma connect_fails c x e network :
  dials x = Raise e :: network → run (_connect c) x = (Raise e, attempted c network [] x).
Proof.
  intros Hd. unfold _connect. rewrite run_co_bind. unfold open_connection.
  rewrite run_co_bind, run_pause, run_atomic. run. rewrite Hd. run. unfold attempted. rewrite app_nil_r. done.
Qed.

(** A controller that does not answer is passed over. *)
Lemma try_unreachable c x e network :
  dials x = Raise e :: network → is_OSError e = true →
  run (_try_controller open_replica c) x = (Ok NoAnswer, attempted c network [] x).
Proof.
  intros Hd He. unfold _try_controller. rewrite run_co_catch, run_co_bind, (connect_fails c x e network) by done.
  by rewrite He.
Qed.

(** A socket that carries [resp] first. *)
Definition answers_with (sk : Socket) (resp : Packet Response) : Prop :=
  writable sk = true ∧ failure sk = None ∧ wire_header (header resp) ∧ sendable (body resp) ∧
  ∃ f rest, encode_response resp = Ok f ∧ inbox sk = wire f ++ rest.

Lemma first_response c x sk network resp :
  dials x = Ok sk :: network → register_ok x → answers_with sk resp →
  ∃ rest, let y := attempted c network [set_inbox rest (add_sent (register_command x) sk)] x in
    run (_connect c) x =
      (Ok (length (sockets x)), attempted c network [add_sent (register_command x) sk] x) ∧
    run (_read_response true (length (sockets x))) (attempted c network [add_sent (register_command x) sk] x) =
      (Ok (Some resp), y).
Proof.
  intros Hd Hr (Hw & Hf & Hh & Hs & f & rest & He & Hin). exists rest. cbv zeta. split; [by apply connect_run|].
  rewrite (read_response_run true _ _ (add_sent (register_command x) sk) resp f rest); try done.
  - f_equal. unfold put_inbox, attempted, set_sockets. cbn. rewrite insert_app_r_alt, Nat.sub_diag by done. done.
  - cbn. by rewrite lookup_app_r, Nat.sub_diag.
Qed.

Lemma try_redirect c x sk network hdr i h p :
  dials x = Ok sk :: network → register_ok x →
  answers_with sk (mkPacket hdr (NotLeaderControllerResponse i h p)) →
  ∃ sk', run (_try_controller open_replica c) x = (Ok (NotLeader i h p), attempted c network [sk'] x).
Proof.
  intros Hd Hr Ha. destruct (first_response c x sk network _ Hd Hr Ha) as (rest & E1 & E2).
  eexists. unfold _try_controller. rewrite run_co_catch, run_co_bind, E1, run_co_bind, E2. reflexivity.
Qed.

Lemma try_leader c x sk network hdr metas rm :
  dials x = Ok sk :: network → register_ok x →
  answers_with sk (mkPacket hdr (TopicMetaDataListResponse metas)) →
  run (Replicas.apply_metadata_list open_replica metas) (replica_manager x) = (Ok tt, rm) →
  ∃ rest, run (_try_controller open_replica c) x =
    (Ok (Accepted (length (sockets x))),
     set_replicas rm (attempted c network [set_inbox rest (add_sent (register_command x) sk)] x)).
Proof.
  intros Hd Hr Ha Happ. destruct (first_response c x sk network _ Hd Hr Ha) as (rest & E1 & E2).
  exists rest. unfold _try_controller. rewrite run_co_catch, run_co_bind, E1, run_co_bind, E2.
  cbn [fmap option_fmap option_map body]. unfold apply_metadata_list. rewrite run_co_bind, run_co_zoom.
  - change (replica_manager (attempted _ _ _ _)) with (replica_manager x). rewrite Happ. reflexivity.
  - done.
  - done.
  - by intros [].
Qed.

(** ** Looking for the leader *)

(** The socket names [c] as the leader. *)
Definition refers (sk : Socket) (c : ControllerAddress) : Prop :=
  ∃ hdr i h p, answers_with sk (mkPacket hdr (NotLeaderControllerResponse i h p)) ∧ leader_hint i h p = Some c.

(** The socket of the leader, and what becomes of its list. *)
Definition leads_with (sk : Socket) (rm : Replication S) x : Prop :=
  ∃ hdr metas, answers_with sk (mkPacket hdr (TopicMetaDataListResponse metas)) ∧
    run (Replicas.apply_metadata_list open_replica metas) (replica_manager x) = (Ok tt, rm).

(** What has changed when the search has ended. *)
Definition found (cs : list ControllerAddress) (network : list (result Socket)) (l : list Socket)
    (rm : Replication S) x : ControllerConnection S :=
  set_replicas rm (set_sockets (sockets x ++ l) (set_dials network (dialed x ++ cs) x)).

Lemma found_attempted c network l cs network' l' rm x :
  found cs network' l' rm (attempted c network l x) = found (c :: cs) network' (l ++ l') rm x.
Proof. unfold found, attempted, set_replicas, set_sockets, set_dials. cbn. by rewrite <-!app_assoc. Qed.

Lemma follow_hints sks hints fuel c todo x final network rm :
  Forall2 refers sks hints → dials x = (Ok <$> sks) ++ Ok final :: network →
  register_ok x → leads_with final rm x → (length sks < fuel)%nat →
  ∃ l rest, run (_connect_loop open_replica fuel (Some c) todo) x =
    (Ok (length (sockets x) + length l)%nat,
     found (c :: hints) network (l ++ [set_inbox rest (add_sent (register_command x) final)]) rm x).
Proof.
  intros Hs. revert fuel c todo x. induction Hs as [|sk h sks hints Hsk Hs IH]; intros fuel c todo x Hd Hr Hl Hf;
    (destruct fuel as [|fuel]; [cbn in Hf; lia|]); rewrite ?fmap_cons, <-?app_comm_cons in Hd; cbn [_connect_loop];
    rewrite run_co_bind, run_atomic; run; cbv iota; rewrite run_co_bind.
  - destruct Hl as (hdr & metas & Ha & Happ).
    destruct (try_leader c x final network hdr metas rm Hd Hr Ha Happ) as (rest & E). rewrite E. cbv iota.
    exists [], rest. cbn [run mret Co_ret length]. by rewrite Nat.add_0_r.
  - destruct Hsk as (hdr & i & hst & p & Ha & Eh).
    destruct (try_redirect c x sk (fmap (M:=list) Ok sks ++ Ok final :: network) hdr i hst p Hd Hr Ha) as (sk' & E). rewrite E. cbv iota. rewrite Eh.
    destruct (IH fuel h (controller_list (conn_config x)) (attempted c (fmap (M:=list) Ok sks ++ Ok final :: network) [sk'] x))
      as (l & rest & E2); [done|done|exact Hl|cbn in Hf; lia|].
    rewrite E2. exists (sk' :: l), rest. rewrite found_attempted. f_equal. f_equal.
    cbn. rewrite length_app. cbn. lia.
Qed.

Lemma search_run down es c more sks hints fuel x final network rm :
  Forall (λ e, is_OSError e = true) es → length es = length down →
  Forall2 refers sks hints → dials x = (Raise <$> es) ++ (Ok <$> sks) ++ Ok final :: network →
  register_ok x → leads_with final rm x → (length down + length sks < fuel)%nat →
  ∃ l rest, run (_connect_loop open_replica fuel None (down ++ c :: more)) x =
    (Ok (length (sockets x) + length l)%nat,
     found (down ++ c :: hints) network (l ++ [set_inbox rest (add_sent (register_command x) final)]) rm x).
Proof.
  intros He. revert down fuel x. induction He as [|e es He Hes IH]; intros [|d down] fuel x Hlen Hs Hd Hr Hl Hf;
    try done; (destruct fuel as [|fuel]; [cbn in Hf; lia|]);
    rewrite ?fmap_cons, <-?app_comm_cons in Hd; rewrite ?app_nil_l, <-?app_comm_cons; cbn [_connect_loop];
    rewrite run_co_bind, run_atomic; run; cbv iota; rewrite run_co_bind.
  - destruct Hs as [|sk h sks hints Hsk Hs].
    + destruct Hl as (hdr & metas & Ha & Happ).
      destruct (try_leader c x final network hdr metas rm Hd Hr Ha Happ) as (rest & E). rewrite E. cbv iota.
      exists [], rest. cbn [run mret Co_ret length]. by rewrite Nat.add_0_r.
    + destruct Hsk as (hdr & i & hst & p & Ha & Eh).
      destruct (try_redirect c x sk (fmap (M:=list) Ok sks ++ Ok final :: network) hdr i hst p Hd Hr Ha) as (sk' & E). rewrite E. cbv iota. rewrite Eh.
      rewrite run_co_bind, run_pause. cbv iota.
      destruct (follow_hints sks hints fuel h (controller_list (conn_config x))
        (attempted c (fmap (M:=list) Ok sks ++ Ok final :: network) [sk'] x) final network rm)
        as (l & rest & E2); [done|done|done|exact Hl|cbn in Hf; lia|].
      rewrite E2. exists (sk' :: l), rest. rewrite found_attempted. f_equal. f_equal.
      cbn. rewrite length_app. cbn. lia.
  - rewrite (try_unreachable d x e (fmap (M:=list) Raise es ++ fmap (M:=list) Ok sks ++ Ok final :: network) Hd He). cbv iota.
    destruct (IH down fuel (attempted d (fmap (M:=list) Raise es ++ fmap (M:=list) Ok sks ++ Ok final :: network) [] x))
      as (l & rest & E2); [by injection Hlen|done|done|done|exact Hl|cbn in Hf; lia|].
    rewrite E2. exists l, rest. rewrite found_attempted. f_equal. f_equal. cbn. by rewrite app_nil_r.
Qed.
End facts.
