(* ===== verification/ConnectionSteps.v ===== *)
(** * The coroutines of the connection in any interleaving *)
From Stdlib Require Import String.
From stdpp Require Import fin_maps.
From S2P Require Import Prelude Coroutine PyData PyDict Messages Framer Encoder Parser Segment Log LogApi Leader Replicas ControllerConnection.

Lemma wp_anything {S A} (c : Co S A) s0 s :
  wp (λ _, True) (λ _ _, True) (λ _ _, True) s0 c s (λ _ _ _, True).
Proof. revert s0 s. induction c as [r|X m k IH|ready k IH]; intros s0 s; cbn; auto. Qed.

Section steps.
Context {S : Type} `{LogApi S} `{LogAppend S}.
Context (open_replica : pystr → Z → result unit).
Implicit Types (x y : ControllerConnection S).

(** What does not depend on the network and the replica manager. *)
Definition core x := (flags x, pending_reads x, expected x, read_results x, hung x).

(** An invariant and a relation between states that only look at the core. *)
Class CoreInvariant (ok : ControllerConnection S → Prop) (later : relation (ControllerConnection S)) := {
  ci_later :: PreOrder later;
  ok_same x y : core y = core x → ok x → ok y;
  later_same x y : core y = core x → later x y }.

Section any.
Context (ok : ControllerConnection S → Prop) (later : relation (ControllerConnection S)) `{!CoreInvariant ok later}.

Lemma core_later_trans x y z : later x y → later y z → later x z.
Proof. apply transitivity. Qed.
Lemma core_later_refl x : later x x.
Proof. reflexivity. Qed.

Abbreviation wpc := (wp ok later later).
Abbreviation wp_to x0 c x Q :=
  (ok x → later x0 x → (∀ x1 a x', ok x' → later x1 x' → later x x' → Q x1 a x') → wpc x0 c x Q)
  (only parsing).

Ltac chain := solve [eauto 6 using core_later_trans, core_later_refl].
Ltac fin := first [done|chain].

Lemma same_wp {A} (f : M (ControllerConnection S) A) x0 x Q :
  (∀ x, core (f x).2 = core x) → wp_to x0 (atomic f) x Q.
Proof.
  intros Hf Hx Hl HQ. rewrite wp_atomic. assert (later x (f x).2) by (by apply later_same).
  apply HQ; [by apply (ok_same x)|chain|done].
Qed.

Lemma conn_then_wp {A B} (c : Co (ControllerConnection S) A) (k : A → Co (ControllerConnection S) B) x0 x Q :
  (∀ x0 x Q, wp_to x0 c x Q) → (∀ a x0 x Q, wp_to x0 (k a) x Q) → wp_to x0 (c ≫= k) x Q.
Proof.
  intros Hc Hk Hx Hl HQ. apply wp_bind. apply Hc; [done..|].
  intros x1 [a|e] x2 ? ? ?; [|apply HQ; fin]. apply Hk; [done..|]. intros x3 b x4 ? ? ?. apply HQ; fin.
Qed.

Lemma catch_wp {A} (c : Co (ControllerConnection S) A) h x0 x Q :
  (∀ x0 x Q, wp_to x0 c x Q) → (∀ e k, h e = Some k → ∀ x0 x Q, wp_to x0 k x Q) → wp_to x0 (co_catch c h) x Q.
Proof.
  intros Hc Hk Hx Hl HQ. apply wp_catch. apply Hc; [done..|].
  intros x1 [a|e] x2 ? ? ?; [apply HQ; fin|]. destruct (h e) as [k|] eqn:E; [|apply HQ; fin].
  apply (Hk e); [done..|]. intros x3 b x4 ? ? ?. apply HQ; fin.
Qed.

Lemma conn_ret_wp {A} (a : A) x0 x Q : wp_to x0 (mret a) x Q.
Proof. intros Hx Hl HQ. rewrite wp_ret. apply HQ; fin. Qed.
Lemma done_wp {A} (r : result A) x0 x Q : wp_to x0 (Done r) x Q.
Proof. intros Hx Hl HQ. cbn. apply HQ; fin. Qed.
Lemma await_wp ready x0 x Q : wp_to x0 (Await ready (mret tt)) x Q.
Proof. intros Hx Hl HQ. cbn. split_and!; [done..|]. intros x1 ? ? _. apply HQ; fin. Qed.
Lemma conn_pause_wp x0 x Q : wp_to x0 pause x Q.
Proof. apply await_wp. Qed.
Lemma forever_wp {A} x0 x Q : wp_to x0 (forever : Co (ControllerConnection S) A) x Q.
Proof. intros Hx Hl HQ. cbn. by split_and!. Qed.

Lemma zoom_wp {A} (c : Co (Replication S) A) x0 x Q : wp_to x0 (co_zoom replica_manager set_replicas c) x Q.
Proof.
  revert x0 x. induction c as [r|X m k IH|ready k IH]; intros x0 x Hx Hl HQ; cbn.
  - apply HQ; fin.
  - destruct (m (replica_manager x)) as [b s]. cbn.
    assert (later x (set_replicas s x)) by by apply later_same.
    apply IH; [by apply (ok_same x)|chain|]. intros. apply HQ; fin.
  - split_and!; [done..|]. intros x1 ? ? _. apply IH; [done|fin|]. intros. apply HQ; fin.
Qed.

(** ** The network *)

Lemma change_wp {A} (f : M (ControllerConnection S) A) x0 x Q :
  (∀ x, ok x → ok (f x).2 ∧ later x (f x).2) → wp_to x0 (atomic f) x Q.
Proof. intros Hf Hx Hl HQ. rewrite wp_atomic. destruct (Hf x Hx). apply HQ; fin. Qed.

Lemma read_bytes_core k n x : core (read_bytes k n x).2 = core x.
Proof.
  unfold read_bytes, get_socket. run. destruct (sockets x !! k) as [sk|]; [|done]. cbn [or_raise]. run.
  destruct (failure sk); [done|]. destruct (readexactly n (inbox sk)) as [[data rest]|e]; [done|].
  by destruct (at_eof sk).
Qed.

Lemma write_core k cmd x : core (write k cmd x).2 = core x.
Proof.
  unfold write, get_socket. run. destruct (encode_command cmd true); [|done].
  destruct (sockets x !! k) as [sk|]; [|done]. cbn [or_raise]. run. by destruct (writable sk).
Qed.

Lemma read_socket_wp b k n x0 x Q : wp_to x0 (read_socket b k n) x Q.
Proof.
  unfold read_socket. apply conn_then_wp; [intros ???; apply await_wp|]. intros _ ???. apply same_wp.
  intros ?. apply read_bytes_core.
Qed.

Lemma conn_drain_wp k x0 x Q : wp_to x0 (drain k) x Q.
Proof.
  unfold drain. apply conn_then_wp; [intros ???; apply conn_pause_wp|]. intros _ ???. apply same_wp.
  intros y. unfold get_socket. run. destruct (sockets y !! k) as [sk|]; [|done]. cbn. by destruct (writable sk).
Qed.

Lemma read_response_wp b k x0 x Q : wp_to x0 (_read_response b k) x Q.
Proof.
  unfold _read_response. apply conn_then_wp; [intros ???; apply read_socket_wp|]. intros d ???.
  apply conn_then_wp; [intros ???; apply read_socket_wp|]. intros data ???. case_bool_decide; [apply conn_ret_wp|].
  apply catch_wp.
  - intros ???. apply conn_then_wp; [intros ???; by apply same_wp|]. intros resp ???.
    destruct (body resp); try apply conn_ret_wp. apply conn_then_wp; [|intros ????; apply conn_ret_wp]. intros ???.
    destruct (_ >? 0); [|apply conn_ret_wp]. apply conn_then_wp; [intros ???; apply read_socket_wp|].
    intros ????. by apply same_wp.
  - intros e c Hc. destruct (is_ValueError e); [|done]. injection Hc as <-. intros ???. apply conn_ret_wp.
Qed.

Lemma connect_wp c x0 x Q : wp_to x0 (_connect c) x Q.
Proof.
  unfold _connect. apply conn_then_wp.
  - intros ???. unfold open_connection. apply conn_then_wp; [intros ???; apply conn_pause_wp|]. intros _ ???.
    apply same_wp. intros y. run. destruct (dials y) as [|[sk|e] l]; done.
  - intros k ???. apply conn_then_wp.
    + intros ???. apply same_wp. intros y. run. apply write_core.
    + intros _ ???. apply conn_then_wp; [intros ???; apply conn_drain_wp|intros ????; apply conn_ret_wp].
Qed.

Lemma try_controller_wp c x0 x Q : wp_to x0 (_try_controller open_replica c) x Q.
Proof.
  unfold _try_controller. apply catch_wp.
  - intros ???. apply conn_then_wp; [intros ???; apply connect_wp|]. intros k ???.
    apply conn_then_wp; [intros ???; apply read_response_wp|]. intros resp ???.
    destruct (body <$> resp) as [[]|]; try apply conn_ret_wp.
    apply conn_then_wp; [intros ???; apply zoom_wp|intros ????; apply conn_ret_wp].
  - intros e k Hk. destruct (is_OSError e); [|done]. injection Hk as <-. intros ???. apply conn_ret_wp.
Qed.

Lemma connect_loop_wp fuel hint todo x0 x Q : wp_to x0 (_connect_loop open_replica fuel hint todo) x Q.
Proof.
  revert hint todo x0 x Q. induction fuel as [|fuel IH]; intros hint todo x0 x Q; cbn [_connect_loop].
  - apply forever_wp.
  - apply conn_then_wp; [intros ???; by apply same_wp|]. intros all ???.
    destruct hint as [c|]; [|destruct todo as [|c todo]].
    + apply conn_then_wp; [intros ???; apply try_controller_wp|]. intros [k|i h p|] ???; [apply conn_ret_wp|apply IH..].
    + apply conn_then_wp; [intros ???; apply conn_pause_wp|]. intros _ ???. apply IH.
    + apply conn_then_wp; [intros ???; apply try_controller_wp|]. intros [k|i h p|] ???; [apply conn_ret_wp| |apply IH].
      destruct (leader_hint i h p); [|apply IH]. apply conn_then_wp; [intros ???; apply conn_pause_wp|]. intros _ ???. apply IH.
Qed.
End any.
End steps.
