(* ===== verification/ConnectionInv.v ===== *)
(** * The invariant of the connection

    The first connection is the only one: a coroutine that misses it goes round
    without end.  A response goes to the read it belongs to. *)
From Stdlib Require Import String.
From stdpp Require Import fin_maps.
From S2P Require Import Prelude Coroutine PyData PyDict Messages Framer Encoder Parser Segment Log LogApi Leader Replicas ControllerConnection ConnectionSteps.

Section inv.
Context {S : Type} `{LogApi S} `{LogAppend S}.
Context (open_replica : pystr → Z → result unit).
Implicit Types (x y : ControllerConnection S).

(** The flags of a connection that is there and was never lost. *)
Definition first (f : Flags) : Prop := f = mkFlags true false 0 true false.

Record conn_ok (x : ControllerConnection S) : Prop := {
  co_flags : hung x = true ∨ flags x = new_flags ∨ first (flags x);
  co_dict : dict_ok (pending_reads x);
  co_pending c f : dict_get (pending_reads x) c = Some f →
    expected x !! f = Some c ∧ read_results x !! f = None;
  co_results f r : read_results x !! f = Some r → (f < length (expected x))%nat;
  co_answers f resp : read_results x !! f = Some (Ok resp) →
    ∃ h, header resp = Some h ∧ expected x !! f = Some (correlation_id h) }.

(** Reads are settled once, nobody stops going round. *)
Record conn_later (x x' : ControllerConnection S) : Prop := {
  cl_expected : expected x `prefix_of` expected x';
  cl_results f r : read_results x !! f = Some r → read_results x' !! f = Some r;
  cl_hung : hung x = true → hung x' = true }.

#[export] Instance conn_later_preorder : PreOrder conn_later.
Proof.
  split; [by intros x; split|]. intros x y z [E1 R1 H1] [E2 R2 H2]. split; [by etrans|auto|auto].
Qed.

Lemma core_eq x y : core y = core x →
  flags y = flags x ∧ pending_reads y = pending_reads x ∧ expected y = expected x ∧
  read_results y = read_results x ∧ hung y = hung x.
Proof. unfold core. intros E. by injection E. Qed.

Lemma conn_ok_same x y : core y = core x → conn_ok x → conn_ok y.
Proof.
  intros (E1 & E2 & E3 & E4 & E5)%core_eq [C1 C2 C3 C4 C5]. split; rewrite ?E1, ?E2, ?E3, ?E4, ?E5; done.
Qed.
Lemma conn_later_same x y : core y = core x → conn_later x y.
Proof. intros (E1 & E2 & E3 & E4 & E5)%core_eq. split; rewrite ?E1, ?E2, ?E3, ?E4, ?E5; done. Qed.

#[export] Instance conn_invariant : CoreInvariant conn_ok conn_later.
Proof. split; [apply _|apply conn_ok_same|apply conn_later_same]. Qed.

Abbreviation wpc := (wp conn_ok conn_later conn_later).
Abbreviation wp_to x0 c x Q :=
  (conn_ok x → conn_later x0 x →
   (∀ x1 a x', conn_ok x' → conn_later x1 x' → conn_later x x' → Q x1 a x') → wpc x0 c x Q)
  (only parsing).

Lemma conn_trans x y z : conn_later x y → conn_later y z → conn_later x z.
Proof. apply transitivity. Qed.
Lemma conn_refl x : conn_later x x.
Proof. reflexivity. Qed.

Ltac chain := solve [eauto 6 using conn_trans, conn_refl].
Ltac fin := first [done|chain].

Lemma hung_flags f x : hung x = true → conn_ok x → conn_ok (set_flags f x) ∧ conn_later x (set_flags f x).
Proof. intros Hh [C1 C2 C3 C4 C5]. split; [split; try done; by left|by split]. Qed.

Lemma hung_ok x : conn_ok x → conn_ok (set_hung x) ∧ conn_later x (set_hung x).
Proof. intros [C1 C2 C3 C4 C5]. split; [split; try done; by left|by split]. Qed.

(** ** Waiting for the connection *)

Lemma spin_wp {A} x0 x Q : wp_to x0 (spin : Co (ControllerConnection S) A) x Q.
Proof.
  intros Hx Hl HQ. unfold spin. apply wp_bind. rewrite wp_atomic. run. cbn [fst snd].
  destruct (hung_ok x Hx). apply (forever_wp conn_ok conn_later); fin.
Qed.

Lemma wait_event_wp e x0 x Q : wp_to x0 (wait_event e) x Q.
Proof.
  unfold wait_event. apply (conn_then_wp conn_ok conn_later); [intros ???; by apply (same_wp conn_ok conn_later)|].
  intros b ???. destruct b; [by apply (conn_ret_wp conn_ok conn_later)|by apply (await_wp conn_ok conn_later)].
Qed.

Lemma wait_usable_wp fuel stale x0 x Q : wp_to x0 (wait_usable fuel stale) x Q.
Proof.
  revert x0 x Q. induction fuel as [|fuel IH]; intros x0 x Q; cbn [wait_usable]; [apply spin_wp|].
  apply (conn_then_wp conn_ok conn_later); [intros ???; apply wait_event_wp|]. intros _ ???.
  apply (conn_then_wp conn_ok conn_later); [intros ???; by apply (same_wp conn_ok conn_later)|]. intros b ???. destruct b; [by apply (conn_ret_wp conn_ok conn_later)|apply IH].
Qed.

Lemma wait_for_connection_wp fuel stale x0 x Q : wp_to x0 (_wait_for_connection fuel stale) x Q.
Proof.
  unfold _wait_for_connection. apply (conn_then_wp conn_ok conn_later); [intros ???; by apply (same_wp conn_ok conn_later)|]. intros f ???.
  destruct (connected f); [|by apply (done_wp conn_ok conn_later)]. destruct (usable stale f); [by apply (conn_ret_wp conn_ok conn_later)|apply wait_usable_wp].
Qed.

(** An event that is set does not make anybody wait. *)
Lemma wait_usable_spins fuel stale x0 x Q :
  conn_status_event (flags x) = true → usable stale (flags x) = false →
  wpc x0 spin x Q → wpc x0 (wait_usable fuel stale) x Q.
Proof.
  intros He Hu Hs. induction fuel as [|fuel IH]; cbn [wait_usable]; [done|].
  apply wp_bind. unfold wait_event. apply wp_bind. rewrite wp_atomic. run. cbn [fst snd]. rewrite He.
  rewrite wp_ret. apply wp_bind. rewrite wp_atomic. run. cbn [fst snd]. rewrite Hu. exact IH.
Qed.

Lemma handle_disconnect_wp fuel x0 x Q : wp_to x0 (_handle_disconnect fuel) x Q.
Proof.
  intros Hx Hl HQ. unfold _handle_disconnect. apply wp_bind. rewrite wp_atomic. run. cbn [fst snd].
  destruct (co_flags _ Hx) as [Hh|[Hf|Hf]].
  - destruct (connected (flags x)); cbn [negb]; [|rewrite wp_ret; apply HQ; fin].
    apply wp_bind. rewrite wp_atomic. unfold change_flags. run. cbn [fst snd].
    destruct (hung_flags (set_disconnected true (flags x)) x Hh Hx).
    apply wait_for_connection_wp; [done|chain|]. intros. apply HQ; fin.
  - rewrite Hf. cbn [connected negb new_flags]. rewrite wp_ret. apply HQ; fin.
  - rewrite Hf. cbn [connected negb]. apply wp_bind. rewrite wp_atomic. unfold change_flags. run. cbn [fst snd].
    rewrite Hf. unfold _wait_for_connection. apply wp_bind. rewrite wp_atomic. run. cbn [fst snd flags set_flags].
    cbn [set_disconnected connected negb usable reconnecting connection_id Z.ltb andb].
    apply wait_usable_spins; [done|done|]. unfold spin. apply wp_bind. rewrite wp_atomic. run. cbn [fst snd].
    destruct (hung_ok x Hx) as [Hx' Hl']. set (y := set_hung _).
    assert (conn_ok y ∧ conn_later x y) as [? ?].
    { destruct Hx' as [C1 C2 C3 C4 C5]. destruct Hl'. split; [split; try done; by left|by split]. }
    apply (forever_wp conn_ok conn_later); fin.
Qed.

(** ** Reads *)

Lemma expect_ok c x : conn_ok x → conn_ok (expect_response c x).2 ∧ conn_later x (expect_response c x).2.
Proof.
  intros [C1 C2 C3 C4 C5]. unfold expect_response. run. cbn [snd].
  assert (∀ f, (f < length (expected x))%nat → (expected x ++ [c]) !! f = expected x !! f) as Hold.
  { intros f Hf. by apply lookup_app_l. }
  split; [|split; [by eexists|done..]]. split; cbn; try done.
  - by apply dict_set_ok.
  - intros c' f. destruct (decide (c = c')) as [<-|Hne].
    + rewrite dict_get_set_eq. intros [= <-]. split.
      * by rewrite lookup_app_r, Nat.sub_diag.
      * destruct (read_results x !! length (expected x)) as [r|] eqn:E; [|done]. apply C4 in E. lia.
    + rewrite dict_get_set_ne by done. intros [Hf Hr]%C3. split; [|done].
      rewrite Hold; [done|by eapply lookup_lt_Some].
  - intros f r Hr%C4. rewrite length_app. lia.
  - intros f resp Hr. destruct (C5 f resp Hr) as (h & ? & ?). exists h. split; [done|].
    rewrite Hold; [done|by eapply C4].
Qed.

Lemma fail_reads_lookup d m f :
  fail_reads d m !! f = match m !! f with
                        | Some r => Some r
                        | None => if decide (f ∈ dict_values d) then Some (Raise ConnectionError) else None
                        end.
Proof.
  unfold fail_reads. generalize (dict_values d). intros l. revert m.
  induction l as [|g l IH]; intros m; cbn.
  - by destruct (m !! f).
  - rewrite IH. destruct (m !! g) as [r|] eqn:Eg.
    + destruct (m !! f) eqn:Ef; [done|]. assert (f ≠ g) by congruence.
      apply option_eq. intros y. repeat case_decide; try done; rewrite elem_of_cons in *; tauto.
    + destruct (decide (f = g)) as [->|Hne].
      * rewrite lookup_insert_eq, Eg. rewrite decide_True; [done|left].
      * rewrite lookup_insert_ne by done. destruct (m !! f) eqn:Ef; [done|].
        repeat case_decide; try done; rewrite elem_of_cons in *; tauto.
Qed.

Lemma pending_value (d : list (list Z * nat)) f : dict_ok d → f ∈ dict_values d → ∃ c, dict_get d c = Some f.
Proof.
  intros Hd ([c f'] & -> & Hin)%list_elem_of_fmap. exists c. by apply dict_elem_get.
Qed.

Lemma forget_ok x : conn_ok x → conn_ok (forget_reads x).2 ∧ conn_later x (forget_reads x).2.
Proof.
  intros [C1 C2 C3 C4 C5]. unfold forget_reads. run. cbn [snd]. split.
  - split; cbn; try done.
    + constructor.
    + intros f r. rewrite fail_reads_lookup. destruct (read_results x !! f) eqn:E; [intros _; by eapply C4|].
      case_decide as Hf; [|done]. intros _. apply pending_value in Hf as [c [Hc _]%C3]; [|done].
      by eapply lookup_lt_Some.
    + intros f resp. rewrite fail_reads_lookup. destruct (read_results x !! f) eqn:E; [intros [= ->]; by apply C5|].
      by case_decide.
  - split; cbn; [done| |done]. intros f r Hr. by rewrite fail_reads_lookup, Hr.
Qed.

(** A response is handed to the read that waits for its identifier. *)
Lemma conn_answer_ok c f resp x :
  answered resp x = Some (c, f) → conn_ok x →
  conn_ok (answer_read c f resp x).2 ∧ conn_later x (answer_read c f resp x).2.
Proof.
  intros Ha [C1 C2 C3 C4 C5]. unfold answered in Ha. destruct (header resp) as [h|] eqn:Eh; [|done].
  case_bool_decide; [done|]. destruct (dict_get (pending_reads x) (correlation_id h)) as [f'|] eqn:Eg; [|done].
  injection Ha as <- <-. destruct (C3 _ _ Eg) as [He Hr]. unfold answer_read. run. cbn [snd]. rewrite Hr. split.
  - split; cbn; try done.
    + by apply dict_del_ok.
    + intros c g Hg. destruct (decide (correlation_id h = c)) as [<-|Hne]; [by rewrite dict_get_del_eq in Hg|].
      rewrite dict_get_del_ne in Hg by done. destruct (C3 c g Hg) as [Hc Hn]. split; [done|].
      rewrite lookup_insert_ne; [done|]. intros <-. congruence.
    + intros g r [[<- <-]|[_ ?]]%lookup_insert_Some; [by eapply lookup_lt_Some|by eapply C4].
    + intros g r [[<- [= ->]]|[_ ?]]%lookup_insert_Some; [by exists h|by apply C5].
  - split; cbn; [done| |done]. intros g r Hg. rewrite lookup_insert_ne; [done|congruence].
Qed.

(** ** Commands *)

Lemma send_command_wp fuel uuid cmd b x0 x Q : wp_to x0 (_send_command fuel uuid cmd b) x Q.
Proof.
  unfold _send_command. apply (conn_then_wp conn_ok conn_later); [intros ???; apply wait_for_connection_wp|]. intros _ ???.
  apply (conn_then_wp conn_ok conn_later).
  - intros ???. destruct (header _); [|by apply (conn_ret_wp conn_ok conn_later)]. destruct b; [|by apply (conn_ret_wp conn_ok conn_later)].
    apply (conn_then_wp conn_ok conn_later); [|intros ????; by apply (conn_ret_wp conn_ok conn_later)].
    intros ???. apply (change_wp conn_ok conn_later). intros y. apply expect_ok.
  - intros fut ???. apply (conn_then_wp conn_ok conn_later).
    + intros ???. apply (same_wp conn_ok conn_later). intros y. run. destruct (stream y); [|done]. cbn [or_raise]. run.
      apply write_core.
    + intros _ ???. apply (conn_then_wp conn_ok conn_later); [intros ???; by apply (same_wp conn_ok conn_later)|]. intros k ???.
      apply (conn_then_wp conn_ok conn_later); [intros ???; by apply (conn_drain_wp conn_ok conn_later)|].
      intros ????. by apply (conn_ret_wp conn_ok conn_later).
Qed.

Lemma send_command_loop_wp fuel uuid cmd b x0 x Q : wp_to x0 (_send_command_loop fuel uuid cmd b) x Q.
Proof.
  revert cmd x0 x Q. induction fuel as [|fuel IH]; intros cmd x0 x Q; cbn [_send_command_loop].
  - by apply (forever_wp conn_ok conn_later).
  - apply (conn_then_wp conn_ok conn_later).
    + intros ???. apply (catch_wp conn_ok conn_later).
      * intros ???. apply (conn_then_wp conn_ok conn_later); [intros ???; apply send_command_wp|].
        intros [f|] ???; [|by apply (conn_ret_wp conn_ok conn_later)].
        apply (conn_then_wp conn_ok conn_later); [|intros ????; by apply (conn_ret_wp conn_ok conn_later)].
        intros ???. unfold await_read. apply (conn_then_wp conn_ok conn_later); [intros ???; by apply (await_wp conn_ok conn_later)|].
        intros _ ???. apply (same_wp conn_ok conn_later). intros y. run. by destruct (read_results y !! f) as [[]|].
      * intros e k Hk. destruct (is_OSError e); [|done]. apply (inj Some) in Hk as <-. intros ???.
        apply (conn_then_wp conn_ok conn_later); [intros ???; apply handle_disconnect_wp|].
        intros ????. by apply (conn_ret_wp conn_ok conn_later).
    + intros [r|] ???; [by apply (conn_ret_wp conn_ok conn_later)|apply IH].
Qed.

(** ** The loops *)

Lemma retry_later_wp c x0 x Q : (∀ x0 x Q, wp_to x0 c x Q) → wp_to x0 (retry_later c) x Q.
Proof.
  intros Hc. unfold retry_later. apply (catch_wp conn_ok conn_later); [done|]. intros e k [= <-] ???.
  by apply (conn_pause_wp conn_ok conn_later).
Qed.

(** Only what has missed the connection comes as far as this. *)
Lemma reconnect_wp fuel x0 x Q : hung x = true → wp_to x0 (reconnect open_replica fuel) x Q.
Proof.
  intros Hh Hx Hl HQ. unfold reconnect. apply wp_bind. rewrite wp_atomic. unfold change_flags. run. cbn [fst snd].
  destruct (hung_flags (lost_flags (flags x)) x Hh Hx) as [Hx1 Hl1]. set (x1 := set_flags _ x) in *.
  apply wp_bind. rewrite wp_atomic. destruct (forget_ok x1 Hx1) as [Hx2 Hl2].
  change (forget_reads x1).1 with (Ok tt : result unit). cbv iota.
  apply wp_bind. rewrite wp_atomic. run. cbn [fst snd].
  apply wp_bind. apply (connect_loop_wp open_replica conn_ok conn_later); [done|chain|].
  intros x3 [k|e] x4 Hx4 Hl3 Hl4; [|apply HQ; fin].
  assert (conn_later x x4) as Hl5 by chain. pose proof (cl_hung _ _ Hl5 Hh) as Hh4.
  apply wp_bind. rewrite wp_atomic. run. cbn [fst snd]. rewrite wp_atomic. unfold change_flags. run. cbn [fst snd].
  set (x5 := set_stream k x4).
  assert (conn_ok x5 ∧ conn_later x4 x5) as [Hx5 Hl6].
  { split; [by apply (conn_ok_same x4)|by apply conn_later_same]. }
  destruct (hung_flags (found_flags (flags x5)) x5 Hh4 Hx5). apply HQ; fin.
Qed.

Lemma retry_loop_wp fuel x0 x Q : wp_to x0 (_connection_retry_loop open_replica fuel) x Q.
Proof.
  revert x0 x Q. induction fuel as [|fuel IH]; intros x0 x Q; cbn [_connection_retry_loop].
  - by apply (forever_wp conn_ok conn_later).
  - apply (conn_then_wp conn_ok conn_later); [intros ???; by apply (same_wp conn_ok conn_later)|]. intros f x1 x2 Q2.
    destruct (connected f); cbn [negb]; [|by apply (conn_ret_wp conn_ok conn_later)].
    assert (∀ x1 x2 Q, hung x2 = true → wp_to x1 (f ← atomic (reads (λ x : ControllerConnection S, Ok (flags x)));
        if negb (connected f) then mret tt
        else retry_later (reconnect open_replica (Datatypes.S fuel));; _connection_retry_loop open_replica fuel) x2 Q) as Hgo.
    { intros x3 x4 Q4 Hh Hx4 Hl4 HQ4. apply wp_bind. rewrite wp_atomic. run. cbn [fst snd].
      destruct (connected (flags x4)); cbn [negb]; [|rewrite wp_ret; apply HQ4; fin].
      apply wp_bind. unfold retry_later. apply wp_catch. apply reconnect_wp; [done..|].
      intros x5 [u|e] x6 ? ? ?.
      - apply IH; [fin..|]. intros; apply HQ4; fin.
      - apply (conn_pause_wp conn_ok conn_later); [fin..|]. intros x7 [u|e'] x8 ? ? ?; [|apply HQ4; fin].
        apply IH; [fin..|]. intros; apply HQ4; fin. }
    intros Hx2 Hl2 HQ. apply wp_bind. unfold wait_event. apply wp_bind. rewrite wp_atomic. run. cbn [fst snd].
    destruct (conn_disconnect_event (flags x2)) eqn:Ed.
    + rewrite wp_ret. apply Hgo; [|fin..]. destruct (co_flags _ Hx2) as [?|[Hf|Hf]]; [done|by rewrite Hf in Ed..].
    + cbn [wp]. split_and!; [done..|]. intros x3 Hx3 Hl3 Hr. cbn [wp mret Co_ret]. apply Hgo; [|fin..|].
      * destruct (co_flags _ Hx3) as [?|[Hf|Hf]]; [done|by rewrite Hf in Hr..].
      * intros; apply HQ; fin.
Qed.

Lemma heartbeat_loop_wp fuel x0 x Q : wp_to x0 (_heartbeat_loop fuel) x Q.
Proof.
  revert x0 x Q. induction fuel as [|fuel IH]; intros x0 x Q; cbn [_heartbeat_loop].
  - by apply (forever_wp conn_ok conn_later).
  - apply (conn_then_wp conn_ok conn_later); [intros ???; by apply (same_wp conn_ok conn_later)|]. intros f ???.
    destruct (connected f); cbn [negb]; [|by apply (conn_ret_wp conn_ok conn_later)].
    apply (conn_then_wp conn_ok conn_later); [|intros ????; apply IH]. intros ???. apply retry_later_wp. intros ???.
    apply (conn_then_wp conn_ok conn_later); [intros ???; by apply (same_wp conn_ok conn_later)|]. intros y ???.
    apply (conn_then_wp conn_ok conn_later); [intros ???; apply send_command_loop_wp|]. intros ????.
    by apply (conn_pause_wp conn_ok conn_later).
Qed.

Lemma unsolicited_wp fuel resp x0 x Q : wp_to x0 (_handle_unsolicited_response open_replica fuel resp) x Q.
Proof.
  destruct resp; cbn [_handle_unsolicited_response]; try by apply (conn_ret_wp conn_ok conn_later).
  - by apply (zoom_wp conn_ok conn_later).
  - by apply (zoom_wp conn_ok conn_later).
  - apply handle_disconnect_wp.
Qed.

Lemma reader_round_wp fuel x0 x Q : wp_to x0 (reader_round open_replica fuel) x Q.
Proof.
  unfold reader_round. apply (catch_wp conn_ok conn_later).
  - intros ???. apply (conn_then_wp conn_ok conn_later); [intros ???; by apply (same_wp conn_ok conn_later)|]. intros k ???.
    apply (conn_then_wp conn_ok conn_later); [intros ???; by apply (read_response_wp conn_ok conn_later)|].
    intros [resp|] y1 y2 Q4; [|by apply (done_wp conn_ok conn_later)]. intros Hx Hl HQ.
    apply wp_bind. rewrite wp_atomic. run. cbn [fst snd]. destruct (answered resp y2) as [[c f]|] eqn:Ea.
    + rewrite wp_atomic. destruct (conn_answer_ok c f resp y2 Ea Hx). apply HQ; fin.
    + apply unsolicited_wp; fin.
  - intros e k Hk ???. destruct (_ || _); injection Hk as <-; [apply handle_disconnect_wp|].
    by apply (conn_pause_wp conn_ok conn_later).
Qed.

Lemma reader_loop_wp fuel x0 x Q : wp_to x0 (_reader_loop open_replica fuel) x Q.
Proof.
  revert x0 x Q. induction fuel as [|fuel IH]; intros x0 x Q; cbn [_reader_loop].
  - by apply (forever_wp conn_ok conn_later).
  - apply (conn_then_wp conn_ok conn_later); [intros ???; by apply (same_wp conn_ok conn_later)|]. intros f ???.
    destruct (connected f); cbn [negb]; [|by apply (conn_ret_wp conn_ok conn_later)].
    apply (conn_then_wp conn_ok conn_later); [intros ???; apply reader_round_wp|intros ????; apply IH].
Qed.

Lemma start_wp fuel x0 x Q : wp_to x0 (_start open_replica fuel) x Q.
Proof.
  unfold _start. apply (conn_then_wp conn_ok conn_later); [intros ???; by apply (same_wp conn_ok conn_later)|]. intros f ???.
  destruct (connected f); [by apply (conn_ret_wp conn_ok conn_later)|].
  apply (conn_then_wp conn_ok conn_later); [intros ???; by apply (same_wp conn_ok conn_later)|]. intros all ???.
  apply (conn_then_wp conn_ok conn_later); [intros ???; by apply (connect_loop_wp open_replica conn_ok conn_later)|]. intros k ???.
  apply (conn_then_wp conn_ok conn_later); [intros ???; by apply (same_wp conn_ok conn_later)|]. intros _ ???.
  apply (conn_then_wp conn_ok conn_later); [|intros ????; by apply (same_wp conn_ok conn_later)].
  intros ???. apply (change_wp conn_ok conn_later). intros y Hy. unfold change_flags. run. cbn [snd].
  destruct (co_flags _ Hy) as [Hh|Hf]; [by apply hung_flags|]. destruct Hy as [C1 C2 C3 C4 C5].
  split; [split; try done; right; right|by split]. cbn. by destruct Hf as [-> | ->].
Qed.
End inv.
