(* ===== verification/ConnectionTheorems.v ===== *)
(** * What the connection to the controller guarantees *)
From Stdlib Require Import String.
From stdpp Require Import fin_maps.
From S2P Require Import Prelude Coroutine PyData PyDict Messages Framer Encoder Parser ProtocolFacts RecordFacts Segment Log LogApi Leader Replicas ReplicasFacts ReplicasRun ControllerConnection ConnectionFacts ConnectionSteps ConnectionInv.
From S2P Require LogSteps LogTheorems LeaderTheorems ReplicasTheorems.

Section theorems.
Context {S : Type} `{LogAppendLaws S}.
Context (open_replica : pystr → Z → result unit).
Implicit Types (x y : ControllerConnection S).

(** ** Everything that happens on a connection *)

(** Connecting, the loops and the commands of the broker. *)
Inductive conn_task x : Co (ControllerConnection S) unit → Prop :=
| task_start fuel : conn_task x (_start open_replica fuel)
| task_retry fuel : conn_task x (_connection_retry_loop open_replica fuel)
| task_heartbeat fuel : conn_task x (_heartbeat_loop fuel)
| task_reader fuel : conn_task x (_reader_loop open_replica fuel)
| task_register fuel uuid t : conn_task x (register_topic fuel uuid t;; mret tt)
| task_isr fuel t isr : conn_task x (update_isr fuel t isr)
| task_metadata fuel uuid t : conn_task x (request_metadata fuel uuid t;; mret tt).

(** What the network and the rest of the broker do. *)
Inductive conn_event x : ControllerConnection S → Prop :=
| event_sockets l : conn_event x (set_sockets l x)
| event_dials l : conn_event x (set_dials l (dialed x) x)
| event_replicas r : conn_event x (set_replicas r x).

Definition connection_run := rtc (sched conn_task conn_event).

Lemma conn_task_ok x c : conn_ok x → conn_task x c →
  wp conn_ok conn_later conn_later x c x (λ x0 _ y, conn_ok y ∧ conn_later x0 y).
Proof.
  intros Hx []; [apply start_wp|apply retry_loop_wp|apply heartbeat_loop_wp|apply reader_loop_wp| | |];
    try done; unfold register_topic, update_isr, request_metadata;
    (apply (conn_then_wp conn_ok conn_later); [intros ???; apply send_command_loop_wp|
       intros ????; by apply (conn_ret_wp conn_ok conn_later)|done|reflexivity|done]).
Qed.

Lemma conn_event_ok x y : conn_ok x → conn_event x y → conn_ok y ∧ conn_later x y.
Proof.
  intros Hx He. assert (core y = core x) as E by by destruct He.
  split; [by apply (conn_ok_same x)|by apply conn_later_same].
Qed.

Lemma connection_run_ok a b : connection_run a b → sched_ok conn_ok conn_later conn_later a →
  sched_ok conn_ok conn_later conn_later b ∧ conn_later a.2 b.2.
Proof. apply sched_rtc_ok; [apply _|done|apply conn_task_ok|apply conn_event_ok]. Qed.

Lemma new_connection_ok c r network : conn_ok (new_connection (S := S) c r network).
Proof. split; try done; [by right; left|constructor]. Qed.

Lemma conn_reached_ok c r network ts x : connection_run ([], new_connection c r network) (ts, x) → conn_ok x.
Proof.
  intros Hrun. apply (connection_run_ok _ _ Hrun). split; [apply new_connection_ok|constructor].
Qed.


(** ** Losing the connection *)

Lemma wait_usable_resume fuel stale x :
  conn_status_event (flags x) = true → usable stale (flags x) = false →
  resume (wait_usable fuel stale) x = (forever, set_hung x).
Proof.
  intros He Hu. induction fuel as [|fuel IH]; [done|]. cbn. rewrite He. cbn. rewrite Hu. exact IH.
Qed.

Lemma wait_usable_run fuel stale x :
  conn_status_event (flags x) = true → usable stale (flags x) = false →
  run (wait_usable fuel stale) x = (Raise RuntimeError, set_hung x).
Proof.
  intros He Hu. induction fuel as [|fuel IH]; [done|]. cbn. rewrite He. cbn. rewrite Hu. exact IH.
Qed.

(** The state after a loss has been noticed. *)
Definition noticed x : ControllerConnection S :=
  set_hung (set_flags (set_disconnected true (flags x)) x).

Lemma wait_for_connection_spins fuel stale x :
  conn_status_event (flags x) = true → connected (flags x) = true → usable stale (flags x) = false →
  resume (_wait_for_connection fuel stale) x = (forever, set_hung x) ∧
  run (_wait_for_connection fuel stale) x = (Raise RuntimeError, set_hung x).
Proof.
  intros He Hc Hu. unfold _wait_for_connection.
  split; cbn -[wait_usable usable]; rewrite Hc; cbn -[wait_usable usable]; rewrite Hu;
    [by apply wait_usable_resume|by apply wait_usable_run].
Qed.

Lemma handle_disconnect_spins fuel x : first (flags x) →
  resume (_handle_disconnect fuel) x = (forever, noticed x) ∧
  run (_handle_disconnect fuel) x = (Raise RuntimeError, noticed x).
Proof.
  intros Hf. pose proof (wait_for_connection_spins fuel 0 (set_flags (set_disconnected true (flags x)) x)) as Hw.
  rewrite Hf in Hw. destruct (Hw eq_refl eq_refl eq_refl) as [Hr Hr'].
  unfold _handle_disconnect, noticed. rewrite Hf.
  split; cbn -[_wait_for_connection set_hung set_flags]; rewrite Hf; cbn -[_wait_for_connection set_hung set_flags]; rewrite Hf;
    cbn -[_wait_for_connection set_hung set_flags]; [exact Hr|exact Hr'].

Qed.

(** The other end has closed the connection and everything is read. *)
Definition ended x : Prop :=
  ∃ k sk, stream x = Some k ∧ sockets x !! k = Some sk ∧ at_eof sk = true ∧ inbox sk = [] ∧ failure sk = None.

Lemma ended_round fuel x : first (flags x) → ended x →
  ∃ y, run (reader_round open_replica fuel) x = (Raise RuntimeError, y) ∧ hung y = true.
Proof.
  intros Hf (k & sk & Hk & Hsk & He & Hi & Hfail). unfold reader_round.
  rewrite run_co_catch, run_co_bind, run_atomic. run. rewrite Hk. cbn [or_raise]. cbv iota.
  rewrite run_co_bind. unfold _read_response. rewrite run_co_bind. unfold read_socket at 1. rewrite run_co_bind.
  cbn [run]. rewrite run_co_ret, run_atomic. unfold read_bytes, get_socket, put_socket. run. rewrite Hsk. cbn [or_raise].
  run. rewrite Hfail, Hi. cbn [readexactly]. change (readexactly (Z.of_nat PREFIX_SIZE) []) with (Raise IncompleteReadError : result (bytes * bytes)).
  rewrite He. run. cbv iota. cbn [is_OSError orb]. rewrite bool_decide_eq_true_2 by done.
  rewrite (proj2 (handle_disconnect_spins fuel (set_sockets (<[k:=set_inbox [] sk]> (sockets x)) x) Hf)). by eexists.
Qed.

(** C37: whatever has happened before, a broker that is connected and has not hung is on its
    first connection, [connection_id] 0.  When it loses that connection,
    [_handle_disconnect] waits for a newer one while the event of the old one is still
    set: for every number of rounds it goes round without ever suspending, so the event
    loop never runs the task that would connect again.  This is what a round of the
    reader comes to when the controller has closed the connection. *)
Theorem lost_connection_hangs c r network ts x fuel :
  connection_run ([], new_connection c r network) (ts, x) →
  connected (flags x) = true → hung x = false →
  connection_id (flags x) = 0 ∧ reconnecting (flags x) = false ∧
  (∃ y, resume (_handle_disconnect fuel) x = (forever, y) ∧ hung y = true) ∧
  (ended x → ∃ y, run (reader_round open_replica fuel) x = (Raise RuntimeError, y) ∧ hung y = true).
Proof.
  intros Hrun Hc Hh. pose proof (co_flags _ (conn_reached_ok _ _ _ _ _ Hrun)) as [?|[Hf|Hf]]; [congruence|by rewrite Hf in Hc|].
  split_and!; [by rewrite Hf..| |by apply ended_round]. exists (noticed x). split; [by apply handle_disconnect_spins|done].
Qed.

(** ** Finding the leader *)

(** C8: starting finds the leader.  If the first controllers of the list do not answer, the
    next one refers the broker to another, which may again refer it further, and the
    last one so named answers with its list of topics, then the broker dials exactly
    those controllers in that order; the connection it keeps is the one to the leader,
    on which it has sent its registration once; and it leads or follows exactly the
    topics of the list that it is a replica of.  [fuel] bounds the attempts. *)
Theorem leader_found down es first more sks hints fuel x final network hdr metas :
  connected (flags x) = false → controller_list (conn_config x) = down ++ first :: more →
  Forall (λ e, is_OSError e = true) es → length es = length down →
  Forall2 refers sks hints →
  dials x = (Raise <$> es) ++ (Ok <$> sks) ++ Ok final :: network →
  answers_with final (mkPacket hdr (TopicMetaDataListResponse metas)) → register_ok x →
  manager_ok (replica_manager x) → quiet (replica_manager x) → NoDup (tm_topic <$> metas) →
  Forall (meta_ok (broker_id (manager (replica_manager x)))) metas →
  (length down + length sks < fuel)%nat →
  ∃ y k sk, run (_start open_replica fuel) x = (Ok tt, y) ∧
    connected (flags y) = true ∧ dialed y = dialed x ++ down ++ first :: hints ∧ dials y = network ∧
    stream y = Some k ∧ sockets y !! k = Some sk ∧ sent sk = sent final ++ [register_command x] ∧
    ∀ t, is_Some (dict_get (topics (manager (replica_manager y))) t) ↔
      ∃ meta, meta ∈ metas ∧ tm_topic meta = t ∧
        broker_id (manager (replica_manager x)) ∈ tm_replica_list meta.
Proof.
  intros Hc Hall He Hlen Hs Hd Ha Hr Hm Hq Hnd Hok Hfuel.
  destruct (apply_metadata_list_run open_replica metas (replica_manager x) Hm Hq Hnd Hok)
    as (rm & Erm & _ & _ & _ & Hgone & Hpl).
  assert (leads_with open_replica final rm x) as Hl by (by exists hdr, metas).
  destruct (search_run open_replica down es first more sks hints fuel x final network rm He Hlen Hs Hd Hr Hl Hfuel)
    as (l & rest & E).
  unfold _start. rewrite run_co_bind, run_atomic. run. rewrite Hc. cbv iota.
  rewrite run_co_bind, run_atomic. run. rewrite Hall. cbv iota.
  rewrite run_co_bind, E. cbv iota. rewrite run_co_bind, run_atomic. run. cbv iota.
  rewrite run_co_bind, run_atomic. unfold change_flags. run. cbv iota. rewrite run_atomic. run.
  do 3 eexists. split; [reflexivity|]. split; [done|]. split; [done|]. split; [done|]. split; [done|]. split.
  { cbn. rewrite lookup_app_r by lia. rewrite lookup_app_r by lia.
    replace (_ - _ - _)%nat with 0%nat by lia. reflexivity. }
  split; [done|]. intros t. cbn. split.
  - intros [o Ho]. destruct (decide (t ∈ tm_topic <$> metas)) as [Hin|Hn]; [|by rewrite Hgone in Ho].
    apply list_elem_of_fmap in Hin as (meta & -> & Hin). exists meta. split_and!; [done..|].
    pose proof (Hpl meta Hin) as Hp. unfold placed in Hp. case_bool_decide; [done|congruence].
  - intros (meta & Hin & <- & Hmem). pose proof (Hpl meta Hin) as Hp. unfold placed in Hp.
    rewrite bool_decide_eq_true_2 in Hp by done. destruct Hp as (o & st & ? & _). by exists o.
Qed.
End theorems.

(** ** A sample broker, with the log itself *)
Import LogSteps LogTheorems LeaderTheorems ReplicasTheorems.

#[local] Instance sample_append : LogAppend Log := log_append sample_config.
#[local] Instance sample_laws : LogAppendLaws Log := log_append_laws sample_config.

Definition encoded (p : Packet Response) : bytes :=
  match encode_response p with Ok f => wire f | Raise _ => [] end.

Definition sample_controllers : list ControllerAddress :=
  [mkControllerAddress (py "c1") (py "10.0.0.1") 9090; mkControllerAddress (py "c2") (py "10.0.0.2") 9090].
Definition third : ControllerAddress := mkControllerAddress (py "c3") (py "10.0.0.3") 9090.
Definition sample_connection_config : ConnectionConfig := mkConnectionConfig (py "h1") 9001 sample_controllers.

Definition socket_with (p : Packet Response) : Socket := mkSocket true [] (encoded p) false None.
Definition referral : Packet Response := packet (NotLeaderControllerResponse (py "c3") (py "10.0.0.3") 9090).
Definition the_list : Packet Response := packet (TopicMetaDataListResponse metas).
(** The first controller is down, the second one refers to the third one, which leads. *)
Definition sample_network : list (result Socket) :=
  [Raise ConnectionError; Ok (socket_with referral); Ok (socket_with the_list)].
Definition sample_connection : ControllerConnection Log :=
  new_connection sample_connection_config fresh sample_network.

Definition Tasks : Type := list (Co (ControllerConnection Log) unit) * ControllerConnection Log.

Inductive move :=
| Start
| Read
| Register (uuid topic : pystr)
| Resume (j : nat)
| Arrive (k : nat) (data : bytes)
| Hang_up (k : nat).

Definition sample_task (m : move) : option (Co (ControllerConnection Log) unit) :=
  match m with
  | Start => Some (_start reachable 10)
  | Read => Some (_reader_loop reachable 10)
  | Register uuid t => Some (register_topic 10 uuid t;; mret tt)
  | _ => None
  end.

Definition change_socket (k : nat) (f : Socket → Socket) (x : ControllerConnection Log) : ControllerConnection Log :=
  set_sockets (alter f k (sockets x)) x.

Definition play (x : Tasks) (m : move) : Tasks :=
  let '(ts, s) := x in
  match m with
  | Resume j =>
      match ts !! j with
      | Some (Await ready k) => if ready s then (<[j := (resume k s).1]> ts, (resume k s).2) else x
      | _ => x
      end
  | Arrive k data => (ts, change_socket k (λ sk, set_inbox (inbox sk ++ data) sk) s)
  | Hang_up k => (ts, change_socket k (λ sk, mkSocket (writable sk) (sent sk) (inbox sk) true (failure sk)) s)
  | _ => match sample_task m with
         | Some c => (ts ++ [(resume c s).1], (resume c s).2)
         | None => x
         end
  end.

Lemma conn_play_ok x y m : connection_run reachable x y → connection_run reachable x (play y m).
Proof.
  intros Hx. etrans; [exact Hx|]. destruct y as [ts s], m as [| |uuid t|j|k data|k];
    cbn -[_start _reader_loop register_topic change_socket].
  1-3: eapply rtc_once, sched_spawn; [by constructor|apply surjective_pairing].
  - destruct (ts !! j) as [[r|? m k|ready k]|] eqn:Hj; try reflexivity.
    destruct (ready s) eqn:Hr; [|reflexivity].
    eapply rtc_once, sched_resume; [exact Hj|exact Hr|]. apply surjective_pairing.
  - apply rtc_once, sched_env, event_sockets.
  - apply rtc_once, sched_env, event_sockets.
Qed.

Lemma conn_play_all_ok x y l : connection_run reachable x y → connection_run reachable x (fold_left play l y).
Proof. revert y. induction l as [|m l IH]; intros y Hx; [done|]. by apply IH, conn_play_ok. Qed.

Definition not_started : Tasks := ([], sample_connection).
(** Connected, with a request on its way. *)
Definition asked : Tasks :=
  fold_left play (Start :: repeat (Resume 0) 30 ++ [Read; Register (py "u1") orders; Resume 2; Resume 2; Resume 2]) not_started.
(** A list comes first, then the answer. *)
Definition the_answer : Packet Response := mkPacket (Some (mkPacketHeader (py "u1"))) (TopicMetaDataResponse led).
Definition served : Tasks :=
  fold_left play (Arrive 1 (encoded the_list) :: Arrive 1 (encoded the_answer) :: repeat (Resume 1) 30) asked.

Lemma asked_run : connection_run reachable not_started asked.
Proof. unfold asked. by apply conn_play_all_ok. Qed.
Lemma served_run : connection_run reachable asked served.
Proof. unfold served. by apply conn_play_all_ok. Qed.


(** The leader hangs up. *)
Definition dropped : Tasks := play served (Hang_up 1).

Lemma lost_connection_hangs_witness :
  hung dropped.2 = false ∧
  ∃ y, run (reader_round reachable 1000) dropped.2 = (Raise RuntimeError, y) ∧ hung y = true.
Proof.
  assert (hung dropped.2 = false) as Hh by (vm_compute; reflexivity). split; [exact Hh|].
  assert (connection_run reachable ([], sample_connection) (dropped.1, dropped.2)) as Hrun.
  { rewrite <-surjective_pairing. unfold dropped. apply conn_play_ok. etrans; [exact asked_run|exact served_run]. }
  destruct (lost_connection_hangs reachable _ _ _ _ _ 1000 Hrun) as (_ & _ & _ & He);
    [vm_compute; reflexivity|exact Hh|].
  apply He. exists 1%nat. eexists. split; [vm_compute; reflexivity|].
  split; [vm_compute; reflexivity|]. split; [reflexivity|]. split; reflexivity.
Defined.

Lemma socket_answers p : wire_header (header p) → sendable (body p) → is_Ok (encode_response p) →
  answers_with (socket_with p) p.
Proof.
  intros Hh Hs [f E]. split_and!; try done. exists f, []. split; [done|]. cbn. unfold encoded. by rewrite E, app_nil_r.
Qed.

Lemma leader_found_witness :
  ∃ y, run (_start reachable 10) sample_connection = (Ok tt, y) ∧ connected (flags y) = true ∧
    dialed y = sample_controllers ++ [third] ∧ is_Some (dict_get (topics (manager (replica_manager y))) orders).
Proof.
  destruct (leader_found reachable [mkControllerAddress (py "c1") (py "10.0.0.1") 9090] [ConnectionError]
    (mkControllerAddress (py "c2") (py "10.0.0.2") 9090) [] [socket_with referral] [third] 10
    sample_connection (socket_with the_list) [] None metas) as (y & k & sk & Hy & Hc & Hd & _ & _ & _ & _ & Ht).
  - reflexivity.
  - reflexivity.
  - repeat constructor.
  - reflexivity.
  - constructor; [|constructor]. exists None, (py "c3"), (py "10.0.0.3"), 9090. split; [|vm_compute; reflexivity].
    apply socket_answers; [exact I| |eexists; vm_compute; reflexivity].
    split; apply (bool_decide_unpack _); vm_compute; exact I.
  - reflexivity.
  - apply socket_answers; [exact I| |eexists; vm_compute; reflexivity].
    split; repeat constructor; try (apply (bool_decide_unpack _); vm_compute; exact I).
  - eexists. vm_compute. reflexivity.
  - exact fresh_ok.
  - exact fresh_quiet.
  - exact metas_distinct.
  - exact metas_ok.
  - cbn. lia.
  - exists y. split; [exact Hy|]. split; [exact Hc|]. split; [exact Hd|].
    apply Ht. exists led. split; [left|]. split; [reflexivity|]. left.
Defined.
