(* ===== verification/BrokerLife.v ===== *)
(** * The life of a broker

    [start_server] and [close] of [network/broker.py] with the tasks of the clients,
    and [connect] and [close] of [network/controller.py] with its three tasks.  What
    the sockets do is an input or in the state, as in [Broker] and
    [ControllerConnection]. *)
From Stdlib Require Import String.
From S2P Require Import Prelude Coroutine PyData PyDict Messages Framer Encoder Parser Segment Log LogApi Leader Replicas ReplicasFacts ReplicasRun Writer Broker ControllerConnection.
From S2P Require LogSteps LogTheorems LeaderTheorems ReplicasTheorems BrokerFacts BrokerTheorems ConnectionFacts.

(** [controller] says whether [self.controller] is set, [conn_tasks] whether the tasks of
    the connection are there and not cancelled, and [listener] is [self.server], which
    does not exist before it is assigned, with whether it accepts connections.  [clients]
    is [_client_tasks]; [client_errors] has the exceptions that ended handlers. *)
Record BrokerServer (S : Type) := mkBrokerServer {
  broker : Broker S;
  conn : ControllerConnection S;
  controller : bool;
  conn_tasks : bool;
  running : bool;
  ready : bool;
  listener : option bool;
  clients : list nat;
  cancelled : gset nat;
  client_errors : gmap nat exn }.
Arguments mkBrokerServer {S}.
Arguments broker {S}.
Arguments conn {S}.
Arguments controller {S}.
Arguments conn_tasks {S}.
Arguments running {S}.
Arguments ready {S}.
Arguments listener {S}.
Arguments clients {S}.
Arguments cancelled {S}.
Arguments client_errors {S}.

Section life.
Context {S : Type} `{LogApi S} `{LogAppend S}.
Context (open_replica : pystr → Z → result unit).
Abbreviation Srv := (BrokerServer S).

Definition new_broker_server (b : Broker S) (cc : ConnectionConfig) (network : list (result Socket)) : Srv :=
  mkBrokerServer b (new_connection cc (replication b) network) false false false false None [] ∅ ∅.

Definition set_broker (b : Broker S) (s : Srv) : Srv :=
  mkBrokerServer b (conn s) (controller s) (conn_tasks s) (running s) (ready s) (listener s) (clients s) (cancelled s) (client_errors s).
Definition set_connection (x : ControllerConnection S) (s : Srv) : Srv :=
  mkBrokerServer (broker s) x (controller s) (conn_tasks s) (running s) (ready s) (listener s) (clients s) (cancelled s) (client_errors s).
Definition set_controller (s : Srv) : Srv :=
  mkBrokerServer (broker s) (conn s) true (conn_tasks s) (running s) (ready s) (listener s) (clients s) (cancelled s) (client_errors s).
Definition set_tasks (t : bool) (s : Srv) : Srv :=
  mkBrokerServer (broker s) (conn s) (controller s) t (running s) (ready s) (listener s) (clients s) (cancelled s) (client_errors s).
Definition set_running (r : bool) (s : Srv) : Srv :=
  mkBrokerServer (broker s) (conn s) (controller s) (conn_tasks s) r (ready s) (listener s) (clients s) (cancelled s) (client_errors s).
Definition set_ready (s : Srv) : Srv :=
  mkBrokerServer (broker s) (conn s) (controller s) (conn_tasks s) (running s) true (listener s) (clients s) (cancelled s) (client_errors s).
Definition set_listener (l : option bool) (s : Srv) : Srv :=
  mkBrokerServer (broker s) (conn s) (controller s) (conn_tasks s) (running s) (ready s) l (clients s) (cancelled s) (client_errors s).
Definition set_clients (l : list nat) (s : Srv) : Srv :=
  mkBrokerServer (broker s) (conn s) (controller s) (conn_tasks s) (running s) (ready s) (listener s) l (cancelled s) (client_errors s).
Definition set_errors (m : gmap nat exn) (s : Srv) : Srv :=
  mkBrokerServer (broker s) (conn s) (controller s) (conn_tasks s) (running s) (ready s) (listener s) (clients s) (cancelled s) m.

(** The connection shares the replica manager with the broker; its own field is not
    read. *)
Definition get_connection (s : Srv) : ControllerConnection S := set_replicas (replication (broker s)) (conn s).
Definition put_connection (x : ControllerConnection S) (s : Srv) : Srv :=
  set_connection (set_replicas (replica_manager (conn s)) x)
    (set_broker (set_replication (replica_manager x) (broker s)) s).

Definition on_broker {A} : Co (Broker S) A → Co Srv A := co_zoom broker set_broker.
Definition on_connection {A} : Co (ControllerConnection S) A → Co Srv A := co_zoom get_connection put_connection.

(** ** The connection to the controller *)

(** [connect], which is [_start] of a new connection; it creates the tasks. *)
Definition connect (fuel : nat) : Co Srv unit :=
  on_connection (_start open_replica fuel);;
  atomic (modify (set_tasks true)).

(** The properties. *)
Definition is_connected (x : ControllerConnection S) : bool := connected (flags x).
Definition current_id (x : ControllerConnection S) : Z := connection_id (flags x).
Definition is_reconnecting (x : ControllerConnection S) : bool := reconnecting (flags x).

Definition closed_flags (f : Flags) : Flags :=
  mkFlags false (reconnecting f) (connection_id f) (conn_status_event f) (conn_disconnect_event f).
Definition final_flags (f : Flags) : Flags :=
  mkFlags (connected f) (reconnecting f) (connection_id f) false true.
Definition stop_reports (x : ControllerConnection S) : ControllerConnection S :=
  mkConnection (conn_config x) (replica_manager x) (flags x) (pending_reads x) (expected x) (read_results x) (sockets x)
    (stream x) (dials x) (dialed x) false (hung x).
Definition close_socket (sk : Socket) : Socket := mkSocket false (sent sk) (inbox sk) (at_eof sk) (failure sk).

(** [fut.cancel()] for the reads that are not done *)
Definition cancel_reads (d : list (list Z * nat)) (m : gmap nat (result (Packet Response))) :
    gmap nat (result (Packet Response)) :=
  fold_left (λ m f, match m !! f with Some _ => m | None => <[f := Raise CancelledError]> m end) (dict_values d) m.

(** A connection that was never found has no [_writer]. *)
Definition close_connection : Co Srv unit :=
  on_connection (atomic (modify (λ x, stop_reports (set_flags (closed_flags (flags x)) x))));;
  atomic (modify (set_tasks false));;
  on_connection (
    k ← atomic (reads (λ x, or_raise (stream x) AttributeError));
    atomic (sk ← get_socket k; put_socket k (close_socket sk));;
    pause;;
    atomic (modify (λ x, set_pending [] (expected x) (cancel_reads (pending_reads x) (read_results x)) x));;
    atomic (modify (λ x, set_flags (final_flags (flags x)) x))).

(** [async with] *)
Definition __aenter__ (fuel : nat) : Co Srv unit := connect fuel.
Definition __aexit__ : Co Srv unit := close_connection.

(** ** The clients *)

Definition update_client (i : nat) (f : Connection → Connection) : M Srv unit :=
  modify (λ s, set_broker (Broker.update_connection i f (broker s)).2 s).

(** The end of [handle_client]. *)
Definition leave (i : nat) : Co Srv unit :=
  atomic (modify (λ s, set_clients (filter (λ j, j ≠ i) (clients s)) s));;
  atomic (update_client i (set_status Closed));;
  pause.

(** After a round, and before the first one. *)
Definition next (i : nat) : Co Srv unit :=
  s ← atomic get;
  match conn_status <$> connections (broker s) !! i with
  | Some Closed => leave i
  | Some Reading => if running s then mret tt else leave i
  | _ => mret tt
  end.

Definition enter_client (i : nat) : Co Srv unit :=
  atomic (modify (λ s, set_clients (clients s ++ [i])
    (set_broker (set_connections (<[i := Broker.new_connection]> (connections (broker s))) (broker s)) s)));;
  next i.

(** What a cancelled handler leaves behind: the [with] block it was in releases its
    handle. *)
Definition end_client (i : nat) (s : Srv) : Srv :=
  (update_client i (set_status Closed) (set_broker (exit_read i (broker s)) s)).2.

Definition handle_client (o : Outside) (i : nat) (input : received) : Co Srv unit :=
  cancellable (λ s, bool_decide (i ∈ cancelled s)) (end_client i)
    (co_catch (on_broker (handle_round o i input);; next i)
       (λ e, Some (atomic (modify (λ s, set_errors (<[i := e]> (client_errors s)) s));; Done (Raise e)))).

(** ** Start and end *)

(** [bound] is what [asyncio.start_server] comes to. *)
Definition _create_controller_connection (fuel : nat) : Co Srv unit :=
  s ← atomic get;
  if bool_decide (controller_list (conn_config (conn s)) = []) then Done (Raise ValueError) else connect fuel.

Definition start_server (fuel : nat) (bound : result unit) : Co Srv unit :=
  atomic (modify (set_running true));;
  s ← atomic get;
  (if bool_decide (controller_list (conn_config (conn s)) = []) then mret tt
   else _create_controller_connection fuel;; atomic (modify set_controller));;
  pause;;
  atomic (lift bound);;
  atomic (modify (set_listener (Some true)));;
  atomic (modify set_ready);;
  Await (λ s, bool_decide (listener s = Some false)) (mret tt).

Definition wait_ready : Co Srv unit := Await ready (mret tt).
Definition controller_connected (s : Srv) : bool := controller s && is_connected (conn s).





(** ** [close], run alone *)













End life.

Section shutdown.
Context {S : Type} `{LogAppendLaws S}.




End shutdown.

(** ** The sample broker, started without a controller

    It leads a topic with a message.  A client sends a packet that is cut off, which
    ends its handler with [IndexError]. *)
Import LogSteps LogTheorems LeaderTheorems ReplicasTheorems BrokerTheorems.

#[local] Instance sample_append : LogAppend Log := log_append sample_config.
#[local] Instance sample_laws : LogAppendLaws Log := log_append_laws sample_config.

Definition again {A} (x : Co (BrokerServer Log) A * BrokerServer Log) : Co (BrokerServer Log) A * BrokerServer Log :=
  match x.1 with Await ready k => if ready x.2 then resume k x.2 else x | _ => x end.
Definition standalone : BrokerServer Log :=
  (again (resume (start_server no_connection 1 (Ok tt))
     (new_broker_server pulled.2 (mkConnectionConfig (py "h1") 9001 []) []))).2.
Definition joined : BrokerServer Log := (resume (enter_client 5) standalone).2.
Definition crashed_client : BrokerServer Log :=
  (resume (handle_client the_outside 5 (Frame (py "CID"))) joined).2.

Example standalone_listens :
  (listener standalone, running standalone, ready standalone, controller standalone) = (Some true, true, true, false).
Proof. vm_compute. reflexivity. Qed.
Example crashed_stays : (clients crashed_client, client_errors crashed_client) = ([5%nat], {[5%nat := IndexError]}).
Proof. vm_compute. reflexivity. Qed.



(** Another broker has found its controller. *)
Definition a_controller : ConnectionConfig :=
  mkConnectionConfig (py "h1") 9001 [mkControllerAddress (py "c1") (py "10.0.0.1") 9090].
Definition no_topics : bytes :=
  match encode_response (packet (TopicMetaDataListResponse [])) with Ok f => ConnectionFacts.wire f | Raise _ => [] end.
Definition managed : BrokerServer Log :=
  let b := new_broker the_config one_writer false log0 in
  (Nat.iter 20 again (resume (start_server no_connection 5 (Ok tt))
     (new_broker_server (set_replication fresh b) a_controller [Ok (mkSocket true [] no_topics false None)]))).2.

Example managed_connected :
  (controller managed, listener managed, controller_connected managed, conn_tasks managed) = (true, Some true, true, true).
Proof. vm_compute. reflexivity. Qed.


