(* ===== verification/ClusterTheorems.v ===== *)
(** * The controller and a broker together

    What the controller has written to a connection is what the broker at the other
    end reads, and what it makes of it. *)
From Stdlib Require Import String.
From stdpp Require Import fin_maps.
From S2P Require Import Prelude Coroutine PyData PyDict Md5 Messages Framer Encoder Parser ProtocolFacts RecordFacts Ring RingFacts RingTheorems Metastore StorageFacts ManagerFacts MetastoreTheorems Controller ControllerFacts ControllerSteps ControllerRun.
From S2P Require ControllerTheorems.
From S2P Require Import Segment Log LogApi Leader Replicas ReplicasFacts ReplicasRun ControllerConnection ConnectionFacts.
From S2P Require Heapq SegmentRegistry SegmentMemory LogNames LogInv LogRead LogSteps LogTheorems LeaderTheorems ReplicasTheorems ConnectionTheorems.

Section controller.
Context {S : Type} `{StorageLaws S} (brokers : list (list Z)) (count : Z).
Implicit Types (s : Server S).

(** The list that is sent has one entry per topic. *)
Lemma current_list_entries s : server_ok brokers count s →
  let m := Controller.manager s in
  NoDup (tm_topic <$> current_list s) ∧
  ∀ meta, meta ∈ current_list s ↔
    ∃ md, st_topics (MetastoreManager.storage m) !! tm_topic meta = Some md ∧ meta = response_of m md.
Proof.
  intros Hs m. pose proof (cl_store _ _ (gd_cluster _ _ _ (sv_good _ _ _ Hs))) as Hst.
  destruct (metadata_list_run m Hst) as (ts & E & Hnd & Hts). unfold current_list, m in *. rewrite E. cbn [fst].
  split; [by rewrite <-list_fmap_compose|]. intros meta. split.
  - intros (md & -> & Hmd)%list_elem_of_fmap. exists md. split; [|done]. by apply Hts.
  - intros (md & Hmd & ->). apply list_elem_of_fmap. exists md. split; [done|]. by apply Hts.
Qed.
End controller.

Section cluster.
Context {S L : Type} `{StorageLaws S} `{LogAppendLaws L} (brokers : list (list Z)) (count : Z).
Context (Hcf : collision_free _hash 50 brokers) (Hcount : 1 <= count).
Context (open_replica : pystr → Z → result unit).
Implicit Types (s : Server S) (x y : ControllerConnection L).

(** The names that a list of metadata takes over the wire to broker [id]. *)
Definition transportable (id : pystr) (metas : list TopicMeta) : Prop :=
  sendable (TopicMetaDataListResponse metas) ∧ Forall (meta_ok id) metas.

(** The next thing broker [id] will read is [resp]; nothing else is under way in it. *)
Record receives (id : pystr) (resp : Packet Response) x : Prop := {
  rc_id : broker_id (manager (replica_manager x)) = id;
  rc_ok : manager_ok (replica_manager x);
  rc_quiet : quiet (replica_manager x);
  rc_data : ∃ k sk f rest, stream x = Some k ∧ sockets x !! k = Some sk ∧ failure sk = None ∧
    encode_response resp = Ok f ∧ inbox sk = wire f ++ rest }.

Lemma unsolicited_round fuel x id metas :
  receives id (packet (TopicMetaDataListResponse metas)) x → transportable id metas →
  ∃ k sk rest, run (reader_round open_replica fuel) x =
    run (co_catch (apply_metadata_list open_replica metas)
      (λ e, if is_OSError e || bool_decide (e = IncompleteReadError)
            then Some (_handle_disconnect fuel) else Some pause)) (put_inbox k sk rest x).
Proof.
  intros [_ _ _ (k & sk & f & rest & Hk & Hsk & Hf & He & Hin)] [Hsend _]. exists k, sk, rest.
  unfold reader_round. rewrite !run_co_catch, run_co_bind, run_atomic. run. rewrite Hk. cbn [or_raise]. cbv iota.
  rewrite run_co_bind, (read_response_run false k x sk (packet (TopicMetaDataListResponse metas)) f rest Hsk Hf Hin I Hsend He). cbv iota.
  rewrite run_co_bind, run_atomic. run. reflexivity.
Qed.

(** C4: what the broker leads and follows is what the controller has decided: after a
    broadcast, a broker that is still active and reads what was written to its
    connection last has exactly the topics that the controller keeps it among the
    replicas of, and for each of them the same leader, replicas and version, unless it
    already had metadata that is no older or says the same. *)
Theorem broadcast_followed depth s s' id a :
  server_ok brokers count s → (length (active_brokers s) < depth)%nat →
  run (broadcast_metadata depth) s = (Ok tt, s') → dict_get (active_brokers s') id = Some a →
  ∃ l resp, links s' !! ab_link a = Some l ∧ last (answers l) = Some resp ∧
    ∀ fuel x, receives id resp x → transportable id (current_list s') →
      ∃ y, run (reader_round open_replica fuel) x = (Ok tt, y) ∧ manager_ok (replica_manager y) ∧
        (∀ t, is_Some (dict_get (topics (manager (replica_manager y))) t) ↔
           ∃ md, st_topics (MetastoreManager.storage (Controller.manager s')) !! t = Some md ∧ id ∈ Metastore.replica_list md) ∧
        ∀ t md, st_topics (MetastoreManager.storage (Controller.manager s')) !! t = Some md →
          id ∈ Metastore.replica_list md →
          ∃ r st, dict_get (topics (manager (replica_manager y))) t = Some r ∧
            objects (manager (replica_manager y)) !! r = Some st ∧
            (ts_leader_id st = Metastore.leader_id md ∧ ts_replicas st = Metastore.replica_list md ∧ ts_version st = Metastore.version md ∨
             dict_get (topics (manager (replica_manager x))) t = Some r ∧
             objects (manager (replica_manager x)) !! r = Some st ∧
             outdated id (response_of (Controller.manager s') md) st).
Proof.
  intros Hs Hl E Ha.
  destruct (broadcast_run brokers count depth _ s (disconnect_run brokers Hcf count Hcount depth) Hs Hl) as (_ & _ & Hinf).
  destruct (srv_run_ok brokers count (broadcast_metadata depth) s) as [Hs' _];
    [apply prompt_broadcast; intros; apply prompt_disconnect|done
    |intros Q HQ; by apply (broadcast_metadata_wp brokers Hcf count Hcount)|].
  unfold broadcast_metadata in *. rewrite E in *. cbn [fst snd] in *.
  destruct (Hinf eq_refl id a Ha) as [_ (l & Hlk & Hlast)]. do 2 eexists. split; [done|]. split; [done|].
  intros fuel x Hx Ht. destruct (unsolicited_round fuel x id _ Hx Ht) as (k & sk & rest & ->).
  destruct (current_list_entries brokers count s' Hs') as [Hnd Hin]. destruct Ht as [_ Hok].
  pose proof (rc_id _ _ _ Hx) as Hid.
  destruct (apply_metadata_list_run open_replica (current_list s') (replica_manager x) (rc_ok _ _ _ Hx) (rc_quiet _ _ _ Hx)
    Hnd) as (rm & Erm & Hrm & _ & _ & Hgone & Hpl); [by rewrite Hid|].
  rewrite run_co_catch. unfold apply_metadata_list. rewrite run_co_zoom by (done || by intros []).
  change (replica_manager (put_inbox k sk rest x)) with (replica_manager x). rewrite Erm.
  eexists. split; [reflexivity|]. cbn [replica_manager set_replicas]. split; [done|].
  assert (∀ md, st_topics (MetastoreManager.storage (Controller.manager s')) !! Metastore.topic md = Some md →
    placed (response_of (Controller.manager s') md) (replica_manager x) rm) as Hpl'.
  { intros md Hmd. apply Hpl, Hin. by exists md. }
  pose proof (cl_store _ _ (gd_cluster _ _ _ (sv_good _ _ _ Hs'))) as Hst.
  split.
  - intros t. split.
    + intros [o Ho]. destruct (decide (t ∈ tm_topic <$> current_list s')) as [Hi|Hn]; [|by rewrite Hgone in Ho].
      apply list_elem_of_fmap in Hi as (meta & -> & (md & Hmd & ->)%Hin). exists md. split; [done|].
      specialize (Hpl' md Hmd). unfold placed in Hpl'. rewrite Hid in Hpl'. case_bool_decide; [done|congruence].
    + intros (md & Hmd & Hr). pose proof (st_named _ _ _ Hst Hmd) as <-. specialize (Hpl' md Hmd).
      unfold placed in Hpl'. rewrite Hid, bool_decide_eq_true_2 in Hpl' by done. destruct Hpl' as (o & _ & ? & _). by exists o.
  - intros t md Hmd Hr. pose proof (st_named _ _ _ Hst Hmd) as <-. specialize (Hpl' md Hmd).
    unfold placed in Hpl'. rewrite Hid, bool_decide_eq_true_2 in Hpl' by done. destruct Hpl' as (o & st & Ho & Hob & Hc).
    exists o, st. split; [done|]. split; [done|]. destruct Hc as [(_ & ? & _ & _ & ? & ?)|?]; [by left|by right].
Qed.
End cluster.

(** ** The sample controller and the sample broker *)
Import SegmentRegistry LogNames LogInv LogRead LogSteps LogTheorems.

#[local] Instance sample_append : LogAppend Log := log_append sample_config.
#[local] Instance sample_laws : LogAppendLaws Log := log_append_laws sample_config.
Abbreviation the_server := ControllerTheorems.the_server.

(** The controller after a broadcast. *)
Definition told_server : Server MetastoreStorage.Storage := Eval vm_compute in (run (broadcast_metadata 3) the_server).2.
Lemma told_run : run (broadcast_metadata 3) the_server = (Ok tt, told_server).
Proof. vm_compute. reflexivity. Qed.

Definition announcement : Packet Response := packet (TopicMetaDataListResponse (current_list told_server)).
Definition decided : TopicMeta :=
  mkTopicMeta (py "orders") (py "b2") (py "127.0.0.1") 9093 [py "b2"; py "b1"] 1.
Lemma told_list : current_list told_server = [decided].
Proof. vm_compute. reflexivity. Qed.
Lemma announcement_encodes : is_Ok (encode_response (packet (TopicMetaDataListResponse [decided]))).
Proof. eexists. vm_compute. reflexivity. Qed.

Definition listening : ControllerConnection Log :=
  set_stream 0 (set_sockets [ConnectionTheorems.socket_with announcement] ConnectionTheorems.sample_connection).

Lemma listening_receives : receives MetastoreTheorems.b1 announcement listening.
Proof.
  split; [reflexivity|exact ReplicasTheorems.fresh_ok|exact ReplicasTheorems.fresh_quiet|].
  destruct announcement_encodes as [f E]. rewrite <-told_list in E. do 2 eexists. exists f, []. split; [reflexivity|]. split; [reflexivity|]. split; [reflexivity|]. split; [exact E|].
  cbn [inbox ConnectionTheorems.socket_with]. unfold ConnectionTheorems.encoded. unfold announcement. by rewrite E, app_nil_r.
Qed.

Lemma announcement_transportable : transportable MetastoreTheorems.b1 (current_list told_server).
Proof.
  rewrite told_list. split.
  - split; (constructor; [|constructor]); repeat split; try (apply (bool_decide_unpack _); vm_compute; exact I).
  - constructor; [|constructor]. intros _. apply (bool_decide_unpack _). vm_compute. exact I.
Qed.

Lemma told_active :
  dict_get (active_brokers told_server) MetastoreTheorems.b1 = Some (mkActiveBroker 2 0 MetastoreTheorems.localhost 9092).
Proof. vm_compute. reflexivity. Qed.

Lemma heard_last :
  (λ l, last (answers l)) <$> links told_server !! 2%nat = Some (Some (packet (TopicMetaDataListResponse [decided]))).
Proof. vm_compute. reflexivity. Qed.

Lemma orders_placed :
  (λ md, bool_decide (MetastoreTheorems.b1 ∈ Metastore.replica_list md)) <$>
    (st_topics (MetastoreManager.storage (Controller.manager told_server)) !! py "orders") = Some true.
Proof. vm_compute. reflexivity. Qed.

Lemma broadcast_followed_witness :
  ∃ y, run (reader_round ReplicasTheorems.reachable 5) listening = (Ok tt, y) ∧
    is_Some (dict_get (topics (manager (replica_manager y))) (py "orders")).
Proof.
  assert (length (active_brokers the_server) < 3)%nat as Hl
    by (apply (bool_decide_unpack _); vm_compute; exact I).
  destruct (broadcast_followed _ 2 three_collision_free
    MetastoreTheorems.one_le_two ReplicasTheorems.reachable 3 _ _ MetastoreTheorems.b1 _
    ControllerTheorems.rejoined_ok Hl told_run told_active) as (l & resp & Hl' & Hr & Hall).
  assert (resp = announcement) as ->.
  { pose proof heard_last as Hh. cbn [ab_link] in Hl'. rewrite Hl' in Hh. cbn [fmap option_fmap option_map] in Hh.
    rewrite Hr in Hh. unfold announcement. rewrite told_list. congruence. }
  destruct (Hall 5%nat listening listening_receives announcement_transportable) as (y & Ey & _ & Ht & _).
  exists y. split; [exact Ey|]. apply Ht. pose proof orders_placed as Hp.
  destruct (_ !! py "orders") as [md|]; [|discriminate Hp]. exists md. split; [reflexivity|].
  apply (bool_decide_eq_true_1 _). injection Hp as Hp. exact Hp.
Defined.
