(* ===== verification/Json.v ===== *)
(** * [json.dumps] and [json.loads]

    As the module [json] of the Python library with its default arguments.  A number
    that is not an integer is kept as it is written: nothing here computes with one.
    The depth of nesting is not limited. *)
From Stdlib Require Import String.
From S2P Require Import Prelude PyData PyDict.

Inductive Json :=
| JNull
| JBool (b : bool)
| JInt (n : Z)
| JFloat (literal : list Z)
| JStr (s : list Z)
| JList (l : list Json)
| JDict (d : list (list Z * Json)).

(** [if data:].  A float is zero when its digits are; one that underflows is taken as
    not zero. *)
Fixpoint mantissa (literal : list Z) : list Z :=
  match literal with
  | [] => []
  | c :: l => if (c =? 101) || (c =? 69) then [] else c :: mantissa l
  end.
Definition truthy (v : Json) : bool :=
  match v with
  | JNull => false
  | JBool b => b
  | JInt n => negb (n =? 0)
  | JFloat literal => existsb (λ c, negb ((c =? 48) || (c =? 46) || (c =? 45))) (mantissa literal)
  | JStr s => negb (bool_decide (s = []))
  | JList l => match l with [] => false | _ => true end
  | JDict d => match d with [] => false | _ => true end
  end.

(** [d[k]] *)
Definition item (d : Json) (k : pystr) : result Json :=
  match d with JDict d => or_raise (dict_get d k) KeyError | _ => Raise TypeError end.
(** [d.get(k, default)] *)
Definition item_or (d : Json) (k : pystr) (default : Json) : result Json :=
  match d with
  | JDict d => Ok (match dict_get d k with Some v => v | None => default end)
  | _ => Raise AttributeError
  end.

(** ** Writing *)

Definition hex_digit (n : Z) : Z := if n <? 10 then 48 + n else 87 + n.
Definition u_escape (n : Z) : list Z :=
  [92; 117; hex_digit (n / 4096 mod 16); hex_digit (n / 256 mod 16); hex_digit (n / 16 mod 16); hex_digit (n mod 16)].

(** One character of [py_encode_basestring_ascii]. *)
Definition escape (c : Z) : list Z :=
  if c =? 34 then [92; 34]
  else if c =? 92 then [92; 92]
  else if c =? 10 then [92; 110]
  else if c =? 13 then [92; 114]
  else if c =? 9 then [92; 116]
  else if c =? 12 then [92; 102]
  else if c =? 8 then [92; 98]
  else if (32 <=? c) && (c <=? 126) then [c]
  else if c <? 0x10000 then u_escape c
  else u_escape (0xD800 + (c - 0x10000) / 1024) ++ u_escape (0xDC00 + (c - 0x10000) mod 1024).

Definition dumps_str (s : pystr) : pystr := 34 :: concat (map escape s) ++ [34].

Fixpoint dumps (v : Json) : result pystr :=
  match v with
  | JNull => Ok (py "null")
  | JBool b => Ok (if b then py "true" else py "false")
  | JInt n => py_str n
  | JFloat literal => Ok literal
  | JStr s => Ok (dumps_str s)
  | JList l =>
      parts ← (fix items l := match l with
                              | [] => Ok []
                              | v :: l => a ← dumps v; rest ← items l; Ok (a :: rest)
                              end) l;
      Ok (91 :: py_join (py ", ") parts ++ [93])
  | JDict d =>
      parts ← (fix pairs d := match d with
                              | [] => Ok []
                              | (k, v) :: d => a ← dumps v; rest ← pairs d;
                                  Ok ((dumps_str k ++ py ": " ++ a) :: rest)
                              end) d;
      Ok (123 :: py_join (py ", ") parts ++ [125])
  end.

(** ** Reading *)

Definition is_ws (c : Z) : bool := (c =? 32) || (c =? 9) || (c =? 10) || (c =? 13).
Definition skip_ws (l : pystr) : pystr := drop_while is_ws l.

Definition hex_value (c : Z) : option Z :=
  if (48 <=? c) && (c <=? 57) then Some (c - 48)
  else if (97 <=? c) && (c <=? 102) then Some (c - 87)
  else if (65 <=? c) && (c <=? 70) then Some (c - 55)
  else None.
(** [_decode_uXXXX] *)
Definition hex4 (a b c d : Z) : result Z :=
  a ← or_raise (hex_value a) ValueError;
  b ← or_raise (hex_value b) ValueError;
  c ← or_raise (hex_value c) ValueError;
  d ← or_raise (hex_value d) ValueError;
  Ok (((a * 16 + b) * 16 + c) * 16 + d).

Definition unescape (c : Z) : result Z :=
  if c =? 34 then Ok 34 else if c =? 92 then Ok 92 else if c =? 47 then Ok 47
  else if c =? 98 then Ok 8 else if c =? 102 then Ok 12 else if c =? 110 then Ok 10
  else if c =? 114 then Ok 13 else if c =? 116 then Ok 9
  else Raise ValueError.

Definition is_high (u : Z) : bool := (0xD800 <=? u) && (u <=? 0xDBFF).
Definition is_low (u : Z) : bool := (0xDC00 <=? u) && (u <=? 0xDFFF).
Definition join_surrogates (u u2 : Z) : Z := 0x10000 + (u - 0xD800) * 1024 + (u2 - 0xDC00).

(** Put a character in front of what follows. *)
Definition cons_char (c : Z) (r : result (list Z * list Z)) : result (list Z * list Z) :=
  '(s, rest) ← r; Ok (c :: s, rest).

(** [py_scanstring], behind the opening quote. *)
Fixpoint scanstring (l : pystr) : result (list Z * list Z) :=
  match l with
  | [] => Raise ValueError
  | c :: l =>
      if c =? 34 then Ok ([], l)
      else if c <? 32 then Raise ValueError
      else if c =? 92 then
        match l with
        | [] => Raise ValueError
        | e :: l =>
            if e =? 117 then
              match l with
              | a :: b :: c :: d :: l =>
                  u ← hex4 a b c d;
                  match l with
                  | s :: v :: a2 :: b2 :: c2 :: d2 :: l2 =>
                      if is_high u && (s =? 92) && (v =? 117) then
                        u2 ← hex4 a2 b2 c2 d2;
                        if is_low u2 then cons_char (join_surrogates u u2) (scanstring l2)
                        else cons_char u (scanstring l)
                      else cons_char u (scanstring l)
                  | s :: v :: _ =>
                      if is_high u && (s =? 92) && (v =? 117) then Raise ValueError
                      else cons_char u (scanstring l)
                  | _ => cons_char u (scanstring l)
                  end
              | _ => Raise ValueError
              end
            else x ← unescape e; cons_char x (scanstring l)
        end
      else cons_char c (scanstring l)
  end.

Definition is_digitb (c : Z) : bool := (48 <=? c) && (c <=? 57).
Fixpoint span_digits (l : pystr) : pystr * pystr :=
  match l with
  | c :: r => if is_digitb c then let '(a, b) := span_digits r in (c :: a, b) else ([], l)
  | [] => ([], [])
  end.

(** [(\.[0-9]+)?] and [([eE][-+]?[0-9]+)?] *)
Definition scan_fraction (l : pystr) : pystr * pystr :=
  match l with
  | c :: r =>
      if c =? 46 then
        let '(a, b) := span_digits r in
        if bool_decide (a = []) then ([], l) else (c :: a, b)
      else ([], l)
  | [] => ([], [])
  end.
Definition scan_exponent (l : pystr) : pystr * pystr :=
  match l with
  | c :: r =>
      if (c =? 101) || (c =? 69) then
        let '(sign, r) := match r with
                          | s :: r' => if (s =? 43) || (s =? 45) then ([s], r') else ([], r)
                          | [] => ([], [])
                          end in
        let '(a, b) := span_digits r in
        if bool_decide (a = []) then ([], l) else (c :: sign ++ a, b)
      else ([], l)
  | [] => ([], [])
  end.

(** [-?(0|[1-9][0-9]* )] *)
Definition scan_integer (l : pystr) : option (pystr * pystr) :=
  let '(sign, l) := match l with
                    | c :: r => if c =? 45 then ([c], r) else ([], l)
                    | [] => ([], [])
                    end in
  match l with
  | c :: r =>
      if c =? 48 then Some (sign ++ [c], r)
      else if is_digitb c then let '(a, b) := span_digits l in Some (sign ++ a, b)
      else None
  | [] => None
  end.

Definition scan_number (l : pystr) : option (result (Json * list Z)) :=
  '(int, l) ← scan_integer l;
  let '(frac, l) := scan_fraction l in
  let '(exp, l) := scan_exponent l in
  Some (if bool_decide (frac = [] ∧ exp = []) then n ← py_int int; Ok (JInt n, l)
        else Ok (JFloat (int ++ frac ++ exp), l)).

(** The constants. *)
Fixpoint strip_word (w l : pystr) : option (list Z) :=
  match w, l with
  | [], _ => Some l
  | a :: w, b :: l => if a =? b then strip_word w l else None
  | _, [] => None
  end.
Definition constants : list (list Z * Json) :=
  [(py "null", JNull); (py "true", JBool true); (py "false", JBool false);
   (py "NaN", JFloat (py "NaN")); (py "Infinity", JFloat (py "Infinity")); (py "-Infinity", JFloat (py "-Infinity"))].
Fixpoint scan_constant (ws : list (list Z * Json)) (l : pystr) : result (Json * list Z) :=
  match ws with
  | [] => Raise ValueError
  | (w, v) :: ws => match strip_word w l with Some r => Ok (v, r) | None => scan_constant ws l end
  end.

(** What comes after white space. *)
Definition next_char (l : pystr) : option (Z * list Z) :=
  match skip_ws l with c :: r => Some (c, r) | [] => None end.

(** [scan_once], [JSONArray] behind the bracket and white space, [JSONObject] too. *)
Fixpoint scan_once (fuel : nat) (l : pystr) {struct fuel} : result (Json * list Z) :=
  match fuel, l with
  | O, _ => Raise RuntimeError
  | _, [] => Raise ValueError
  | S fuel, c :: r =>
      if c =? 34 then '(s, r) ← scanstring r; Ok (JStr s, r)
      else if c =? 123 then
        match next_char r with
        | None => Raise ValueError
        | Some (e, r') =>
            if e =? 125 then Ok (JDict [], r')
            else '(d, r) ← scan_pairs fuel (e :: r');
                 Ok (JDict (fold_left (λ d kv, dict_set d kv.1 kv.2) d []), r)
        end
      else if c =? 91 then
        match next_char r with
        | None => Raise ValueError
        | Some (e, r') =>
            if e =? 93 then Ok (JList [], r')
            else '(l, r) ← scan_items fuel (e :: r'); Ok (JList l, r)
        end
      else match scan_number l with
           | Some x => x
           | None => scan_constant constants l
           end
  end
with scan_items (fuel : nat) (l : pystr) {struct fuel} : result (list Json * list Z) :=
  match fuel with
  | O => Raise RuntimeError
  | S fuel =>
      '(v, r) ← scan_once fuel l;
      match next_char r with
      | None => Raise ValueError
      | Some (e, r) =>
          if e =? 93 then Ok ([v], r)
          else if e =? 44 then '(vs, r) ← scan_items fuel (skip_ws r); Ok (v :: vs, r)
          else Raise ValueError
      end
  end
with scan_pairs (fuel : nat) (l : pystr) {struct fuel} : result (list (list Z * Json) * list Z) :=
  match fuel, l with
  | O, _ => Raise RuntimeError
  | _, [] => Raise ValueError
  | S fuel, q :: r =>
      if negb (q =? 34) then Raise ValueError else
      '(k, r) ← scanstring r;
      match next_char r with
      | None => Raise ValueError
      | Some (e, r) =>
          if negb (e =? 58) then Raise ValueError else
          '(v, r) ← scan_once fuel (skip_ws r);
          match next_char r with
          | None => Raise ValueError
          | Some (e, r) =>
              if e =? 125 then Ok ([(k, v)], r)
              else if e =? 44 then '(d, r) ← scan_pairs fuel (skip_ws r); Ok ((k, v) :: d, r)
              else Raise ValueError
          end
      end
  end.

Definition loads (s : pystr) : result Json :=
  if bool_decide (head s = Some 0xFEFF) then Raise ValueError else
  '(v, r) ← scan_once (2 * length s + 2) (skip_ws s);
  if bool_decide (skip_ws r = []) then Ok v else Raise ValueError.
