(* ===== verification/JsonFacts.v ===== *)
(** * What is written is read *)
From Stdlib Require Import String.
From S2P Require Import Prelude PyData PyDict Json.

(** ** Strings *)

Lemma hex_value_digit n : 0 ≤ n < 16 → hex_value (hex_digit n) = Some n.
Proof. intros Hn. unfold hex_digit, hex_value. zcases; cbn [andb]; try lia; zcases; cbn [andb]; try lia; f_equal; lia. Qed.

Lemma hex4_digits n : 0 ≤ n < 0x10000 →
  hex4 (hex_digit (n / 4096 mod 16)) (hex_digit (n / 256 mod 16)) (hex_digit (n / 16 mod 16)) (hex_digit (n mod 16)) = Ok n.
Proof.
  intros Hn. unfold hex4.
  assert (∀ m, 0 ≤ m mod 16 < 16) as Hm by (intros m; apply Z.mod_pos_bound; lia).
  rewrite !hex_value_digit by apply Hm. cbn [or_raise mbind result_bind]. f_equal.
  pose proof (Z.div_mod n 16 ltac:(lia)). pose proof (Z.div_mod (n / 16) 16 ltac:(lia)).
  pose proof (Z.div_mod (n / 16 / 16) 16 ltac:(lia)). rewrite !Z.div_div in * by lia.
  change (16 * 16) with 256 in *. change (256 * 16) with 4096 in *.
  rewrite (Z.mod_small (n / 4096) 16); [lia|]. split; [apply Z.div_pos; lia|apply Z.div_lt_upper_bound; lia].
Qed.

(** A character that is no half of a pair, escaped. *)
Lemma scan_u_escape n l : 0 ≤ n < 0x10000 → is_high n = false →
  scanstring (u_escape n ++ l) = cons_char n (scanstring l).
Proof.
  intros Hn Hh. unfold u_escape. cbn [app].
  cbn [scanstring]. rewrite hex4_digits by done. cbn [mbind result_bind]. rewrite Hh. cbn [andb].
  change (92 =? 34) with false. change (92 <? 32) with false. change (92 =? 92) with true. change (117 =? 117) with true.
  cbv iota. by destruct l as [|s [|v [|a [|b [|c [|d l]]]]]].
Qed.

Lemma scan_u_pair n m l : 0xD800 ≤ n ≤ 0xDBFF → 0xDC00 ≤ m ≤ 0xDFFF →
  scanstring (u_escape n ++ u_escape m ++ l) = cons_char (join_surrogates n m) (scanstring l).
Proof.
  intros Hn Hm. unfold u_escape. cbn [app scanstring].
  rewrite !hex4_digits by lia. cbn [mbind result_bind].
  replace (is_high n) with true by (unfold is_high; lia). replace (is_low m) with true by (unfold is_low; lia). done.
Qed.

Lemma scan_escape c l : is_scalar c → scanstring (escape c ++ l) = cons_char c (scanstring l).
Proof.
  intros Hc. unfold escape.
  repeat match goal with |- context [if ?a =? ?b then _ else _] => destruct (Z.eqb_spec a b) as [->|]; [done|] end.
  destruct ((32 <=? c) && (c <=? 126)) eqn:E.
  { cbn [app scanstring]. do 3 lia_if. done. }
  destruct (Z.ltb_spec c 0x10000).
  - apply scan_u_escape; destruct Hc; unfold is_high; lia.
  - assert (0 ≤ (c - 0x10000) / 1024 < 1024) by (split; [apply Z.div_pos|apply Z.div_lt_upper_bound]; destruct Hc; lia).
    assert (0 ≤ (c - 0x10000) mod 1024 < 1024) by (apply Z.mod_pos_bound; lia).
    rewrite <-app_assoc, scan_u_pair by lia. f_equal. unfold join_surrogates.
    pose proof (Z.div_mod (c - 0x10000) 1024 ltac:(lia)). lia.
Qed.

Lemma scanstring_escapes s l : Forall is_scalar s → scanstring (concat (map escape s) ++ 34 :: l) = Ok (s, l).
Proof.
  induction 1 as [|c s Hc Hs IH]; [done|]. cbn [map concat]. rewrite <-app_assoc, scan_escape by done.
  by rewrite IH.
Qed.

Lemma scanstring_dumps s l : Forall is_scalar s →
  ∃ r, dumps_str s ++ l = 34 :: r ∧ scanstring r = Ok (s, l).
Proof.
  intros Hs. exists (concat (map escape s) ++ 34 :: l). split; [|by apply scanstring_escapes].
  unfold dumps_str. cbn [app]. by rewrite <-app_assoc.
Qed.

(** ** Numbers *)

(** What may come behind a value. *)
Definition closes (l : pystr) : Prop :=
  match l with [] => True | c :: _ => c = 44 ∨ c = 93 ∨ c = 125 end.

Lemma span_digits_app ds l : Forall (λ c, is_digitb c = true) ds → closes l → span_digits (ds ++ l) = (ds, l).
Proof.
  intros Hd Hl. induction Hd as [|c ds Hc Hd IH]; cbn [app].
  - destruct l as [|c l]; [done|]. cbn. by destruct Hl as [-> | [-> | ->]].
  - cbn [span_digits]. by rewrite Hc, IH.
Qed.

Lemma digits_loop_head fuel n : 1 ≤ n < 10 * 2 ^ Z.of_nat fuel →
  ∃ d ds, digits_loop fuel n = d :: ds ∧ 1 ≤ d ≤ 9.
Proof.
  revert n. induction fuel as [|fuel IH]; intros n Hn; cbn [digits_loop].
  - exists n, []. split; [done|]. cbn in Hn. lia.
  - rewrite Nat2Z.inj_succ, Z.pow_succ_r in Hn by lia. destruct (Z.ltb_spec n 10).
    + exists n, []. split; [done|lia].
    + destruct (IH (n / 10)) as (d & ds & -> & ?).
      * split; [apply Z.div_le_lower_bound; lia|apply Z.div_lt_upper_bound; lia].
      * exists d, (ds ++ [n mod 10]). done.
Qed.

Lemma digits_head n : n = 0 ∧ digits n = [0] ∨ ∃ d ds, digits n = d :: ds ∧ 1 ≤ d ≤ 9.
Proof.
  destruct (decide (n = 0)) as [->|Hn]; [left; done|right]. apply digits_loop_head. split; [lia|].
  rewrite Z2Nat.id by apply Z.log2_nonneg. pose proof (Z.log2_spec (Z.abs n)) as [_ H]; [lia|].
  rewrite Z.pow_succ_r in H by apply Z.log2_nonneg. lia.
Qed.

Lemma digits_chars ds : Forall is_digit ds → Forall (λ c, is_digitb c = true) (map (Z.add 48) ds).
Proof. intros H. apply Forall_map. eapply Forall_impl; [exact H|]. unfold is_digit, is_digitb. intros d ?. cbn. lia. Qed.

Lemma closes_number l : closes l → scan_fraction l = ([], l) ∧ scan_exponent l = ([], l).
Proof. destruct l as [|c l]; [done|]. by intros [-> | [-> | ->]]. Qed.

Lemma scan_integer_str n s l : py_str n = Ok s → closes l → scan_integer (s ++ l) = Some (s, l).
Proof.
  unfold py_str. case_match; [done|]. intros [= <-] Hl. rewrite <-app_assoc.
  pose proof (digits_chars _ (digits_digits n)) as Hd.
  assert (∀ sign, scan_integer (sign ++ map (Z.add 48) (digits n) ++ l) = Some (sign ++ map (Z.add 48) (digits n), l)
          ∨ sign ≠ [] ∧ sign ≠ [45]) as Hs.
  { intros sign. destruct (decide (sign = [] ∨ sign = [45])) as [Hsg|]; [left|naive_solver].
    destruct (digits_head n) as [[-> ->]|(d & ds & Ed & Hr)]; [by destruct Hsg as [-> | ->]|].
    pose proof (span_digits_app _ l Hd Hl) as Esp. rewrite Ed in *. cbn [map app] in *.
    assert (is_digitb (48 + d) = true) as Hdd by (unfold is_digitb; lia).
    unfold scan_integer. destruct Hsg as [-> | ->]; cbn [app].
    - lia_if. lia_if. rewrite Hdd, Esp. done.
    - change (45 =? 45) with true. cbv iota. lia_if. rewrite Hdd, Esp. done. }
  destruct (n <? 0); [destruct (Hs [45]) as [E|[_ ?]]|destruct (Hs []) as [E|[? _]]]; done.
Qed.

Lemma scan_number_str n s l : py_str n = Ok s → closes l → scan_number (s ++ l) = Some (Ok (JInt n, l)).
Proof.
  intros Hs Hl. unfold scan_number. rewrite (scan_integer_str n s l Hs Hl). cbn [mbind option_bind].
  destruct (closes_number l Hl) as [-> ->]. by rewrite (py_int_str _ _ Hs).
Qed.

(** ** Values *)

(** The values that survive: no floats, no halves of surrogate pairs, no key twice. *)
Fixpoint json_ok (v : Json) : Prop :=
  match v with
  | JNull | JBool _ | JInt _ => True
  | JFloat _ => False
  | JStr s => Forall is_scalar s
  | JList l => (fix all l := match l with [] => True | v :: l => json_ok v ∧ all l end) l
  | JDict d => NoDup d.*1 ∧
      (fix all d := match d with [] => True | (k, v) :: d => Forall is_scalar k ∧ json_ok v ∧ all d end) d
  end.

Definition items_ok := fix all l := match l with [] => True | v :: l => json_ok v ∧ all l end.
Definition pairs_ok :=
  fix all (d : list (list Z * Json)) := match d with [] => True | (k, v) :: d => Forall is_scalar k ∧ json_ok v ∧ all d end.

Fixpoint json_size (v : Json) : nat :=
  match v with
  | JList l => S ((fix size l := match l with [] => O | v :: l => S (json_size v + size l) end) l)
  | JDict d => S ((fix size d := match d with [] => O | (_, v) :: d => S (json_size v + size d) end) d)
  | _ => 1
  end.
Definition items_size := fix size l := match l with [] => O | v :: l => S (json_size v + size l) end.
Definition pairs_size :=
  fix size (d : list (list Z * Json)) := match d with [] => O | (_, v) :: d => S (json_size v + size d) end.

Definition dumps_items := fix items l := match l with
  | [] => Ok []
  | v :: l => a ← dumps v; rest ← items l; Ok (a :: rest)
  end.
Definition dumps_pairs := fix pairs (d : list (list Z * Json)) := match d with
  | [] => Ok []
  | (k, v) :: d => a ← dumps v; rest ← pairs d; Ok ((dumps_str k ++ py ": " ++ a) :: rest)
  end.

(** The first character of a value says what it is. *)
Definition starts (v : Json) (t : pystr) : Prop :=
  match t with
  | [] => False
  | c :: _ =>
      match v with
      | JStr _ => c = 34
      | JDict _ => c = 123
      | JList _ => c = 91
      | _ => c ≠ 34 ∧ c ≠ 123 ∧ c ≠ 91
      end ∧ is_ws c = false ∧ c ≠ 93 ∧ c ≠ 125 ∧ c ≠ 0xFEFF
  end.

Lemma dumps_starts v t : json_ok v → dumps v = Ok t → starts v t.
Proof.
  destruct v as [|[]|n| |s|l|d]; cbn [dumps json_ok]; intros Hv Ht; inv_ok; try done.
  pose proof (py_str_chars _ _ Ht) as [Hc Hne]. destruct t as [|c t]; [done|].
  inversion Hc as [|? ? Hcc _]; subst. unfold int_char in Hcc. cbn. unfold is_ws. lia.
Qed.

Lemma skip_ws_starts v t l : starts v t → skip_ws (t ++ l) = t ++ l.
Proof. destruct t as [|c t]; [done|]. intros (_ & Hw & _). cbn. unfold skip_ws. cbn. by rewrite Hw. Qed.

Lemma next_char_plain c l : is_ws c = false → next_char (c :: l) = Some (c, l).
Proof. intros Hc. unfold next_char, skip_ws. cbn. by rewrite Hc. Qed.

Definition reads_value fuel := ∀ v t rest, json_ok v → dumps v = Ok t → (json_size v <= fuel)%nat → closes rest →
  scan_once fuel (t ++ rest) = Ok (v, rest).
Definition reads_items fuel := ∀ l ts rest, items_ok l → dumps_items l = Ok ts → l ≠ [] → (items_size l <= fuel)%nat →
  scan_items fuel (py_join (py ", ") ts ++ 93 :: rest) = Ok (l, rest).
Definition reads_pairs fuel := ∀ d ts rest, pairs_ok d → dumps_pairs d = Ok ts → d ≠ [] → (pairs_size d <= fuel)%nat →
  scan_pairs fuel (py_join (py ", ") ts ++ 125 :: rest) = Ok (d, rest).

Lemma join_cons_app sep x l rest :
  py_join sep (x :: l) ++ rest = x ++ (match l with [] => [] | _ => sep ++ py_join sep l end) ++ rest.
Proof.
  destruct l as [|y l]; [by rewrite app_nil_l|]. rewrite py_join_cons by done. by rewrite <-!app_assoc.
Qed.

Lemma dumps_items_cons v l ts : dumps_items (v :: l) = Ok ts →
  ∃ a rest, dumps v = Ok a ∧ dumps_items l = Ok rest ∧ ts = a :: rest.
Proof.
  cbn. fold dumps_items. destruct (dumps v) as [a|]; [|done]. cbn. destruct (dumps_items l) as [r|]; [|done].
  intros [= <-]. by exists a, r.
Qed.
Lemma dumps_pairs_cons k v d ts : dumps_pairs ((k, v) :: d) = Ok ts →
  ∃ a rest, dumps v = Ok a ∧ dumps_pairs d = Ok rest ∧ ts = (dumps_str k ++ py ": " ++ a) :: rest.
Proof.
  cbn. fold dumps_pairs. destruct (dumps v) as [a|]; [|done]. cbn. destruct (dumps_pairs d) as [r|]; [|done].
  intros [= <-]. by exists a, r.
Qed.

Lemma items_round fuel : reads_value fuel → reads_items fuel → reads_items (S fuel).
Proof.
  intros Hv Hi l ts rest Hok Hd Hne Hsz. destruct l as [|v l]; [done|]. destruct Hok as [Hokv Hok].
  fold items_ok in Hok. apply dumps_items_cons in Hd as (a & a0 & Ha & Hl & ->). cbn in Hsz. fold items_size in Hsz.
  rewrite join_cons_app. cbn [scan_items]. destruct l as [|v' l].
  - injection Hl as <-. cbn [app]. rewrite (Hv v a (93 :: rest)); [|done|done|lia|cbn; lia].
    cbn [mbind result_bind]. rewrite next_char_plain by done. done.
  - destruct a0 as [|t' ts]; [cbn in Hl; inv_ok; done|].
    change (py ", ") with [44; 32]. rewrite <-!app_assoc. cbn [app].
    rewrite (Hv v a); [|done|done|lia|cbn; lia]. cbn [mbind result_bind]. rewrite next_char_plain by done.
    change (44 =? 93) with false. change (44 =? 44) with true. cbv iota.
    assert (dumps v' = Ok t') as Ht' by (by apply dumps_items_cons in Hl as (? & ? & ? & _ & [= -> _])).
    assert (skip_ws (32 :: py_join [44; 32] (t' :: ts) ++ 93 :: rest) = py_join [44; 32] (t' :: ts) ++ 93 :: rest) as ->.
    { change (skip_ws (32 :: ?l)) with (skip_ws l). rewrite join_cons_app. apply (skip_ws_starts v').
      apply dumps_starts; [|exact Ht']. by destruct Hok. }
    change [44; 32] with (py ", "). rewrite (Hi (v' :: l) (t' :: ts)); [done|done|done|done|lia].
Qed.

Lemma pairs_round fuel : reads_value fuel → reads_pairs fuel → reads_pairs (S fuel).
Proof.
  intros Hv Hi d ts rest Hok Hd Hne Hsz. destruct d as [|[k v] d]; [done|].
  destruct Hok as (Hk & Hokv & Hok). fold pairs_ok in Hok.
  apply dumps_pairs_cons in Hd as (a & a0 & Ha & Hl & ->). cbn in Hsz. fold pairs_size in Hsz.
  rewrite join_cons_app, <-!app_assoc.
  match goal with |- context [dumps_str k ++ ?l] => destruct (scanstring_dumps k l Hk) as (r & -> & Hr) end.
  cbn [scan_pairs]. change (negb (34 =? 34)) with false. cbv iota. rewrite Hr. cbn [mbind result_bind].
  change (py ": ") with [58; 32]. cbn [app]. rewrite next_char_plain by done. change (negb (58 =? 58)) with false. cbv iota.
  change (skip_ws (32 :: ?l)) with (skip_ws l). rewrite (skip_ws_starts v) by by apply dumps_starts.
  destruct d as [|[k' v'] d].
  - injection Hl as <-. cbn [app]. rewrite (Hv v a); [|done|done|lia|cbn; lia].
    cbn [mbind result_bind]. rewrite next_char_plain by done. done.
  - destruct a0 as [|t' ts]; [cbn in Hl; inv_ok; done|].
    change (py ", ") with [44; 32]. rewrite <-!app_assoc. cbn [app].
    rewrite (Hv v a); [|done|done|lia|cbn; lia]. cbn [mbind result_bind]. rewrite next_char_plain by done.
    change (44 =? 125) with false. change (44 =? 44) with true. cbv iota.
    assert (∃ y, t' = 34 :: y) as [y ->].
    { apply dumps_pairs_cons in Hl as (? & ? & _ & _ & [= -> _]). by eexists. }
    change (skip_ws (32 :: ?l)) with (skip_ws l). rewrite join_cons_app.
    change (skip_ws ((34 :: y) ++ ?l)) with ((34 :: y) ++ l). rewrite <-join_cons_app.
    change [44; 32] with (py ", "). rewrite (Hi ((k', v') :: d) ((34 :: y) :: ts)); [done|done|done|done|lia].
Qed.

Lemma fold_dict_set d : NoDup d.*1 → fold_left (λ d (kv : list Z * Json), dict_set d kv.1 kv.2) d [] = d.
Proof.
  intros Hd. enough (∀ d0, NoDup (d0 ++ d).*1 → fold_left (λ d kv, dict_set d kv.1 kv.2) d d0 = d0 ++ d) as H by by apply (H []).
  clear Hd. induction d as [|[k v] d IH]; intros d0 Hn; cbn [fold_left fst snd]; [by rewrite app_nil_r|].
  assert (dict_set d0 k v = d0 ++ [(k, v)]) as ->.
  { rewrite fmap_app in Hn. apply NoDup_app in Hn as (_ & Hn & _). clear IH.
    induction d0 as [|[k0 v0] d0 IH]; [done|]. cbn. case_decide as E.
    - exfalso. subst. apply (Hn k0); [left|left].
    - f_equal. apply IH. intros x Hx. apply Hn. by right. }
  rewrite IH; [by rewrite <-app_assoc|]. by rewrite <-app_assoc.
Qed.

Lemma value_round fuel : reads_items fuel → reads_pairs fuel → reads_value (S fuel).
Proof.
  intros Hi Hp v t rest Hok Hd Hsz Hr. pose proof (dumps_starts v t Hok Hd) as Hst.
  destruct v as [|b|n|f|s|l|d]; try done.
  - cbn in Hd. injection Hd as <-. done.
  - cbn in Hd. injection Hd as <-. by destruct b.
  - cbn in Hd. pose proof (scan_number_str n t rest Hd Hr) as E. destruct t as [|c t]; [done|].
    destruct Hst as [(H1 & H2 & H3) _]. cbn [app scan_once] in *. do 3 lia_if. by rewrite E.
  - cbn in Hd. injection Hd as <-. destruct (scanstring_dumps s rest Hok) as (r & -> & E). cbn [scan_once].
    change (34 =? 34) with true. cbv iota. by rewrite E.
  - change (dumps (JList l)) with (parts ← dumps_items l; Ok (91 :: py_join (py ", ") parts ++ [93])) in Hd.
    destruct (dumps_items l) as [a|] eqn:Hl; [|done]. injection Hd as <-. cbn in Hsz. fold items_size in Hsz. cbn [app scan_once].
    change (91 =? 34) with false. change (91 =? 123) with false. change (91 =? 91) with true. cbv iota.
    rewrite <-app_assoc. cbn [app].
    destruct l as [|v l]; [injection Hl as <-; done|].
    destruct a as [|t ts]; [by apply dumps_items_cons in Hl as (? & ? & _ & _ & ?)|].
    assert (starts v t) as Hs.
    { apply dumps_starts; [by destruct Hok|]. by apply dumps_items_cons in Hl as (? & ? & ? & _ & [= -> _]). }
    pose proof (Hi (v :: l) (t :: ts) rest Hok Hl ltac:(done) ltac:(lia)) as E.
    rewrite join_cons_app in *. destruct t as [|c t]; [done|]. destruct Hs as (_ & Hw & H93 & _). cbn [app] in *.
    rewrite next_char_plain by done. lia_if. by rewrite E.
  - change (dumps (JDict d)) with (parts ← dumps_pairs d; Ok (123 :: py_join (py ", ") parts ++ [125])) in Hd.
    destruct (dumps_pairs d) as [a|] eqn:Hl; [|done]. injection Hd as <-. cbn in Hsz. fold pairs_size in Hsz. cbn [app scan_once].
    change (123 =? 34) with false. change (123 =? 123) with true. cbv iota.
    rewrite <-app_assoc. cbn [app]. destruct Hok as [Hn Hok]. fold pairs_ok in Hok.
    destruct d as [|[k v] d]; [injection Hl as <-; done|].
    destruct a as [|t ts]; [by apply dumps_pairs_cons in Hl as (? & ? & _ & _ & ?)|].
    pose proof (Hp ((k, v) :: d) (t :: ts) rest Hok Hl ltac:(done) ltac:(lia)) as E.
    assert (∃ y, t = 34 :: y) as [y ->].
    { apply dumps_pairs_cons in Hl as (? & ? & _ & _ & [= -> _]). by eexists. }
    rewrite join_cons_app in *. cbn [app] in *. rewrite next_char_plain by done. change (34 =? 125) with false. cbv iota.
    rewrite E. cbn [mbind result_bind]. by rewrite fold_dict_set.
Qed.

Lemma all_round fuel : reads_value fuel ∧ reads_items fuel ∧ reads_pairs fuel.
Proof.
  induction fuel as [|fuel (Hv & Hi & Hp)].
  - split_and!.
    + intros v t rest _ _ Hs. exfalso. destruct v; cbn in Hs; lia.
    + intros l ts rest _ _ Hne Hs. destruct l; [done|]. cbn in Hs. lia.
    + intros d ts rest _ _ Hne Hs. destruct d as [|[k v] d]; [done|]. cbn in Hs. lia.
  - split_and!; [by apply value_round|by apply items_round|by apply pairs_round].
Qed.

(** ** A text is long enough *)

Lemma dumps_str_length s : (1 <= length (dumps_str s))%nat.
Proof. cbn. lia. Qed.

Lemma join_length sep (ts : list (list Z)) :
  length (py_join sep ts) = (sum_list_with length ts + length sep * (length ts - 1))%nat.
Proof.
  induction ts as [|t ts IH]; [cbn; lia|]. destruct ts as [|t' ts]; [cbn; lia|].
  rewrite py_join_cons by done. rewrite !length_app, IH. cbn. lia.
Qed.

Lemma size_bound n v t : (json_size v <= n)%nat → json_ok v → dumps v = Ok t →
  (json_size v <= 2 * length t)%nat ∧ (1 <= length t)%nat.
Proof.
  revert v t. induction n as [|n IH]; intros v t Hn Hok Hd; [destruct v; cbn in Hn; lia|].
  assert (1 <= length t)%nat as H1.
  { pose proof (dumps_starts _ _ Hok Hd). destruct t; [done|cbn; lia]. }
  split; [|done]. destruct v as [|b|m|f|s|l|d]; try (cbn; lia).
  - change (dumps (JList l)) with (parts ← dumps_items l; Ok (91 :: py_join (py ", ") parts ++ [93])) in Hd.
    destruct (dumps_items l) as [ts|] eqn:E; [|done]. injection Hd as <-.
    cbn [json_size json_ok] in *. fold items_size in *. fold items_ok in Hok. cbn [length]. rewrite length_app, join_length.
    change (length (py ", ")) with 2%nat. cbn [length]. clear H1.
    enough (items_size l <= 2 * sum_list_with length ts + length ts)%nat by lia.
    assert (items_size l <= n)%nat as Hn' by lia. clear Hn. revert ts E Hn' Hok.
    induction l as [|v l IHl]; intros ts E Hn Hok; cbn; [lia|]. fold items_size. cbn in Hn. fold items_size in Hn.
    apply dumps_items_cons in E as (a & ts' & Ha & E & ->). destruct Hok as [Hv Hok]. fold items_ok in Hok.
    destruct (IH v a ltac:(lia) Hv Ha). specialize (IHl ts' E ltac:(lia) Hok). cbn. lia.
  - change (dumps (JDict d)) with (parts ← dumps_pairs d; Ok (123 :: py_join (py ", ") parts ++ [125])) in Hd.
    destruct (dumps_pairs d) as [ts|] eqn:E; [|done]. injection Hd as <-.
    cbn [json_size json_ok] in *. fold pairs_size in *. destruct Hok as [_ Hok]. fold pairs_ok in Hok. cbn [length].
    rewrite length_app, join_length. change (length (py ", ")) with 2%nat. cbn [length]. clear H1.
    enough (pairs_size d <= 2 * sum_list_with length ts + length ts)%nat by lia.
    assert (pairs_size d <= n)%nat as Hn' by lia. clear Hn. revert ts E Hn' Hok.
    induction d as [|[k v] d IHd]; intros ts E Hn Hok; [cbn; lia|]. cbn [pairs_size] in *. fold pairs_size in *.
    apply dumps_pairs_cons in E as (a & ts' & Ha & E & ->). destruct Hok as (_ & Hv & Hok). fold pairs_ok in Hok.
    destruct (IH v a ltac:(lia) Hv Ha). specialize (IHd ts' E ltac:(lia) Hok).
    cbn [sum_list_with]. rewrite !length_app. pose proof (dumps_str_length k). cbn [length]. lia.
Qed.

(** What is written is read. *)
Lemma loads_dumps v t : json_ok v → dumps v = Ok t → loads t = Ok v.
Proof.
  intros Hok Hd. destruct (size_bound (json_size v) v t) as [Hs Hl]; [done..|].
  pose proof (dumps_starts v t Hok Hd) as Hst. unfold loads.
  rewrite bool_decide_eq_false_2.
  2: { destruct t as [|c t]; [done|]. intros [= ->]. by destruct Hst as (_ & _ & _ & _ & ?). }
  pose proof (skip_ws_starts v t [] Hst) as Hw. rewrite app_nil_r in Hw. rewrite Hw.
  destruct (all_round (2 * length t + 2)) as [Hv _].
  pose proof (Hv v t [] Hok Hd ltac:(lia) I) as E. rewrite app_nil_r in E. rewrite E. done.
Qed.

(** What is written is ASCII. *)
Lemma hex_digit_ascii n : 0 ≤ n < 16 → asciib (hex_digit n) = true.
Proof. unfold hex_digit, asciib. intros. zcases; lia. Qed.
Lemma u_escape_ascii n : forallb asciib (u_escape n) = true.
Proof.
  unfold u_escape. cbn [forallb]. rewrite !hex_digit_ascii by (apply Z.mod_pos_bound; lia). done.
Qed.
Lemma escape_ascii c : forallb asciib (escape c) = true.
Proof.
  unfold escape. repeat (case_match; [done || (cbn; unfold asciib; lia) || apply u_escape_ascii|]).
  rewrite forallb_app. by rewrite !u_escape_ascii.
Qed.
Lemma dumps_str_ascii s : forallb asciib (dumps_str s) = true.
Proof.
  unfold dumps_str. cbn [forallb]. rewrite forallb_app. apply andb_true_intro. split; [done|].
  apply andb_true_intro. split; [|done].
  induction s as [|c s IH]; [done|]. cbn. by rewrite forallb_app, escape_ascii.
Qed.

Lemma dumps_ascii n v t : (json_size v <= n)%nat → json_ok v → dumps v = Ok t → forallb asciib t.
Proof.
  revert v t. induction n as [|n IH]; intros v t Hn Hok Hd; [destruct v; cbn in Hn; lia|].
  destruct v as [|b|m|f|s|l|d]; cbn [json_ok] in Hok; try done.
  - by injection Hd as <-.
  - destruct b; by injection Hd as <-.
  - by apply Is_true_true, (py_str_ascii m).
  - injection Hd as <-. apply Is_true_true, dumps_str_ascii.
  - change (dumps (JList l)) with (parts ← dumps_items l; Ok ([91] ++ py_join (py ", ") parts ++ [93])) in Hd.
    destruct (dumps_items l) as [ts|] eqn:E; [|done]. injection Hd as <-.
    apply (ascii_app [91]); [done|]. apply ascii_app; [|done]. apply join_ascii; [done|].
    cbn [json_size] in Hn. fold items_size in Hn. fold items_ok in Hok. apply le_S_n in Hn. revert ts E Hn Hok.
    induction l as [|v l IHl]; intros ts E Hn Hok; [by injection E as <-|].
    apply dumps_items_cons in E as (a & ts' & Ha & E & ->). destruct Hok as [Hv Hok]. cbn in Hn.
    constructor; [by apply (IH v); [lia|..]|]. apply IHl; [done| |done]. fold items_size in Hn. lia.
  - change (dumps (JDict d)) with (parts ← dumps_pairs d; Ok ([123] ++ py_join (py ", ") parts ++ [125])) in Hd.
    destruct (dumps_pairs d) as [ts|] eqn:E; [|done]. injection Hd as <-. destruct Hok as [_ Hok].
    apply (ascii_app [123]); [done|]. apply ascii_app; [|done]. apply join_ascii; [done|].
    cbn [json_size] in Hn. fold pairs_size in Hn. fold pairs_ok in Hok. apply le_S_n in Hn. revert ts E Hn Hok.
    induction d as [|[k v] d IHd]; intros ts E Hn Hok; [by injection E as <-|].
    apply dumps_pairs_cons in E as (a & ts' & Ha & E & ->). destruct Hok as (_ & Hv & Hok). cbn in Hn.
    constructor; [|by apply IHd; [done|fold pairs_size in Hn; lia|]].
    apply ascii_app; [apply Is_true_true, dumps_str_ascii|]. apply ascii_app; [done|]. by apply (IH v); [lia|..].
Qed.

(** ** The text always suffices *)

Definition progress {A} (l : pystr) (r : result (A * list Z)) : Prop :=
  match r with
  | Ok (_, rest) => (length rest < length l)%nat
  | Raise e => e = ValueError
  end.

Lemma progress_step {A B} (l l' : pystr) (r : result (A * list Z)) (f : A * list Z → result (B * list Z)) :
  progress l' r → (∀ a rest, (length rest < length l')%nat → progress l (f (a, rest))) → progress l (r ≫= f).
Proof. destruct r as [[a rest]|e]; cbn; auto. Qed.

Lemma progress_cons_char c l l' r : (length l' <= length l)%nat → progress l' r → progress l (cons_char c r).
Proof. intros Hl Hr. unfold cons_char. eapply progress_step; [exact Hr|]. cbn. lia. Qed.

Lemma hex4_ValueError a b c d e : hex4 a b c d = Raise e → e = ValueError.
Proof.
  unfold hex4. destruct (hex_value a); [cbn|by intros [= <-]]. destruct (hex_value b); [cbn|by intros [= <-]].
  destruct (hex_value c); [cbn|by intros [= <-]]. destruct (hex_value d); by intros [= <-].
Qed.

Lemma unescape_ValueError c e : unescape c = Raise e → e = ValueError.
Proof. unfold unescape. repeat case_match; by intros [= <-]. Qed.

Lemma progress_pure {A B} l (r : result A) (f : A → result (B * list Z)) :
  (∀ e, r = Raise e → e = ValueError) → (∀ a, progress l (f a)) → progress l (r ≫= f).
Proof. destruct r as [a|e]; intros He Hf; [apply Hf|]. cbn. by rewrite (He e). Qed.

Lemma scanstring_progress l : progress l (scanstring l).
Proof.
  remember (length l) as n eqn:En. revert l En. induction (lt_wf n) as [n _ IH]. intros l ->.
  assert (∀ l', (length l' < length l)%nat → progress l' (scanstring l')) as Hrec by eauto. clear IH.
  assert (∀ c l', (length l' < length l)%nat → progress l (cons_char c (scanstring l'))) as Hcons.
  { intros c l' Hl. apply (progress_cons_char c l l'); [lia|auto]. }
  destruct l as [|c l]; [done|]. cbn [scanstring].
  repeat (case_match; try (done || (cbn; lia) || (apply Hcons; cbn; lia))).
  all: apply progress_pure; [apply hex4_ValueError || apply unescape_ValueError|intros u].
  all: try (apply Hcons; cbn; lia).
  all: case_match; try done; try (apply Hcons; cbn; lia).
  apply progress_pure; [apply hex4_ValueError|intros u2]. case_match; apply Hcons; cbn; lia.
Qed.

Lemma skip_ws_length l : (length (skip_ws l) <= length l)%nat.
Proof. unfold skip_ws. induction l as [|c l IH]; [done|]. cbn. case_match; cbn; lia. Qed.

Lemma next_char_length l c r : next_char l = Some (c, r) → (length r < length l)%nat.
Proof.
  unfold next_char. pose proof (skip_ws_length l). destruct (skip_ws l) as [|d r']; [done|].
  intros [= <- <-]. cbn in *. lia.
Qed.

Lemma span_digits_length l : (length (span_digits l).2 <= length l)%nat.
Proof.
  induction l as [|c l IH]; [done|]. cbn. case_match; [|done]. destruct (span_digits l). cbn in *. lia.
Qed.

Lemma scan_integer_tail sign l a r :
  match l with
  | c :: r => if c =? 48 then Some (sign ++ [c], r)
              else if is_digitb c then let '(x, y) := span_digits l in Some (sign ++ x, y) else None
  | [] => None
  end = Some (a, r) → (length r < length l)%nat.
Proof.
  destruct l as [|c l]; [done|]. case_match; [intros [= _ <-]; cbn; lia|].
  destruct (is_digitb c) eqn:Hd; [|done]. cbn [span_digits]. rewrite Hd. pose proof (span_digits_length l). destruct (span_digits l).
  intros [= _ <-]. cbn in *. lia.
Qed.

Lemma scan_integer_length l a r : scan_integer l = Some (a, r) → (length r < length l)%nat.
Proof.
  unfold scan_integer. destruct l as [|c l]; [done|]. destruct (c =? 45); [|apply (scan_integer_tail [] (c :: l))].
  intros E%(scan_integer_tail [c] l). cbn. lia.
Qed.

Lemma scan_fraction_length l : (length (scan_fraction l).2 <= length l)%nat.
Proof.
  destruct l as [|c l]; [done|]. cbn. case_match; [|done]. pose proof (span_digits_length l).
  destruct (span_digits l). cbn in *. case_match; cbn; lia.
Qed.
Lemma scan_exponent_length l : (length (scan_exponent l).2 <= length l)%nat.
Proof.
  destruct l as [|c l]; [done|]. unfold scan_exponent. case_match; [|done].
  assert (∀ sign r, (length r <= length l)%nat →
    (length (let '(a, b) := span_digits r in if bool_decide (a = []) then ([], c :: l) else (c :: sign ++ a, b)).2
      <= length (c :: l))%nat) as Hs.
  { intros sign r Hr. pose proof (span_digits_length r). destruct (span_digits r). cbn in *. case_match; cbn; lia. }
  destruct l as [|d l]; [by apply (Hs [] [])|]. destruct ((d =? 43) || (d =? 45)); [apply (Hs [d] l)|apply (Hs [] (d :: l))]; cbn; lia.
Qed.

Lemma py_int_ValueError s e : py_int s = Raise e → e = ValueError.
Proof.
  unfold py_int. destruct (match strip_by _ _ with [] => _ | _ => _ end) as [neg body].
  destruct (int_digits true body); cbn; [|by intros [= <-]]. case_match; by intros [= <-].
Qed.

Lemma scan_number_progress l r : scan_number l = Some r → progress l r.
Proof.
  unfold scan_number. destruct (scan_integer l) as [[int l1]|] eqn:E; [|done]. cbn [mbind option_bind].
  apply scan_integer_length in E. pose proof (scan_fraction_length l1). destruct (scan_fraction l1) as [frac l2].
  pose proof (scan_exponent_length l2). destruct (scan_exponent l2) as [exp l3]. cbn in *. intros [= <-].
  case_match; [|cbn; lia]. apply progress_pure; [apply py_int_ValueError|]. cbn. lia.
Qed.

Lemma strip_word_length w l r : strip_word w l = Some r → (length w + length r = length l)%nat.
Proof.
  revert l. induction w as [|a w IH]; intros l; [by intros [= <-]|]. destruct l as [|b l]; [done|]. cbn.
  case_match; [|done]. intros E%IH. lia.
Qed.

Lemma scan_constant_progress ws l : Forall (λ x, x.1 ≠ []) ws → progress l (scan_constant ws l).
Proof.
  induction 1 as [|[w v] ws Hw Hws IH]; [done|]. cbn. destruct (strip_word w l) as [r|] eqn:E; [|done].
  apply strip_word_length in E. destruct w; [done|]. cbn in *. lia.
Qed.

(** The number of steps [loads] allows is never used up. *)
Lemma scan_progress fuel :
  (∀ l, (2 * length l + 1 <= fuel)%nat → progress l (scan_once fuel l)) ∧
  (∀ l, (2 * length l + 2 <= fuel)%nat → progress l (scan_items fuel l)) ∧
  (∀ l, (2 * length l + 2 <= fuel)%nat → progress l (scan_pairs fuel l)).
Proof.
  induction fuel as [|fuel (Ho & Hi & Hp)]; [split_and!; intros; lia|]. split_and!; intros l Hl.
  - destruct l as [|c r]; [done|]. cbn [length] in Hl. cbn [scan_once]. case_match.
    { eapply progress_step; [apply scanstring_progress|]. cbn. lia. }
    case_match.
    { destruct (next_char r) as [[e r']|] eqn:E; [|done]. apply next_char_length in E. case_match; [cbn; lia|].
      eapply progress_step; [apply Hp; cbn; lia|]. cbn. lia. }
    case_match.
    { destruct (next_char r) as [[e r']|] eqn:E; [|done]. apply next_char_length in E. case_match; [cbn; lia|].
      eapply progress_step; [apply Hi; cbn; lia|]. cbn. lia. }
    destruct (scan_number (c :: r)) eqn:E; [by apply scan_number_progress|].
    apply scan_constant_progress. by repeat constructor.
  - cbn [scan_items]. eapply progress_step; [apply Ho; lia|]. intros v r Hr.
    destruct (next_char r) as [[e r']|] eqn:E; [|done]. apply next_char_length in E.
    case_match; [cbn; lia|]. case_match; [|done]. pose proof (skip_ws_length r').
    eapply progress_step; [apply Hi; lia|]. cbn. lia.
  - destruct l as [|q r]; [done|]. cbn [length] in Hl. cbn [scan_pairs]. case_match; [done|].
    eapply progress_step; [apply scanstring_progress|]. intros k r1 H1.
    destruct (next_char r1) as [[e r2]|] eqn:E; [|done]. apply next_char_length in E. case_match; [done|].
    pose proof (skip_ws_length r2). eapply progress_step; [apply Ho; lia|]. intros v r3 H3.
    destruct (next_char r3) as [[e' r4]|] eqn:E'; [|done]. apply next_char_length in E'.
    case_match; [cbn; lia|]. case_match; [|done]. pose proof (skip_ws_length r4).
    eapply progress_step; [apply Hp; lia|]. cbn. lia.
Qed.

Lemma loads_ValueError s e : loads s = Raise e → e = ValueError.
Proof.
  unfold loads. case_match; [by intros [= <-]|]. destruct (scan_progress (2 * length s + 2)) as (Ho & _ & _).
  pose proof (skip_ws_length s). specialize (Ho (skip_ws s) ltac:(lia)).
  destruct (scan_once _ _) as [[v r]|e']; cbn in *; [case_match; [done|by intros [= <-]]|congruence].
Qed.
