(* ===== verification/Zk.v ===== *)
(** * [zk/client.py] and the storage in ZooKeeper

    [ZKClient] of [zk/client.py] over the calls of the kazoo library, which are a
    parameter, [ZKMetastoreStorage] of [metastore/storage.py] over [ZKClient], and
    what [server.py] asks of ZooKeeper for the election.

    The fields of a record read back have the types the code declares for them: a
    value of another type, which nothing here writes, is refused when it is read. *)
From Stdlib Require Import String.
From S2P Require Import Prelude Coroutine PyData PyDict Json Metastore Controller.

(** ** The kazoo client *)

Class KazooApi (K : Type) := {
  kz_ensure_path : pystr → M K unit;
  kz_create : pystr → bytes → bool → M K pystr;
  kz_set : pystr → bytes → M K unit;
  kz_get : pystr → M K bytes;
  kz_get_children : pystr → M K (list (list Z));
  kz_exists : pystr → M K bool;
  kz_delete : pystr → M K unit }.

(** [json.dumps(data).encode()] *)
Definition json_bytes (data : Json) : result bytes := t ← dumps data; utf8_encode t.
(** [json.loads(raw.decode())] *)
Definition json_value (raw : bytes) : result Json := t ← utf8_decode raw; loads t.

Module ZKClient.
Section client.
Context {K : Type} `{KazooApi K}.

(** [await asyncio.to_thread(m)] *)
Definition to_thread {A} (m : M K A) : Co K A :=
  pause;;
  r ← atomic (λ k, (Ok (m k).1, (m k).2));
  pause;;
  Done r.

Definition ensure_path (path : pystr) : Co K unit := to_thread (kz_ensure_path path).

Definition create (path : pystr) (data : Json) (ephemeral : bool) : Co K pystr :=
  raw ← atomic (lift (json_bytes data));
  to_thread (kz_create path raw ephemeral).

Definition create_ephemeral (path : pystr) (data : Json) : Co K pystr := create path data true.

Definition set (path : pystr) (data : Json) : Co K unit :=
  raw ← atomic (lift (json_bytes data));
  to_thread (kz_set path raw).

(** [None] is [JNull]. *)
Definition get (path : pystr) : Co K Json :=
  co_catch (
    raw ← to_thread (kz_get path);
    if bool_decide (raw = []) then mret JNull else atomic (lift (json_value raw)))
    (λ e, if bool_decide (e = NoNodeError) then Some (mret JNull) else None).

Definition get_children (path : pystr) : Co K (list (list Z)) :=
  co_catch (to_thread (kz_get_children path))
    (λ e, if bool_decide (e = NoNodeError) then Some (mret []) else None).

Definition exists_ (path : pystr) : Co K bool := to_thread (kz_exists path).

Definition delete (path : pystr) : Co K unit :=
  co_catch (to_thread (kz_delete path))
    (λ e, if bool_decide (e = NoNodeError) then Some (mret tt) else None).
End client.
End ZKClient.

(** ** Records as JSON *)

Definition _node_to_dict (node : BrokerNode) : Json :=
  JDict [(py "node_id", JStr (node_id node)); (py "host", JStr (host node)); (py "port", JInt (port node))].

Definition _topic_to_dict (t : TopicMetadata) : Json :=
  JDict [(py "topic", JStr (topic t)); (py "leader_id", JStr (leader_id t));
         (py "replica_list", JList (map JStr (replica_list t))); (py "isr_list", JList (map JStr (isr_list t)));
         (py "version", JInt (version t))].

Definition as_str (v : Json) : result (list Z) := match v with JStr s => Ok s | _ => Raise TypeError end.
Definition as_int (v : Json) : result Z := match v with JInt n => Ok n | _ => Raise TypeError end.
Fixpoint as_strs (l : list Json) : result (list (list Z)) :=
  match l with [] => Ok [] | v :: l => s ← as_str v; rest ← as_strs l; Ok (s :: rest) end.
Definition as_str_list (v : Json) : result (list (list Z)) :=
  match v with JList l => as_strs l | _ => Raise TypeError end.

Definition _node_from_dict (d : Json) : result BrokerNode :=
  node_id ← item d (py "node_id") ≫= as_str;
  host ← item d (py "host") ≫= as_str;
  port ← item d (py "port") ≫= as_int;
  Ok (mkBrokerNode node_id host port).

Definition _topic_from_dict (d : Json) : result TopicMetadata :=
  topic ← item d (py "topic") ≫= as_str;
  leader_id ← item d (py "leader_id") ≫= as_str;
  replica_list ← item d (py "replica_list") ≫= as_str_list;
  isr_list ← item d (py "isr_list") ≫= as_str_list;
  version ← item d (py "version") ≫= as_int;
  Ok (mkTopicMetadata topic leader_id replica_list isr_list version).

(** ** The storage *)

Definition child (path name : pystr) : pystr := path ++ [47] ++ name.

Module ZKMetastoreStorage.
Definition _BROKERS_PATH : pystr := py "/pylogstream/brokers".
Definition _TOPICS_PATH : pystr := py "/pylogstream/topics".

Section storage.
Context {K : Type} `{KazooApi K}.

Definition setup : Co K unit :=
  ZKClient.ensure_path _BROKERS_PATH;; ZKClient.ensure_path _TOPICS_PATH.

Definition add_node (node : BrokerNode) : Co K unit :=
  let path := child _BROKERS_PATH (node_id node) in
  co_catch (ZKClient.create path (_node_to_dict node) false;; mret tt)
    (λ e, if bool_decide (e = NodeExistsError) then Some (ZKClient.set path (_node_to_dict node)) else None).

Definition get_node (id : pystr) : Co K (option BrokerNode) :=
  data ← ZKClient.get (child _BROKERS_PATH id);
  if truthy data then atomic (lift (Some <$> _node_from_dict data)) else mret None.

Definition remove_node (id : pystr) : Co K (option BrokerNode) :=
  existing ← get_node id;
  ZKClient.delete (child _BROKERS_PATH id);;
  mret existing.

(** The loop over the children. *)
Fixpoint gather {A} (f : pystr → Co K (option A)) (children : list (list Z)) : Co K (list A) :=
  match children with
  | [] => mret []
  | c :: children =>
      x ← f c;
      rest ← gather f children;
      mret (match x with Some a => a :: rest | None => rest end)
  end.

Definition get_all_nodes : Co K (list BrokerNode) :=
  children ← ZKClient.get_children _BROKERS_PATH;
  gather get_node children.

Definition add_topic (t : TopicMetadata) : Co K unit :=
  co_catch (ZKClient.create (child _TOPICS_PATH (topic t)) (_topic_to_dict t) false;; mret tt)
    (λ e, if bool_decide (e = NodeExistsError) then Some (Done (Raise ValueError)) else None).

Definition update_topic (t : TopicMetadata) : Co K unit :=
  let path := child _TOPICS_PATH (topic t) in
  there ← ZKClient.exists_ path;
  if negb there then Done (Raise ValueError) else ZKClient.set path (_topic_to_dict t).

Definition get_topic (topic_name : pystr) : Co K (option TopicMetadata) :=
  data ← ZKClient.get (child _TOPICS_PATH topic_name);
  if truthy data then atomic (lift (Some <$> _topic_from_dict data)) else mret None.

Definition remove_topic (topic_name : pystr) : Co K (option TopicMetadata) :=
  existing ← get_topic topic_name;
  ZKClient.delete (child _TOPICS_PATH topic_name);;
  mret existing.

Definition get_all_topics : Co K (list TopicMetadata) :=
  children ← ZKClient.get_children _TOPICS_PATH;
  gather get_topic children.
End storage.
End ZKMetastoreStorage.

(** A storage whose calls are not interrupted. *)
#[export] Instance zk_storage {K} `{KazooApi K} : StorageApi K := {
  st_add_node x := run (ZKMetastoreStorage.add_node x);
  st_remove_node n := run (ZKMetastoreStorage.remove_node n);
  st_get_node n := run (ZKMetastoreStorage.get_node n);
  st_get_all_nodes := run ZKMetastoreStorage.get_all_nodes;
  st_add_topic t := run (ZKMetastoreStorage.add_topic t);
  st_update_topic t := run (ZKMetastoreStorage.update_topic t);
  st_remove_topic t := run (ZKMetastoreStorage.remove_topic t);
  st_get_topic t := run (ZKMetastoreStorage.get_topic t);
  st_get_all_topics := run ZKMetastoreStorage.get_all_topics }.

(** ** The election *)

Definition _CONTROLLER_PATH : pystr := py "/pylogstream/controller".

Section election.
Context {K : Type} `{KazooApi K}.

Definition leader_data (l : LeaderInfo) : Json :=
  JDict [(py "controller_id", JStr (Controller.controller_id l)); (py "host", JStr (Controller.leader_host l));
         (py "port", JInt (Controller.leader_port l))].

(** What [create_ephemeral] comes to in [_run_election]. *)
Definition ask_create (l : LeaderInfo) : Co K creation :=
  co_catch (ZKClient.create_ephemeral _CONTROLLER_PATH (leader_data l);; mret Created)
    (λ e, Some (mret (if bool_decide (e = NodeExistsError) then NodeExists else NotCreated e))).

Definition leader_info (data : Json) : result (option LeaderInfo) :=
  if truthy data then
    id ← item_or data (py "controller_id") (JStr []) ≫= as_str;
    host ← item_or data (py "host") (JStr []) ≫= as_str;
    port ← item_or data (py "port") (JInt 0) ≫= as_int;
    Ok (Some (mkLeaderInfo id host port))
  else Ok None.

(** [get_leader] with ZooKeeper. *)
Definition ask_leader : Co K (option LeaderInfo) :=
  data ← ZKClient.get _CONTROLLER_PATH;
  atomic (lift (leader_info data)).
End election.
