(* ===== verification/ZkFacts.v ===== *)
(** * What the storage relies on in ZooKeeper

    The laws of the tree of znodes as the documentation of ZooKeeper states them, and
    what each call of [ZKMetastoreStorage] comes to under them. *)
From Stdlib Require Import String.
From stdpp Require Import fin_maps fin_map_dom.
From S2P Require Import Prelude Coroutine PyData PyDict Json JsonFacts Metastore Zk.

(** ** Names and paths *)

(** The names ZooKeeper takes. *)
Definition name_char (c : Z) : bool :=
  (32 <=? c) && (c <? 0xD800) && negb ((127 <=? c) && (c <=? 159)) && negb (c =? 47) ||
  (0xF900 <=? c) && (c <? 0xFFF0) || (0x10000 <=? c) && (c <? 0x110000).
Definition name_ok (n : pystr) : bool :=
  bool_decide (n ≠ []) && forallb name_char n && bool_decide (n ≠ py ".") && bool_decide (n ≠ py "..").

Definition path_of (ns : list (list Z)) : pystr := concat (map (cons 47) ns).
Definition zpath (p : pystr) : Prop := ∃ ns, ns ≠ [] ∧ Forall name_ok ns ∧ p = path_of ns.

(** The default limit is a little above one million bytes, for the whole request. *)
Definition max_data : Z := 1000000.

(** The tree maps the paths of the znodes to their data.  Nothing else writes to it and
    the session stays up. *)
Class KazooLaws (K : Type) `{KazooApi K} := {
  kz_ok : K → Prop;
  kz_tree : K → gmap (list Z) bytes;
  kz_ensure_ok k ns : kz_ok k → Forall name_ok ns →
    ∃ k', kz_ensure_path (path_of ns) k = (Ok tt, k') ∧ kz_ok k' ∧
      ∀ q, kz_tree k' !! q =
        match kz_tree k !! q with
        | Some raw => Some raw
        | None => if bool_decide (Exists (λ i, q = path_of (take (S i) ns)) (seq 0 (length ns))) then Some [] else None
        end;
  kz_create_ok k p n raw ephemeral : kz_ok k → zpath p → name_ok n → is_Some (kz_tree k !! p) → zlen raw ≤ max_data →
    match kz_tree k !! child p n with
    | Some _ => kz_create (child p n) raw ephemeral k = (Raise NodeExistsError, k)
    | None => ∃ k', kz_create (child p n) raw ephemeral k = (Ok (child p n), k') ∧ kz_ok k' ∧
        kz_tree k' = <[child p n := raw]> (kz_tree k)
    end;
  kz_set_ok k p raw : kz_ok k → zpath p → zlen raw ≤ max_data →
    match kz_tree k !! p with
    | Some _ => ∃ k', kz_set p raw k = (Ok tt, k') ∧ kz_ok k' ∧ kz_tree k' = <[p := raw]> (kz_tree k)
    | None => kz_set p raw k = (Raise NoNodeError, k)
    end;
  kz_get_ok k p : kz_ok k → zpath p → kz_get p k = (or_raise (kz_tree k !! p) NoNodeError, k);
  kz_children_ok k p : kz_ok k → zpath p →
    match kz_tree k !! p with
    | Some _ => ∃ l, kz_get_children p k = (Ok l, k) ∧ NoDup l ∧
        ∀ n, n ∈ l ↔ name_ok n ∧ is_Some (kz_tree k !! child p n)
    | None => kz_get_children p k = (Raise NoNodeError, k)
    end;
  kz_exists_ok k p : kz_ok k → zpath p → kz_exists p k = (Ok (bool_decide (is_Some (kz_tree k !! p))), k);
  kz_delete_ok k p : kz_ok k → zpath p → (∀ n, name_ok n → kz_tree k !! child p n = None) →
    match kz_tree k !! p with
    | Some _ => ∃ k', kz_delete p k = (Ok tt, k') ∧ kz_ok k' ∧ kz_tree k' = delete p (kz_tree k)
    | None => kz_delete p k = (Raise NoNodeError, k)
    end }.

Lemma name_ok_chars n : name_ok n → n ≠ [] ∧ Forall is_scalar n ∧ 47 ∉ n.
Proof.
  intros H%Is_true_true. unfold name_ok in H.
  apply andb_true_iff in H as [[[H1%bool_decide_eq_true H2]%andb_true_iff _]%andb_true_iff _].
  rewrite forallb_forall in H2. split; [done|]. split.
  - apply Forall_forall. intros c Hc%list_elem_of_In%H2. unfold name_char, is_scalar in *. lia.
  - intros Hc%list_elem_of_In%H2. done.
Qed.

Lemma path_of_snoc ns n : path_of (ns ++ [n]) = child (path_of ns) n.
Proof. unfold path_of, child. rewrite map_app, concat_app. cbn. by rewrite app_nil_r. Qed.

Lemma zpath_child p n : zpath p → name_ok n → zpath (child p n).
Proof.
  intros (ns & Hne & Hns & ->) Hn. exists (ns ++ [n]). split_and!; [by destruct ns|by apply Forall_app; auto|].
  by rewrite path_of_snoc.
Qed.

Lemma child_inj p n m : child p n = child p m → n = m.
Proof. unfold child. by intros [= ?]%app_inv_head. Qed.

Lemma child_longer p n : (length p < length (child p n))%nat.
Proof. unfold child. rewrite length_app. cbn. lia. Qed.

(** A grandchild is no child. *)
Lemma grandchild p n m m' : name_ok m' → child p m' ≠ child (child p n) m.
Proof.
  intros (_ & _ & H)%name_ok_chars E. unfold child in E. rewrite <-!app_assoc in E.
  apply app_inv_head in E. injection E as E. apply H. rewrite E. apply elem_of_app. right. left.
Qed.

(** ** The calls of the client *)

Section client.
Context {K : Type} `{KazooLaws K}.
Implicit Types k : K.

Lemma run_to_thread {A} (m : M K A) k : run (ZKClient.to_thread m) k = m k.
Proof.
  unfold ZKClient.to_thread. run_co. destruct (m k) as [[a|e] k']; done.
Qed.

Lemma create_run p n data raw ephemeral k :
  kz_ok k → zpath p → name_ok n → is_Some (kz_tree k !! p) → json_bytes data = Ok raw → zlen raw ≤ max_data →
  match kz_tree k !! child p n with
  | Some _ => run (ZKClient.create (child p n) data ephemeral) k = (Raise NodeExistsError, k)
  | None => ∃ k', run (ZKClient.create (child p n) data ephemeral) k = (Ok (child p n), k') ∧ kz_ok k' ∧
      kz_tree k' = <[child p n := raw]> (kz_tree k)
  end.
Proof.
  intros Hk Hp Hn Hs He Hl. pose proof (kz_create_ok k p n raw ephemeral Hk Hp Hn Hs Hl) as Hc.
  unfold ZKClient.create. run_co. run. rewrite He. cbv iota. by rewrite run_to_thread.
Qed.

Lemma set_run p data raw k :
  kz_ok k → zpath p → is_Some (kz_tree k !! p) → json_bytes data = Ok raw → zlen raw ≤ max_data →
  ∃ k', run (ZKClient.set p data) k = (Ok tt, k') ∧ kz_ok k' ∧ kz_tree k' = <[p := raw]> (kz_tree k).
Proof.
  intros Hk Hp [x Hx] He Hl. pose proof (kz_set_ok k p raw Hk Hp Hl) as Hc. rewrite Hx in Hc.
  unfold ZKClient.set. run_co. run. rewrite He. cbv iota. by rewrite run_to_thread.
Qed.

(** A znode that holds JSON is read back. *)
Lemma json_bytes_value data raw : json_ok data → json_bytes data = Ok raw → json_value raw = Ok data ∧ raw ≠ [].
Proof.
  intros Hok Hr. unfold json_bytes in Hr. apply bind_Ok in Hr as (t & Ht & Hr). unfold json_value.
  rewrite (utf8_roundtrip _ _ Hr). cbn [mbind result_bind]. split; [by apply loads_dumps|]. intros ->.
  pose proof (dumps_starts _ _ Hok Ht) as Hs. destruct t as [|c t]; [done|]. cbn [utf8_encode] in Hr. inv_ok.
  match goal with Hc : utf8_char c = Ok ?b |- _ => assert (b = []) as E by by destruct b end. subst.
  unfold utf8_char in *. repeat case_match; done.
Qed.

Lemma get_run p k data :
  kz_ok k → zpath p →
  (∀ raw, kz_tree k !! p = Some raw → json_ok data ∧ json_bytes data = Ok raw) →
  (kz_tree k !! p = None → data = JNull) →
  run (ZKClient.get p) k = (Ok data, k).
Proof.
  intros Hk Hp Hs Hn. unfold ZKClient.get. run_co. rewrite run_to_thread, kz_get_ok by done.
  destruct (kz_tree k !! p) as [raw|]; cbn [or_raise].
  - destruct (Hs raw eq_refl) as [Hok Hr]. destruct (json_bytes_value _ _ Hok Hr) as [Hv Hne].
    rewrite bool_decide_eq_false_2 by done. run_co. run. by rewrite Hv.
  - rewrite bool_decide_eq_true_2 by done. by rewrite Hn.
Qed.

Lemma children_run p k : kz_ok k → zpath p → is_Some (kz_tree k !! p) →
  ∃ l, run (ZKClient.get_children p) k = (Ok l, k) ∧ NoDup l ∧
    ∀ n, n ∈ l ↔ name_ok n ∧ is_Some (kz_tree k !! child p n).
Proof.
  intros Hk Hp [x Hx]. pose proof (kz_children_ok k p Hk Hp) as Hc. rewrite Hx in Hc.
  destruct Hc as (l & E & Hl). exists l. split; [|done]. unfold ZKClient.get_children. run_co.
  by rewrite run_to_thread, E.
Qed.

Lemma delete_run p k : kz_ok k → zpath p → (∀ n, name_ok n → kz_tree k !! child p n = None) →
  ∃ k', run (ZKClient.delete p) k = (Ok tt, k') ∧ kz_ok k' ∧ kz_tree k' = delete p (kz_tree k).
Proof.
  intros Hk Hp Hn. pose proof (kz_delete_ok k p Hk Hp Hn) as Hc. unfold ZKClient.delete. run_co.
  rewrite run_to_thread. destruct (kz_tree k !! p) eqn:E.
  - destruct Hc as (k' & -> & ?). by exists k'.
  - rewrite Hc, bool_decide_eq_true_2 by done. exists k. split; [done|]. split; [done|]. by rewrite delete_id.
Qed.

Lemma exists_run p k : kz_ok k → zpath p →
  run (ZKClient.exists_ p) k = (Ok (bool_decide (is_Some (kz_tree k !! p))), k).
Proof. intros Hk Hp. unfold ZKClient.exists_. by rewrite run_to_thread, kz_exists_ok. Qed.
End client.

(** ** Records in znodes *)

(** The records of one kind are children of one znode. *)
Class ZkRecord (A : Type) := {
  zr_path : pystr;
  zr_dict : A → Json;
  zr_read : Json → result A;
  zr_key : A → list Z }.

Class ZkRecordLaws (A : Type) `{ZkRecord A} := {
  zr_path_ok : zpath zr_path;
  zr_truthy (a : A) : truthy (zr_dict a) = true;
  zr_read_dict (a : A) : zr_read (zr_dict a) = Ok a }.

(** The records ZooKeeper takes. *)
Definition storable `{ZkRecord A} (a : A) : Prop :=
  name_ok (zr_key a) ∧ json_ok (zr_dict a) ∧
  match json_bytes (zr_dict a) with Ok raw => zlen raw ≤ max_data | Raise _ => False end.
Definition raw_of `{ZkRecord A} (a : A) : bytes :=
  match json_bytes (zr_dict a) with Ok raw => raw | Raise _ => [] end.

Lemma storable_raw `{ZkRecord A} (a : A) : storable a → json_bytes (zr_dict a) = Ok (raw_of a) ∧ zlen (raw_of a) ≤ max_data.
Proof. intros (_ & _ & Hl). unfold raw_of. by destruct (json_bytes _). Qed.

(** [_get_node] and [_get_topic] *)
Definition fetch `{KazooApi K, ZkRecord A} (n : pystr) : Co K (option A) :=
  data ← ZKClient.get (child zr_path n);
  if truthy data then atomic (lift (Some <$> zr_read data)) else mret None.

Section table.
Context {K A : Type} `{KazooLaws K} `{ZkRecordLaws A}.
Implicit Types (k : K) (f : gmap (list Z) A) (a : A).

Record table k f : Prop := {
  tb_base : is_Some (kz_tree k !! zr_path);
  tb_data n : name_ok n → kz_tree k !! child zr_path n = raw_of <$> f !! n;
  tb_leaf n m : name_ok n → name_ok m → kz_tree k !! child (child zr_path n) m = None;
  tb_records n a : f !! n = Some a → zr_key a = n ∧ storable a }.

Lemma fetch_run k f n : kz_ok k → table k f → name_ok n → run (fetch n) k = (Ok (f !! n), k).
Proof.
  intros Hk Hf Hn. unfold fetch. rewrite run_co_bind.
  rewrite (get_run _ _ (match f !! n with Some a => zr_dict a | None => JNull end));
    [|done|by apply zpath_child; [apply zr_path_ok|]| |].
  - destruct (f !! n) as [a|]; [|done]. rewrite zr_truthy, run_atomic. run. by rewrite zr_read_dict.
  - intros raw. rewrite (tb_data _ _ Hf) by done. destruct (f !! n) as [a|] eqn:E; [|done]. intros [= <-].
    destruct (tb_records _ _ Hf n a E) as [_ Hs]. split; [apply Hs|by apply storable_raw].
  - rewrite (tb_data _ _ Hf) by done. by destruct (f !! n).
Qed.

(** Writing a record. *)
Lemma table_insert k k' f a : table k f → storable a →
  kz_tree k' = <[child zr_path (zr_key a) := raw_of a]> (kz_tree k) → table k' (<[zr_key a := a]> f).
Proof.
  intros [B D L R] Hs E. pose proof Hs as [Hn _]. split; rewrite ?E.
  - apply lookup_insert_is_Some. destruct (decide (child zr_path (zr_key a) = zr_path)); [by left|by right].
  - intros n Hn'. rewrite !lookup_insert. destruct (decide (child zr_path (zr_key a) = child zr_path n)) as [Hc|Hc].
    + apply child_inj in Hc as ->. by rewrite decide_True.
    + rewrite decide_False by congruence. by apply D.
  - intros n m Hn' Hm. rewrite lookup_insert_ne by by apply grandchild. by apply L.
  - intros n b. rewrite lookup_insert. case_decide as Hc; [intros [= <-]; by subst|]. apply R.
Qed.

Lemma table_delete k k' f n : table k f → name_ok n →
  kz_tree k' = delete (child zr_path n) (kz_tree k) → table k' (delete n f).
Proof.
  intros [B D L R] Hn E. split; rewrite ?E.
  - rewrite lookup_delete_ne; [done|]. intros Hc. pose proof (child_longer zr_path n). rewrite Hc in *. lia.
  - intros n' Hn'. rewrite !lookup_delete. destruct (decide (child zr_path n = child zr_path n')) as [Hc|Hc].
    + apply child_inj in Hc as ->. by rewrite decide_True.
    + rewrite decide_False by congruence. by apply D.
  - intros n' m Hn' Hm. rewrite lookup_delete_ne by by apply grandchild. by apply L.
  - intros n' b [_ Hb]%lookup_delete_Some. by apply R.
Qed.

(** What happens elsewhere. *)
Lemma table_frame k k' f (q : list Z) : table k f → ¬ zr_path `prefix_of` q →
  (∀ q', q' ≠ q → kz_tree k' !! q' = kz_tree k !! q') → table k' f.
Proof.
  intros [B D L R] Hq E. assert (∀ l, zr_path ++ l ≠ q) as Hne by (intros l <-; by apply Hq, prefix_app_r).
  split; [rewrite E; [done|by intros <-]| | |done].
  - intros n Hn. rewrite E; [by apply D|]. apply Hne.
  - intros n m Hn Hm. rewrite E; [by apply L|]. unfold child. rewrite <-app_assoc. apply Hne.
Qed.

Lemma create_record k f a : kz_ok k → table k f → storable a →
  match f !! zr_key a with
  | Some _ => run (ZKClient.create (child zr_path (zr_key a)) (zr_dict a) false) k = (Raise NodeExistsError, k)
  | None => ∃ k', run (ZKClient.create (child zr_path (zr_key a)) (zr_dict a) false) k = (Ok (child zr_path (zr_key a)), k') ∧
      kz_ok k' ∧ kz_tree k' = <[child zr_path (zr_key a) := raw_of a]> (kz_tree k)
  end.
Proof.
  intros Hk Hf Hs. destruct (storable_raw a Hs) as [Hr Hl]. pose proof Hs as [Hn _].
  pose proof (create_run zr_path (zr_key a) (zr_dict a) (raw_of a) false k Hk zr_path_ok Hn (tb_base _ _ Hf) Hr Hl) as Hc.
  rewrite (tb_data _ _ Hf) in Hc by done. by destruct (f !! zr_key a).
Qed.

Lemma set_record k f a : kz_ok k → table k f → storable a → is_Some (f !! zr_key a) →
  ∃ k', run (ZKClient.set (child zr_path (zr_key a)) (zr_dict a)) k = (Ok tt, k') ∧ kz_ok k' ∧
    kz_tree k' = <[child zr_path (zr_key a) := raw_of a]> (kz_tree k).
Proof.
  intros Hk Hf Hs Hsome. destruct (storable_raw a Hs) as [Hr Hl]. pose proof Hs as [Hn _].
  apply set_run; [done|by apply zpath_child; [apply zr_path_ok|]| |done|done].
  rewrite (tb_data _ _ Hf) by done. by apply fmap_is_Some.
Qed.

Lemma delete_record k f n : kz_ok k → table k f → name_ok n →
  ∃ k', run (ZKClient.delete (child zr_path n)) k = (Ok tt, k') ∧ kz_ok k' ∧
    kz_tree k' = delete (child zr_path n) (kz_tree k).
Proof.
  intros Hk Hf Hn. apply delete_run; [done|by apply zpath_child; [apply zr_path_ok|]|].
  intros m Hm. by apply (tb_leaf _ _ Hf).
Qed.

(** All records: each is read once. *)
Lemma gather_run k f l : kz_ok k → table k f → Forall name_ok l →
  run (ZKMetastoreStorage.gather fetch l) k = (Ok (omap (λ n, f !! n) l), k).
Proof.
  intros Hk Hf. induction 1 as [|n l Hn Hl IH]; [done|]. cbn [ZKMetastoreStorage.gather].
  rewrite run_co_bind, (fetch_run k f n) by done. rewrite run_co_bind, IH. cbn. by destruct (f !! n).
Qed.

Lemma gather_all k f : kz_ok k → table k f →
  ∃ l, run (children ← ZKClient.get_children zr_path; ZKMetastoreStorage.gather fetch children) k = (Ok l, k) ∧
    l ≡ₚ (map_to_list f).*2.
Proof.
  intros Hk Hf. destruct (children_run zr_path k Hk zr_path_ok (tb_base _ _ Hf)) as (ns & E & Hnd & Hns).
  exists (omap (λ n, f !! n) ns). rewrite run_co_bind, E.
  assert (∀ n, n ∈ ns ↔ n ∈ dom f) as Hdom.
  { intros n. rewrite Hns, elem_of_dom. split.
    - intros [Hn Hs]. rewrite (tb_data _ _ Hf) in Hs by done. by apply fmap_is_Some in Hs.
    - intros [a Ha]. destruct (tb_records _ _ Hf n a Ha) as [<- Hs]. pose proof Hs as [Hn _].
      split; [done|]. rewrite (tb_data _ _ Hf) by done. by rewrite Ha. }
  split.
  - apply (gather_run k f); [done..|]. apply Forall_forall. intros n [? _]%Hns. done.
  - assert (ns ≡ₚ (map_to_list f).*1) as ->.
    { apply NoDup_Permutation; [done|apply NoDup_fst_map_to_list|]. intros n. rewrite Hdom.
      rewrite elem_of_dom, list_elem_of_fmap. split.
      - intros [a Ha]. exists (n, a). split; [done|]. by apply elem_of_map_to_list.
      - intros ([m a] & -> & Ha%elem_of_map_to_list). by exists a. }
    assert (∀ l : list (list Z * A), (∀ n a, (n, a) ∈ l → f !! n = Some a) → omap (λ n, f !! n) l.*1 = l.*2) as Homap.
    { induction l as [|[n a] l IH]; intros Hl; [done|]. cbn. rewrite (Hl n a) by left. f_equal. apply IH.
      intros m b Hm. apply Hl. by right. }
    rewrite Homap; [done|]. intros n a. by intros ?%elem_of_map_to_list.
Qed.
End table.
