(* ===== verification/ZkTheorems.v ===== *)
(** * What the storage in ZooKeeper guarantees *)
From Stdlib Require Import String.
From stdpp Require Import fin_maps fin_map_dom.
From S2P Require Import Prelude Coroutine PyData PyDict Json JsonFacts Metastore StorageFacts Controller Zk ZkFacts.

(** ** The two kinds of records *)

#[export] Instance node_record : ZkRecord BrokerNode := {
  zr_path := ZKMetastoreStorage._BROKERS_PATH; zr_dict := _node_to_dict;
  zr_read := _node_from_dict; zr_key := node_id }.
#[export] Instance topic_record : ZkRecord TopicMetadata := {
  zr_path := ZKMetastoreStorage._TOPICS_PATH; zr_dict := _topic_to_dict;
  zr_read := _topic_from_dict; zr_key := topic }.

Lemma as_strs_map l : as_strs (map JStr l) = Ok l.
Proof. induction l as [|s l IH]; [done|]. cbn. by rewrite IH. Qed.

#[export] Instance node_record_laws : ZkRecordLaws BrokerNode.
Proof.
  split; [|done|by intros []].
  exists [py "pylogstream"; py "brokers"]. split; [done|]. split; [|done]. by repeat constructor.
Qed.
#[export] Instance topic_record_laws : ZkRecordLaws TopicMetadata.
Proof.
  split; [|done|].
  - exists [py "pylogstream"; py "topics"]. split; [done|]. split; [|done]. by repeat constructor.
  - intros t. cbn [zr_read zr_dict topic_record]. unfold _topic_from_dict.
    change (item (_topic_to_dict t) (py "topic")) with (Ok (JStr (topic t))).
    change (item (_topic_to_dict t) (py "leader_id")) with (Ok (JStr (leader_id t))).
    change (item (_topic_to_dict t) (py "replica_list")) with (Ok (JList (map JStr (replica_list t)))).
    change (item (_topic_to_dict t) (py "isr_list")) with (Ok (JList (map JStr (isr_list t)))).
    change (item (_topic_to_dict t) (py "version")) with (Ok (JInt (version t))).
    cbn [mbind result_bind as_str as_str_list as_int]. rewrite !as_strs_map. by destruct t.
Qed.

Lemma paths_apart : ¬ @zr_path BrokerNode _ `prefix_of` @zr_path TopicMetadata _ ∧
  ∀ n, ¬ @zr_path BrokerNode _ `prefix_of` child (@zr_path TopicMetadata _) n ∧
       ¬ @zr_path TopicMetadata _ `prefix_of` child (@zr_path BrokerNode _) n.
Proof.
  assert (∀ l l' : list Z, l `prefix_of` l' → take 14 l = take 14 l' ∨ (length l < 14)%nat) as Hp.
  { intros l l' [r ->]. destruct (decide (length l < 14)%nat); [by right|left]. by rewrite take_app_le by lia. }
  split.
  - intros [H|H]%Hp; [by vm_compute in H|]. apply (bool_decide_pack _) in H. by vm_compute in H.
  - intros n. split; intros [H|H]%Hp;
      first [apply (bool_decide_pack _) in H; by vm_compute in H|unfold child in H; by vm_compute in H].
Qed.

(** ** What a storage call does *)

Inductive storage_call :=
| AddNode (x : BrokerNode)
| RemoveNode (n : list Z)
| GetNode (n : list Z)
| GetAllNodes
| AddTopic (t : TopicMetadata)
| UpdateTopic (t : TopicMetadata)
| RemoveTopic (n : list Z)
| GetTopic (n : list Z)
| GetAllTopics.

Inductive reply :=
| Nothing
| ANode (x : option BrokerNode)
| Nodes (l : list BrokerNode)
| ATopic (t : option TopicMetadata)
| Topics (l : list TopicMetadata).

Definition call {S} `{StorageApi S} (c : storage_call) : M S reply :=
  match c with
  | AddNode x => st_add_node x;; mret Nothing
  | RemoveNode n => x ← st_remove_node n; mret (ANode x)
  | GetNode n => x ← st_get_node n; mret (ANode x)
  | GetAllNodes => l ← st_get_all_nodes; mret (Nodes l)
  | AddTopic t => st_add_topic t;; mret Nothing
  | UpdateTopic t => st_update_topic t;; mret Nothing
  | RemoveTopic n => t ← st_remove_topic n; mret (ATopic t)
  | GetTopic n => t ← st_get_topic n; mret (ATopic t)
  | GetAllTopics => l ← st_get_all_topics; mret (Topics l)
  end.

(** Names and records that ZooKeeper takes. *)
Definition call_ok (c : storage_call) : Prop :=
  match c with
  | AddNode x => storable x
  | AddTopic t | UpdateTopic t => storable t
  | RemoveNode n | GetNode n | RemoveTopic n | GetTopic n => name_ok n
  | GetAllNodes | GetAllTopics => True
  end.

(** Lists may come in another order. *)
Definition same_reply (r r' : result reply) : Prop :=
  match r, r' with
  | Ok (Nodes l), Ok (Nodes l') => l ≡ₚ l'
  | Ok (Topics l), Ok (Topics l') => l ≡ₚ l'
  | _, _ => r = r'
  end.

Section refinement.
Context {K S : Type} `{KazooLaws K} `{StorageLaws S}.
Implicit Types (k : K) (s : S) (N : gmap (list Z) BrokerNode) (T : gmap (list Z) TopicMetadata).

(** The tree holds these nodes and topics. *)
Record holds k N T : Prop := {
  ho_ok : kz_ok k;
  ho_nodes : table k N;
  ho_topics : table k T }.

(** Both storages hold the same. *)
Definition same_storage k s : Prop := st_ok s ∧ holds k (st_nodes s) (st_topics s).

Lemma holds_nodes k k' N N' T : holds k N T → kz_ok k' → table k' N' →
  (∃ n, ∀ q, q ≠ child (zr_path (A := BrokerNode)) n → kz_tree k' !! q = kz_tree k !! q) → holds k' N' T.
Proof.
  intros [_ _ HT] Hk HN [n E]. split; [done|done|]. eapply table_frame; [exact HT| |exact E].
  apply paths_apart.
Qed.
Lemma holds_topics k k' N T T' : holds k N T → kz_ok k' → table k' T' →
  (∃ n, ∀ q, q ≠ child (zr_path (A := TopicMetadata)) n → kz_tree k' !! q = kz_tree k !! q) → holds k' N T'.
Proof.
  intros [_ HN _] Hk HT [n E]. split; [done| |done]. eapply table_frame; [exact HN| |exact E].
  apply paths_apart.
Qed.

Lemma insert_elsewhere (k k' : K) q0 raw : kz_tree k' = <[q0 := raw]> (kz_tree k) →
  ∀ q, q ≠ q0 → kz_tree k' !! q = kz_tree k !! q.
Proof. intros -> q Hq. by rewrite lookup_insert_ne. Qed.
Lemma delete_elsewhere (k k' : K) q0 : kz_tree k' = delete q0 (kz_tree k) →
  ∀ q, q ≠ q0 → kz_tree k' !! q = kz_tree k !! q.
Proof. intros -> q Hq. by rewrite lookup_delete_ne. Qed.

Lemma add_node_run k N T x : holds k N T → storable x →
  ∃ k', run (ZKMetastoreStorage.add_node x) k = (Ok tt, k') ∧ holds k' (<[node_id x := x]> N) T.
Proof.
  intros Hh Hx. pose proof Hh as [Hk HN _]. unfold ZKMetastoreStorage.add_node. rewrite run_co_catch, run_co_bind.
  pose proof (create_record k N x Hk HN Hx) as Hc. cbn [zr_key node_record zr_path zr_dict] in Hc.
  assert (∀ k', kz_ok k' → kz_tree k' = <[child ZKMetastoreStorage._BROKERS_PATH (node_id x) := raw_of x]> (kz_tree k) →
    holds k' (<[node_id x := x]> N) T) as Hdone.
  { intros k' Hk' E. eapply holds_nodes; [exact Hh|done|exact (table_insert k k' N x HN Hx E)|].
    exists (node_id x). by eapply insert_elsewhere. }
  destruct (N !! node_id x) as [y|] eqn:Ey.
  - rewrite Hc. rewrite bool_decide_eq_true_2 by done.
    destruct (set_record k N x Hk HN Hx) as (k' & E & Hk' & Et); [by exists y|].
    cbn [zr_key node_record zr_path zr_dict] in *. rewrite E. exists k'. auto.
  - destruct Hc as (k' & E & Hk' & Et). rewrite E. exists k'. split; [done|]. auto.
Qed.

Lemma add_topic_run k N T t : holds k N T → storable t →
  match T !! topic t with
  | Some _ => run (ZKMetastoreStorage.add_topic t) k = (Raise ValueError, k)
  | None => ∃ k', run (ZKMetastoreStorage.add_topic t) k = (Ok tt, k') ∧ holds k' N (<[topic t := t]> T)
  end.
Proof.
  intros Hh Ht. pose proof Hh as [Hk _ HT]. unfold ZKMetastoreStorage.add_topic. rewrite run_co_catch, run_co_bind.
  pose proof (create_record k T t Hk HT Ht) as Hc. cbn [zr_key topic_record zr_path zr_dict] in Hc.
  destruct (T !! topic t) as [y|].
  - rewrite Hc. by rewrite bool_decide_eq_true_2 by done.
  - destruct Hc as (k' & E & Hk' & Et). rewrite E. exists k'. split; [done|].
    eapply holds_topics; [exact Hh|done|exact (table_insert k k' T t HT Ht Et)|].
    exists (topic t). by eapply insert_elsewhere.
Qed.

Lemma update_topic_run k N T t : holds k N T → storable t →
  match T !! topic t with
  | None => run (ZKMetastoreStorage.update_topic t) k = (Raise ValueError, k)
  | Some _ => ∃ k', run (ZKMetastoreStorage.update_topic t) k = (Ok tt, k') ∧ holds k' N (<[topic t := t]> T)
  end.
Proof.
  intros Hh Ht. pose proof Hh as [Hk _ HT]. pose proof Ht as [Hn _]. unfold ZKMetastoreStorage.update_topic.
  rewrite run_co_bind, exists_run; [|done|by apply zpath_child; [exact (zr_path_ok (A := TopicMetadata) (H := topic_record))|]].
  pose proof (tb_data _ _ HT (topic t) Hn) as Ed. cbn [zr_path topic_record] in Ed. rewrite Ed.
  destruct (T !! topic t) as [y|] eqn:Ey.
  - rewrite bool_decide_eq_true_2 by (by eexists). cbn [negb].
    destruct (set_record k T t Hk HT Ht) as (k' & E & Hk' & Et); [by exists y|].
    cbn [zr_key topic_record zr_path zr_dict] in *. rewrite E. exists k'. split; [done|].
    eapply holds_topics; [exact Hh|done|exact (table_insert k k' T t HT Ht Et)|].
    exists (topic t). by eapply insert_elsewhere.
  - rewrite bool_decide_eq_false_2 by by intros [? ?]. done.
Qed.

(** Removing: the old record is returned. *)
Lemma remove_node_run k N T n : holds k N T → name_ok n →
  ∃ k', run (ZKMetastoreStorage.remove_node n) k = (Ok (N !! n), k') ∧ holds k' (delete n N) T.
Proof.
  intros Hh Hn. pose proof Hh as [Hk HN _]. unfold ZKMetastoreStorage.remove_node.
  rewrite run_co_bind. change (ZKMetastoreStorage.get_node n) with (fetch (A := BrokerNode) (K := K) n).
  rewrite (fetch_run k N n) by done. destruct (delete_record k N n Hk HN Hn) as (k' & E & Hk' & Et).
  cbn [zr_path node_record] in *. rewrite run_co_bind, E. exists k'. split; [done|].
  eapply holds_nodes; [exact Hh|done|exact (table_delete k k' N n HN Hn Et)|]. exists n. by eapply delete_elsewhere.
Qed.

Lemma zk_remove_topic_run k N T n : holds k N T → name_ok n →
  ∃ k', run (ZKMetastoreStorage.remove_topic n) k = (Ok (T !! n), k') ∧ holds k' N (delete n T).
Proof.
  intros Hh Hn. pose proof Hh as [Hk _ HT]. unfold ZKMetastoreStorage.remove_topic.
  rewrite run_co_bind. change (ZKMetastoreStorage.get_topic n) with (fetch (A := TopicMetadata) (K := K) n).
  rewrite (fetch_run k T n) by done. destruct (delete_record k T n Hk HT Hn) as (k' & E & Hk' & Et).
  cbn [zr_path topic_record] in *. rewrite run_co_bind, E. exists k'. split; [done|].
  eapply holds_topics; [exact Hh|done|exact (table_delete k k' T n HT Hn Et)|]. exists n. by eapply delete_elsewhere.
Qed.

(** One call on both storages. *)
Lemma call_refines k s c : same_storage k s → call_ok c →
  same_reply (call c k).1 (call c s).1 ∧ same_storage (call c k).2 (call c s).2.
Proof.
  intros [Hs Hh] Hc. pose proof Hh as [Hk HN HT]. unfold same_storage.
  destruct c as [x|n|n| |t|t|n|n|]; cbn [call call_ok] in *; run; cbn [zk_storage st_add_node st_remove_node
    st_get_node st_get_all_nodes st_add_topic st_update_topic st_remove_topic st_get_topic st_get_all_topics].
  - destruct (add_node_run k _ _ x Hh Hc) as (k' & -> & Hh').
    destruct (st_add_node_ok s x Hs) as (s' & -> & Hs' & Et & En). run. cbn [fst snd]. by rewrite Et, En.
  - destruct (remove_node_run k _ _ n Hh Hc) as (k' & -> & Hh').
    destruct (st_remove_node_ok s n Hs) as (s' & -> & Hs' & Et & En). run. cbn [fst snd]. by rewrite Et, En.
  - change (ZKMetastoreStorage.get_node n) with (fetch (A := BrokerNode) (K := K) n).
    by rewrite (fetch_run k _ n Hk HN Hc), st_get_node_ok.
  - destruct (gather_all k _ Hk HN) as (l & E & Hl). change (run ZKMetastoreStorage.get_all_nodes k = (Ok l, k)) in E.
    rewrite E. destruct (st_get_all_nodes_ok s Hs) as (l' & -> & Hl'). run. cbn [fst snd same_reply].
    split; [by rewrite Hl, Hl'|done].
  - pose proof (add_topic_run k _ _ t Hh Hc) as Hz. pose proof (st_add_topic_ok s t Hs) as Hm.
    destruct (st_topics s !! topic t); [by rewrite Hz, Hm|].
    destruct Hz as (k' & -> & Hh'). destruct Hm as (s' & -> & Hs' & En & Et). run. cbn [fst snd]. by rewrite Et, En.
  - pose proof (update_topic_run k _ _ t Hh Hc) as Hz. pose proof (st_update_topic_ok s t Hs) as Hm.
    destruct (st_topics s !! topic t); [|by rewrite Hz, Hm].
    destruct Hz as (k' & -> & Hh'). destruct Hm as (s' & -> & Hs' & En & Et). run. cbn [fst snd]. by rewrite Et, En.
  - destruct (zk_remove_topic_run k _ _ n Hh Hc) as (k' & -> & Hh').
    destruct (st_remove_topic_ok s n Hs) as (s' & -> & Hs' & En & Et). run. cbn [fst snd]. by rewrite Et, En.
  - change (ZKMetastoreStorage.get_topic n) with (fetch (A := TopicMetadata) (K := K) n).
    by rewrite (fetch_run k _ n Hk HT Hc), st_get_topic_ok.
  - destruct (gather_all k _ Hk HT) as (l & E & Hl). change (run ZKMetastoreStorage.get_all_topics k = (Ok l, k)) in E.
    rewrite E. destruct (st_get_all_topics_ok s Hs) as (l' & -> & Hl'). run. cbn [fst snd same_reply].
    split; [by rewrite Hl, Hl'|done].
Qed.

(** Preparing an empty tree, and one that holds something. *)
Lemma ensure_run (k : K) ns : kz_ok k → Forall name_ok ns →
  ∃ k', run (ZKClient.ensure_path (path_of ns)) k = (Ok tt, k') ∧ kz_ok k' ∧
    (ns ≠ [] → is_Some (kz_tree k' !! path_of ns)) ∧
    (∀ q, is_Some (kz_tree k !! q) → kz_tree k' !! q = kz_tree k !! q) ∧
    (∀ q, ¬ q `prefix_of` path_of ns → kz_tree k' !! q = kz_tree k !! q).
Proof.
  intros Hk Hns. destruct (kz_ensure_ok k ns Hk Hns) as (k' & E & Hk' & Et). exists k'.
  unfold ZKClient.ensure_path. rewrite run_to_thread. split; [done|]. split; [done|]. split_and!.
  - intros Hne. rewrite Et. destruct (kz_tree k !! _) as [raw|]; [by eexists|].
    rewrite bool_decide_eq_true_2; [by eexists|]. apply Exists_exists. exists (pred (length ns)).
    assert (0 < length ns)%nat by (destruct ns; [done|cbn; lia]). split; [apply elem_of_seq; lia|].
    by rewrite take_ge by lia.
  - intros q [raw Hq]. by rewrite Et, Hq.
  - intros q Hq. rewrite Et. destruct (kz_tree k !! q); [done|]. rewrite bool_decide_eq_false_2; [done|].
    intros (i & _ & ->)%Exists_exists. apply Hq. exists (path_of (drop (Datatypes.S i) ns)).
    unfold path_of. by rewrite <-concat_app, <-map_app, take_drop.
Qed.

Lemma table_ext {A} `{ZkRecordLaws A} (k k' : K) (f : gmap (list Z) A) :
  is_Some (kz_tree k' !! zr_path) → table k f ∨ kz_tree k = ∅ ∧ f = ∅ →
  (∀ n l, name_ok n → kz_tree k' !! (child zr_path n ++ l) = kz_tree k !! (child zr_path n ++ l)) → table k' f.
Proof.
  intros Hb Hf E. assert (∀ n, name_ok n → kz_tree k' !! child zr_path n = kz_tree k !! child zr_path n) as E0.
  { intros n Hn. pose proof (E n [] Hn) as E0. by rewrite app_nil_r in E0. }
  split; [done| | |].
  - intros n Hn. rewrite E0 by done. destruct Hf as [Hf|[-> ->]]; [by apply Hf|done].
  - intros n m Hn Hm. unfold child at 1. rewrite E by done. destruct Hf as [Hf|[-> _]]; [by apply (tb_leaf _ _ Hf)|done].
  - destruct Hf as [Hf|[_ ->]]; [apply Hf|done].
Qed.

Lemma setup_run k : kz_ok k →
  ∃ k', run ZKMetastoreStorage.setup k = (Ok tt, k') ∧
    (kz_tree k = ∅ → holds k' ∅ ∅) ∧ (∀ N T, holds k N T → holds k' N T).
Proof.
  intros Hk. unfold ZKMetastoreStorage.setup. rewrite run_co_bind.
  destruct (ensure_run k [py "pylogstream"; py "brokers"] Hk) as (k1 & E1 & Hk1 & Hs1 & Hkeep1 & Hoff1);
    [by repeat constructor|].
  change (path_of [py "pylogstream"; py "brokers"]) with (zr_path (A := BrokerNode)) in *.
  change ZKMetastoreStorage._BROKERS_PATH with (zr_path (A := BrokerNode)). rewrite E1. cbv iota.
  destruct (ensure_run k1 [py "pylogstream"; py "topics"] Hk1) as (k2 & E2 & Hk2 & Hs2 & Hkeep2 & Hoff2);
    [by repeat constructor|].
  change (path_of [py "pylogstream"; py "topics"]) with (zr_path (A := TopicMetadata)) in *.
  change ZKMetastoreStorage._TOPICS_PATH with (zr_path (A := TopicMetadata)). rewrite E2.
  exists k2. split; [done|].
  assert (∀ n l, ¬ child (zr_path (A := BrokerNode)) n ++ l `prefix_of` zr_path (A := BrokerNode) ∧
                 ¬ child (zr_path (A := BrokerNode)) n ++ l `prefix_of` zr_path (A := TopicMetadata) ∧
                 ¬ child (zr_path (A := TopicMetadata)) n ++ l `prefix_of` zr_path (A := BrokerNode) ∧
                 ¬ child (zr_path (A := TopicMetadata)) n ++ l `prefix_of` zr_path (A := TopicMetadata)) as Hoff.
  { intros n l. unfold child. rewrite <-!app_assoc. destruct paths_apart as [Hbt Ha].
    split_and!; intros Hp; pose proof (prefix_length _ _ Hp) as Hlen; rewrite length_app in Hlen; cbn in Hlen; try lia.
    - apply Hbt. etrans; [|exact Hp]. by apply prefix_app_r.
    - apply (Ha []). apply prefix_app_r. etrans; [|exact Hp]. by apply prefix_app_r. }
  assert (is_Some (kz_tree k2 !! zr_path (A := BrokerNode))) as HB by (rewrite Hkeep2; by apply Hs1).
  assert (is_Some (kz_tree k2 !! zr_path (A := TopicMetadata))) as HT by by apply Hs2.
  assert (∀ N T, (table k N ∨ kz_tree k = ∅ ∧ N = ∅) → (table k T ∨ kz_tree k = ∅ ∧ T = ∅) → holds k2 N T) as Hall.
  { intros N T HN HT'. split; [done| |].
    - apply (table_ext k k2 N HB HN). intros n l _. destruct (Hoff n l) as (H1' & H2' & _). by rewrite Hoff2, Hoff1.
    - apply (table_ext k k2 T HT HT'). intros n l _. destruct (Hoff n l) as (_ & _ & H1' & H2'). by rewrite Hoff2, Hoff1. }
  split; [intros He; apply Hall; by right|]. intros N T [_ HN HT']. apply Hall; by left.
Qed.
End refinement.

(** The replies to a sequence of calls. *)
Fixpoint replies {S} `{StorageApi S} (cs : list storage_call) (s : S) : list (result reply) * S :=
  match cs with
  | [] => ([], s)
  | c :: cs => let '(r, s) := call c s in let '(rs, s) := replies cs s in (r :: rs, s)
  end.

Lemma replies_refine {K S} `{KazooLaws K} `{StorageLaws S} cs (k : K) (s : S) :
  same_storage k s → Forall call_ok cs →
  Forall2 same_reply (replies cs k).1 (replies cs s).1 ∧ same_storage (replies cs k).2 (replies cs s).2.
Proof.
  intros Hks Hcs. revert k s Hks. induction Hcs as [|c cs Hc Hcs IH]; intros k s Hks; cbn [replies]; [by split|].
  destruct (call_refines k s c Hks Hc) as [Hr Hks'].
  destruct (call c k) as [r k1], (call c s) as [r' s1]. cbn [fst snd] in *. specialize (IH k1 s1 Hks').
  destruct (replies cs k1), (replies cs s1). cbn in *. destruct IH. split; [by constructor|done].
Qed.

(** C20: the storage in ZooKeeper is the storage in memory, and it outlives the controller.
    Prepared on an empty tree, it answers every sequence of calls as the storage in
    memory does, errors included, but for the order of the lists; when another
    controller prepares it again nothing is lost, and it goes on as the storage in
    memory would have gone on. *)
Theorem zookeeper_refines_memory {K} `{KazooLaws K} (k : K) cs cs' :
  kz_ok k → kz_tree k = ∅ → Forall call_ok cs → Forall call_ok cs' →
  ∃ k1, run ZKMetastoreStorage.setup k = (Ok tt, k1) ∧
    let '(rs, k2) := replies cs k1 in
    let '(rs_memory, m) := replies cs MetastoreStorage.new_storage in
    Forall2 same_reply rs rs_memory ∧
    ∃ k3, run ZKMetastoreStorage.setup k2 = (Ok tt, k3) ∧
      Forall2 same_reply (replies cs' k3).1 (replies cs' m).1.
Proof.
  intros Hk He Hcs Hcs'. destruct (setup_run k Hk) as (k1 & E & Hempty & _). exists k1. split; [done|].
  assert (same_storage k1 MetastoreStorage.new_storage) as Hks by (split; [apply new_storage_ok|by apply Hempty]).
  destruct (replies_refine cs k1 _ Hks Hcs) as [Hr [Hm Hh]].
  destruct (replies cs k1) as [rs k2], (replies cs _) as [rs' m]. cbn [fst snd] in *. split; [done|].
  destruct (setup_run k2 (ho_ok _ _ _ Hh)) as (k3 & E3 & _ & Hkeep). exists k3. split; [done|].
  apply replies_refine; [|done]. split; [done|by apply Hkeep].
Qed.

(** A value that is stored as JSON comes back.  A znode is given ASCII bytes, which
    decode to the same value whatever its strings hold; any other bytes are a value or
    a [ValueError], and reading them always ends. *)
Theorem json_roundtrip v raw :
  json_ok v → json_bytes v = Ok raw →
  forallb asciib raw ∧ json_value raw = Ok v ∧
  ∀ raw', match json_value raw' with Ok _ => True | Raise e => is_ValueError e end.
Proof.
  intros Hok Hr. destruct (json_bytes_value v raw Hok Hr) as [Hv _]. split_and!; [|done|].
  - unfold json_bytes in Hr. apply bind_Ok in Hr as (t & Ht & Hr).
    assert (forallb asciib t) as Ha by by apply (dumps_ascii (json_size v) v).
    rewrite utf8_encode_ascii in Hr by by apply Is_true_true. by injection Hr as <-.
  - intros raw'. unfold json_value. destruct (utf8_decode raw') as [t|e] eqn:Ed; cbn [mbind result_bind].
    + destruct (loads t) as [|e] eqn:El; [done|]. by apply loads_ValueError in El as ->.
    + by apply utf8_decode_raises in Ed as ->.
Qed.

(** ** The election *)

Section election.
Context {K S : Type} `{KazooLaws K} `{StorageApi S}.
Implicit Types (k : K) (s : Server S).

(** [_run_election] of one controller, with what ZooKeeper answers it. *)
Definition elect (l : LeaderInfo) s k : result unit * Server S * K :=
  let '(created, k) := run (ask_create l) k in
  let '(leader, k) := run ask_leader k in
  match created with
  | Ok created => let '(r, s) := run (_run_election created leader) s in (r, s, k)
  | Raise e => (Raise e, s, k)
  end.

Fixpoint elections (cs : list (LeaderInfo * Server S)) k : list (result unit * Server S) * K :=
  match cs with
  | [] => ([], k)
  | (l, s) :: cs =>
      let '(r, s, k) := elect l s k in
      let '(rs, k) := elections cs k in ((r, s) :: rs, k)
  end.

(** The description of a controller fits into a znode. *)
Definition leader_ok (l : LeaderInfo) : Prop :=
  json_ok (leader_data l) ∧ match json_bytes (leader_data l) with Ok raw => zlen raw ≤ max_data | Raise _ => False end.

Definition root : pystr := py "/pylogstream".
Lemma root_ok : zpath root.
Proof. exists [py "pylogstream"]. split; [done|]. split; [by repeat constructor|done]. Qed.
Lemma controller_name : name_ok (py "controller").
Proof. done. Qed.

(** The znode of the leader. *)
Definition led_by k (l : LeaderInfo) : Prop :=
  kz_ok k ∧ is_Some (kz_tree k !! root) ∧ leader_ok l ∧
  ∃ raw, json_bytes (leader_data l) = Ok raw ∧ kz_tree k !! _CONTROLLER_PATH = Some raw.

Lemma ask_leader_run k l : led_by k l → run ask_leader k = (Ok (Some l), k).
Proof.
  intros (Hk & _ & [Hj _] & raw & Hr & Ht). unfold ask_leader. rewrite run_co_bind.
  rewrite (get_run _ _ (leader_data l)); [|done|by apply (zpath_child root (py "controller") root_ok)| |].
  - rewrite run_atomic. run. by destruct l.
  - intros raw' Hraw. split; [done|]. congruence.
  - congruence.
Qed.

Lemma ask_create_run k l : kz_ok k → is_Some (kz_tree k !! root) → leader_ok l →
  match kz_tree k !! _CONTROLLER_PATH with
  | Some _ => run (ask_create l) k = (Ok NodeExists, k)
  | None => ∃ k', run (ask_create l) k = (Ok Created, k') ∧ led_by k' l
  end.
Proof.
  intros Hk Hroot Hl. pose proof Hl as [_ Hsz]. destruct (json_bytes (leader_data l)) as [raw|] eqn:Hr; [|done].
  pose proof (create_run root (py "controller") (leader_data l) raw true k Hk root_ok controller_name Hroot Hr Hsz) as Hc.
  change (child root (py "controller")) with _CONTROLLER_PATH in Hc.
  unfold ask_create, ZKClient.create_ephemeral. rewrite run_co_catch, run_co_bind.
  destruct (kz_tree k !! _CONTROLLER_PATH).
  - rewrite Hc. by rewrite bool_decide_eq_true_2.
  - destruct Hc as (k' & -> & Hk' & Et). exists k'. split; [done|]. split; [done|]. split; [|split; [done|]].
    + rewrite Et. apply lookup_insert_is_Some. destruct (decide (_CONTROLLER_PATH = root)); [by left|by right].
    + exists raw. split; [done|]. rewrite Et. apply lookup_insert_eq.
Qed.

Lemma elect_first l s k : kz_ok k → is_Some (kz_tree k !! root) → kz_tree k !! _CONTROLLER_PATH = None → leader_ok l →
  ∃ s' k', elect l s k = (Ok tt, s', k') ∧ is_leader s' = true ∧ led_by k' l.
Proof.
  intros Hk Hroot Hn Hl. pose proof (ask_create_run k l Hk Hroot Hl) as Hc. rewrite Hn in Hc.
  destruct Hc as (k' & E & Hled). unfold elect. rewrite E, (ask_leader_run k' l) by done.
  destruct (run (_run_election Created _) s) as [r s'] eqn:Er. cbn in Er. injection Er as <- <-.
  do 2 eexists. split; [done|]. by split.
Qed.

Lemma elect_other l l' s k : led_by k l → leader_ok l' →
  ∃ s', elect l' s k = (Ok tt, s', k) ∧ is_leader s' = false.
Proof.
  intros Hled Hl. pose proof Hled as (Hk & Hroot & _ & raw & _ & Ht).
  pose proof (ask_create_run k l' Hk Hroot Hl) as Hc. rewrite Ht in Hc.
  unfold elect. rewrite Hc, (ask_leader_run k l) by done.
  destruct (run (_run_election NodeExists _) s) as [r s'] eqn:Er. cbn in Er. injection Er as <- <-.
  eexists. split; [done|]. done.
Qed.

(** At most one controller leads.  However many controllers run the election one after
    the other while the leader's session lasts, the first one leads, all others do not,
    and what they tell the brokers that come to them is the address of the first. *)
Theorem one_leader l s cs k :
  kz_ok k → is_Some (kz_tree k !! root) → kz_tree k !! _CONTROLLER_PATH = None →
  leader_ok l → Forall (λ c, leader_ok c.1) cs →
  ∃ rs k', elections ((l, s) :: cs) k = (rs, k') ∧
    ((λ r, (r.1, is_leader r.2)) <$> rs) = (Ok tt, true) :: repeat (Ok tt, false) (length cs) ∧
    run ask_leader k' = (Ok (Some l), k').
Proof.
  intros Hk Hroot Hn Hl Hcs. destruct (elect_first l s k Hk Hroot Hn Hl) as (s' & k' & E & Hlead & Hled).
  assert (∃ rs, elections cs k' = (rs, k') ∧
    ((λ r, (r.1, is_leader r.2)) <$> rs) = repeat (Ok tt, false) (length cs)) as (rs & Ers & Hrs).
  { clear E. induction Hcs as [|[l' t] cs Hl' Hcs IH]; [by exists []|].
    destruct (elect_other l l' t k' Hled Hl') as (t' & Et & Hf). destruct IH as (rs & Ers & Hrs).
    exists ((Ok tt, t') :: rs). cbn [elections]. rewrite Et, Ers. split; [done|]. cbn. by rewrite Hf, Hrs. }
  exists ((Ok tt, s') :: rs), k'. cbn [elections]. rewrite E, Ers. split; [done|]. cbn. rewrite Hlead, Hrs.
  split; [done|]. by apply ask_leader_run.
Qed.
End election.

(** ** A tree of znodes

    The documented behaviour on a finite map, as an instance. *)

Abbreviation Tree := (gmap (list Z) (list Z)).

(** What comes before the last slash. *)
Fixpoint parent_path (p : pystr) : pystr :=
  match p with
  | [] => []
  | c :: p => if bool_decide (47 ∈ p) then c :: parent_path p else []
  end.

Definition child_name (p q : pystr) : option (list Z) :=
  match strip_word (p ++ [47]) q with
  | Some n => if name_ok n then Some n else None
  | None => None
  end.

(** All ancestors, each in its place. *)
Definition make_path (tree : Tree) (ns : list (list Z)) : Tree :=
  fold_left (λ t i, let q := path_of (take (Datatypes.S i) ns) in
                    match t !! q with Some _ => t | None => <[q := []]> t end) (seq 0 (length ns)) tree.

#[export] Instance tree_kazoo : KazooApi Tree := {
  kz_ensure_path p := modify (λ t, make_path t (tail (py_split 47 (-1) p)));
  kz_create p raw _ := λ t,
    match t !! p with
    | Some _ => (Raise NodeExistsError, t)
    | None => if bool_decide (is_Some (t !! parent_path p)) then (Ok p, <[p := raw]> t) else (Raise NoNodeError, t)
    end;
  kz_set p raw := λ t,
    match t !! p with Some _ => (Ok tt, <[p := raw]> t) | None => (Raise NoNodeError, t) end;
  kz_get p := λ t, (or_raise (t !! p) NoNodeError, t);
  kz_get_children p := λ t,
    match t !! p with
    | Some _ => (Ok (omap (child_name p) (map_to_list t).*1), t)
    | None => (Raise NoNodeError, t)
    end;
  kz_exists p := λ t, (Ok (bool_decide (is_Some (t !! p))), t);
  kz_delete p := λ t,
    match t !! p with
    | Some _ => if bool_decide (omap (child_name p) (map_to_list t).*1 = []) then (Ok tt, delete p t)
                else (Raise OSError, t)
    | None => (Raise NoNodeError, t)
    end }.

Lemma parent_path_child p n : p ≠ [] → 47 ∉ n → parent_path (child p n) = p.
Proof.
  intros Hp Hn. unfold child. induction p as [|c p IH]; [done|]. cbn.
  rewrite bool_decide_eq_true_2 by (apply elem_of_app; right; left). f_equal.
  destruct p as [|c' p]; [|by apply IH]. cbn. by rewrite bool_decide_eq_false_2.
Qed.

Lemma strip_word_app w l : strip_word w (w ++ l) = Some l.
Proof. induction w as [|a w IH]; [by destruct l|]. cbn. by rewrite Z.eqb_refl. Qed.
Lemma strip_word_Some w l r : strip_word w l = Some r → l = w ++ r.
Proof.
  revert l. induction w as [|a w IH]; intros l; [destruct l; cbn; intros [= <-]; done|]. destruct l as [|b l]; [done|]. cbn.
  destruct (Z.eqb_spec a b) as [->|]; [|done]. intros ->%IH. done.
Qed.

Lemma child_name_Some p q n : child_name p q = Some n ↔ q = child p n ∧ name_ok n.
Proof.
  unfold child_name, child. split.
  - destruct (strip_word _ _) as [m|] eqn:E; [|done]. apply strip_word_Some in E. rewrite <-app_assoc in E.
    destruct (name_ok m) eqn:Hn; [|done]. intros [= <-]. split; [done|]. by apply Is_true_true.
  - intros [-> Hn]. replace (p ++ [47] ++ n) with ((p ++ [47]) ++ n) by by rewrite <-app_assoc.
    rewrite strip_word_app. by apply Is_true_true in Hn as ->.
Qed.

Lemma tree_children (t : Tree) p :
  NoDup (omap (child_name p) (map_to_list t).*1) ∧
  ∀ n, n ∈ omap (child_name p) (map_to_list t).*1 ↔ name_ok n ∧ is_Some (t !! child p n).
Proof.
  split.
  - assert (∀ l : list (list Z), NoDup l → NoDup (omap (child_name p) l)) as Hl; [|apply Hl, NoDup_fst_map_to_list].
    intros l0 Hnd. induction l0 as [|q l IH]; [apply NoDup_nil_2|]. apply NoDup_cons in Hnd as [Hq Hnd]. specialize (IH Hnd). cbn.
    destruct (child_name p q) as [n|] eqn:E; [|done]. apply NoDup_cons. split; [|done].
    intros (q' & Hq' & E')%list_elem_of_omap. apply child_name_Some in E as [-> _], E' as [-> _]. done.
  - intros n. rewrite list_elem_of_omap. split.
    + intros (q & Hq & [-> Hn]%child_name_Some). split; [done|]. apply list_elem_of_fmap in Hq as ([q' raw] & E & Hr%elem_of_map_to_list).
      cbn in E. subst. by exists raw.
    + intros [Hn [raw Hr]]. exists (child p n). split; [|by apply child_name_Some].
      apply list_elem_of_fmap. exists (child p n, raw). split; [done|]. by apply elem_of_map_to_list.
Qed.

Lemma split_path ns : Forall name_ok ns → tail (py_split 47 (-1) (path_of ns)) = ns.
Proof.
  intros Hns. replace (path_of ns) with (py_join [47] ([] :: ns)).
  - rewrite py_split_join; [done|done| |done]. constructor; [by apply not_elem_of_nil|].
    eapply Forall_impl; [exact Hns|]. by intros n (_ & _ & ?)%name_ok_chars.
  - destruct ns as [|n ns]; [done|]. rewrite py_join_cons by done. unfold path_of. cbn. f_equal.
    clear Hns. revert n. induction ns as [|m ns IH]; intros n; [cbn; by rewrite app_nil_r|].
    specialize (IH m). cbn in *. by rewrite IH.
Qed.

Lemma make_path_lookup (t : Tree) ns q :
  make_path t ns !! q =
    match t !! q with
    | Some raw => Some raw
    | None => if bool_decide (Exists (λ i, q = path_of (take (S i) ns)) (seq 0 (length ns))) then Some [] else None
    end.
Proof.
  unfold make_path. generalize (seq 0 (length ns)). intros l. revert t. induction l as [|i l IH]; intros t; cbn [fold_left].
  - rewrite bool_decide_eq_false_2 by by intros ?%Exists_nil. by destruct (t !! q).
  - rewrite IH. clear IH. set (q0 := path_of (take (S i) ns)).
    destruct (t !! q0) as [x|] eqn:E0.
    + destruct (t !! q) as [y|] eqn:E; [done|]. erewrite bool_decide_ext; [done|].
      rewrite Exists_cons. split; [by right|]. intros [->|?]; [unfold q0 in *; congruence|done].
    + rewrite lookup_insert. case_decide as Hq.
      * subst q. rewrite E0. by rewrite bool_decide_eq_true_2 by by left.
      * destruct (t !! q); [done|]. erewrite bool_decide_ext; [done|].
        rewrite Exists_cons. split; [by right|]. by intros [->|?].
Qed.

#[export] Instance tree_laws : KazooLaws Tree.
Proof.
  refine {| kz_ok := λ _, True; kz_tree := λ t, t |}.
  - intros t ns _ Hns. eexists. split; [cbn; by rewrite split_path|]. split; [done|]. apply make_path_lookup.
  - intros t p n raw e _ Hp Hn Hs _. cbn. destruct (t !! child p n); [done|]. rewrite parent_path_child.
    + rewrite bool_decide_eq_true_2 by done. by eexists.
    + destruct Hp as (ns & Hne & _ & ->). by destruct ns.
    + by apply name_ok_chars in Hn as (_ & _ & ?).
  - intros t p raw _ _ _. cbn. destruct (t !! p); [by eexists|done].
  - done.
  - intros t p _ _. cbn. destruct (t !! p); [|done]. eexists. split; [done|]. apply tree_children.
  - done.
  - intros t p _ _ Hn. cbn. destruct (t !! p); [|done]. rewrite bool_decide_eq_true_2; [by eexists|].
    destruct (omap (child_name p) (map_to_list t).*1) as [|n l0] eqn:E; [done|]. exfalso.
    assert (n ∈ n :: l0) as Hin by left. rewrite <-E in Hin. apply (proj2 (tree_children t p)) in Hin as [Hok [x Hx]].
    rewrite Hn in Hx by done. done.
Defined.

(** ** Witnesses *)

Definition node1 : BrokerNode := mkBrokerNode (py "b1") (py "127.0.0.1") 9092.
Definition topic1 : TopicMetadata := mkTopicMetadata (py "orders") (py "b1") [py "b1"; py "b2"] [py "b1"] 1.
Definition sample_calls : list storage_call :=
  [AddNode node1; AddTopic topic1; AddTopic topic1; UpdateTopic (next_version topic1); GetNode (py "b1"); GetAllTopics].

Definition scalars (s : list Z) : bool := forallb scalarb s.
Lemma scalars_ok s : scalars s = true → Forall is_scalar s.
Proof.
  unfold scalars. rewrite forallb_forall. intros H. apply Forall_forall. intros c Hc%list_elem_of_In%H.
  unfold scalarb, is_scalar in *. lia.
Qed.

Definition node_fits (x : BrokerNode) : bool :=
  name_ok (node_id x) && scalars (node_id x) && scalars (host x) &&
  match json_bytes (_node_to_dict x) with Ok raw => zlen raw <=? max_data | Raise _ => false end.
Definition topic_fits (t : TopicMetadata) : bool :=
  name_ok (topic t) && scalars (topic t) && scalars (leader_id t) && forallb scalars (replica_list t) &&
  forallb scalars (isr_list t) &&
  match json_bytes (_topic_to_dict t) with Ok raw => zlen raw <=? max_data | Raise _ => false end.

Lemma node_fits_ok x : node_fits x = true → storable x.
Proof.
  unfold node_fits, storable. intros [[[H1 H2%scalars_ok]%andb_true_iff H3%scalars_ok]%andb_true_iff H4]%andb_true_iff.
  split; [by apply Is_true_true|]. split.
  - cbn. split; [apply (bool_decide_unpack _); vm_compute; exact I|]. repeat split; try done; by apply scalars_ok.
  - cbn [zr_dict node_record]. destruct (json_bytes _); [lia|done].
Qed.

Lemma topic_fits_ok t : topic_fits t = true → storable t.
Proof.
  unfold topic_fits, storable.
  intros [[[[[H1 H2%scalars_ok]%andb_true_iff H3%scalars_ok]%andb_true_iff H4]%andb_true_iff H5]%andb_true_iff H6]%andb_true_iff.
  assert (∀ l, forallb scalars l = true → items_ok (map JStr l)) as Hl.
  { intros l. rewrite forallb_forall. induction l as [|s l IH]; intros Hs; [done|]. split.
    - apply scalars_ok, Hs. by left.
    - apply IH. intros x Hx. apply Hs. by right. }
  split; [by apply Is_true_true|]. split.
  - split; [apply (bool_decide_unpack _); vm_compute; exact I|].
    repeat split; try done; try (by apply scalars_ok); by apply Hl.
  - cbn [zr_dict topic_record]. destruct (json_bytes _); [lia|done].
Qed.

Lemma node1_ok : storable node1.
Proof. apply node_fits_ok. vm_compute. reflexivity. Qed.
Lemma topic1_ok : storable topic1 ∧ storable (next_version topic1).
Proof. split; apply topic_fits_ok; vm_compute; reflexivity. Qed.
Lemma sample_calls_ok : Forall call_ok sample_calls.
Proof.
  destruct topic1_ok as [T1 T2].
  constructor; [exact node1_ok|]. constructor; [exact T1|]. constructor; [exact T1|]. constructor; [exact T2|].
  repeat constructor.
Qed.

Definition later_calls : list storage_call := [GetTopic (py "orders"); GetAllNodes].
Lemma later_calls_ok : Forall call_ok later_calls.
Proof. repeat constructor. Qed.

(** The second [AddTopic] is refused, and the next controller reads the new version. *)
Lemma zookeeper_refines_memory_witness :
  ∃ k1 k3, run ZKMetastoreStorage.setup (∅ : Tree) = (Ok tt, k1) ∧
    run ZKMetastoreStorage.setup (replies sample_calls k1).2 = (Ok tt, k3) ∧
    (replies sample_calls k1).1 !! 2%nat = Some (Raise ValueError) ∧
    (replies later_calls k3).1 !! 0%nat = Some (Ok (ATopic (Some (next_version topic1)))).
Proof.
  destruct (@zookeeper_refines_memory Tree tree_kazoo tree_laws ∅ sample_calls later_calls I eq_refl sample_calls_ok later_calls_ok)
    as (k1 & E1 & Hr).
  destruct (replies sample_calls k1) as [rs k2] eqn:Ek.
  destruct (replies sample_calls MetastoreStorage.new_storage) as [rs' m] eqn:Em. vm_compute in Em. injection Em as <- <-.
  destruct Hr as (Hrs & k3 & E3 & Hl). exists k1, k3. rewrite Ek. split; [exact E1|]. split; [exact E3|]. split.
  - destruct (Forall2_lookup_r _ _ _ 2%nat _ Hrs eq_refl) as (r & Hr & Hsame). cbn [fst]. rewrite Hr. f_equal.
    destruct r as [[]|]; exact Hsame || discriminate Hsame.
  - destruct (Forall2_lookup_r _ _ _ 0%nat _ Hl eq_refl) as (r & Hr & Hsame). rewrite Hr. f_equal.
    destruct r as [[]|]; exact Hsame || discriminate Hsame.
Defined.

Definition candidate (id : list Z) (port : Z) : LeaderInfo := mkLeaderInfo id (py "127.0.0.1") port.
Definition candidates : list (LeaderInfo * Server MetastoreStorage.Storage) :=
  [(candidate (py "c2") 9091, new_server 2 MetastoreStorage.new_storage);
   (candidate (py "c3") 9092, new_server 2 MetastoreStorage.new_storage)].
Definition sample_tree : Tree := {[ root := [] ]}.

Definition leader_fits (l : LeaderInfo) : bool :=
  scalars (Controller.controller_id l) && scalars (Controller.leader_host l) &&
  match json_bytes (leader_data l) with Ok raw => zlen raw <=? max_data | Raise _ => false end.
Lemma leader_fits_ok l : leader_fits l = true → leader_ok l.
Proof.
  unfold leader_fits, leader_ok. intros [[H1%scalars_ok H2%scalars_ok]%andb_true_iff H3]%andb_true_iff. split.
  - cbn. split; [apply (bool_decide_unpack _); vm_compute; exact I|]. repeat split; try done; by apply scalars_ok.
  - destruct (json_bytes _); [lia|done].
Qed.

Lemma one_leader_witness :
  ∃ rs k', elections ((candidate (py "c1") 9090, new_server 2 MetastoreStorage.new_storage) :: candidates) sample_tree = (rs, k') ∧
    ((λ r, (r.1, is_leader r.2)) <$> rs) = [(Ok tt, true); (Ok tt, false); (Ok tt, false)] ∧
    run ask_leader k' = (Ok (Some (candidate (py "c1") 9090)), k').
Proof.
  apply (@one_leader Tree _ tree_kazoo tree_laws (candidate (py "c1") 9090) (new_server 2 MetastoreStorage.new_storage) candidates sample_tree).
  - exact I.
  - exists []. vm_compute. reflexivity.
  - vm_compute. reflexivity.
  - apply leader_fits_ok. vm_compute. reflexivity.
  - constructor; [|constructor; [|constructor]]; apply leader_fits_ok; vm_compute; reflexivity.
Defined.

(** Quotes, a line break, a character beyond the first plane and nested lists. *)
Definition sample_value : Json :=
  JDict [(py "name", JStr [34; 10; 0x1F600]); (py "list", JList [JInt (-12); JNull; JBool true; JList []])].
Lemma json_roundtrip_witness : ∃ raw, json_bytes sample_value = Ok raw ∧ json_value raw = Ok sample_value.
Proof.
  eexists. split; [vm_compute; reflexivity|].
  apply (json_roundtrip sample_value); [|vm_compute; reflexivity].
  cbn. split; [apply (bool_decide_unpack _); vm_compute; exact I|].
  repeat split; try done; repeat constructor; unfold is_scalar; lia.
Defined.
