(* ===== verification/Client.v ===== *)
(** * [client/client.py]

    The client: its socket, the bounded queue of frames, and the two threads that
    work on it beside the callers.  The code of a thread between two points at which
    it may wait is one function; [None] means that it waits.  The branch with gevent
    replaces the two threads by greenlets that run the same loops. *)
From Stdlib Require Import String.
From S2P Require Import Prelude PyData Framer.

(** [incoming] is all the peer sends before it closes the connection, or resets it;
    [cuts] says how many bytes the next calls of [recv] find there. *)
Record Socket := mkSocket {
  incoming : list Z;
  cuts : list nat;
  reset : bool;
  outgoing : list Z;
  is_open : bool }.

(** Where the threads are: at the head of their loop, in the call that waits, on the
    way with what they got, or at their end. *)
Inductive writer_at := WriterHead | WriterGet | WriterSend (msg : list Z) | WriterEnded.
Inductive ping_at := PingHead | PingSleep | PingPut | PingEnded.

Record Client := mkClient {
  conn : Socket;
  send_queue : list (option (list Z));
  alive : bool;
  writer_thread : writer_at;
  ping_thread : ping_at }.

Definition checksum_enabled : bool := true.
Definition outgoing_buffer_capacity : nat := 1000.

Definition new_client (s : Socket) : Client := mkClient s [] true WriterHead PingHead.

Definition set_conn (s : Socket) (c : Client) : Client :=
  mkClient s (send_queue c) (alive c) (writer_thread c) (ping_thread c).
Definition set_queue (q : list (option (list Z))) (c : Client) : Client :=
  mkClient (conn c) q (alive c) (writer_thread c) (ping_thread c).
Definition set_dead (c : Client) : Client :=
  mkClient (conn c) (send_queue c) false (writer_thread c) (ping_thread c).
Definition set_writer (w : writer_at) (c : Client) : Client :=
  mkClient (conn c) (send_queue c) (alive c) w (ping_thread c).
Definition set_ping (p : ping_at) (c : Client) : Client :=
  mkClient (conn c) (send_queue c) (alive c) (writer_thread c) p.

(** ** The socket *)

(** [self.conn.recv(size)] *)
Definition recv (size : Z) : M Client (list Z) := λ c,
  let s := conn c in
  if negb (is_open s) then (Raise OSError, c)
  else if size =? 0 then (Ok [], c)
  else match incoming s with
       | [] => (if reset s then Raise OSError else Ok [], c)
       | _ :: _ =>
           let n := match cuts s with k :: _ => Nat.min (Nat.max 1 k) (Z.to_nat size) | [] => Z.to_nat size end in
           (Ok (take n (incoming s)),
            set_conn (mkSocket (drop n (incoming s)) (tail (cuts s)) (reset s) (outgoing s) (is_open s)) c)
       end.

Definition close_conn (c : Client) : Client :=
  let s := conn c in set_conn (mkSocket (incoming s) (cuts s) (reset s) (outgoing s) false) c.

(** [self.conn.sendall(msg)]: [failed] is the number of bytes after which it raises. *)
Definition conn_sendall (failed : option nat) (data : bytes) : M Client unit := λ c,
  let s := conn c in
  let put bs := set_conn (mkSocket (incoming s) (cuts s) (reset s) (outgoing s ++ bs) (is_open s)) c in
  if negb (is_open s) then (Raise OSError, c)
  else match failed with
       | None => (Ok tt, put data)
       | Some n => (Raise OSError, put (take n data))
       end.

(** The other branch names a variable [conn] that does not exist. *)
Definition sendall (os_name : pystr) (failed : option nat) (data : bytes) : M Client unit :=
  if bool_decide (os_name = py "posix") || bool_decide (os_name = py "win32")
  then conn_sendall failed data
  else if 0 <? zlen data then raise NameError else mret tt.

(** ** Frames *)

Definition _frame_message (cmd payload : pystr) (add_checksum : bool) : result bytes :=
  hash ← (if add_checksum then p ← utf8_encode payload; to_bytes (crc32 p) 4 else Ok []);
  msg_bytes ← utf8_encode (cmd ++ [32] ++ payload);
  prefix ← to_bytes (zlen msg_bytes) 4;
  Ok (prefix ++ msg_bytes ++ hash).

(** [self.send_queue.put(item)] waits while the queue is full. *)
Definition put (item : option bytes) (c : Client) : option Client :=
  if (length (send_queue c) <? outgoing_buffer_capacity)%nat
  then Some (set_queue (send_queue c ++ [item]) c) else None.

(** The calls that queue a frame. *)
Definition enqueue (framed : result bytes) (c : Client) : result (option Client) :=
  framed ← framed; Ok (put (Some framed) c).

Definition login (id : pystr) := enqueue (_frame_message (py "CID") id false).
Definition reset_offset_oldest (topic : pystr) := enqueue (_frame_message (py "SET " ++ topic) (py "0") false).
Definition reset_offset_latest (topic : pystr) := enqueue (_frame_message (py "SET " ++ topic) (py "-1") false).
Definition subscribe (topic : pystr) := enqueue (_frame_message (py "SUB") topic false).
Definition produce (topic message : pystr) := enqueue (_frame_message (py "PUB " ++ topic) message checksum_enabled).

(** ** Reading *)

(** [while len(data) < size]: every round that goes on reads a byte at least. *)
Fixpoint recvall_loop (fuel : nat) (size : Z) (data : bytes) : M Client (option (list Z)) :=
  if zlen data <? size then
    match fuel with
    | O => raise RuntimeError
    | S fuel =>
        packet ← recv (size - zlen data);
        if bool_decide (packet = []) then mret None else recvall_loop fuel size (data ++ packet)
    end
  else mret (Some data).

Definition recvall (size : Z) : M Client (option (list Z)) := recvall_loop (Z.to_nat size) size [].

Definition consume : M Client (option (list Z)) :=
  len_bytes ← recvall 4;
  match len_bytes with
  | None | Some [] => mret None
  | Some len_bytes =>
      msg_bytes ← recvall (from_bytes len_bytes);
      match msg_bytes with
      | None | Some [] => mret None
      | Some msg_bytes => s ← lift (utf8_decode msg_bytes); mret (Some s)
      end
  end.

(** [register] queues a [REG], reads the identifier it is given and queues a [CID]. *)
Definition register_frame := enqueue (_frame_message (py "REG") [] false).
Definition register_id : M Client (list Z) :=
  len_bytes ← recv 4;
  id ← recv (from_bytes len_bytes);
  lift (utf8_decode id).

(** ** The threads *)

Section threads.
Variable os_name : list Z.

Definition writer_round (failed : option nat) (c : Client) : option Client :=
  match writer_thread c with
  | WriterHead => Some (if alive c then set_writer WriterGet c else set_writer WriterEnded (close_conn c))
  | WriterGet =>
      match send_queue c with
      | [] => None
      | Some msg :: q => Some (set_writer (WriterSend msg) (set_queue q c))
      | None :: q => Some (set_writer WriterEnded (close_conn (set_queue q c)))
      end
  | WriterSend msg =>
      Some (set_writer WriterHead
        (match sendall os_name failed msg c with
         | (Ok _, c) => c
         | (Raise _, c) => set_dead c
         end))
  | WriterEnded => None
  end.

(** A framing that fails ends the thread. *)
Definition ping_round (c : Client) : option Client :=
  match ping_thread c with
  | PingHead => Some (set_ping (if alive c then PingSleep else PingEnded) c)
  | PingSleep => Some (set_ping PingPut c)
  | PingPut =>
      match enqueue (_frame_message (py "PNG") [] false) c with
      | Ok (Some c) => Some (set_ping PingHead c)
      | Ok None => None
      | Raise _ => Some (set_ping PingEnded c)
      end
  | PingEnded => None
  end.

(** [close] with threads: [Thread] has no method [close], so nothing behind its call
    is reached. *)
Definition close_begin (c : Client) : Client := set_dead c.
Definition close_end (c : Client) : option (result unit * Client) :=
  c ← put None c; Some (Raise AttributeError, c).
End threads.
