(* ===== verification/ClientTheorems.v ===== *)
(** * What the client guarantees *)
From Stdlib Require Import String.
From S2P Require Import Prelude PyData Framer Messages Parser ProtocolFacts Client.

(** ** Reading *)

(** The socket after [n] more bytes were read. *)
Definition after_read (n : nat) (ks : list nat) (c : Client) : Client :=
  let s := conn c in set_conn (mkSocket (drop n (incoming s)) ks (reset s) (outgoing s) (is_open s)) c.

Lemma after_read_read n m ks ks' c : after_read m ks' (after_read n ks c) = after_read (n + m) ks' c.
Proof. unfold after_read. cbn. by rewrite drop_drop. Qed.

Lemma after_read_all n ks c :
  (length (incoming (conn c)) <= n)%nat → after_read n ks c = after_read (length (incoming (conn c))) ks c.
Proof. intros Hn. unfold after_read. by rewrite !drop_ge by lia. Qed.

Lemma recv_some size c :
  is_open (conn c) = true → 0 < size → incoming (conn c) ≠ [] →
  ∃ n ks, (0 < n <= Z.to_nat size)%nat ∧ recv size c = (Ok (take n (incoming (conn c))), after_read n ks c).
Proof.
  intros Ho Hs Hi. unfold recv. rewrite Ho. cbn [negb]. rewrite (proj2 (Z.eqb_neq size 0)) by lia.
  destruct (incoming (conn c)) as [|x l] eqn:E; [done|]. destruct (cuts (conn c)) as [|k ks] eqn:Ec.
  - exists (Z.to_nat size), []. split; [lia|]. unfold after_read. by rewrite E, Ho.
  - exists (Nat.min (Nat.max 1 k) (Z.to_nat size)), ks. split; [lia|]. unfold after_read. by rewrite E, Ho.
Qed.

Lemma recvall_loop_ok fuel size data c n :
  is_open (conn c) = true → size = zlen data + Z.of_nat n → (n <= fuel)%nat → (n <= length (incoming (conn c)))%nat →
  ∃ ks, recvall_loop fuel size data c = (Ok (Some (data ++ take n (incoming (conn c)))), after_read n ks c).
Proof.
  intros Ho. revert data c n Ho. induction fuel as [|fuel IH]; intros data c n Ho -> Hf Hn; cbn [recvall_loop].
  - assert (n = 0)%nat as -> by lia. lia_if. exists (cuts (conn c)). cbn. rewrite app_nil_r. by destruct c as [[]].
  - destruct (decide (n = 0)%nat) as [->|Hn0].
    { lia_if. exists (cuts (conn c)). cbn. rewrite app_nil_r. by destruct c as [[]]. }
    lia_if. destruct (recv_some (zlen data + Z.of_nat n - zlen data) c) as (m & ks & Hm & E);
      [done|lia|intros E; rewrite E in Hn; cbn in Hn; lia|].
    run. rewrite E. cbv iota. rewrite bool_decide_eq_false_2.
    2: { intros E0%(f_equal length). rewrite length_take in E0. cbn in E0. lia. }
    destruct (IH (data ++ take m (incoming (conn c))) (after_read m ks c) (n - m)%nat) as [ks' E'].
    + done.
    + rewrite zlen_app, length_take. lia.
    + lia.
    + cbn. rewrite length_drop. lia.
    + exists ks'. rewrite E', after_read_read. replace (m + (n - m))%nat with n by lia.
      do 3 f_equal. rewrite <-app_assoc. f_equal. cbn. by rewrite take_take_drop, Nat.add_comm, Nat.sub_add by lia.
Qed.

Lemma recvall_ok n c :
  is_open (conn c) = true → (n <= length (incoming (conn c)))%nat →
  ∃ ks, recvall (Z.of_nat n) c = (Ok (Some (take n (incoming (conn c)))), after_read n ks c).
Proof. intros Ho Hn. apply (recvall_loop_ok _ _ []); [done|cbn; lia..]. Qed.

(** The peer closes the connection in between. *)
Lemma recvall_loop_short fuel size data c :
  is_open (conn c) = true → reset (conn c) = false → (Z.to_nat (size - zlen data) <= fuel)%nat →
  zlen (incoming (conn c)) < size - zlen data →
  ∃ ks, recvall_loop fuel size data c = (Ok None, after_read (length (incoming (conn c))) ks c).
Proof.
  revert data c. induction fuel as [|fuel IH]; intros data c Ho Hr Hf Hn; [lia|]. cbn [recvall_loop]. lia_if.
  run. destruct (decide (incoming (conn c) = [])) as [E|E].
  - unfold recv. rewrite Ho, E, Hr. cbn [negb]. rewrite (proj2 (Z.eqb_neq _ 0)) by lia. exists (cuts (conn c)). cbn. do 2 f_equal.
    destruct c as [[]]. cbn in *. by subst.
  - destruct (recv_some (size - zlen data) c) as (m & ks & Hm & Er); [done|lia|done|]. rewrite Er. cbv iota.
    rewrite bool_decide_eq_false_2.
    2: { intros E0%(f_equal length). rewrite length_take in E0. destruct (incoming (conn c)); [done|]. cbn in E0. lia. }
    destruct (IH (data ++ take m (incoming (conn c))) (after_read m ks c)) as [ks' E'].
    + done.
    + done.
    + rewrite zlen_app, length_take. destruct (incoming (conn c)); [done|]. cbn [length] in *. lia.
    + cbn. rewrite length_drop, zlen_app, length_take. lia.
    + exists ks'. rewrite E', after_read_read. f_equal. apply after_read_all. cbn. rewrite length_drop. lia.
Qed.

Lemma recvall_short n c :
  is_open (conn c) = true → reset (conn c) = false → zlen (incoming (conn c)) < n →
  ∃ ks, recvall n c = (Ok None, after_read (length (incoming (conn c))) ks c).
Proof. intros. apply recvall_loop_short; [done..|cbn; lia|cbn; lia]. Qed.

(** A message as it travels: its text, encoded, behind its length. *)
Definition frame_of (text f : list Z) : Prop :=
  ∃ b, utf8_encode text = Ok b ∧ b ≠ [] ∧ encode_frame b = Ok f.

Lemma consume_frame text f rest c :
  frame_of text f → is_open (conn c) = true → incoming (conn c) = f ++ rest →
  ∃ ks, consume c = (Ok (Some text), after_read (length f) ks c).
Proof.
  intros (b & Hb & Hne & (p & Hp & ->)%encode_frame_Ok) Ho Hi. unfold consume.
  pose proof (to_bytes_length _ _ _ Hp) as Hlp. rewrite <-app_assoc in Hi.
  destruct (recvall_ok 4 c Ho) as [ks E]; [rewrite Hi, length_app; lia|]. change (Z.of_nat 4) with 4 in E.
  run. rewrite E. cbv iota. rewrite Hi, take_app_length' by done. destruct p as [|x p'] eqn:Ep; [done|]. rewrite <-Ep in *.
  rewrite (from_to_bytes _ _ _ Hp). destruct (recvall_ok (length b) (after_read 4 ks c)) as [ks' E'].
  { done. }
  { cbn. rewrite Hi, drop_app_length' by done. rewrite length_app. lia. }
  run. rewrite E'. cbv iota. cbn [conn after_read set_conn incoming].
  rewrite Hi, drop_app_length', take_app_length by done.
  destruct b as [|y b'] eqn:Eb; [done|]. rewrite <-Eb in *. run. rewrite (utf8_roundtrip _ _ Hb). cbv iota. run.
  exists ks'. by rewrite after_read_read, length_app, Hlp.
Qed.

(** [n] calls of [consume]. *)
Fixpoint consume_all (n : nat) : M Client (list (option (list Z))) :=
  match n with
  | O => mret []
  | S n => m ← consume; rest ← consume_all n; mret (m :: rest)
  end.

Lemma consume_all_S n c : consume_all (S n) c =
  match consume c with
  | (Ok m, c) => match consume_all n c with (Ok rest, c) => (Ok (m :: rest), c) | (Raise e, c) => (Raise e, c) end
  | (Raise e, c) => (Raise e, c)
  end.
Proof. done. Qed.

(** The bytes that are no whole frame. *)
Definition truncated (tail : list Z) : Prop :=
  zlen tail < 4 ∨ zlen tail < 4 + from_bytes (take 4 tail).

Lemma consume_truncated tail c :
  truncated tail → is_open (conn c) = true → reset (conn c) = false → incoming (conn c) = tail →
  ∃ c', consume c = (Ok None, c').
Proof.
  intros Ht Ho Hr Hi. unfold consume. destruct (decide (zlen tail < 4)) as [Hs|Hs].
  - destruct (recvall_short 4 c) as [ks E]; [done|done|by rewrite Hi|]. run. rewrite E. cbv iota. run. by eexists.
  - destruct Ht as [Ht|Ht]; [lia|].
    destruct (recvall_ok 4 c Ho) as [ks E]; [rewrite Hi; lia|]. change (Z.of_nat 4) with 4 in E.
    run. rewrite E. cbv iota. rewrite Hi. destruct (take 4 tail) as [|x p] eqn:Ep; [by eexists|]. rewrite <-Ep in *.
    destruct (recvall_short (from_bytes (take 4 tail)) (after_read 4 ks c)) as [ks' E'].
    { done. }
    { done. }
    { cbn. rewrite Hi, length_drop. lia. }
    run. rewrite E'. cbv iota. run. by eexists.
Qed.

(** C38: what is sent is consumed.  However the network cuts the stream, the calls of
    [consume] return the messages of its frames one by one, and [None] when the peer
    closes the connection behind the last frame or in the middle of another one. *)
Theorem consume_stream texts frames tail c :
  Forall2 frame_of texts frames → truncated tail →
  is_open (conn c) = true → reset (conn c) = false → incoming (conn c) = concat frames ++ tail →
  ∃ c', consume_all (S (length texts)) c = (Ok (map Some texts ++ [None]), c').
Proof.
  intros Hf Ht. revert c. induction Hf as [|text f texts frames Hf Hfs IH]; intros c Ho Hr Hi.
  - destruct (consume_truncated tail c) as [c' E]; [done..|]. exists c'. cbn [length]. by rewrite consume_all_S, E.
  - cbn [concat] in Hi. rewrite <-app_assoc in Hi. destruct (consume_frame text f _ c Hf Ho Hi) as [ks E].
    destruct (IH (after_read (length f) ks c)) as [c' E'].
    { done. }
    { done. }
    { cbn. by rewrite Hi, drop_app_length. }
    exists c'. cbn [length]. rewrite consume_all_S, E. cbv iota. by rewrite E'.
Qed.

(** ** What the broker makes of the frames *)

Lemma frame_message_plain cmd payload f :
  _frame_message cmd payload false = Ok f →
  ∃ b, utf8_encode (words [cmd; payload]) = Ok b ∧ encode_frame b = Ok f.
Proof.
  unfold _frame_message, encode_frame. intros Hf. cbn [mbind result_bind] in Hf. inv_ok.
  match goal with Hb : utf8_encode _ = Ok ?b, Hp : to_bytes _ _ = Ok ?p |- _ => exists b; split; [done|]; rewrite Hp end.
  cbn. by rewrite app_nil_r.
Qed.

(** The broker reads [f] as a packet, parses it to [r] and has [rest] left over. *)
Definition taken_as (f : bytes) (ck : bool) (r : result (Packet Command)) (rest : bytes) : Prop :=
  ∃ body, read_packet f = Ok (body, rest) ∧ parse_command body ck = r.

Lemma parse_plain b t ck :
  utf8_decode b = Ok t → letter_first t → parse_command b ck = c ← _parse_command b ck; Ok (mkPacket None c).
Proof.
  intros Hb Ht. unfold parse_command, parse_packet_header. rewrite Hb. cbn [mbind result_bind].
  by rewrite header_re_letter.
Qed.

Lemma plain_taken kw rest payload f ck :
  _frame_message (kw ++ rest) payload false = Ok f → letter_first kw →
  ∃ b, utf8_decode b = Ok (words [kw ++ rest; payload]) ∧
    taken_as f ck (c ← _parse_command b ck; Ok (mkPacket None c)) [].
Proof.
  intros (b & Hb & Hf)%frame_message_plain (x & r & -> & Hx). exists b. pose proof (utf8_roundtrip _ _ Hb) as Hd. split; [done|].
  exists b. split; [rewrite <-(app_nil_r f); by apply read_encoded|]. eapply parse_plain; [done|]. by eexists _, _.
Qed.

Lemma letter_first_py x r : 65 ≤ x ≤ 90 → letter_first (x :: r).
Proof. intros. by eexists _, _. Qed.
#[local] Hint Extern 1 (letter_first _) => (apply letter_first_py; vm_compute; split; discriminate) : core.

(** A message of the form ["<acks> <payload>"]. *)
Definition looks_acked (message : pystr) : Prop :=
  ∃ acks payload, valid_acks acks = true ∧ message = acks ++ [32] ++ payload.

Lemma publish_refused topic message b ck :
  32 ∉ topic → ¬ looks_acked message → utf8_decode b = Ok (words [py "PUB " ++ topic; message]) →
  ∃ e, parse_command b ck = Raise e ∧ (e = ValueError ∨ e = IndexError).
Proof.
  intros Ht Hm Hd. rewrite (parse_plain b _ ck Hd) by (change (words [py "PUB " ++ topic; message])
    with (80 :: drop 1 (words [py "PUB " ++ topic; message])); auto).
  change (words [py "PUB " ++ topic; message]) with (py "PUB" ++ 32 :: topic ++ 32 :: message) in Hd.
  unfold _parse_command. keyword (py "PUB") Hd.
  rewrite !py_split_cons by (try done; apply (bool_decide_unpack _); vm_compute; exact I). change (3 - 1 - 1) with 1.
  destruct (decide (32 ∈ message)) as [(a & r & -> & Ha)%list_elem_of_split_l|Hn].
  - rewrite py_split_cons by done. rewrite py_split_0.
    destruct (valid_acks a) eqn:Hv; [exfalso; apply Hm; by exists a, r|].
    fields. rewrite Hv. exists ValueError. auto.
  - rewrite py_split_nosep by done. fields. destruct (valid_acks message); [exists IndexError|exists ValueError]; auto.
Qed.

(** What is taken for a publish is only what follows the number of acknowledgements. *)
Definition taken_short (topic message : pystr) (ck : bool) (p : Packet Command) : Prop :=
  ∃ acks payload a bytes, message = acks ++ [32] ++ payload ∧ py_int acks = Ok a ∧
    utf8_encode payload = Ok bytes ∧ p = mkPacket None (PublishCommand topic bytes a ck) ∧
    utf8_encode message ≠ Ok bytes.

Lemma shorter_encoding acks payload bytes :
  utf8_encode payload = Ok bytes → utf8_encode (acks ++ [32] ++ payload) ≠ Ok bytes.
Proof.
  intros Hp%utf8_roundtrip Hm%utf8_roundtrip. rewrite Hp in Hm. injection Hm as E%(f_equal length).
  rewrite !length_app in E. cbn in E. lia.
Qed.

Lemma publish_taken_short topic message b ck p :
  32 ∉ topic → utf8_decode b = Ok (words [py "PUB " ++ topic; message]) → parse_command b ck = Ok p →
  taken_short topic message ck p.
Proof.
  intros Ht Hd. rewrite (parse_plain b _ ck Hd) by (change (words [py "PUB " ++ topic; message])
    with (80 :: drop 1 (words [py "PUB " ++ topic; message])); auto).
  change (words [py "PUB " ++ topic; message]) with (py "PUB" ++ 32 :: topic ++ 32 :: message) in Hd.
  unfold _parse_command. keyword (py "PUB") Hd.
  rewrite !py_split_cons by (try done; apply (bool_decide_unpack _); vm_compute; exact I). change (3 - 1 - 1) with 1.
  destruct (decide (32 ∈ message)) as [(a & r & -> & Ha)%list_elem_of_split_l|Hn].
  - rewrite py_split_cons by done. rewrite py_split_0. fields.
    destruct (valid_acks a); [|done]. cbn [require mbind result_bind].
    intros Hp. inv_ok. eexists a, r, _, _. split_and!; [done..|]. by apply shorter_encoding.
  - rewrite py_split_nosep by done. fields. by destruct (valid_acks message).
Qed.

(** C39: the client speaks half of the broker's protocol.  The broker takes its [REG],
    [CID], [SUB] and [PNG] frames as the commands they stand for; [SET] is an unknown
    command.  What [produce] sends is never taken as the message it is: a message that
    does not begin with a number of acknowledgements is refused, of any other the broker
    takes at most what follows that number, and in each case it reads the checksum behind
    the packet as the length of the next one. *)
Theorem broker_takes_frames id topic message offset ck f :
  32 ∉ topic →
  (_frame_message (py "REG") [] false = Ok f → taken_as f ck (Ok (mkPacket None RegisterCommand)) []) ∧
  (_frame_message (py "CID") id false = Ok f → taken_as f ck (Ok (mkPacket None (ClientIdCommand id))) []) ∧
  (_frame_message (py "SUB") topic false = Ok f → taken_as f ck (Ok (mkPacket None (SubscribeCommand topic))) []) ∧
  (_frame_message (py "PNG") [] false = Ok f → taken_as f ck (Ok (mkPacket None PingCommand)) []) ∧
  (_frame_message (py "SET " ++ topic) offset false = Ok f → taken_as f ck (Raise (UnknownCommand (py "SET"))) []) ∧
  (_frame_message (py "PUB " ++ topic) message checksum_enabled = Ok f →
    ∃ r hash, zlen hash = 4 ∧ taken_as f ck r hash ∧
      (∀ rest, ∃ body, read_packet (f ++ rest) = Ok (body, hash ++ rest)) ∧
      (∀ p, r = Ok p → taken_short topic message ck p) ∧
      (¬ looks_acked message → ∃ e, r = Raise e ∧ (e = ValueError ∨ e = IndexError))).
Proof.
  intros Ht. split_and!.
  - intros (b & Hd & body & Hr & Hp)%(plain_taken (py "REG") [] [] f ck); [|auto]. exists body. split; [done|].
    rewrite Hp. unfold _parse_command. by keyword (py "REG") Hd.
  - intros (b & Hd & body & Hr & Hp)%(plain_taken (py "CID") [] id f ck); [|auto]. exists body. split; [done|].
    rewrite Hp. unfold _parse_command. change (words [py "CID" ++ []; id]) with (words [py "CID"; id]) in Hd.
    keyword (py "CID") Hd. by fields.
  - intros (b & Hd & body & Hr & Hp)%(plain_taken (py "SUB") [] topic f ck); [|auto]. exists body. split; [done|].
    rewrite Hp. unfold _parse_command. change (words [py "SUB" ++ []; topic]) with (words [py "SUB"; topic]) in Hd.
    keyword (py "SUB") Hd. by fields.
  - intros (b & Hd & body & Hr & Hp)%(plain_taken (py "PNG") [] [] f ck); [|auto]. exists body. split; [done|].
    rewrite Hp. unfold _parse_command. by keyword (py "PNG") Hd.
  - intros (b & Hd & body & Hr & Hp)%(plain_taken (py "SET") (32 :: topic) offset f ck); [|auto]. exists body. split; [done|].
    rewrite Hp. unfold _parse_command. by keyword (py "SET") Hd.
  - unfold _frame_message, checksum_enabled. intros Hf. inv_ok.
    match goal with
    | Hc : to_bytes (crc32 _) 4 = Ok ?h, Hb : utf8_encode _ = Ok ?b, Hp : to_bytes (zlen ?b) 4 = Ok ?p |- _ =>
        pose proof (utf8_roundtrip _ _ Hb) as Hd;
        assert (∀ rest, read_packet ((p ++ b ++ h) ++ rest) = Ok (b, h ++ rest)) as Hread
          by (intros rest; rewrite <-!app_assoc, (app_assoc p b); apply read_encoded; unfold encode_frame; by rewrite Hp);
        exists (parse_command b ck), h; split_and!;
          [by rewrite (to_bytes_length _ _ _ Hc)| |intros rest; by exists b| |]
    end.
    + pose proof (Hread []) as Hread0. rewrite !app_nil_r in Hread0. by eexists.
    + intros p. by apply publish_taken_short.
    + intros Hm. by apply (publish_refused topic message).
Qed.

(** ** The threads *)

(** The calls of a user, one by one. *)
Inductive call :=
| CallRegister
| CallLogin (id : list Z)
| CallOldest (topic : list Z)
| CallLatest (topic : list Z)
| CallSubscribe (topic : list Z)
| CallProduce (topic message : list Z).

Definition call_frame (k : call) : result bytes :=
  match k with
  | CallRegister => _frame_message (py "REG") [] false
  | CallLogin id => _frame_message (py "CID") id false
  | CallOldest topic => _frame_message (py "SET " ++ topic) (py "0") false
  | CallLatest topic => _frame_message (py "SET " ++ topic) (py "-1") false
  | CallSubscribe topic => _frame_message (py "SUB") topic false
  | CallProduce topic message => _frame_message (py "PUB " ++ topic) message checksum_enabled
  end.
Definition run_call (k : call) : Client → result (option Client) :=
  match k with
  | CallRegister => register_frame
  | CallLogin id => login id
  | CallOldest topic => reset_offset_oldest topic
  | CallLatest topic => reset_offset_latest topic
  | CallSubscribe topic => subscribe topic
  | CallProduce topic message => produce topic message
  end.

Inductive event :=
| Call (k : call)
| Consume
| RegisterId
| WriterRound (failed : option nat)
| PingRound
| CloseBegin
| CloseEnd.

Section runs.
Variable os_name : list Z.

(** [None] when the code waits. *)
Definition perform (e : event) (c : Client) : option Client :=
  match e with
  | Call k => match run_call k c with Ok o => o | Raise _ => Some c end
  | Consume => Some (consume c).2
  | RegisterId => Some (register_id c).2
  | WriterRound failed => writer_round os_name failed c
  | PingRound => ping_round c
  | CloseBegin => Some (close_begin c)
  | CloseEnd => snd <$> close_end c
  end.

(** The frame a step hands over. *)
Definition handed (e : event) (c : Client) : list (list Z) :=
  match e with
  | Call k => match call_frame k with Ok f => [f] | Raise _ => [] end
  | PingRound =>
      match ping_thread c, _frame_message (py "PNG") [] false with PingPut, Ok f => [f] | _, _ => [] end
  | _ => []
  end.

Fixpoint run_events (es : list event) (c : Client) : option (list (list Z) * Client) :=
  match es with
  | [] => Some ([], c)
  | e :: es =>
      c' ← perform e c;
      '(fs, c'') ← run_events es c';
      Some (handed e c ++ fs, c'')
  end.

Definition in_flight (c : Client) : list (list Z) :=
  match writer_thread c with WriterSend m => [m] | _ => [] end.
Definition queued (c : Client) : list (list Z) := omap id (send_queue c).

(** The frames [fs] were handed over, the first of them are on the wire. *)
Record sends (fs : list (list Z)) (c : Client) : Prop := {
  se_bound : (length (send_queue c) <= outgoing_buffer_capacity)%nat;
  se_open : writer_thread c ≠ WriterEnded → is_open (conn c) = true;
  se_wire : ∃ sent rest part,
    fs = sent ++ rest ∧ outgoing (conn c) = concat sent ++ part ∧ part `prefix_of` default [] (head rest) ∧
    (part = [] ∧ rest = in_flight c ++ queued c ∨
     alive c = false ∧ (writer_thread c = WriterHead ∨ writer_thread c = WriterEnded)) }.

(** Reading touches nothing of this. *)
Definition same_sending (c c' : Client) : Prop :=
  send_queue c' = send_queue c ∧ alive c' = alive c ∧ writer_thread c' = writer_thread c ∧
  outgoing (conn c') = outgoing (conn c) ∧ is_open (conn c') = is_open (conn c).
#[local] Instance same_sending_preorder : PreOrder same_sending.
Proof. split; [done|]. intros ? ? ? (? & ? & ? & ? & ?) (? & ? & ? & ? & ?). unfold same_sending. by split_and!; etrans. Qed.

Definition only_reads {A} (m : M Client A) : Prop := ∀ c, same_sending c (m c).2.
Lemma only_reads_bind {A B} (m : M Client A) (f : A → M Client B) :
  only_reads m → (∀ a, only_reads (f a)) → only_reads (m ≫= f).
Proof.
  intros Hm Hf c. run. specialize (Hm c). destruct (m c) as [[a|e] c']; cbn in *; [|done]. etrans; [done|apply Hf].
Qed.
Lemma only_reads_pure {A} (r : result A) : only_reads (lift r).
Proof. done. Qed.
Lemma recv_only_reads n : only_reads (recv n).
Proof. intros c. unfold recv. repeat case_match; done. Qed.
Lemma recvall_loop_only_reads fuel size data : only_reads (recvall_loop fuel size data).
Proof.
  revert data. induction fuel as [|fuel IH]; intros data; cbn [recvall_loop]; case_match; try done.
  apply only_reads_bind; [apply recv_only_reads|]. intros packet. case_match; [done|apply IH].
Qed.
Lemma consume_only_reads : only_reads consume.
Proof.
  apply only_reads_bind; [apply recvall_loop_only_reads|]. intros [[|x l]|]; [done| |done].
  apply only_reads_bind; [apply recvall_loop_only_reads|]. intros [[|y l']|]; [done| |done].
  by apply only_reads_bind.
Qed.
Lemma register_id_only_reads : only_reads register_id.
Proof.
  apply only_reads_bind; [apply recv_only_reads|]. intros a.
  apply only_reads_bind; [apply recv_only_reads|done].
Qed.

Lemma sends_reading fs c c' : same_sending c c' → sends fs c → sends fs c'.
Proof.
  intros (Eq & Ea & Ew & Eo & Ei) [Hb Hop Hw]. split.
  - by rewrite Eq.
  - by rewrite Ew, Ei.
  - unfold in_flight, queued. by rewrite Eo, Ea, Ew, Eq.
Qed.

Lemma sends_put fs c item c' :
  sends fs c → put item c = Some c' → sends (fs ++ option_list item) c' ∧ ping_thread c' = ping_thread c.
Proof.
  intros [Hb Hop (sent & rest & part & -> & Ho & Hp & Hr)]. unfold put. case_match eqn:Hl; [|done]. intros [= <-].
  split; [|done]. split.
  - cbn. rewrite length_app. cbn. lia.
  - done.
  - exists sent, (rest ++ option_list item), part. rewrite app_assoc. split; [done|]. split; [done|]. split.
    + destruct rest; [|done]. cbn in Hp. apply prefix_nil_inv in Hp as ->. apply prefix_nil.
    + destruct Hr as [[-> ->]|Hr]; [left|by right]. split; [done|]. unfold queued. cbn.
      rewrite omap_app, app_assoc. by destruct item.
Qed.

Lemma sends_ping fs c p : sends fs (set_ping p c) ↔ sends fs c.
Proof. split; intros [Hb Hop Hw]; by split. Qed.

Lemma enqueue_put framed c o : enqueue framed c = Ok o → ∃ f, framed = Ok f ∧ o = put (Some f) c.
Proof. unfold enqueue. destruct framed as [f|]; [|done]. intros [= <-]. by eexists. Qed.
Lemma run_call_enqueue k c : run_call k c = enqueue (call_frame k) c.
Proof. by destruct k. Qed.

Lemma sends_writer fs c failed c' :
  sends fs c → writer_round os_name failed c = Some c' → sends fs c'.
Proof.
  intros [Hb Hop (sent & rest & part & -> & Ho & Hp & Hr)]. unfold writer_round, in_flight in *.
  destruct (writer_thread c) as [| |m|] eqn:Ew; [| | |done].
  - intros [= <-]. destruct (alive c) eqn:Ea.
    + destruct Hr as [[-> ->]|[? _]]; [|done]. split; [done|by intros _; apply Hop|]. exists sent, (queued c), []. split_and!; auto.
    + split; [done|done|]. exists sent, rest, part. split_and!; auto.
  - destruct Hr as [[-> ->]|[_ [?|?]]]; [|done..]. destruct (send_queue c) as [|[m|] q] eqn:Eq; [done|..].
    + intros [= <-]. split; [cbn in *; lia|by intros _; apply Hop|]. exists sent, (m :: omap id q), [].
      unfold queued. rewrite Eq. split_and!; try done; [apply prefix_nil|]. by left.
    + intros [= <-]. split; [cbn in *; lia|done|]. exists sent, (omap id q), [].
      unfold queued. rewrite Eq. split_and!; try done; [apply prefix_nil|]. by left.
  - destruct Hr as [[-> ->]|[_ [?|?]]]; [|done..]. rewrite app_nil_r in Ho. specialize (Hop ltac:(done)). intros [= <-].
    assert (∀ bs, sends (sent ++ [m] ++ queued c)
      (set_writer WriterHead (set_dead (set_conn (mkSocket (incoming (conn c)) (cuts (conn c)) (reset (conn c))
        (outgoing (conn c) ++ bs) (is_open (conn c))) c))) ∨ ¬ bs `prefix_of` m) as Hfail.
    { intros bs. destruct (decide (bs `prefix_of` m)) as [Hbs|]; [left|by right]. split; [done|done|].
      exists sent, (m :: queued c), bs. cbn. rewrite Ho. split_and!; auto. }
    unfold sendall. destruct (_ || _).
    + unfold conn_sendall. cbv zeta. rewrite Hop. cbn [negb]. destruct failed as [n|].
      * destruct (Hfail (take n m)) as [Hs|Hs]; [by rewrite Hop in Hs|]. by destruct Hs; apply prefix_take.
      * split; [done|done|]. exists (sent ++ [m]), (queued c), []. rewrite <-app_assoc. cbn. rewrite Ho, concat_app.
        split_and!; try done; [by cbn; rewrite !app_nil_r|apply prefix_nil|by left].
    + destruct (0 <? zlen m) eqn:Hm.
      * destruct (Hfail []) as [Hs|Hs]; [|by destruct Hs; apply prefix_nil]. rewrite app_nil_r in Hs. by destruct c as [[]].
      * destruct m; [|cbn [length] in *; lia]. split; [done|done|]. exists (sent ++ [[]]), (queued c), [].
        rewrite <-app_assoc. cbn. rewrite Ho, concat_app. split_and!; try done; [by cbn; rewrite !app_nil_r|apply prefix_nil|by left].
Qed.

Lemma sends_step fs c e c' : sends fs c → perform e c = Some c' → sends (fs ++ handed e c) c'.
Proof.
  intros Hs. destruct e as [k| | |failed| | |]; cbn [perform handed].
  - rewrite run_call_enqueue. unfold enqueue. destruct (call_frame k) as [f|e]; cbn [mbind result_bind].
    + intros E. by apply (sends_put fs c (Some f)).
    + intros [= <-]. by rewrite app_nil_r.
  - intros [= <-]. rewrite app_nil_r. eapply sends_reading; [apply consume_only_reads|done].
  - intros [= <-]. rewrite app_nil_r. eapply sends_reading; [apply register_id_only_reads|done].
  - rewrite app_nil_r. by apply sends_writer.
  - unfold ping_round. destruct (ping_thread c); try (intros [= <-]; rewrite app_nil_r; by apply sends_ping).
    unfold enqueue. destruct (_frame_message _ _ _) as [f|e]; cbn [mbind result_bind].
    + destruct (put (Some f) c) as [c1|] eqn:E; [|done]. intros [= <-]. apply sends_ping. by apply (sends_put fs c (Some f)).
    + intros [= <-]. rewrite app_nil_r. by apply sends_ping.
  - intros [= <-]. rewrite app_nil_r. destruct Hs as [Hb Hop (sent & rest & part & -> & Ho & Hp & Hr)].
    split; [done..|]. exists sent, rest, part. split_and!; [done..|]. destruct Hr as [Hr|[_ Hr]]; [by left|by right].
  - unfold close_end. destruct (put None c) as [c1|] eqn:E; [|done]. intros [= <-].
    by apply (sends_put fs c None).
Qed.

Lemma run_sends es fs0 c fs c' : sends fs0 c → run_events es c = Some (fs, c') → sends (fs0 ++ fs) c'.
Proof.
  revert fs0 c fs. induction es as [|e es IH]; intros fs0 c fs Hs; cbn [run_events].
  - intros [= <- <-]. by rewrite app_nil_r.
  - destruct (perform e c) as [c1|] eqn:E; [|done]. cbn [mbind option_bind].
    destruct (run_events es c1) as [[fs1 c2]|] eqn:E1; [|done]. intros [= <- <-]. rewrite app_assoc.
    eapply IH; [|done]. by apply sends_step.
Qed.

Lemma new_client_sends s : is_open s = true → outgoing s = [] → sends [] (new_client s).
Proof. intros Hs Ho. split; [cbn; lia|done|]. exists [], [], []. split_and!; auto using prefix_nil. Qed.


(** Nobody closes the client, and no send fails. *)
Definition undisturbed (e : event) : Prop :=
  match e with WriterRound (Some _) | CloseBegin | CloseEnd => False | _ => True end.

Record live (c : Client) : Prop := {
  li_alive : alive c = true;
  li_queue : Forall is_Some (send_queue c);
  li_open : is_open (conn c) = true;
  li_writer : writer_thread c ≠ WriterEnded }.

Hypothesis posix : os_name = py "posix".

Lemma sendall_posix failed m c : sendall os_name failed m c = conn_sendall failed m c.
Proof. by rewrite posix. Qed.

Lemma live_reading c c' : same_sending c c' → live c → live c'.
Proof. intros (Eq & Ea & Ew & Eo & Ei) []. split; congruence. Qed.
Lemma live_put c f c' : live c → put (Some f) c = Some c' → live c'.
Proof.
  intros []. unfold put. case_match; [|done]. intros [= <-]. split; try done. cbn. apply Forall_app. split; [done|]. by repeat constructor.
Qed.
Lemma live_ping c p : live (set_ping p c) ↔ live c.
Proof. split; intros []; by split. Qed.

Lemma live_writer c c' : live c → writer_round os_name None c = Some c' → live c'.
Proof.
  intros [Ha Hq Ho Hw]. unfold writer_round. destruct (writer_thread c); [| | |done].
  - rewrite Ha. intros [= <-]. by split.
  - destruct (send_queue c) as [|[m|] q] eqn:E; [done|..]; apply Forall_cons in Hq as [Hm Hq].
    + intros [= <-]. by split.
    + by destruct Hm.
  - rewrite sendall_posix. unfold conn_sendall. cbv zeta. rewrite Ho. intros [= <-]. by split.
Qed.

Lemma live_step e c c' : undisturbed e → live c → perform e c = Some c' → live c'.
Proof.
  intros He Hl. destruct e as [k| | |[n|]| | |]; cbn [perform]; try done.
  - rewrite run_call_enqueue. unfold enqueue. destruct (call_frame k) as [f|e]; cbn [mbind result_bind].
    + by apply live_put.
    + by intros [= <-].
  - intros [= <-]. eapply live_reading; [apply consume_only_reads|done].
  - intros [= <-]. eapply live_reading; [apply register_id_only_reads|done].
  - by apply live_writer.
  - unfold ping_round. destruct (ping_thread c); try (intros [= <-]; by apply live_ping).
    unfold enqueue. destruct (_frame_message _ _ _) as [f|e]; cbn [mbind result_bind].
    + destruct (put (Some f) c) as [c1|] eqn:E; [|done]. intros [= <-]. apply live_ping. by eapply live_put.
    + intros [= <-]. by apply live_ping.
Qed.

Lemma run_live es c fs c' : Forall undisturbed es → live c → run_events es c = Some (fs, c') → live c'.
Proof.
  intros Hes. revert c fs. induction Hes as [|e es He Hes IH]; intros c fs Hl; cbn [run_events]; [by intros [= <- <-]|].
  destruct (perform e c) as [c1|] eqn:E; [|done]. cbn [mbind option_bind].
  destruct (run_events es c1) as [[fs1 c2]|] eqn:E1; [|done]. intros [= <- <-].
  eapply IH; [|done]. by eapply live_step.
Qed.

(** The rounds of the writer thread. *)
Definition writer_rounds (n : nat) (c : Client) : option Client :=
  snd <$> run_events (repeat (WriterRound None) n) c.

Lemma writer_rounds_S n c : writer_rounds (S n) c = c ← writer_round os_name None c; writer_rounds n c.
Proof.
  unfold writer_rounds. cbn [repeat run_events perform]. destruct (writer_round os_name None c) as [c1|]; [|done].
  cbn [mbind option_bind]. by destruct (run_events _ c1) as [[]|].
Qed.

Lemma writer_sends c : live c → ∃ n c', writer_rounds n c = Some c' ∧
  outgoing (conn c') = outgoing (conn c) ++ concat (in_flight c ++ queued c) ∧ send_queue c' = [] ∧ in_flight c' = [].
Proof.
  remember (3 * length (send_queue c) + match writer_thread c with WriterSend _ => 2 | WriterHead => 1 | _ => 0 end)%nat
    as k eqn:Hk. revert c Hk. induction k as [k IH] using lt_wf_ind. intros c -> Hl. pose proof Hl as [Ha Hq Ho Hw].
  assert (∀ c1, writer_round os_name None c = Some c1 →
    (3 * length (send_queue c1) + match writer_thread c1 with WriterSend _ => 2 | WriterHead => 1 | _ => 0 end <
     3 * length (send_queue c) + match writer_thread c with WriterSend _ => 2 | WriterHead => 1 | _ => 0 end)%nat →
    outgoing (conn c1) ++ concat (in_flight c1 ++ queued c1) = outgoing (conn c) ++ concat (in_flight c ++ queued c) →
    ∃ n c', writer_rounds n c = Some c' ∧
      outgoing (conn c') = outgoing (conn c) ++ concat (in_flight c ++ queued c) ∧ send_queue c' = [] ∧ in_flight c' = []) as Hgo.
  { intros c1 E Hlt Hout. destruct (IH _ Hlt c1 eq_refl) as (n & c' & En & Eo & Eq); [by eapply live_writer|].
    exists (S n), c'. rewrite writer_rounds_S, E. cbn [mbind option_bind]. split; [done|]. by rewrite Eo, Hout. }
  unfold in_flight, queued, writer_round in *. destruct (writer_thread c) as [| |m|] eqn:Ew; [| | |done].
  - rewrite Ha in Hgo. apply (Hgo _ eq_refl); [cbn; lia|done].
  - destruct (send_queue c) as [|[m|] q] eqn:Eq.
    + exists O, c. rewrite Ew. split; [done|]. split; [|done]. cbn. by rewrite app_nil_r.
    + apply (Hgo _ eq_refl); [cbn; lia|done].
    + apply Forall_cons in Hq as [[] _]. done.
  - rewrite sendall_posix in Hgo. unfold conn_sendall in Hgo. cbv zeta in Hgo. rewrite Ho in Hgo.
    apply (Hgo _ eq_refl); [cbn; lia|]. cbn. by rewrite <-app_assoc.
Qed.

(** Everything is sent.  As long as nobody closes the client and no send fails, from
    every point of every interleaving the writer thread alone puts all that was
    handed over on the wire. *)
Theorem client_drains s es fs c :
  is_open s = true → outgoing s = [] → Forall undisturbed es → run_events es (new_client s) = Some (fs, c) →
  ∃ n c', writer_rounds n c = Some c' ∧ outgoing (conn c') = concat fs ∧ send_queue c' = [].
Proof.
  intros Hs Ho Hes Hrun. assert (live c) as Hl by (eapply run_live; [done| |done]; split; [done|constructor|done|done]).
  destruct (run_sends es [] _ _ _ (new_client_sends s Hs Ho) Hrun) as [_ _ (sent & rest & part & E & Hout & _ & Hr)].
  destruct Hr as [[-> ->]|[Hd _]]; [|by rewrite (li_alive _ Hl) in Hd].
  destruct (writer_sends c Hl) as (n & c' & En & Eo & Eq & _). exists n, c'. split; [done|]. split; [|done].
  cbn [app] in E. by rewrite Eo, Hout, app_nil_r, E, (concat_app sent).
Qed.
End runs.

(** On a system whose name is neither of the two nothing is ever sent: the other
    branch of [sendall] raises [NameError], and the writer thread ends. *)
Theorem other_systems_silent os_name s es fs c :
  os_name ≠ py "posix" → os_name ≠ py "win32" → run_events os_name es (new_client s) = Some (fs, c) →
  outgoing (conn c) = outgoing s.
Proof.
  intros H1 H2. change (outgoing s) with (outgoing (conn (new_client s))). generalize (new_client s) as c0.
  revert fs. induction es as [|e es IH]; intros fs c0; cbn [run_events]; [by intros [= <- <-]|].
  destruct (perform os_name e c0) as [c1|] eqn:E; [|done]. cbn [mbind option_bind].
  destruct (run_events os_name es c1) as [[fs1 c2]|] eqn:E1; [|done]. intros [= _ <-]. rewrite (IH _ _ E1). clear IH E1.
  assert (∀ item c c', put item c = Some c' → outgoing (conn c') = outgoing (conn c)) as Hput.
  { intros item c c'. unfold put. case_match; [|done]. by intros [= <-]. }
  destruct e as [k| | |failed| | |]; cbn [perform] in E.
  - rewrite run_call_enqueue in E. unfold enqueue in E. destruct (call_frame k); cbn [mbind result_bind] in E.
    + by eapply Hput.
    + by injection E as <-.
  - injection E as <-. by destruct (consume_only_reads c0) as (_ & _ & _ & ? & _).
  - injection E as <-. by destruct (register_id_only_reads c0) as (_ & _ & _ & ? & _).
  - unfold writer_round, sendall in E. rewrite !bool_decide_eq_false_2 in E by done. cbn [orb] in E.
    destruct (writer_thread c0); [by destruct (alive c0); injection E as <-| | |done].
    + destruct (send_queue c0) as [|[]]; [done|by injection E as <-..].
    + by destruct (0 <? zlen msg); injection E as <-.
  - unfold ping_round in E. destruct (ping_thread c0); [by injection E as <-..| |done].
    unfold enqueue in E. destruct (_frame_message _ _ _) as [f|]; cbn [mbind result_bind] in E; [|by injection E as <-].
    destruct (put (Some f) c0) as [c3|] eqn:Ep; [|done]. injection E as <-. by apply Hput in Ep.
  - by injection E as <-.
  - unfold close_end in E. destruct (put None c0) as [c3|] eqn:Ep; [|done]. injection E as <-. by eapply Hput.
Qed.

(** ** Witnesses *)

Definition frame_texts : list (list Z) := [py "MSG t hello"; py "x"].
Definition frame_bytes : list (list Z) := Eval vm_compute in
  omap (λ t, match encode_frame t with Ok f => Some f | Raise _ => None end) frame_texts.
(** Cut after one byte, then three, then in the middle of the next length; the last
    frame is not whole. *)
Definition cut_stream : Socket := mkSocket (concat frame_bytes ++ [0; 0; 0; 9; 80]) [1; 3; 7; 6]%nat false [] true.

Lemma consume_stream_witness :
  ∃ c', consume_all 3 (new_client cut_stream) = (Ok [Some (py "MSG t hello"); Some (py "x"); None], c').
Proof.
  apply (consume_stream frame_texts frame_bytes [0; 0; 0; 9; 80]); try reflexivity.
  - repeat constructor; eexists; (split; [vm_compute; reflexivity|split; [discriminate|vm_compute; reflexivity]]).
  - right. vm_compute. reflexivity.
Defined.

Definition publish_frame : list Z := Eval vm_compute in
  match _frame_message (py "PUB t") (py "hello") true with Ok f => f | Raise _ => [] end.

Definition acked_frame : list Z := Eval vm_compute in
  match _frame_message (py "PUB t") (py "1 hello") true with Ok f => f | Raise _ => [] end.

Lemma broker_takes_frames_witness :
  (∃ e hash, (e = ValueError ∨ e = IndexError) ∧ zlen hash = 4 ∧ taken_as publish_frame false (Raise e) hash) ∧
  ∃ hash, zlen hash = 4 ∧
    taken_as acked_frame false (Ok (mkPacket None (PublishCommand (py "t") (py "hello") 1 false))) hash.
Proof.
  assert (32 ∉ py "t") as Ht by (apply (bool_decide_unpack _); vm_compute; exact I). split.
  - destruct (broker_takes_frames (py "c1") (py "t") (py "hello") (py "0") false publish_frame Ht) as (_ & _ & _ & _ & _ & Hp).
    destruct (Hp ltac:(vm_compute; reflexivity)) as (r & hash & Hh & Hr & _ & _ & He).
    destruct He as (e & -> & He).
    + intros (acks & payload & _ & E).
      assert (32 ∈ py "hello") as Hin by (rewrite E; apply elem_of_app; right; left).
      apply (bool_decide_pack _) in Hin. vm_compute in Hin. exact Hin.
    + exists e, hash. split; [exact He|split; [exact Hh|exact Hr]].
  - destruct (broker_takes_frames (py "c1") (py "t") (py "1 hello") (py "0") false acked_frame Ht) as (_ & _ & _ & _ & _ & Hp).
    destruct (Hp ltac:(vm_compute; reflexivity)) as (r & hash & Hh & (body & Hb & Hr) & _).
    exists hash. split; [exact Hh|]. exists body. split; [exact Hb|].
    vm_compute in Hb. injection Hb as <- _. vm_compute. reflexivity.
Defined.

Definition empty_socket : Socket := mkSocket [] [] false [] true.
Definition sample_events : list event :=
  [Call (CallLogin (py "c1")); WriterRound None; PingRound; WriterRound None; PingRound; PingRound;
   Call (CallSubscribe (py "t")); WriterRound None; WriterRound None; WriterRound None].

Definition sample_run := Eval vm_compute in run_events (py "posix") sample_events (new_client empty_socket).


Lemma client_drains_witness :
  match sample_run with
  | Some (fs, c) => length fs = 3%nat ∧ ∃ n c', writer_rounds (py "posix") n c = Some c' ∧ outgoing (conn c') = concat fs ∧ send_queue c' = []
  | None => False
  end.
Proof.
  destruct sample_run as [[fs c]|] eqn:E; [|discriminate E].
  split; [by injection E as <- _|].
  apply (client_drains (py "posix") eq_refl empty_socket sample_events fs c).
  - reflexivity.
  - reflexivity.
  - repeat constructor.
  - rewrite <-E. vm_compute. reflexivity.
Defined.
