(* ===== verification/AsyncManager.v ===== *)
(** * The manager over a storage that suspends

    [metastore/manager.py] once more, with its [await]s.  [Metastore] has the calls of
    the manager as they are over the storage in memory, whose methods never suspend;
    here each call of the storage is a coroutine, as over ZooKeeper.  A call of the
    manager that runs alone is the one of [Metastore], and over the storage in memory
    it never suspends. *)
From Stdlib Require Import String.
From S2P Require Import Prelude Coroutine PyData PyDict Md5 Ring Metastore Zk.

(** ** Storages *)

Class StorageCo (S : Type) := {
  co_add_node : BrokerNode → Co S unit;
  co_remove_node : pystr → Co S (option BrokerNode);
  co_get_node : pystr → Co S (option BrokerNode);
  co_get_all_nodes : Co S (list BrokerNode);
  co_add_topic : TopicMetadata → Co S unit;
  co_update_topic : TopicMetadata → Co S unit;
  co_remove_topic : pystr → Co S (option TopicMetadata);
  co_get_topic : pystr → Co S (option TopicMetadata);
  co_get_all_topics : Co S (list TopicMetadata) }.

#[export] Instance zk_co {K} `{KazooApi K} : StorageCo K := {
  co_add_node := ZKMetastoreStorage.add_node;
  co_remove_node := ZKMetastoreStorage.remove_node;
  co_get_node := ZKMetastoreStorage.get_node;
  co_get_all_nodes := ZKMetastoreStorage.get_all_nodes;
  co_add_topic := ZKMetastoreStorage.add_topic;
  co_update_topic := ZKMetastoreStorage.update_topic;
  co_remove_topic := ZKMetastoreStorage.remove_topic;
  co_get_topic := ZKMetastoreStorage.get_topic;
  co_get_all_topics := ZKMetastoreStorage.get_all_topics }.

(** The [asyncio.Lock] of this storage is never held while something else runs, so that
    acquiring it does not suspend. *)
#[export] Instance memory_co : StorageCo MetastoreStorage.Storage := {
  co_add_node x := atomic (MetastoreStorage.add_node x);
  co_remove_node n := atomic (MetastoreStorage.remove_node n);
  co_get_node n := atomic (MetastoreStorage.get_node n);
  co_get_all_nodes := atomic MetastoreStorage.get_all_nodes;
  co_add_topic t := atomic (MetastoreStorage.add_topic t);
  co_update_topic t := atomic (MetastoreStorage.update_topic t);
  co_remove_topic n := atomic (MetastoreStorage.remove_topic n);
  co_get_topic n := atomic (MetastoreStorage.get_topic n);
  co_get_all_topics := atomic MetastoreStorage.get_all_topics }.

(** ** The manager *)

Module AsyncManager.
Section manager.
Context {S : Type} `{StorageCo S}.
Abbreviation Manager := (MetastoreManager.Manager S).

Definition on_storage {A} (c : Co S A) : Co Manager A :=
  co_zoom MetastoreManager.storage MetastoreManager.set_storage c.

Definition register_broker (id host : pystr) (port : Z) : Co Manager BrokerNode :=
  let node := mkBrokerNode id host port in
  on_storage (co_add_node node);;
  atomic (MetastoreManager.on_ring (Ring.add_node _hash id));;
  mret node.

(** The body of the loop. *)
Definition deregister_topic (id : pystr) (active_node_ids : list (list Z)) (topic_meta : TopicMetadata) :
    Co Manager (option TopicMetadata) :=
  p ← (if bool_decide (id ∈ replica_list topic_meta) then
         new_replicas ← atomic (MetastoreManager.replace_replica id active_node_ids topic_meta);
         mret (set_replica_list new_replicas topic_meta, true)
       else mret (topic_meta, false));
  let '(topic_meta, needs_update) := p in
  p ← (if bool_decide (leader_id topic_meta = id) then
         let topic_meta :=
           set_isr_list (filter (λ r, r ≠ id) (isr_list topic_meta)) topic_meta in
         l ← atomic (MetastoreManager._elect_leader topic_meta);
         mret (set_leader_id l topic_meta, true)
       else mret (topic_meta, needs_update));
  let '(topic_meta, needs_update) := p in
  if (needs_update : bool) then
    let topic_meta := next_version topic_meta in
    on_storage (co_update_topic topic_meta);;
    mret (Some topic_meta)
  else mret None.

Fixpoint deregister_topics (id : pystr) (active_node_ids : list (list Z)) (all_topics : list TopicMetadata) :
    Co Manager (list TopicMetadata) :=
  match all_topics with
  | [] => mret []
  | topic_meta :: all_topics =>
      u ← deregister_topic id active_node_ids topic_meta;
      us ← deregister_topics id active_node_ids all_topics;
      mret (option_list u ++ us)
  end.

Definition deregister_broker (id : pystr) : Co Manager (list TopicMetadata) :=
  on_storage (co_remove_node id);;
  atomic (MetastoreManager.on_ring (Ring.remove_node _hash id));;
  all_topics ← on_storage co_get_all_topics;
  all_nodes ← on_storage co_get_all_nodes;
  deregister_topics id (node_id <$> all_nodes) all_topics.

Definition register_topic (topic_name : pystr) : Co Manager TopicMetadata :=
  existing ← on_storage (co_get_topic topic_name);
  match existing with
  | Some existing => mret existing
  | None =>
      replicas ← atomic (reads (λ s, get_replicas _hash (MetastoreManager.ring s) topic_name
                                       (MetastoreManager.replicas_per_topic s)));
      let leader := default (py "") (head replicas) in
      let meta := mkTopicMetadata topic_name leader replicas replicas 1 in
      on_storage (co_add_topic meta);;
      mret meta
  end.

Definition update_topic_isr (topic_name : pystr) (isr : list (list Z)) : Co Manager (option TopicMetadata) :=
  topic_meta ← on_storage (co_get_topic topic_name);
  match topic_meta with
  | Some topic_meta =>
      let topic_meta := set_isr_list isr topic_meta in
      topic_meta ← (if bool_decide (leader_id topic_meta ∈ isr) then mret topic_meta
                    else
                      l ← atomic (MetastoreManager._elect_leader topic_meta);
                      mret (set_leader_id l topic_meta));
      let topic_meta := next_version topic_meta in
      on_storage (co_update_topic topic_meta);;
      mret (Some topic_meta)
  | None => mret None
  end.

Definition get_topic_metadata (topic_name : pystr) : Co Manager (option TopicMetadata) :=
  on_storage (co_get_topic topic_name).
Definition get_all_topics : Co Manager (list TopicMetadata) := on_storage co_get_all_topics.
Definition get_node (id : pystr) : Co Manager (option BrokerNode) := on_storage (co_get_node id).
End manager.
End AsyncManager.
