(* ===== verification/AsyncTheorems.v ===== *)
(** * The calls of the manager over ZooKeeper *)
From Stdlib Require Import String.
From stdpp Require Import relations fin_maps.
From S2P Require Import Prelude Coroutine PyData PyDict Md5 Ring Metastore StorageFacts Zk ZkFacts ZkTheorems AsyncManager.

(** ** Alone *)

(** The calls of the manager, with what they return. *)
Inductive manager_call : Type → Type :=
| CallRegisterBroker (id host : list Z) (port : Z) : manager_call BrokerNode
| CallDeregisterBroker (id : list Z) : manager_call (list TopicMetadata)
| CallRegisterTopic (t : list Z) : manager_call TopicMetadata
| CallUpdateTopicIsr (t : list Z) (isr : list (list Z)) : manager_call (option TopicMetadata)
| CallGetTopic (t : list Z) : manager_call (option TopicMetadata)
| CallGetAllTopics : manager_call (list TopicMetadata)
| CallGetNode (id : list Z) : manager_call (option BrokerNode).

Definition co_call {S} `{StorageCo S} {A} (c : manager_call A) : Co (MetastoreManager.Manager S) A :=
  match c with
  | CallRegisterBroker id host port => AsyncManager.register_broker id host port
  | CallDeregisterBroker id => AsyncManager.deregister_broker id
  | CallRegisterTopic t => AsyncManager.register_topic t
  | CallUpdateTopicIsr t isr => AsyncManager.update_topic_isr t isr
  | CallGetTopic t => AsyncManager.get_topic_metadata t
  | CallGetAllTopics => AsyncManager.get_all_topics
  | CallGetNode id => AsyncManager.get_node id
  end.

Definition m_call {S} `{StorageApi S} {A} (c : manager_call A) : M (MetastoreManager.Manager S) A :=
  match c with
  | CallRegisterBroker id host port => MetastoreManager.register_broker id host port
  | CallDeregisterBroker id => MetastoreManager.deregister_broker id
  | CallRegisterTopic t => MetastoreManager.register_topic t
  | CallUpdateTopicIsr t isr => MetastoreManager.update_topic_isr t isr
  | CallGetTopic t => MetastoreManager.get_topic_metadata t
  | CallGetAllTopics => MetastoreManager.get_all_topics
  | CallGetNode id => MetastoreManager.get_node id
  end.

(** The calls of a storage, run alone, are those of another description of it. *)
Class StorageAgrees (S : Type) `{StorageCo S} `{StorageApi S} := {
  ag_add_node x s : run (co_add_node x) s = st_add_node x s;
  ag_remove_node n s : run (co_remove_node n) s = st_remove_node n s;
  ag_get_node n s : run (co_get_node n) s = st_get_node n s;
  ag_get_all_nodes s : run co_get_all_nodes s = st_get_all_nodes s;
  ag_add_topic t s : run (co_add_topic t) s = st_add_topic t s;
  ag_update_topic t s : run (co_update_topic t) s = st_update_topic t s;
  ag_get_topic n s : run (co_get_topic n) s = st_get_topic n s;
  ag_get_all_topics s : run co_get_all_topics s = st_get_all_topics s }.

#[export] Instance zk_agrees {K} `{KazooApi K} : StorageAgrees K.
Proof. by split. Qed.
#[export] Instance memory_agrees : StorageAgrees MetastoreStorage.Storage.
Proof. split; intros; apply run_atomic. Qed.

Create HintDb alone.

Section alone.
Context {S : Type} `{StorageAgrees S}.
Abbreviation Manager := (MetastoreManager.Manager S).

Definition same_run {A} (c : Co Manager A) (f : M Manager A) : Prop := ∀ m, run c m = f m.

Lemma same_run_ret {A} (a : A) : same_run (mret a) (mret a).
Proof. done. Qed.
Lemma same_run_atomic {A} (f : M Manager A) : same_run (atomic f) f.
Proof. intros m. apply run_atomic. Qed.
Lemma same_run_bind {A B} (c : Co Manager A) f (k : A → Co Manager B) g :
  same_run c f → (∀ a, same_run (k a) (g a)) → same_run (c ≫= k) (f ≫= g).
Proof.
  intros Hc Hk m. rewrite run_co_bind, Hc. run. destruct (f m) as [[a|e] m']; [apply Hk|done].
Qed.
Lemma same_run_if {A} (b : bool) (c c' : Co Manager A) f f' :
  same_run c f → same_run c' f' → same_run (if b then c else c') (if b then f else f').
Proof. by destruct b. Qed.
Lemma same_run_storage {A} (c : Co S A) f : (∀ s, run c s = f s) →
  same_run (AsyncManager.on_storage c) (MetastoreManager.on_storage f).
Proof.
  intros Hc m. unfold AsyncManager.on_storage. rewrite run_co_zoom by by intros; destruct t.
  unfold MetastoreManager.on_storage. run. by rewrite Hc.
Qed.
#[local] Hint Resolve same_run_ret same_run_atomic same_run_bind same_run_if same_run_storage
  ag_add_node ag_remove_node ag_get_node ag_get_all_nodes ag_add_topic ag_update_topic ag_get_topic
  ag_get_all_topics : alone.

Lemma deregister_topic_alone id active t :
  same_run (AsyncManager.deregister_topic id active t) (MetastoreManager.deregister_topic id active t).
Proof.
  unfold AsyncManager.deregister_topic, MetastoreManager.deregister_topic.
  apply same_run_bind; [apply same_run_if; auto 6 with alone|]. intros [t1 needs].
  apply same_run_bind; [apply same_run_if; auto 6 with alone|]. intros [t2 needs'].
  apply same_run_if; auto 6 with alone.
Qed.
Lemma deregister_topics_alone id active ts :
  same_run (AsyncManager.deregister_topics id active ts) (MetastoreManager.deregister_topics id active ts).
Proof. induction ts as [|t ts IH]; cbn; auto 8 using deregister_topic_alone with alone. Qed.

Lemma call_alone {A} (c : manager_call A) : same_run (co_call c) (m_call c).
Proof.
  destruct c as [id host port|id|t|t isr|t| |id]; cbn [co_call m_call].
  - unfold AsyncManager.register_broker, MetastoreManager.register_broker. auto 8 with alone.
  - unfold AsyncManager.deregister_broker, MetastoreManager.deregister_broker.
    auto 10 using deregister_topics_alone with alone.
  - apply same_run_bind; [auto with alone|]. intros [x|]; [auto with alone|]. intros m.
    rewrite run_co_bind, run_atomic. run. destruct (get_replicas _ _ _ _) as [l|e]; [|done].
    apply same_run_bind; auto with alone.
  - apply same_run_bind; [auto with alone|]. intros [x|]; [|auto with alone].
    apply same_run_bind; [apply same_run_if; auto 6 with alone|]. auto 8 with alone.
  - apply same_run_storage, ag_get_topic.
  - apply same_run_storage, ag_get_all_topics.
  - apply same_run_storage, ag_get_node.
Qed.
End alone.

(** A coroutine that is never suspended. *)
Fixpoint immediate {S A} (c : Co S A) : Prop :=
  match c with
  | Done _ => True
  | Act _ k => ∀ b, immediate (k b)
  | Await _ _ => False
  end.

Lemma immediate_resume {S A} (c : Co S A) s : immediate c → resume c s = (Done (run c s).1, (run c s).2).
Proof.
  revert s. induction c as [r|X m k IH|ready k IH]; intros s Hc; [done| |done]. cbn in *.
  destruct (m s) as [b s']. by apply IH.
Qed.
Lemma immediate_atomic {S A} (m : M S A) : immediate (atomic m).
Proof. done. Qed.
Lemma immediate_bind {S A B} (c : Co S A) (k : A → Co S B) :
  immediate c → (∀ a, immediate (k a)) → immediate (c ≫= k).
Proof. intros Hc Hk. induction c as [[a|e]|X m f IH|ready f IH]; cbn in *; auto. Qed.
Lemma immediate_zoom {S T A} (g : T → S) (h : S → T → T) (c : Co S A) : immediate c → immediate (co_zoom g h c).
Proof. induction c as [r|X m k IH|ready k IH]; cbn; auto. Qed.
Lemma immediate_if {S A} (b : bool) (c c' : Co S A) : immediate c → immediate c' → immediate (if b then c else c').
Proof. by destruct b. Qed.
Lemma immediate_ret {S A} (a : A) : immediate (mret a : Co S A).
Proof. done. Qed.
Create HintDb immediate.
#[local] Hint Resolve immediate_atomic immediate_bind immediate_zoom immediate_if immediate_ret : immediate.

Lemma deregister_topic_immediate id active t :
  immediate (AsyncManager.deregister_topic (S := MetastoreStorage.Storage) id active t).
Proof.
  unfold AsyncManager.deregister_topic, AsyncManager.on_storage. cbn [co_update_topic memory_co].
  apply immediate_bind; [auto with immediate|]. intros [t1 needs].
  apply immediate_bind; [auto with immediate|]. intros [t2 needs']. auto with immediate.
Qed.

Lemma deregister_topics_immediate id active ts :
  immediate (AsyncManager.deregister_topics (S := MetastoreStorage.Storage) id active ts).
Proof. induction ts as [|t ts IH]; cbn; auto 8 using deregister_topic_immediate with immediate. Qed.

Lemma storage_immediate {A} (m : M MetastoreStorage.Storage A) : immediate (AsyncManager.on_storage (atomic m)).
Proof. by apply immediate_zoom. Qed.
#[local] Hint Resolve storage_immediate deregister_topics_immediate : immediate.

Lemma memory_immediate {A} (c : manager_call A) : immediate (co_call (S := MetastoreStorage.Storage) c).
Proof.
  destruct c as [id host port|id|t|t isr|t| |id]; cbn [co_call]; [| | | |apply storage_immediate..].
  - unfold AsyncManager.register_broker. cbn [co_add_node memory_co]. auto 8 with immediate.
  - unfold AsyncManager.deregister_broker. cbn [co_remove_node co_get_all_topics co_get_all_nodes memory_co].
    auto 10 with immediate.
  - apply immediate_bind; [apply storage_immediate|]. intros [x|]; [done|].
    apply immediate_bind; [done|]. intros l. apply immediate_bind; [apply storage_immediate|done].
  - apply immediate_bind; [apply storage_immediate|]. intros [x|]; [|done].
    apply immediate_bind; [auto with immediate|]. intros y. apply immediate_bind; [apply storage_immediate|done].
Qed.

(** The calls of the manager are what [Metastore] says.  Run alone, over ZooKeeper or
    over any storage whose calls agree with an atomic description, a call with its
    [await]s returns and leaves behind what the atomic call does; over the storage in
    memory no call is ever suspended, so that it is atomic whatever runs besides. *)
Theorem manager_calls_atomic {A} (c : manager_call A) :
  (∀ S (HC : StorageCo S) (HM : StorageApi S), @StorageAgrees S HC HM →
     ∀ m : MetastoreManager.Manager S, run (co_call c) m = m_call c m) ∧
  (∀ m : MetastoreManager.Manager MetastoreStorage.Storage,
     resume (co_call c) m = (Done (m_call c m).1, (m_call c m).2)).
Proof.
  split.
  - intros S HC HM Ha m. apply call_alone.
  - intros m. rewrite immediate_resume by apply memory_immediate. by rewrite (call_alone c m).
Qed.

(** ** Together *)

Abbreviation TreeManager := (MetastoreManager.Manager Tree).

(** The tasks of a controller that loses brokers. *)
Inductive failover (m : TreeManager) : Co TreeManager unit → Prop :=
| failover_task id : failover m (co_call (CallDeregisterBroker id);; mret tt).

Definition failover_run := rtc (sched failover (λ _ _ : TreeManager, False)).

(** Resuming the tasks of a list, those that cannot go on being passed over. *)
Definition play {S} (x : list (Co S unit) * S) (i : nat) : list (Co S unit) * S :=
  match x.1 !! i with
  | Some (Await ready k) => if ready x.2 then let '(c, s) := resume k x.2 in (<[i := c]> x.1, s) else x
  | _ => x
  end.
Lemma play_run {S} spawns env (x : list (Co S unit) * S) i : rtc (sched spawns env) x (play x i).
Proof.
  unfold play. destruct x as [ts s]. cbn. destruct (ts !! i) as [[| |ready k]|] eqn:Hi; try reflexivity.
  destruct (ready s) eqn:Hr; [|reflexivity]. destruct (resume k s) as [c s'] eqn:E. apply rtc_once.
  by eapply sched_resume.
Qed.
Lemma plays_run {S} spawns env (x : list (Co S unit) * S) l : rtc (sched spawns env) x (fold_left play l x).
Proof.
  revert x. induction l as [|i l IH]; intros x; [reflexivity|]. cbn. etrans; [apply play_run|apply IH].
Qed.

(** Starting a task. *)
Definition start {S} (x : list (Co S unit) * S) (c : Co S unit) : list (Co S unit) * S :=
  let '(c', s') := resume c x.2 in (x.1 ++ [c'], s').
Lemma starts_run {S} (spawns : S → Co S unit → Prop) env x cs : (∀ s, Forall (spawns s) cs) →
  rtc (sched spawns env) x (fold_left start cs x).
Proof.
  revert x. induction cs as [|c cs IH]; intros [ts s] Hc; [reflexivity|]. cbn. destruct (resume c s) as [c' s'] eqn:E.
  eapply (rtc_l _ _ (ts ++ [c'], s')).
  - eapply sched_spawn; [|exact E]. by apply (Forall_inv (Hc s)).
  - unfold start at 2. cbn. rewrite E. apply IH. intros s0. by apply (Forall_inv_tail (Hc s0)).
Qed.

Definition three_nodes : Co TreeManager unit :=
  AsyncManager.on_storage ZKMetastoreStorage.setup;;
  co_call (CallRegisterBroker (py "b1") (py "127.0.0.1") 9092);;
  co_call (CallRegisterBroker (py "b2") (py "127.0.0.1") 9093);;
  co_call (CallRegisterBroker (py "b3") (py "127.0.0.1") 9094);;
  co_call (CallRegisterTopic (py "orders"));;
  mret tt.
Definition placed_manager : result unit * TreeManager := run three_nodes (MetastoreManager.new_manager 2 ∅).

(** The loss of [b2] is noticed, and before its call writes what it read the whole call
    for [b3] runs. *)
Definition overlap_moves : list nat := repeat 1%nat 16 ++ repeat 0%nat 60 ++ repeat 1%nat 60.
Definition losses : list (Co TreeManager unit) :=
  [co_call (CallDeregisterBroker (py "b3"));; mret tt; co_call (CallDeregisterBroker (py "b2"));; mret tt].
Definition overlap (m : TreeManager) := fold_left play overlap_moves (fold_left start losses ([], m)).

Lemma overlap_run m : failover_run ([], m) (overlap m).
Proof. etrans; [apply starts_run; intros s; by repeat constructor|apply plays_run]. Qed.

Definition outcome_of {S A} (c : Co S A) : option (result A) :=
  match c with Done r => Some r | _ => None end.

(** What is left of it: how the calls before and the two calls ended, the nodes of the
    two brokers and the leader of the topic. *)
Definition overlap_facts :=
  let '(r, m) := placed_manager in
  let '(ts, m') := overlap m in
  (r, outcome_of <$> ts, (run (co_call (CallGetNode (py "b3"))) m').1, (run (co_call (CallGetNode (py "b2"))) m').1,
   match (run (co_call (CallGetTopic (py "orders"))) m').1 with Ok (Some t) => Some (leader_id t) | _ => None end).

Lemma overlap_computed :
  overlap_facts = (Ok tt, [Some (Ok tt); Some (Ok tt)], Ok None, Ok None, Some (py "b3")).
Proof. vm_compute. reflexivity. Qed.

(** C23: overlapping failovers lose one of them.  Over ZooKeeper the call that deregisters a
    broker is suspended between reading the topics and writing them, and nothing locks
    them meanwhile.  Two brokers are lost at once: both calls end without an error,
    neither broker is registered any more, and the topic is led by one of them, since
    what the first call wrote is overwritten with what the second one had read. *)
Theorem failovers_overlap :
  ∃ m, run three_nodes (MetastoreManager.new_manager 2 ∅) = (Ok tt, m) ∧
  ∃ ts m', failover_run ([], m) (ts, m') ∧ outcome_of <$> ts = [Some (Ok tt); Some (Ok tt)] ∧
    (run (co_call (CallGetNode (py "b3"))) m').1 = Ok None ∧
    (run (co_call (CallGetNode (py "b2"))) m').1 = Ok None ∧
    ∃ t, (run (co_call (CallGetTopic (py "orders"))) m').1 = Ok (Some t) ∧ leader_id t = py "b3".
Proof.
  pose proof overlap_computed as E. unfold overlap_facts, placed_manager in E.
  destruct (run three_nodes _) as [r m]. pose proof (overlap_run m) as Hrun.
  destruct (overlap m) as [ts m'].
  destruct (run (co_call (CallGetTopic _)) m').1 as [[t|]|] eqn:Ht; [|discriminate E..]. injection E as -> Hts H3 H2 Hl.
  exists m. split; [done|]. exists ts, m'. split_and!; try done. by exists t.
Qed.

(** A controller whose brokers registered, over both storages. *)
Definition placing_broker : manager_call BrokerNode := CallRegisterBroker (py "b1") (py "127.0.0.1") 9092.
Lemma manager_calls_atomic_witness :
  (∀ m : TreeManager, run (co_call placing_broker) m = m_call placing_broker m) ∧
  (resume (co_call placing_broker) (MetastoreManager.new_manager 2 MetastoreStorage.new_storage)).1 =
    Done (Ok (mkBrokerNode (py "b1") (py "127.0.0.1") 9092)).
Proof.
  destruct (manager_calls_atomic placing_broker) as [Hzk Hmemory]. split.
  - intros m. apply Hzk. exact zk_agrees.
  - rewrite Hmemory. vm_compute. reflexivity.
Defined.
