(* ===== verification/AsyncSafety.v ===== *)
(** * Registrations that overlap

    The calls of the manager that register brokers and topics over ZooKeeper, whatever
    the interleaving. *)
From Stdlib Require Import String.
From stdpp Require Import relations fin_maps fin_map_dom.
From S2P Require Import Prelude Coroutine PyData PyDict Json JsonFacts Md5 Ring RingFacts Metastore StorageFacts RingTheorems ManagerFacts Zk ZkFacts ZkTheorems AsyncManager AsyncTheorems.

(** ** The tree *)

Section tree.
Context {K : Type} `{KazooLaws K} (count : Z).
Implicit Types (k : K) (N : gmap (list Z) BrokerNode) (T : gmap (list Z) TopicMetadata).

Lemma raw_of_inj `{ZkRecordLaws A} (a b : A) : storable a → storable b → raw_of a = raw_of b → a = b.
Proof.
  intros Ha Hb E. pose proof Ha as (_ & Ja & _). pose proof Hb as (_ & Jb & _).
  destruct (storable_raw a Ha) as [Ra _], (storable_raw b Hb) as [Rb _].
  destruct (json_bytes_value _ _ Ja Ra) as [Va _], (json_bytes_value _ _ Jb Rb) as [Vb _].
  rewrite E, Vb in Va. injection Va as Ed. pose proof (zr_read_dict a) as Za. rewrite <-Ed, zr_read_dict in Za. congruence.
Qed.

Lemma table_unique `{ZkRecordLaws A} k (f g : gmap (list Z) A) : table k f → table k g → f = g.
Proof.
  intros Hf Hg. apply map_eq. intros n. destruct (f !! n) as [a|] eqn:Ef, (g !! n) as [b|] eqn:Eg; [| | |done].
  - destruct (tb_records _ _ Hf n a Ef) as [<- Ha], (tb_records _ _ Hg _ b Eg) as [Eb Hb]. f_equal.
    apply raw_of_inj; [done..|]. pose proof Ha as [Hn _]. pose proof (tb_data _ _ Hf _ Hn) as Df.
    rewrite (tb_data _ _ Hg _ Hn), Ef, Eg in Df. by injection Df.
  - destruct (tb_records _ _ Hf n a Ef) as [<- Ha]. pose proof Ha as [Hn _]. pose proof (tb_data _ _ Hf _ Hn) as Df.
    by rewrite (tb_data _ _ Hg _ Hn), Ef, Eg in Df.
  - destruct (tb_records _ _ Hg n b Eg) as [<- Hb]. pose proof Hb as [Hn _]. pose proof (tb_data _ _ Hf _ Hn) as Df.
    by rewrite (tb_data _ _ Hg _ Hn), Ef, Eg in Df.
Qed.

Lemma holds_unique k N T N' T' : holds k N T → holds k N' T' → N = N' ∧ T = T'.
Proof. intros [_ ? ?] [_ ? ?]. split; by eapply table_unique. Qed.

(** The replicas of a topic are different brokers that have a node. *)
Record placed_on N (t : TopicMetadata) : Prop := {
  po_nodup : NoDup (replica_list t);
  po_nodes n : n ∈ replica_list t → n ∈ dom N;
  po_count : zlen (replica_list t) <= count }.

Definition sound k : Prop := ∃ N T, holds k N T ∧ ∀ n t, T !! n = Some t → placed_on N t.

(** Topics stay as they are, and nodes stay. *)
Definition grows k k' : Prop :=
  ∀ N T, holds k N T → ∃ N' T', holds k' N' T' ∧ T ⊆ T' ∧ dom N ⊆ dom N'.

#[export] Instance grows_preorder : PreOrder grows.
Proof.
  split; [intros k N T Hh; by exists N, T|]. intros k k' k'' H1 H2 N T Hh.
  destruct (H1 N T Hh) as (N1 & T1 & Hh1 & ? & ?), (H2 N1 T1 Hh1) as (N2 & T2 & ? & ? & ?).
  exists N2, T2. split; [done|]. split; by etrans.
Qed.

Lemma placed_on_grows N N' t : dom N ⊆ dom N' → placed_on N t → placed_on N' t.
Proof. intros HN [H1 H2 H3]. split; [done| |done]. intros n Hn. by apply HN, H2. Qed.

Definition stored k (t : TopicMetadata) : Prop := ∀ N T, holds k N T → T !! topic t = Some t.
Definition has_node k (n : list Z) : Prop := ∀ N T, holds k N T → n ∈ dom N.

Lemma stored_grows k k' t : sound k → grows k k' → stored k t → stored k' t.
Proof.
  intros (N & T & Hh & _) Hg Hs N2 T2 Hh2. destruct (Hg N T Hh) as (N' & T' & Hh' & HT & _).
  destruct (holds_unique _ _ _ _ _ Hh2 Hh') as [-> ->]. eapply lookup_weaken; [|exact HT]. by apply (Hs N).
Qed.
Lemma has_node_grows k k' n : sound k → grows k k' → has_node k n → has_node k' n.
Proof.
  intros (N & T & Hh & _) Hg Hs N2 T2 Hh2. destruct (Hg N T Hh) as (N' & T' & Hh' & _ & HN).
  destruct (holds_unique _ _ _ _ _ Hh2 Hh') as [-> ->]. apply HN. by apply (Hs N T).
Qed.

(** ** Single calls, interrupted *)

Abbreviation twp := (wp sound grows grows).

Lemma wp_to_thread {A} (m : M K A) k0 k Q :
  sound k → grows k0 k →
  (∀ k1, sound k1 → grows k k1 → sound (m k1).2 ∧ grows k1 (m k1).2 ∧
     ∀ k3, sound k3 → grows (m k1).2 k3 → Q k3 (m k1).1 k3) →
  twp k0 (ZKClient.to_thread m) k Q.
Proof.
  intros Hk Hg Hm. cbn. split_and!; [done..|]. intros k1 Hk1 Hg1 _. destruct (Hm k1 Hk1 Hg1) as (Hs & Hg2 & HQ).
  split_and!; [done..|]. intros k3 Hk3 Hg3 _. by apply HQ.
Qed.

(** Reading a topic. *)
Lemma wp_get_topic t k0 k :
  sound k → grows k0 k → name_ok t →
  twp k0 (ZKMetastoreStorage.get_topic t) k
    (λ k1 r k2, k1 = k2 ∧ sound k2 ∧ grows k k2 ∧
       ∃ o, r = Ok o ∧ ∀ x, o = Some x → topic x = t ∧ stored k2 x).
Proof.
  intros Hk Hg Ht. unfold ZKMetastoreStorage.get_topic, ZKClient.get. apply wp_bind, wp_catch, wp_bind.
  apply wp_to_thread; [done..|]. intros k1 Hk1 Hg1.
  assert (zpath (child ZKMetastoreStorage._TOPICS_PATH t)) as Hp
    by (apply zpath_child; [exact (zr_path_ok (A := TopicMetadata))|done]).
  destruct Hk1 as (N & T & Hh & Hpl). pose proof Hh as [Hk1 _ HT]. rewrite (kz_get_ok k1 _ Hk1 Hp). cbn [fst snd].
  split; [by exists N, T|]. split; [done|]. intros k3 Hk3 Hg3.
  pose proof (tb_data _ _ HT t Ht) as Ed. cbn [zr_path topic_record] in Ed. rewrite Ed.
  assert (grows k k3) as Hgk by by etrans.
  destruct (T !! t) as [x|] eqn:Et; cbn [fmap option_fmap option_map or_raise].
  - destruct (tb_records _ _ HT t x Et) as [Hx Hs]. cbn [zr_key topic_record] in Hx.
    destruct (storable_raw x Hs) as [Hr _]. destruct Hs as (_ & Hj & _).
    destruct (json_bytes_value _ _ Hj Hr) as [Hv Hne]. rewrite bool_decide_eq_false_2 by done.
    rewrite wp_atomic. cbn [lift fst snd]. rewrite Hv. rewrite zr_truthy, wp_atomic. cbn [lift fst snd].
    pose proof (zr_read_dict x) as Hx'. cbn [zr_read topic_record] in Hx'. rewrite Hx'. split_and!; [done..|]. exists (Some x). split; [done|].
    intros y [= <-]. split; [done|]. eapply (stored_grows k1); [by exists N, T|done|]. intros N2 T2 Hh2.
    destruct (holds_unique _ _ _ _ _ Hh2 Hh) as [-> ->]. by rewrite Hx.
  - rewrite bool_decide_eq_true_2 by done. cbn. split_and!; [done..|]. by exists None.
Qed.

Lemma holds_add_topic k k' N T t : holds k N T → kz_ok k' → storable t →
  kz_tree k' = <[child (zr_path (A := TopicMetadata)) (topic t) := raw_of t]> (kz_tree k) → holds k' N (<[topic t := t]> T).
Proof.
  intros Hh Hk' Ht E. pose proof Hh as [Hk _ HT].
  eapply holds_topics; [exact Hh|done|exact (table_insert k k' T t HT Ht E)|]. exists (topic t). by eapply insert_elsewhere.
Qed.
Lemma holds_add_node k k' N T x : holds k N T → kz_ok k' → storable x →
  kz_tree k' = <[child (zr_path (A := BrokerNode)) (node_id x) := raw_of x]> (kz_tree k) → holds k' (<[node_id x := x]> N) T.
Proof.
  intros Hh Hk' Hx E. pose proof Hh as [Hk HN _].
  eapply holds_nodes; [exact Hh|done|exact (table_insert k k' N x HN Hx E)|]. exists (node_id x). by eapply insert_elsewhere.
Qed.

Lemma sound_of k N T k' N' T' : holds k N T → holds k' N' T' → T ⊆ T' → dom N ⊆ dom N' →
  (∀ n t, T' !! n = Some t → placed_on N' t) → sound k' ∧ grows k k'.
Proof.
  intros Hh Hh' HT HN Hp. split; [by exists N', T'|]. intros N1 T1 Hh1. destruct (holds_unique _ _ _ _ _ Hh1 Hh) as [-> ->].
  by exists N', T'.
Qed.

(** Creating a topic: it is there afterwards, as this one or as that of another call. *)
Lemma wp_add_topic t k0 k :
  sound k → grows k0 k → storable t → NoDup (replica_list t) → zlen (replica_list t) <= count →
  (∀ n, n ∈ replica_list t → has_node k n) →
  twp k0 (ZKMetastoreStorage.add_topic t) k
    (λ k1 r k2, k1 = k2 ∧ sound k2 ∧ grows k k2 ∧
       (r = Ok tt ∧ stored k2 t ∨ r = Raise ValueError ∧ ∃ x, topic x = topic t ∧ stored k2 x)).
Proof.
  intros Hk Hg Ht Hnd Hc Hn. unfold ZKMetastoreStorage.add_topic, ZKClient.create. apply wp_catch, wp_bind, wp_bind.
  rewrite wp_atomic. destruct (storable_raw t Ht) as [Hr Hl]. pose proof Ht as [Hname _].
  cbn [lift fst snd]. change (_topic_to_dict t) with (zr_dict t). rewrite Hr. cbv iota.
  apply wp_to_thread; [done..|]. intros k1 Hk1s Hg1. pose proof Hk1s as (N & T & Hh & Hpl). pose proof Hh as [Hk1 _ HT].
  pose proof (kz_create_ok k1 _ (topic t) _ false Hk1 (zr_path_ok (A := TopicMetadata)) Hname (tb_base _ _ HT) Hl) as Hcr.
  rewrite (tb_data _ _ HT (topic t) Hname) in Hcr. change (child ZKMetastoreStorage._TOPICS_PATH (topic t)) with
    (child (zr_path (A := TopicMetadata)) (topic t)).
  destruct (T !! topic t) as [x|] eqn:Et; cbn [fmap option_fmap option_map] in Hcr.
  - rewrite Hcr. cbn [fst snd]. split; [done|]. split; [done|]. intros k3 Hk3 Hg3. rewrite bool_decide_eq_true_2 by done.
    cbn. split_and!; [done..|by etrans|]. right. split; [done|]. destruct (tb_records _ _ HT _ x Et) as [Hx _].
    cbn [zr_key topic_record] in Hx. exists x. split; [done|]. eapply (stored_grows k1); [done|done|]. intros N2 T2 Hh2.
    destruct (holds_unique _ _ _ _ _ Hh2 Hh) as [-> ->]. by rewrite Hx.
  - destruct Hcr as (k' & E & Hk' & Etr). rewrite E. cbn [fst snd].
    pose proof (holds_add_topic k1 k' N T t Hh Hk' Ht Etr) as Hh'.
    destruct (sound_of k1 N T k' N (<[topic t := t]> T) Hh Hh') as [Hs Hg']; [by apply insert_subseteq|done| |].
    { intros n x [[<- <-]|[_ Hx]]%lookup_insert_Some; [|by eapply Hpl]. split; [done| |done]. intros m Hm.
      by apply (has_node_grows k k1 m Hk Hg1 (Hn m Hm) N T). }
    split; [done|]. split; [done|]. intros k3 Hk3 Hg3. cbn. split_and!; [done..|by repeat (etrans; [eassumption|])|].
    left. split; [done|]. eapply (stored_grows k'); [done|done|]. intros N2 T2 Hh2.
    destruct (holds_unique _ _ _ _ _ Hh2 Hh') as [-> ->]. by rewrite lookup_insert_eq.
Qed.

(** Adding a node. *)
Lemma wp_add_node x k0 k :
  sound k → grows k0 k → storable x →
  twp k0 (ZKMetastoreStorage.add_node x) k
    (λ k1 r k2, k1 = k2 ∧ sound k2 ∧ grows k k2 ∧ r = Ok tt ∧ has_node k2 (node_id x)).
Proof.
  intros Hk Hg Hx. unfold ZKMetastoreStorage.add_node, ZKClient.create, ZKClient.set. cbv zeta. apply wp_catch, wp_bind, wp_bind.
  rewrite wp_atomic. destruct (storable_raw x Hx) as [Hr Hl]. pose proof Hx as [Hname _].
  cbn [lift fst snd]. change (_node_to_dict x) with (zr_dict x). rewrite Hr. cbv iota.
  change (child ZKMetastoreStorage._BROKERS_PATH (node_id x)) with (child (zr_path (A := BrokerNode)) (node_id x)).
  assert (∀ k1 k' N T, holds k1 N T → (∀ n t, T !! n = Some t → placed_on N t) → kz_ok k' →
    kz_tree k' = <[child (zr_path (A := BrokerNode)) (node_id x) := raw_of x]> (kz_tree k1) →
    sound k' ∧ grows k1 k' ∧ ∀ k3, grows k' k3 → has_node k3 (node_id x)) as Hdone.
  { intros k1 k' N T Hh Hpl Hk' E. pose proof (holds_add_node k1 k' N T x Hh Hk' Hx E) as Hh'.
    assert (dom N ⊆ dom (<[node_id x := x]> N)) as HN by (rewrite dom_insert_L; set_solver).
    destruct (sound_of k1 N T k' _ T Hh Hh') as [Hs Hg']; [done|done| |].
    { intros n t Ht. eapply placed_on_grows; [exact HN|by eapply Hpl]. }
    split; [done|]. split; [done|]. intros k3 Hg3. eapply (has_node_grows k'); [done|done|]. intros N2 T2 Hh2.
    destruct (holds_unique _ _ _ _ _ Hh2 Hh') as [-> ->]. rewrite dom_insert_L. set_solver. }
  apply wp_to_thread; [done..|]. intros k1 Hk1s Hg1. pose proof Hk1s as (N & T & Hh & Hpl). pose proof Hh as [Hk1 HN _].
  pose proof (kz_create_ok k1 _ (node_id x) _ false Hk1 (zr_path_ok (A := BrokerNode)) Hname (tb_base _ _ HN) Hl) as Hcr.
  rewrite (tb_data _ _ HN (node_id x) Hname) in Hcr.
  destruct (N !! node_id x) as [y|] eqn:Ey; cbn [fmap option_fmap option_map] in Hcr.
  - rewrite Hcr. cbn [fst snd]. split; [done|]. split; [done|]. intros k3 Hk3 Hg3. rewrite bool_decide_eq_true_2 by done.
    apply wp_bind. rewrite wp_atomic. cbn [lift fst snd].
    apply wp_to_thread; [done|reflexivity|]. intros k4 Hk4s Hg4.
    assert (has_node k4 (node_id x)) as Hnode.
    { eapply (has_node_grows k1); [done|by etrans|]. intros N2 T2 Hh2.
      destruct (holds_unique _ _ _ _ _ Hh2 Hh) as [-> ->]. by apply elem_of_dom; eexists. }
    destruct Hk4s as (N4 & T4 & Hh4 & Hpl4). pose proof Hh4 as [Hk4 HN4 _].
    pose proof (kz_set_ok k4 (child (zr_path (A := BrokerNode)) (node_id x)) (raw_of x) Hk4) as Hset.
    specialize (Hset ltac:(apply zpath_child; [apply zr_path_ok|done]) Hl).
    rewrite (tb_data _ _ HN4 (node_id x) Hname) in Hset. destruct (proj1 (elem_of_dom _ _) (Hnode N4 T4 Hh4)) as [z Hz]. rewrite Hz in Hset.
    cbn [fmap option_fmap option_map] in Hset. destruct Hset as (k' & E & Hk' & Etr). rewrite E. cbn [fst snd].
    destruct (Hdone k4 k' N4 T4 Hh4 Hpl4 Hk' Etr) as (Hs & Hg' & Hnode'). split; [done|]. split; [done|].
    intros k5 Hk5 Hg5. split_and!; [done..| |done|by apply Hnode']. by repeat (etrans; [eassumption|]).
  - destruct Hcr as (k' & E & Hk' & Etr). rewrite E. cbn [fst snd].
    destruct (Hdone k1 k' N T Hh Hpl Hk' Etr) as (Hs & Hg' & Hnode'). split; [done|]. split; [done|].
    intros k3 Hk3 Hg3. cbn. split_and!; [done..| |done|by apply Hnode']. by repeat (etrans; [eassumption|]).
Qed.
End tree.

(** ** The calls of the manager *)

Section manager.
Context {K : Type} `{KazooLaws K} (brokers : list (list Z)) (count : Z).
Context (Hcf : collision_free _hash 50 brokers) (Hcount : 1 <= count).
Abbreviation Manager := (MetastoreManager.Manager K).
Implicit Types m : Manager.
Abbreviation storage := MetastoreManager.storage.
Abbreviation ring := MetastoreManager.ring.

(** The brokers on the ring have nodes. *)
Record manager_ok m : Prop := {
  mo_sound : sound count (storage m);
  mo_replicas : replicas (ring m) = 50%nat;
  mo_count : MetastoreManager.replicas_per_topic m = count;
  mo_ring : ∃ R : gset (list Z), rep (ring m) (owns _hash 50 R) ∧ R ⊆ list_to_set brokers ∧
    ∀ n, n ∈ R → has_node (storage m) n }.

Definition tree_later m m' : Prop := grows (storage m) (storage m').
#[export] Instance tree_later_preorder : PreOrder tree_later.
Proof. split; [intros m; unfold tree_later; reflexivity|]. intros ? ? ?. unfold tree_later. by etrans. Qed.

(** What ZooKeeper takes, whatever brokers are chosen. *)
Definition broker_allowed (x : BrokerNode) : Prop := node_id x ∈ brokers ∧ storable x.
Definition topic_allowed (t : list Z) : Prop :=
  name_ok t ∧ is_Ok (_hash t) ∧
  ∀ l, NoDup l → (∀ n, n ∈ l → n ∈ brokers) → zlen l <= count →
    storable (mkTopicMetadata t (default (py "") (head l)) l l 1).

Abbreviation mwp := (wp manager_ok tree_later tree_later).

Lemma on_storage_wp {A} (c : Co K A) m k (Q : Manager → result A → Manager → Prop) :
  manager_ok m →
  wp (sound count) grows grows (storage m) c k (λ k0 r k, ∀ m', manager_ok m' → storage m' = k0 →
    Q m' r (MetastoreManager.set_storage k m')) →
  mwp m (AsyncManager.on_storage c) (MetastoreManager.set_storage k m) Q.
Proof.
  intros Hm Hw. unfold AsyncManager.on_storage.
  eapply wp_mono; [|eapply (wp_zoom storage MetastoreManager.set_storage)
    with (I := sound count) (G := grows) (R := grows); [done|done|by intros []|apply mo_sound|done| |exact Hm|exact Hw]].
  - cbn. intros m0 r m1 (k1 & -> & Hm0 & HQ). by apply HQ.
  - intros m0 k0 [H1 H2 H3 (R & Hr & Hb & Hn)] Hk Hg. split; [|done]. split; [done..|]. exists R. split_and!; [done..|].
    intros n Hin. eapply has_node_grows; [exact H1|exact Hg|by apply Hn].
Qed.

(** A reply: the topic is stored as it says, or a reply of another call says how. *)
Definition reply_ok (k : K) (t : list Z) (r : result TopicMetadata) : Prop :=
  match r with
  | Ok x => topic x = t ∧ stored k x
  | Raise e => e = ValueError ∧ ∃ x, topic x = t ∧ stored k x
  end.
Lemma reply_ok_grows k k' t r : sound count k → grows k k' → reply_ok k t r → reply_ok k' t r.
Proof.
  intros Hk Hg. destruct r as [x|e]; cbn.
  - intros [? ?]. split; [done|]. by eapply stored_grows.
  - intros [? (x & ? & ?)]. split; [done|]. exists x. split; [done|]. by eapply stored_grows.
Qed.

Lemma set_storage_same m : MetastoreManager.set_storage (storage m) m = m.
Proof. by destruct m. Qed.

Lemma register_topic_wp t m :
  manager_ok m → topic_allowed t →
  mwp m (AsyncManager.register_topic t) m
    (λ m0 r m, manager_ok m ∧ tree_later m0 m ∧ reply_ok (storage m) t r).
Proof.
  intros Hm (Hn & [key Hk] & Hfit). unfold AsyncManager.register_topic. apply wp_bind.
  rewrite <-(set_storage_same m) at 2. apply on_storage_wp; [done|].
  eapply wp_mono; [|apply wp_get_topic; [apply Hm|reflexivity|done]].
  intros k0 r k (-> & Hks & _ & o & -> & Ho) m1 Hm1 Ek. subst k; rewrite set_storage_same.
  destruct o as [x|].
  { cbn. split; [done|]. split; [reflexivity|]. by apply Ho. }
  apply wp_bind. rewrite wp_atomic. cbn [reads fst snd]. destruct Hm1 as [H1 H2 H3 (R & Hr & Hb & Hnodes)].
  destruct (get_replicas_nearest _hash (ring m1) _ t key (MetastoreManager.replicas_per_topic m1) Hr (owns_word 50 R) Hk
    (_hash_word _ _ Hk)) as (l & -> & [N1 _ N3 _ N5]). rewrite H3 in N5.
  assert (∀ n, n ∈ l → n ∈ R) as Hl by (by intros n [k' [? _]]%N3).
  assert (zlen l <= count) as Hlc by lia.
  apply wp_bind. rewrite <-(set_storage_same m1) at 2. apply on_storage_wp; [split; eauto|].
  eapply wp_mono; [|apply wp_add_topic; [exact H1|reflexivity| |exact N1|exact Hlc|by intros n Hin%Hl; apply Hnodes]].
  - intros k0 r k' (-> & Hks' & _ & Hres) m2 Hm2 Ek2. subst k'; rewrite set_storage_same. destruct Hres as [[-> Hst]|[-> (x & Hx & Hst)]]; cbn.
    + split; [done|]. split; [reflexivity|]. by split.
    + split; [done|]. split; [reflexivity|]. split; [done|]. by exists x.
  - apply Hfit; [done| |done]. intros n Hin%Hl%Hb. by apply elem_of_list_to_set in Hin.
Qed.

Lemma register_broker_wp id host port m :
  manager_ok m → broker_allowed (mkBrokerNode id host port) →
  mwp m (AsyncManager.register_broker id host port) m (λ m0 _ m, manager_ok m ∧ tree_later m0 m).
Proof.
  intros Hm [Hid Hx]. unfold AsyncManager.register_broker. cbv zeta. apply wp_bind.
  rewrite <-(set_storage_same m) at 2. apply on_storage_wp; [done|].
  eapply wp_mono; [|apply wp_add_node; [apply Hm|reflexivity|exact Hx]].
  intros k0 r k (-> & _ & _ & -> & Hnode) m1 Hm1 Ek. subst k; rewrite set_storage_same.
  destruct Hm1 as [H1 H2 H3 (R & Hr & Hb & Hnodes)]. apply wp_bind. rewrite wp_atomic. unfold MetastoreManager.on_ring.
  destruct (add_node_rep _hash 50 brokers Hcf R id (ring m1) Hb Hid H2 Hr) as (r' & E & HR' & Hr').
  cbn [zoom]. unfold zoom. rewrite E. cbn. split; [|exact (reflexivity (R := grows) (storage m1))].
  split; [done..|]. exists ({[id]} ∪ R). split; [done|]. split.
  - apply union_subseteq. split; [|done]. apply singleton_subseteq_l. by apply elem_of_list_to_set.
  - intros n [->%elem_of_singleton|Hin]%elem_of_union; [done|by apply Hnodes].
Qed.
End manager.

(** ** Any number of registrations *)

(** The controller, with what the calls for topics returned. *)
Record Desk (K : Type) := mkDesk {
  desk : MetastoreManager.Manager K;
  answers : list (list Z * result TopicMetadata) }.
#[global] Arguments mkDesk {K}.
#[global] Arguments desk {K}.
#[global] Arguments answers {K}.

Section registrations.
Context {K : Type} `{KazooLaws K} (brokers : list (list Z)) (count : Z).
Context (Hcf : collision_free _hash 50 brokers) (Hcount : 1 <= count).
Implicit Types d : Desk K.

Definition set_desk (m : MetastoreManager.Manager K) d : Desk K := mkDesk m (answers d).
Definition on_desk {A} (c : Co (MetastoreManager.Manager K) A) : Co (Desk K) A := co_zoom desk set_desk c.
Definition answer (t : list Z) (r : result TopicMetadata) : Co (Desk K) unit :=
  atomic (λ d, (Ok tt, mkDesk (desk d) (answers d ++ [(t, r)]))).

Inductive registration d : Co (Desk K) unit → Prop :=
| registers_broker id host port : broker_allowed brokers (mkBrokerNode id host port) →
    registration d (on_desk (AsyncManager.register_broker id host port);; mret tt)
| registers_topic t : topic_allowed brokers count t →
    registration d (r ← co_catch (x ← on_desk (AsyncManager.register_topic t); mret (Ok x)) (λ e, Some (mret (Raise e)));
                    answer t r).

Definition registration_run := rtc (sched registration (λ _ _ : Desk K, False)).

Record desk_ok d : Prop := {
  de_manager : manager_ok brokers count (desk d);
  de_answers : Forall (λ a, reply_ok (MetastoreManager.storage (desk d)) a.1 a.2) (answers d) }.
Definition desk_later d d' : Prop := tree_later (desk d) (desk d').
#[export] Instance desk_later_preorder : PreOrder desk_later.
Proof. split; [intros d; unfold desk_later; reflexivity|]. intros ? ? ?. unfold desk_later. by etrans. Qed.

Lemma on_desk_wp {A} (c : Co (MetastoreManager.Manager K) A) d Q :
  desk_ok d →
  wp (manager_ok brokers count) tree_later tree_later (desk d) c (desk d)
    (λ m0 r m, ∀ d0, desk_ok d0 → desk d0 = m0 → Q d0 r (set_desk m d0)) →
  wp desk_ok desk_later desk_later d (on_desk c) d Q.
Proof.
  intros Hd Hw. assert (set_desk (desk d) d = d) as Es by by destruct d. rewrite <-Es at 2.
  eapply wp_mono; [|eapply (wp_zoom desk set_desk) with (I := manager_ok brokers count) (G := tree_later) (R := tree_later);
    [done|done|by intros []|apply de_manager|done| |exact Hd|exact Hw]].
  - cbn. intros d0 r d1 (m & -> & Hd0 & HQ). by apply HQ.
  - intros d0 m [Hm Ha] Hm' Hl. split; [|done]. split; [done|]. eapply Forall_impl; [exact Ha|]. intros a.
    apply (reply_ok_grows count); [apply Hm|done].
Qed.

Lemma desk_ok_grows d m : desk_ok d → manager_ok brokers count m → tree_later (desk d) m → desk_ok (set_desk m d).
Proof.
  intros [Hm Ha] Hm' Hl. split; [done|]. eapply Forall_impl; [exact Ha|]. intros a.
  apply (reply_ok_grows count); [apply Hm|done].
Qed.

Lemma registration_ok d c : desk_ok d → registration d c →
  wp desk_ok desk_later desk_later d c d (λ d0 _ d, desk_ok d ∧ desk_later d0 d).
Proof.
  intros Hd [id host port Hb|t Ht]; apply wp_bind.
  - apply on_desk_wp; [done|].
    eapply wp_mono; [|by apply (register_broker_wp brokers count); [..|apply Hd|]]. cbn. intros m0 r m [Hm Hl] d0 Hd0 <-.
    assert (desk_ok (set_desk m d0) ∧ desk_later d0 (set_desk m d0)) by (split; [by apply desk_ok_grows|done]).
    by destruct r.
  - apply wp_catch, wp_bind, on_desk_wp; [done|].
    eapply wp_mono; [|by apply (register_topic_wp brokers count); [..|apply Hd|]]. cbn. intros m0 r m (Hm & Hl & Hr) d0 Hd0 <-.
    pose proof (desk_ok_grows d0 m Hd0 Hm Hl) as [_ Ha].
    destruct r; cbn; (split; [split; [done|]; apply Forall_app; split; [done|]; by apply Forall_singleton|done]).
Qed.

Lemma registrations_ok d ts d' : desk_ok d → registration_run ([], d) (ts, d') → desk_ok d' ∧ desk_later d d'.
Proof.
  intros Hd Hrun. destruct (sched_rtc_ok desk_ok desk_later desk_later registration (λ _ _, False) (λ _ _ Hl, Hl)
    registration_ok (λ _ _ _ (Hf : False), False_ind _ Hf) _ _ Hrun) as [[Hd' _] Hl]; [by split|done].
Qed.

(** C21: registrations over ZooKeeper may overlap.  A controller starts over a tree whose
    topics have nodes for all of their replicas.  However its calls that register
    brokers and topics interleave afterwards, at every point the topics that were
    stored are stored unchanged, every topic is on at most [count] different brokers
    that all have a node, and each call for a topic that has returned gave what is
    stored for the topic, the same to all callers, or raised [ValueError] because
    another call was faster. *)
Theorem overlapping_registrations k N T ts d :
  holds k N T → (∀ n t, T !! n = Some t → placed_on count N t) →
  registration_run ([], mkDesk (MetastoreManager.new_manager count k) []) (ts, d) →
  ∃ N' T', holds (MetastoreManager.storage (desk d)) N' T' ∧ T ⊆ T' ∧ dom N ⊆ dom N' ∧
    (∀ n t, T' !! n = Some t → placed_on count N' t) ∧
    ∀ t r, (t, r) ∈ answers d →
      match r with Ok x => T' !! t = Some x | Raise e => e = ValueError ∧ is_Some (T' !! t) end.
Proof.
  intros Hh Hp Hrun. edestruct registrations_ok as [Hd Hl]; [|exact Hrun|].
  { split; [|constructor]. split; [by exists N, T|done|done|]. exists ∅. split_and!; [apply new_ring_owns|set_solver|set_solver]. }
  destruct (mo_sound _ _ _ (de_manager _ Hd)) as (N' & T' & Hh' & Hp').
  destruct (Hl N T Hh) as (N2 & T2 & Hh2 & HT & HN). destruct (holds_unique _ _ _ _ _ Hh2 Hh') as [-> ->].
  exists N', T'. split_and!; [done..|]. intros t r Hin. pose proof (proj1 (Forall_forall _ _) (de_answers _ Hd) _ Hin) as Hr.
  destruct r as [x|e]; cbn in Hr.
  - destruct Hr as [<- Hr]. by eapply Hr.
  - destruct Hr as [-> (x & <- & Hr)]. split; [done|]. exists x. by eapply Hr.
Qed.
End registrations.

(** Two brokers, and two callers that want the same topic at the same time. *)
Abbreviation TreeDesk := (Desk Tree).
Definition two_brokers : list (list Z) := [py "b1"; py "b2"].
Definition broker_at (id : pystr) (port : Z) : BrokerNode := mkBrokerNode id (py "127.0.0.1") port.
Definition wanting (t : pystr) : Co TreeDesk unit :=
  r ← co_catch (x ← on_desk (AsyncManager.register_topic t); mret (Ok x)) (λ e, Some (mret (Raise e)));
  answer t r.
Definition registering (x : BrokerNode) : Co TreeDesk unit :=
  on_desk (AsyncManager.register_broker (node_id x) (host x) (port x));; mret tt.
Definition arrivals : list (Co TreeDesk unit) :=
  [registering (broker_at (py "b1") 9092); registering (broker_at (py "b2") 9093); wanting (py "orders"); wanting (py "orders")].
Definition arrival_moves : list nat := repeat 0%nat 30 ++ repeat 1%nat 30 ++ mjoin (repeat [2%nat; 3%nat] 30).
Definition crowded (k : Tree) : list (Co TreeDesk unit) * TreeDesk :=
  fold_left play arrival_moves
    (fold_left start arrivals ([], mkDesk (MetastoreManager.new_manager 2 k) [])).

Lemma two_brokers_free : collision_free _hash 50 two_brokers.
Proof. apply (bool_decide_unpack _). vm_compute. exact I. Qed.
Lemma arriving_broker id port : id ∈ two_brokers → node_fits (broker_at id port) = true → broker_allowed two_brokers (broker_at id port).
Proof. intros ? ?. split; [done|by apply node_fits_ok]. Qed.

Definition placements : list (list (list Z)) :=
  [] :: ((λ a, [a]) <$> two_brokers) ++ (a ← two_brokers; (λ b, [a; b]) <$> two_brokers).
Lemma placements_all l : (∀ n, n ∈ l → n ∈ two_brokers) → zlen l <= 2 → l ∈ placements.
Proof.
  intros Hl Hlen. destruct l as [|a [|b [|c l]]]; [left| | |cbn in Hlen; lia].
  - right. apply elem_of_app. left. apply list_elem_of_fmap. exists a. split; [done|]. apply Hl. left.
  - right. apply elem_of_app. right. apply list_elem_of_bind. exists a. split; [|apply Hl; left].
    apply list_elem_of_fmap. exists b. split; [done|]. apply Hl. right. left.
Qed.

Lemma orders_allowed : topic_allowed two_brokers 2 (py "orders").
Proof.
  split; [done|]. split; [eexists; vm_compute; reflexivity|]. intros l _ Hl Hlen. apply topic_fits_ok.
  pose proof (placements_all l Hl Hlen) as Hin. clear Hl Hlen. revert l Hin. apply Forall_forall.
  by repeat (constructor; [vm_compute; reflexivity|]).
Qed.

Lemma crowded_run k : registration_run two_brokers 2 ([], mkDesk (MetastoreManager.new_manager 2 k) []) (crowded k).
Proof.
  etrans; [|apply plays_run]. apply starts_run. intros d. constructor; [|constructor; [|constructor; [|constructor; [|constructor]]]].
  - apply registers_broker, arriving_broker; [left|vm_compute; reflexivity].
  - apply registers_broker, arriving_broker; [right; left|vm_compute; reflexivity].
  - apply registers_topic, orders_allowed.
  - apply registers_topic, orders_allowed.
Qed.

Definition crowded_tree : Tree := (run ZKMetastoreStorage.setup (∅ : Tree)).2.
Lemma crowded_computed :
  (λ a, match a.2 with Ok x => Ok (replica_list x) | Raise e => Raise e end) <$> answers (crowded crowded_tree).2 =
    [Ok [py "b2"; py "b1"]; Raise ValueError] ∧
  fst <$> answers (crowded crowded_tree).2 = [py "orders"; py "orders"].
Proof. split; vm_compute; reflexivity. Qed.

(** One of the two is told so, the other one is refused. *)
Lemma overlapping_registrations_witness :
  ∃ N T x, holds (MetastoreManager.storage (desk (crowded crowded_tree).2)) N T ∧ T !! py "orders" = Some x ∧
    replica_list x = [py "b2"; py "b1"] ∧ placed_on 2 N x.
Proof.
  destruct (@setup_run Tree tree_kazoo tree_laws ∅ I) as (k & E & Hh & _). specialize (Hh eq_refl).
  assert (crowded_tree = k) as Ek by (unfold crowded_tree; by rewrite E). rewrite <-Ek in Hh.
  pose proof (crowded_run crowded_tree) as Hrun. pose proof crowded_computed as [Hc Hn].
  destruct (crowded crowded_tree) as [ts d].
  destruct (@overlapping_registrations Tree tree_kazoo tree_laws two_brokers 2 two_brokers_free ltac:(lia) crowded_tree ∅ ∅ ts d Hh)
    as (N & T & Hh' & _ & _ & Hp & Ha); [by intros n t ?%lookup_empty_Some|exact Hrun|].
  cbn [snd] in Hc, Hn. destruct (answers d) as [|[t [x|e]] l]; [discriminate Hc| |discriminate Hc].
  injection Hc as Hx _. injection Hn as -> _. exists N, T, x. pose proof (Ha _ (Ok x) ltac:(left)) as Hx'.
  split; [exact Hh'|]. split; [exact Hx'|]. split; [exact Hx|]. exact (Hp _ _ Hx').
Defined.
