(* ===== verification/Ensemble.v ===== *)
(** * Controllers that share ZooKeeper

    The life of a [ControllerServer] of [server.py]: [start], the election with its
    watch, and [close], with what [zk/client.py] does about the session.  A controller
    that is configured with ZooKeeper replaces the storage in memory by that in
    ZooKeeper when it starts.  A call of the manager is atomic, as in [Controller]. *)
From Stdlib Require Import String.
From stdpp Require Import vector.
From S2P Require Import Prelude Coroutine PyData PyDict Messages Framer Encoder Parser Metastore Controller Json Zk.

(** ** Sessions *)

(** What kazoo offers to the clients of one ZooKeeper: the calls on znodes, [start],
    [stop] and [close], and [get] and [exists] with a watch.  A client is named by a
    number. *)
Class EnsembleApi (E : Type) := {
  en_client : nat → KazooApi E;
  en_start : nat → M E unit;
  en_stop : nat → M E unit;
  en_close : nat → M E unit;
  en_watch_data : nat → pystr → M E bytes;
  en_watch_exists : nat → pystr → M E bool }.

Module ZKSession.
Section session.
Context {E : Type} `{EnsembleApi E} (me : nat).

Definition connect : Co E unit := ZKClient.to_thread (en_start me).
(** [self._zk] has been set by [connect]. *)
Definition close : Co E unit := ZKClient.to_thread (en_stop me);; ZKClient.to_thread (en_close me).

(** These block the event loop; the callback is scheduled by another thread. *)
Definition watch_data (path : pystr) : M E unit := en_watch_data me path;; mret tt.
Definition watch_exists (path : pystr) : M E unit := en_watch_exists me path;; mret tt.
End session.
End ZKSession.

(** ** The storage of a controller *)

(** [self.manager.storage]: the storage in memory, or that in ZooKeeper. *)
Record Store (E : Type) := mkStore {
  memory : MetastoreStorage.Storage;
  ensemble : E;
  in_zookeeper : bool }.
Arguments mkStore {E}.
Arguments memory {E}.
Arguments ensemble {E}.
Arguments in_zookeeper {E}.

Definition set_memory {E} (m : MetastoreStorage.Storage) (s : Store E) : Store E := mkStore m (ensemble s) (in_zookeeper s).
Definition set_ensemble {E E'} (e : E') (s : Store E) : Store E' := mkStore (memory s) e (in_zookeeper s).

Definition on_store {E A} (m : M MetastoreStorage.Storage A) (z : M E A) : M (Store E) A := λ s,
  if in_zookeeper s then zoom ensemble set_ensemble z s else zoom memory set_memory m s.

Definition store_storage {E} `{EnsembleApi E} (me : nat) : StorageApi (Store E) :=
  let _ := en_client me in {|
  st_add_node x := on_store (st_add_node x) (st_add_node x);
  st_remove_node n := on_store (st_remove_node n) (st_remove_node n);
  st_get_node n := on_store (st_get_node n) (st_get_node n);
  st_get_all_nodes := on_store st_get_all_nodes st_get_all_nodes;
  st_add_topic t := on_store (st_add_topic t) (st_add_topic t);
  st_update_topic t := on_store (st_update_topic t) (st_update_topic t);
  st_remove_topic n := on_store (st_remove_topic n) (st_remove_topic n);
  st_get_topic n := on_store (st_get_topic n) (st_get_topic n);
  st_get_all_topics := on_store st_get_all_topics st_get_all_topics |}.

(** ** A controller *)

(** [listener] is [self.server] with whether it accepts connections, [zk] whether
    [self._zk] is set, and [heartbeats] whether the task of the checker is there. *)
Record ControllerServer (E : Type) := mkController {
  server : Server (Store E);
  self_info : LeaderInfo;
  zk_hosts : bool;
  zk : bool;
  running : bool;
  listener : option bool;
  heartbeats : bool }.
Arguments mkController {E}.
Arguments server {E}.
Arguments self_info {E}.
Arguments zk_hosts {E}.
Arguments zk {E}.
Arguments running {E}.
Arguments listener {E}.
Arguments heartbeats {E}.

Definition ensemble_of {E} (c : ControllerServer E) : E := ensemble (MetastoreManager.storage (manager (server c))).
(** The controller as it is over this ensemble. *)
Definition put_ensemble {E E'} (e : E') (c : ControllerServer E) : ControllerServer E' :=
  let s := server c in
  let m := manager s in
  mkController
    (mkServer (MetastoreManager.mkManager (set_ensemble e (MetastoreManager.storage m)) (MetastoreManager.ring m)
                 (MetastoreManager.replicas_per_topic m))
       (active_brokers s) (links s) (is_leader s) (election_lock s))
    (self_info c) (zk_hosts c) (zk c) (running c) (listener c) (heartbeats c).

Section controller.
Context {E : Type}.
Abbreviation Ctl := (ControllerServer E).

Definition set_server (s : Server (Store E)) (c : Ctl) : Ctl :=
  mkController s (self_info c) (zk_hosts c) (zk c) (running c) (listener c) (heartbeats c).
Definition set_zk (c : Ctl) : Ctl :=
  mkController (server c) (self_info c) (zk_hosts c) true (running c) (listener c) (heartbeats c).
Definition set_running (b : bool) (c : Ctl) : Ctl :=
  mkController (server c) (self_info c) (zk_hosts c) (zk c) b (listener c) (heartbeats c).
Definition set_listener (l : option bool) (c : Ctl) : Ctl :=
  mkController (server c) (self_info c) (zk_hosts c) (zk c) (running c) l (heartbeats c).
Definition set_heartbeats (b : bool) (c : Ctl) : Ctl :=
  mkController (server c) (self_info c) (zk_hosts c) (zk c) (running c) (listener c) b.


Definition on_server {A} : Co (Server (Store E)) A → Co Ctl A := co_zoom server set_server.
Definition on_ensemble {A} : Co E A → Co Ctl A := co_zoom ensemble_of put_ensemble.

(** The constructor, for an ensemble that it has not connected to. *)
Definition new_controller (host : pystr) (port replicas_per_topic : Z) (zk_hosts : bool) (controller_id : pystr) (e : E) :
    result Ctl :=
  id ← (match controller_id with
        | [] => p ← py_str port; Ok (host ++ py ":" ++ p)
        | _ => Ok controller_id
        end);
  Ok (mkController
    (mkServer (MetastoreManager.new_manager replicas_per_topic (mkStore MetastoreStorage.new_storage e false)) [] ∅ true false)
    (mkLeaderInfo id host port) zk_hosts false false None false).

Context `{EnsembleApi E} (me : nat).
#[local] Instance my_client : KazooApi E := en_client me.
#[local] Instance my_storage : StorageApi (Store E) := store_storage me.

(** ** The election *)

Definition get_leader : Co Ctl (option LeaderInfo) :=
  c ← atomic get;
  if zk c then on_ensemble ask_leader else mret (Some (self_info c)).

Definition _run_election : Co Ctl unit :=
  c ← atomic get;
  (if zk c then mret tt else Done (Raise AssertionError));;
  Await (λ c : Ctl, negb (election_lock (server c))) (mret tt);;
  on_server (atomic (modify (set_lock true)));;
  co_finally (
    c ← atomic get;
    created ← on_ensemble (ask_create (self_info c));
    match created with
    | Created => on_server (atomic (modify (set_leader true)))
    | NodeExists =>
        on_server (atomic (modify (set_leader false)));;
        get_leader;;
        on_ensemble (atomic (ZKSession.watch_exists me _CONTROLLER_PATH))
    | NotCreated e => Done (Raise e)
    end)
    (λ c, set_server (set_lock false (server c)) c).

Definition _broadcast_not_leader : Co Ctl unit :=
  leader ← get_leader;
  let resp := packet (not_leader leader) in
  atomic (lift (encode_response resp));;
  on_server (
    broker_ids ← atomic (reads (λ s : Server (Store E), Ok (dict_keys (active_brokers s))));
    reject_brokers resp broker_ids).

Definition _on_leader_gone : Co Ctl unit :=
  on_server (atomic (modify (set_leader false)));;
  _broadcast_not_leader;;
  _run_election.

(** ** Connections *)

(** The handler of connection [i] up to its first read, and one round of it: the loop
    ends when the server is not running any more. *)
Definition leave_loop (depth i : nat) : Co Ctl unit :=
  c ← atomic get;
  let reading := match links (server c) !! i with
                 | Some l => bool_decide (link_phase l = Reading)
                 | None => false
                 end in
  if reading && negb (running c) then on_server (end_connection depth i) else mret tt.

Definition handle_connection (depth i : nat) : Co Ctl unit :=
  c ← atomic get;
  if is_leader (server c) then on_server (accept (Ok None) i);; leave_loop depth i
  else
    on_server (atomic (modify (λ s : Server (Store E), set_links (<[i := new_link]> (links s)) s));;
               atomic (update_link i (set_phase Ended)));;
    leader ← get_leader;
    on_server (
      co_catch (_send_response i (not_leader leader) None) (λ _, Some (mret tt));;
      close_writer i).

Definition handle_frame (depth : nat) (now : Z) (i : nat) (input : read_result) : Co Ctl unit :=
  on_server (connection_round depth now i input);;
  leave_loop depth i.

Definition _heartbeat_checker_round (depth : nat) (now heartbeat_timeout : Z) : Co Ctl unit :=
  cancellable (λ c, negb (heartbeats c)) (λ c, c) (on_server (heartbeat_round depth now heartbeat_timeout)).

(** ** Start and end *)

(** [bound] is what [asyncio.start_server] comes to. *)
Definition start (bound : result unit) : Co Ctl unit :=
  c ← atomic get;
  (if zk_hosts c then
     atomic (modify set_zk);;
     on_ensemble (ZKSession.connect me);;
     on_ensemble ZKMetastoreStorage.setup;;
     atomic (modify (λ c, let s := server c in let m := manager s in
       set_server (mkServer
         (MetastoreManager.new_manager (MetastoreManager.replicas_per_topic m)
            (mkStore (memory (MetastoreManager.storage m)) (ensemble_of c) true))
         (active_brokers s) (links s) (is_leader s) (election_lock s)) c));;
     _run_election
   else mret tt);;
  atomic (modify (set_running true));;
  pause;;
  atomic (lift bound);;
  atomic (modify (set_listener (Some true)));;
  atomic (modify (set_heartbeats true)).

(** The loop over the writers. *)
Fixpoint close_writers (brokers : list (list Z * ActiveBroker)) : Co (Server (Store E)) unit :=
  match brokers with
  | [] => mret tt
  | (_, a) :: brokers =>
      co_catch (close_writer (ab_link a)) (λ _, Some (mret tt));;
      close_writers brokers
  end.

Definition close : Co Ctl unit :=
  atomic (modify (set_running false));;
  c ← atomic get;
  (if bool_decide (is_Some (listener c)) then atomic (modify (set_listener (Some false)));; pause else mret tt);;
  atomic (modify (set_heartbeats false));;
  on_server (
    brokers ← atomic (reads (λ s : Server (Store E), Ok (active_brokers s)));
    close_writers brokers;;
    atomic (modify (set_active [])));;
  c ← atomic get;
  if zk c then on_ensemble (ZKSession.close me) else mret tt.
End controller.

(** ** Several controllers *)

(** [n] controllers over one ensemble; each has its own client, named by its index. *)
Record System (E : Type) (n : nat) := mkSystem {
  shared : E;
  controllers : vec (ControllerServer unit) n }.
Arguments mkSystem {E n}.
Arguments shared {E n}.
Arguments controllers {E n}.

Section system.
Context {E : Type} `{EnsembleApi E} {n : nat}.

Definition view (i : fin n) (s : System E n) : ControllerServer E := put_ensemble (shared s) (controllers s !!! i).
Definition set_view (i : fin n) (c : ControllerServer E) (s : System E n) : System E n :=
  mkSystem (ensemble_of c) (vinsert i (put_ensemble tt c) (controllers s)).

(** What a controller starts to do: [main] starts and closes it, ZooKeeper may call its
    watch at any time, connections come and send, and the heartbeats are checked. *)
Inductive controller_task (me : nat) (c : ControllerServer E) : Co (ControllerServer E) unit → Prop :=
| does_start bound : controller_task me c (start me bound)
| does_close : controller_task me c (close me)
| does_watch : zk c = true → controller_task me c (_on_leader_gone me)
| does_accept depth j : listener c = Some true → links (server c) !! j = None →
    controller_task me c (handle_connection me depth j)
| does_frame depth now j input l : links (server c) !! j = Some l → link_phase l = Reading →
    controller_task me c (handle_frame me depth now j input)
| does_heartbeats depth now timeout : heartbeats c = true →
    controller_task me c (_heartbeat_checker_round me depth now timeout).

Inductive system_task (s : System E n) : Co (System E n) unit → Prop :=
| task_of (i : fin n) c : controller_task i (view i s) c → system_task s (co_zoom (view i) (set_view i) c).
End system.
