(* ===== verification/EnsembleFacts.v ===== *)
(** * Facts about controllers that share ZooKeeper

    What the code relies on of ZooKeeper, and that nothing but the election makes a
    controller the leader. *)
From Stdlib Require Import String.
From stdpp Require Import vector.
From S2P Require Import Prelude Coroutine PyData PyDict Messages Framer Encoder Parser Ring Metastore Controller Json Zk ZkFacts Ensemble.

(** ** ZooKeeper *)

(** [en_owner] is the client whose session made the znode of the leader, [en_lost] says
    that a session of a client is over, for whatever reason.  The znode is ephemeral:
    it stays as long as that session. *)
Class EnsembleLaws (E : Type) `{EnsembleApi E} := {
  en_owner : E → option nat;
  en_lost : E → nat → Prop;
  en_ends : nat → E → E → Prop;
  en_step e e' :=
    (∀ i, en_lost e i → en_lost e' i) ∧
    (∀ i, en_owner e = Some i → en_owner e' = Some i ∨ en_lost e' i);
  en_created i raw e r e' : kz_create (KazooApi := en_client i) _CONTROLLER_PATH raw true e = (Ok r, e') →
    en_owner e' = Some i ∨ en_lost e' i;
  en_create_step i p raw b e : en_step e (kz_create (KazooApi := en_client i) p raw b e).2;
  en_ensure_step i p e : en_step e (kz_ensure_path (KazooApi := en_client i) p e).2;
  en_set_step i p raw e : en_step e (kz_set (KazooApi := en_client i) p raw e).2;
  en_get_step i p e : en_step e (kz_get (KazooApi := en_client i) p e).2;
  en_children_step i p e : en_step e (kz_get_children (KazooApi := en_client i) p e).2;
  en_exists_step i p e : en_step e (kz_exists (KazooApi := en_client i) p e).2;
  en_delete_step i p e : p ≠ _CONTROLLER_PATH → en_step e (kz_delete (KazooApi := en_client i) p e).2;
  en_start_step i e : en_step e (en_start i e).2;
  en_stop_step i e : en_step e (en_stop i e).2;
  en_close_step i e : en_step e (en_close i e).2;
  en_watch_exists_step i p e : en_step e (en_watch_exists i p e).2;
  en_ends_step i e e' : en_ends i e e' → en_step e e' }.

(** ** The calls of the storage *)

#[export] Instance en_step_preorder `{EnsembleLaws E} : PreOrder (en_step (E := E)).
Proof.
  split; [by intros e; split; auto|]. intros e1 e2 e3 [L1 O1] [L2 O2]. split; [auto|].
  intros i Hi. destruct (O1 i Hi) as [Hi'|Hi']; [auto|right; auto].
Qed.

Section ensemble.
Context {E : Type} `{EnsembleLaws E} (me : nat).
#[local] Hint Extern 0 (KazooApi E) => exact (my_client me) : typeclass_instances.
#[local] Hint Extern 0 (StorageApi (Store E)) => exact (my_storage me) : typeclass_instances.

Abbreviation step := (en_step (E := E)).

Lemma to_thread_step {A} (m : M E A) : stays step m → every_part step (ZKClient.to_thread m).
Proof. intros Hm. split; [exact Hm|]. by intros [r|e]. Qed.
#[local] Hint Resolve to_thread_step en_create_step en_ensure_step en_set_step en_get_step en_children_step en_exists_step en_delete_step
  en_start_step en_stop_step en_close_step en_watch_exists_step : kind.
#[local] Hint Extern 1 (stays step _) => intros ? : kind.

Lemma client_create_step p data b : every_part step (ZKClient.create p data b).
Proof. unfold ZKClient.create. kind. Qed.
Lemma client_ensure_step p : every_part step (ZKClient.ensure_path p).
Proof. apply to_thread_step. intros e. apply en_ensure_step. Qed.
Lemma client_set_step p data : every_part step (ZKClient.set p data).
Proof. unfold ZKClient.set. kind. Qed.
Lemma client_get_step p : every_part step (ZKClient.get p).
Proof. unfold ZKClient.get. kind. Qed.
Lemma client_children_step p : every_part step (ZKClient.get_children p).
Proof. unfold ZKClient.get_children. kind. Qed.
Lemma client_exists_step p : every_part step (ZKClient.exists_ p).
Proof. apply to_thread_step. intros e. apply en_exists_step. Qed.
Lemma client_delete_step p : p ≠ _CONTROLLER_PATH → every_part step (ZKClient.delete p).
Proof. intros Hp. unfold ZKClient.delete. kind. Qed.
#[local] Hint Resolve client_create_step client_ensure_step client_set_step client_get_step client_children_step
  client_exists_step client_delete_step : kind.

Lemma broker_path n : child ZKMetastoreStorage._BROKERS_PATH n ≠ _CONTROLLER_PATH.
Proof. discriminate. Qed.
Lemma topic_path n : child ZKMetastoreStorage._TOPICS_PATH n ≠ _CONTROLLER_PATH.
Proof. discriminate. Qed.
#[local] Hint Resolve broker_path topic_path : kind.

Lemma gather_step {A} (f : pystr → Co E (option A)) l :
  (∀ n, every_part step (f n)) → every_part step (ZKMetastoreStorage.gather f l).
Proof. intros Hf. induction l as [|n l IH]; cbn; kind. Qed.

Lemma zk_get_node_step n : every_part step (ZKMetastoreStorage.get_node n).
Proof. unfold ZKMetastoreStorage.get_node. kind. Qed.
Lemma zk_get_topic_step n : every_part step (ZKMetastoreStorage.get_topic n).
Proof. unfold ZKMetastoreStorage.get_topic. kind. Qed.
#[local] Hint Resolve gather_step zk_get_node_step zk_get_topic_step : kind.

Lemma zk_add_node_step x : every_part step (ZKMetastoreStorage.add_node x).
Proof. unfold ZKMetastoreStorage.add_node. kind. Qed.
Lemma zk_remove_node_step n : every_part step (ZKMetastoreStorage.remove_node n).
Proof. unfold ZKMetastoreStorage.remove_node. kind. Qed.
Lemma zk_get_all_nodes_step : every_part step ZKMetastoreStorage.get_all_nodes.
Proof. unfold ZKMetastoreStorage.get_all_nodes. kind. Qed.
Lemma zk_add_topic_step t : every_part step (ZKMetastoreStorage.add_topic t).
Proof. unfold ZKMetastoreStorage.add_topic. kind. Qed.
Lemma zk_update_topic_step t : every_part step (ZKMetastoreStorage.update_topic t).
Proof. unfold ZKMetastoreStorage.update_topic. kind. Qed.
Lemma zk_get_all_topics_step : every_part step ZKMetastoreStorage.get_all_topics.
Proof. unfold ZKMetastoreStorage.get_all_topics. kind. Qed.
Lemma zk_setup_step : every_part step ZKMetastoreStorage.setup.
Proof. unfold ZKMetastoreStorage.setup. kind. Qed.
Lemma ask_leader_step : every_part step ask_leader.
Proof. unfold ask_leader. kind. Qed.
#[local] Hint Resolve zk_add_node_step zk_remove_node_step zk_get_all_nodes_step zk_add_topic_step zk_update_topic_step
  zk_get_all_topics_step zk_setup_step ask_leader_step : kind.

(** ** The brokers' part of a controller *)

Definition store_step (s s' : Store E) : Prop := step (ensemble s) (ensemble s').
Definition manager_step (m m' : MetastoreManager.Manager (Store E)) : Prop :=
  store_step (MetastoreManager.storage m) (MetastoreManager.storage m').
Definition server_step (s s' : Server (Store E)) : Prop :=
  is_leader s' = is_leader s ∧ manager_step (manager s) (manager s').

#[local] Instance store_step_preorder : PreOrder store_step.
Proof. split; [intros s; unfold store_step; reflexivity|]. intros ???. unfold store_step. by etrans. Qed.
#[local] Instance manager_step_preorder : PreOrder manager_step.
Proof. split; [intros s; unfold manager_step; reflexivity|]. intros ???. unfold manager_step. by etrans. Qed.
#[local] Instance server_step_preorder : PreOrder server_step.
Proof. split; [intros s; split; reflexivity|]. intros ??? [E1 ?] [E2 ?]. split; [congruence|]. by etrans. Qed.

Lemma on_store_step {A} (m : M MetastoreStorage.Storage A) z : stays step z → stays store_step (on_store m z).
Proof.
  intros Hz s. unfold on_store. destruct (in_zookeeper s).
  - by apply (stays_zoom ensemble set_ensemble step store_step).
  - run. destruct (m (memory s)). cbn. unfold store_step. reflexivity.
Qed.

Lemma storage_calls_step :
  (∀ x, stays store_step (st_add_node (S := Store E) x)) ∧ (∀ x, stays store_step (st_remove_node (S := Store E) x)) ∧
  (∀ x, stays store_step (st_get_node (S := Store E) x)) ∧ stays store_step (st_get_all_nodes (S := Store E)) ∧
  (∀ x, stays store_step (st_add_topic (S := Store E) x)) ∧ (∀ x, stays store_step (st_update_topic (S := Store E) x)) ∧
  (∀ x, stays store_step (st_get_topic (S := Store E) x)) ∧ stays store_step (st_get_all_topics (S := Store E)).
Proof. split_and!; intros; apply on_store_step, every_run; auto with kind typeclass_instances. Qed.

Lemma manager_storage_step {A} (m : M (Store E) A) :
  stays store_step m → stays manager_step (MetastoreManager.on_storage m).
Proof. by apply stays_zoom. Qed.
Lemma manager_ring_step {A} (m : M Ring A) : stays manager_step (MetastoreManager.on_ring m).
Proof. intros s. unfold MetastoreManager.on_ring. run. destruct (m _). cbn. unfold manager_step. cbn. reflexivity. Qed.

Ltac manager :=
  destruct storage_calls_step as (? & ? & ? & ? & ? & ? & ? & ?); kind;
  first [by apply manager_storage_step | apply manager_ring_step].

Lemma get_node_step n : stays manager_step (MetastoreManager.get_node n).
Proof. apply manager_storage_step, storage_calls_step. Qed.
#[local] Hint Resolve manager_ring_step get_node_step : kind.
Lemma register_broker_step id host port : stays manager_step (MetastoreManager.register_broker id host port).
Proof. unfold MetastoreManager.register_broker. manager. Qed.
Lemma elect_leader_step t : stays manager_step (MetastoreManager._elect_leader t).
Proof. unfold MetastoreManager._elect_leader. kind. Qed.
Lemma replace_replica_step id active t : stays manager_step (MetastoreManager.replace_replica id active t).
Proof. unfold MetastoreManager.replace_replica. kind. Qed.
#[local] Hint Resolve elect_leader_step replace_replica_step : kind.
Lemma deregister_topic_step id active t : stays manager_step (MetastoreManager.deregister_topic id active t).
Proof. unfold MetastoreManager.deregister_topic. manager. Qed.
#[local] Hint Resolve deregister_topic_step : kind.
Lemma deregister_topics_step id active ts : stays manager_step (MetastoreManager.deregister_topics id active ts).
Proof. induction ts as [|t ts IH]; cbn [MetastoreManager.deregister_topics]; kind. Qed.
#[local] Hint Resolve deregister_topics_step : kind.
Lemma deregister_broker_step id : stays manager_step (MetastoreManager.deregister_broker id).
Proof. unfold MetastoreManager.deregister_broker. manager. Qed.
Lemma register_topic_step t : stays manager_step (MetastoreManager.register_topic t).
Proof. unfold MetastoreManager.register_topic. manager. Qed.
Lemma update_topic_isr_step t isr : stays manager_step (MetastoreManager.update_topic_isr t isr).
Proof. unfold MetastoreManager.update_topic_isr. manager. Qed.
Lemma get_topic_metadata_step t : stays manager_step (MetastoreManager.get_topic_metadata t).
Proof. apply manager_storage_step, storage_calls_step. Qed.
Lemma get_all_topics_step : stays manager_step MetastoreManager.get_all_topics.
Proof. apply manager_storage_step, storage_calls_step. Qed.
Lemma topic_response_step t : stays manager_step (topic_response t).
Proof. unfold topic_response. kind. Qed.
#[local] Hint Resolve topic_response_step get_all_topics_step : kind.
Lemma topic_responses_step ts : stays manager_step (topic_responses ts).
Proof. induction ts as [|t ts IH]; cbn [topic_responses]; kind. Qed.
#[local] Hint Resolve topic_responses_step : kind.
Lemma metadata_list_step : stays manager_step metadata_list.
Proof. unfold metadata_list. kind. Qed.

Lemma on_manager_step {A} (m : M (MetastoreManager.Manager (Store E)) A) :
  stays manager_step m → stays server_step (on_manager m).
Proof. apply stays_zoom. intros s m' Hm. by split. Qed.
Lemma modify_step (f : Server (Store E) → Server (Store E)) : (∀ s, server_step s (f s)) → stays server_step (modify f).
Proof. intros Hf s. apply Hf. Qed.
Lemma plain_step s a l b : server_step s (mkServer (manager s) a l (is_leader s) b).
Proof. split; [done|]. cbn. reflexivity. Qed.
Lemma update_link_step i f : stays server_step (update_link i f).
Proof. apply modify_step. intros s. apply plain_step. Qed.
Lemma set_active_step f : stays server_step (modify (λ s, set_active (f s) s)).
Proof. apply modify_step. intros s. apply plain_step. Qed.
Lemma set_links_step f : stays server_step (modify (λ s, set_links (f s) s)).
Proof. apply modify_step. intros s. apply plain_step. Qed.
Lemma pop_active_step id : stays server_step (pop_active id).
Proof. intros s. apply plain_step. Qed.
Lemma touch_step i now id : stays server_step (touch i now id).
Proof.
  intros s. unfold touch. run. destruct id as [id|]; [|cbn; reflexivity].
  destruct (dict_get _ _); [apply plain_step|cbn; reflexivity].
Qed.
#[local] Hint Resolve on_manager_step update_link_step set_active_step set_links_step pop_active_step touch_step
  register_broker_step deregister_broker_step register_topic_step update_topic_isr_step get_topic_metadata_step
  metadata_list_step : kind.

Abbreviation quiet := (every_part server_step).

Lemma drain_quiet i : quiet (Controller.drain i).
Proof. unfold Controller.drain. kind. Qed.
Lemma close_writer_quiet i : quiet (close_writer i).
Proof. unfold close_writer. kind. Qed.
#[local] Hint Resolve drain_quiet close_writer_quiet : kind.
Lemma send_response_quiet i resp header : quiet (_send_response i resp header).
Proof. unfold _send_response. kind. Qed.
Lemma send_all_quiet resp brokers : quiet (send_all resp brokers).
Proof. induction brokers as [|[id a] brokers IH]; cbn [send_all]; kind. Qed.
Lemma for_each_quiet f ids : (∀ id, quiet (f id)) → quiet (Controller.for_each f ids).
Proof. intros Hf. induction ids as [|id ids IH]; cbn [Controller.for_each]; kind. Qed.
#[local] Hint Resolve send_response_quiet send_all_quiet for_each_quiet : kind.
Lemma broadcast_with_quiet f : (∀ id, quiet (f id)) → quiet (broadcast_with f).
Proof. intros Hf. unfold broadcast_with. kind. Qed.
#[local] Hint Resolve broadcast_with_quiet : kind.
Lemma handle_broker_disconnect_quiet depth id : quiet (_handle_broker_disconnect depth id).
Proof. revert id. induction depth as [|depth IH]; intros id; cbn [_handle_broker_disconnect]; kind. Qed.
#[local] Hint Resolve handle_broker_disconnect_quiet : kind.
Lemma broadcast_metadata_quiet depth : quiet (broadcast_metadata depth).
Proof. apply broadcast_with_quiet. kind. Qed.
#[local] Hint Resolve broadcast_metadata_quiet : kind.
Lemma handle_command_quiet depth now i broker cmd : quiet (handle_command depth now i broker cmd).
Proof. unfold handle_command. destruct (body cmd); kind. Qed.
Lemma end_connection_quiet depth i : quiet (end_connection depth i).
Proof. unfold end_connection. kind. Qed.
#[local] Hint Resolve handle_command_quiet end_connection_quiet : kind.
Lemma connection_round_quiet depth now i input : quiet (connection_round depth now i input).
Proof. unfold connection_round. kind. Qed.
Lemma accept_quiet i : quiet (accept (Ok None) i).
Proof. unfold accept, Controller.get_leader. kind. Qed.
Lemma heartbeat_round_quiet depth now timeout : quiet (heartbeat_round depth now timeout).
Proof. unfold heartbeat_round. kind. Qed.
Lemma reject_brokers_quiet resp ids : quiet (reject_brokers resp ids).
Proof. induction ids as [|id ids IH]; cbn [reject_brokers]; kind. Qed.
Lemma close_writers_quiet brokers : quiet (close_writers brokers).
Proof. induction brokers as [|[id a] brokers IH]; cbn [close_writers]; kind. Qed.

(** ** The controller *)

Abbreviation Ctl := (ControllerServer E).
Implicit Types c : Ctl.

(** What most of the code does: it makes nobody a leader and accepts no connections. *)
Definition ctl_part c c' : Prop :=
  zk_hosts c' = zk_hosts c ∧ (is_leader (server c') = true → is_leader (server c) = true) ∧
  (listener c' = Some true → listener c = Some true) ∧ step (ensemble_of c) (ensemble_of c').

#[export] Instance ctl_part_preorder : PreOrder ctl_part.
Proof.
  split; [intros c; by split_and!|]. intros c1 c2 c3 (? & ? & ? & ?) (? & ? & ? & ?).
  split_and!; [congruence|auto|auto|by etrans].
Qed.

Lemma on_server_part {A} (c : Co (Server (Store E)) A) : quiet c → every_part ctl_part (on_server c).
Proof. apply every_zoom. intros t s [E1 E2]. split_and!; [done| |done|done]. cbn. congruence. Qed.
Lemma on_ensemble_part {A} (c : Co E A) : every_part step c → every_part ctl_part (on_ensemble c).
Proof. apply every_zoom. intros t s Hs. by split_and!. Qed.
Lemma modify_part f : (∀ c, ctl_part c (f c)) → stays ctl_part (modify f).
Proof. intros Hf c. apply Hf. Qed.
Lemma get_part : every_part ctl_part (atomic get).
Proof. kind. Qed.
Lemma lift_part {A} (r : result A) : every_part ctl_part (atomic (lift r)).
Proof. kind. Qed.
Lemma set_leader_part : every_part ctl_part (on_server (atomic (modify (set_leader false)))).
Proof. split; [|done]. intros c. split_and!; [done..|]. reflexivity. Qed.
Lemma set_lock_part b : every_part ctl_part (on_server (atomic (modify (set_lock b)))).
Proof. split; [|done]. intros c. split_and!; [done..|]. reflexivity. Qed.
#[local] Hint Resolve on_server_part on_ensemble_part modify_part set_leader_part set_lock_part connection_round_quiet
  accept_quiet heartbeat_round_quiet reject_brokers_quiet close_writers_quiet : kind.

Lemma get_leader_part : every_part ctl_part (Ensemble.get_leader me).
Proof. unfold Ensemble.get_leader. kind. Qed.
#[local] Hint Resolve get_leader_part : kind.
Lemma broadcast_not_leader_part : every_part ctl_part (Ensemble._broadcast_not_leader me).
Proof. unfold Ensemble._broadcast_not_leader. kind. apply on_server_part. kind. Qed.
Lemma leave_loop_part depth i : every_part ctl_part (leave_loop me depth i).
Proof. unfold leave_loop. kind. Qed.
#[local] Hint Resolve broadcast_not_leader_part leave_loop_part : kind.
Lemma watch_exists_part p : every_part ctl_part (on_ensemble (atomic (ZKSession.watch_exists me p))).
Proof. apply on_ensemble_part. unfold ZKSession.watch_exists. kind. Qed.
Lemma connect_part : every_part ctl_part (on_ensemble (ZKSession.connect me)).
Proof. apply on_ensemble_part. unfold ZKSession.connect. kind. Qed.
Lemma setup_part : every_part ctl_part (on_ensemble ZKMetastoreStorage.setup).
Proof. apply on_ensemble_part. kind. Qed.
Lemma handle_connection_part depth i : every_part ctl_part (handle_connection me depth i).
Proof. unfold handle_connection. kind; apply on_server_part; kind. Qed.
Lemma handle_frame_part depth now i input : every_part ctl_part (handle_frame me depth now i input).
Proof. unfold handle_frame. kind. Qed.
Lemma heartbeat_checker_part depth now timeout : every_part ctl_part (_heartbeat_checker_round me depth now timeout).
Proof. unfold _heartbeat_checker_round. kind. done. Qed.
Lemma close_part : every_part ctl_part (Ensemble.close me).
Proof.
  unfold Ensemble.close, ZKSession.close. kind; try (apply modify_part; intros c; by split_and!).
  - apply on_server_part. kind.
  - apply on_ensemble_part. kind.
Qed.
End ensemble.
