(* ===== verification/EnsembleTheorems.v ===== *)
(** * What several controllers guarantee

    At most one leads, whatever they do, and a follower takes over from a leader that is
    gone. *)
From Stdlib Require Import String.
From stdpp Require Import vector relations.
From S2P Require Import Prelude Coroutine PyData PyDict Framer Messages Encoder Parser Ring Metastore Controller Json JsonFacts Zk ZkFacts ZkTheorems AsyncTheorems Ensemble EnsembleFacts.

(** ** One controller *)

Section controller.
Context {E : Type} `{EnsembleLaws E} (me : nat).
#[local] Hint Extern 0 (KazooApi E) => exact (my_client me) : typeclass_instances.
Abbreviation Ctl := (ControllerServer E).
Implicit Types (c : Ctl) (e : E).

(** The znode of the leader is of a session of this client, or such a session is over. *)
Definition own e : Prop := en_owner e = Some me ∨ en_lost e me.
Definition settled c : Prop := zk_hosts c = true → is_leader (server c) = true → own (ensemble_of c).

Lemma own_step e e' : en_step e e' → own e → own e'.
Proof. intros [L O] [Ho|Hl]; [|right; auto]. destruct (O me Ho); [by left|by right]. Qed.

(** A controller that accepts connections as the leader owns the znode. *)
Definition ctl_ok c : Prop := listener c = Some true → settled c.
Definition ctl_later c c' : Prop :=
  zk_hosts c' = zk_hosts c ∧ (settled c → settled c') ∧ en_step (ensemble_of c) (ensemble_of c').

#[export] Instance ctl_later_preorder : PreOrder ctl_later.
Proof.
  split; [intros c; by split_and!|]. intros c1 c2 c3 (? & ? & ?) (? & ? & ?). split_and!; [congruence|auto|by etrans].
Qed.

Lemma ctl_part_later c c' : ctl_ok c → ctl_part c c' → ctl_ok c' ∧ ctl_later c c'.
Proof.
  intros Hc (Hz & Hl & Hs & He). assert (settled c → settled c') as Hset.
  { intros Hset Hz' Hl'. eapply own_step; [exact He|]. apply Hset; [congruence|auto]. }
  split; [|by split_and!]. intros Hs'. auto.
Qed.

Abbreviation cwp := (wp ctl_ok ctl_later ctl_later).
Definition kept (s0 : Ctl) (r : result unit) c : Prop := ctl_ok c ∧ ctl_later s0 c.

Lemma part_wp {A} (t : Co Ctl A) s0 c : every_part ctl_part t → ctl_ok c → ctl_later s0 c →
  cwp s0 t c (λ s0 _ c, ctl_ok c ∧ ctl_later s0 c).
Proof. apply every_part_wp; [apply _|]. apply ctl_part_later. Qed.

Lemma part_settled_wp {A} (t : Co Ctl A) s0 c : every_part ctl_part t → ctl_ok c → ctl_later s0 c → settled c →
  cwp s0 t c (λ s0 _ c, (ctl_ok c ∧ ctl_later s0 c) ∧ settled c).
Proof.
  revert s0 c. induction t as [r|X m k IH|ready k IH]; intros s0 c; cbn.
  - by intros.
  - intros [Hm Hk] Hc Hl Hs. destruct (ctl_part_later c _ Hc (Hm c)) as [Hc' Hl']. apply IH; [done|done|by etrans|].
    by apply Hl'.
  - intros Hk Hc Hl Hs. split_and!; [done..|]. intros c' Hc' Hl' _. apply IH; [done|done|reflexivity|]. by apply Hl'.
Qed.

(** The parts of a task one after the other. *)
Lemma ctl_then_wp {A B} (t : Co Ctl A) (f : A → Co Ctl B) s0 c Q :
  (∀ x s0 c, ctl_ok c → ctl_later s0 c → Q s0 (Raise x) c) →
  cwp s0 t c (λ s0 r c, (ctl_ok c ∧ ctl_later s0 c) ∧ match r with Ok a => cwp s0 (f a) c Q | Raise _ => True end) →
  cwp s0 (t ≫= f) c Q.
Proof.
  intros HQ Hw. apply wp_bind. eapply wp_mono; [|exact Hw]. intros s1 [a|e] c1 [[? ?] ?]; [done|by apply HQ].
Qed.
Lemma ctl_part_then_wp {A B} (t : Co Ctl A) (f : A → Co Ctl B) s0 c Q :
  every_part ctl_part t → ctl_ok c → ctl_later s0 c →
  (∀ x s0 c, ctl_ok c → ctl_later s0 c → Q s0 (Raise x) c) →
  (∀ a s0 c, ctl_ok c → ctl_later s0 c → cwp s0 (f a) c Q) →
  cwp s0 (t ≫= f) c Q.
Proof.
  intros Ht Hc Hl HQ Hf. apply ctl_then_wp; [done|]. eapply wp_mono; [|by apply part_wp].
  intros s1 [a|e] c1 [? ?]; by split; [|auto].
Qed.

(** ** The election *)

Lemma ask_create_wp l e0 e : en_step e0 e →
  wp (λ _, True) en_step en_step e0 (ask_create l) e
    (λ e0 r e, en_step e0 e ∧ (r = Ok Created → own e)).
Proof.
  intros He. unfold ask_create, ZKClient.create_ephemeral, ZKClient.create. apply wp_catch, wp_bind, wp_bind.
  rewrite wp_atomic. cbn [lift fst snd]. destruct (json_bytes (leader_data l)) as [raw|x].
  2:{ cbn. split; [done|]. intros Hx. by destruct (bool_decide _). }
  cbn. split_and!; [done..|]. intros e1 _ He1 _. split; [done|].
  pose proof (en_create_step me _CONTROLLER_PATH raw true e1) as Hstep. split; [done|].
  intros e2 _ He2 _. change (en_client me) with (my_client me) in *.
  destruct (kz_create _CONTROLLER_PATH raw true e1) as [r e1'] eqn:Ec.
  assert (∀ p, r = Ok p → own e2) as Hown.
  { intros p ->. eapply own_step; [exact He2|]. exact (en_created me raw e1 p e1' Ec). }
  destruct r as [p|x]; cbn.
  - split; [reflexivity|]. intros _. by eapply Hown.
  - split; [reflexivity|]. intros Hx. by destruct (bool_decide _).
Qed.

Lemma put_ensemble_same c : put_ensemble (ensemble_of c) c = c.
Proof. by destruct c as [[[[] ?] ? ? ? ?] ? ? ? ? ? ?]. Qed.

Lemma create_wp l s0 c : ctl_ok c → ctl_later s0 c →
  cwp s0 (on_ensemble (ask_create l)) c
    (λ s0 r c, (ctl_ok c ∧ ctl_later s0 c) ∧ (r = Ok Created → own (ensemble_of c))).
Proof.
  intros Hc Hl. apply (wp_earlier _ _ _ _ _ c); [intros c1 ?; by etrans| |].
  { intros r c1 [[? ?] ?]. split; [split; [done|by etrans]|done]. }
  rewrite <-(put_ensemble_same c) at 2. unfold on_ensemble.
  eapply wp_mono; [|eapply (wp_zoom ensemble_of put_ensemble) with (I := λ _, True) (G := en_step) (R := en_step)
      (Q := λ e0 r e, en_step e0 e ∧ (r = Ok Created → own e));
    [done|by intros ? ? []|apply put_ensemble_same|done|by intros ? ? (? & ? & ?)| |exact Hc|]].
  - cbn. intros c0 r c1 (e & -> & Hc0 & He & Hr). split; [|done].
    apply ctl_part_later; [done|]. by split_and!.
  - intros c1 e Hc1 _ He. apply ctl_part_later; [done|]. by split_and!.
  - apply ask_create_wp. reflexivity.
Qed.

Lemma server_modify_wp f s0 c Q :
  cwp s0 (on_server (atomic (modify f))) c Q ↔ Q s0 (Ok tt) (set_server (f (server c)) c).
Proof. done. Qed.
Lemma set_lock_later b c : ctl_ok c → ctl_ok (set_server (set_lock b (server c)) c) ∧ ctl_later c (set_server (set_lock b (server c)) c).
Proof. intros Hc. apply ctl_part_later; [done|]. by split_and!. Qed.

(** After an election that did not raise, a leader owns the znode. *)
Lemma election_wp s0 c : ctl_ok c → ctl_later s0 c →
  cwp s0 (Ensemble._run_election me) c
    (λ s0 r c, (ctl_ok c ∧ ctl_later s0 c) ∧ (r = Ok tt → settled c)).
Proof.
  intros Hc Hl. unfold Ensemble._run_election.
  assert (∀ x s0 c, ctl_ok c → ctl_later s0 c →
    (ctl_ok c ∧ ctl_later s0 c) ∧ (Raise x = Ok tt → settled c)) as Hraise by done.
  apply ctl_part_then_wp; [apply get_part|done|done|done|]. clear c s0 Hc Hl. intros c0 s0 c Hc Hl.
  apply ctl_part_then_wp; [by destruct (zk c0)|done|done|done|]. intros _ s1 c1 Hc1 Hl1.
  apply ctl_part_then_wp; [done|done|done|done|]. intros _ s2 c2 Hc2 Hl2.
  apply ctl_part_then_wp; [apply set_lock_part|done|done|done|]. intros _ s3 c3 Hc3 Hl3.
  apply wp_finally. apply (wp_mono _ _ _ _ _ _ (λ s0 r c, (ctl_ok c ∧ ctl_later s0 c) ∧ (r = Ok tt → settled c))).
  { intros s r s' [[? ?] Hr]. destruct (set_lock_later false s') as [? ?]; [done|]. split; [split; [done|by etrans]|].
    intros Er. by apply Hr. }
  apply ctl_part_then_wp; [apply get_part|done|done|done|]. intros c4 s4 c5 Hc5 Hl5.
  apply wp_bind. eapply wp_mono; [|by apply create_wp]. intros s6 r c6 [[Hc6 Hl6] Hr].
  destruct r as [[| |x]|x]; [| |done|done].
  - specialize (Hr eq_refl). cbn.
    assert (settled (set_server (set_leader true (server c6)) c6)) as Hs by by intros _ _.
    split; [split; [by intros _|]|by intros _]. destruct Hl6 as (? & ? & ?). by split_and!.
  - destruct (ctl_part_later c6 _ Hc6 (proj1 set_leader_part c6)) as [Hc7 Hl7]. apply wp_bind.
    apply (proj2 (server_modify_wp (set_leader false) s6 c6 _)).
    eapply wp_mono; [|apply part_settled_wp; [|exact Hc7|by etrans|]].
    + intros s8 r c8 [? ?]. by split.
    + apply every_bind; [apply get_leader_part|]. intros _. apply watch_exists_part.
    + intros _ Hf. discriminate Hf.
Qed.

Lemma ctl_leader_gone_wp s0 c : ctl_ok c → ctl_later s0 c → cwp s0 (Ensemble._on_leader_gone me) c kept.
Proof.
  intros Hc Hl. unfold Ensemble._on_leader_gone.
  apply ctl_part_then_wp; [apply set_leader_part|done|done|done|]. intros _ s1 c1 Hc1 Hl1.
  apply ctl_part_then_wp; [apply broadcast_not_leader_part|done|done|done|]. intros _ s2 c2 Hc2 Hl2.
  eapply wp_mono; [|by apply election_wp]. by intros s r c' [? ?].
Qed.

Lemma same_later s0 c f : (∀ c, zk_hosts (f c) = zk_hosts c ∧ server (f c) = server c) →
  (settled c → ctl_ok (f c)) → settled c → ctl_later s0 c →
  ctl_ok (f c) ∧ ctl_later s0 (f c) ∧ settled (f c).
Proof.
  intros Hf Hok Hs (? & ? & ?). destruct (Hf c) as [Hz Hsv].
  assert (settled (f c)) as Hs' by (unfold settled, ensemble_of in *; rewrite Hz, Hsv; done).
  split_and!; [auto| |done]. split_and!; [congruence|done|]. unfold ensemble_of in *. by rewrite Hsv.
Qed.

(** What [start] does once the election is over. *)
Definition listen (bound : result unit) : Co Ctl unit :=
  atomic (modify (Ensemble.set_running true));;
  pause;;
  atomic (lift bound);;
  atomic (modify (set_listener (Some true)));;
  atomic (modify (set_heartbeats true)).
Lemma listen_wp bound s0 c : ctl_ok c → ctl_later s0 c → settled c → cwp s0 (listen bound) c kept.
Proof.
  intros Hc Hl Hs. destruct (same_later s0 c (Ensemble.set_running true)) as (Hc1 & Hl1 & Hs1); [done..|].
  cbn. split_and!; [done..|]. intros c2 Hc2 (Hz & Hset & He) _. specialize (Hset Hs1).
  destruct bound as [[]|x]; cbn; [|by split].
  destruct (same_later c2 c2 (set_listener (Some true))) as (Hc3 & Hl3 & Hs3); [done|by intros _ _|done|reflexivity|].
  destruct (same_later c2 (set_listener (Some true) c2) (set_heartbeats true)) as (Hc4 & Hl4 & _); [done|by intros _ _|done|done|].
  by split.
Qed.

Lemma ctl_start_wp bound s0 c : ctl_ok c → ctl_later s0 c → cwp s0 (Ensemble.start me bound) c kept.
Proof.
  intros Hc Hl. unfold Ensemble.start. apply wp_bind. rewrite wp_atomic. cbn [get fst snd].
  destruct (zk_hosts c) eqn:Hz.
  2:{ change (cwp s0 (listen bound) c kept). apply listen_wp; [done..|]. intros Hz'. congruence. }
  apply ctl_then_wp; [by split|].
  apply (wp_mono _ _ _ _ _ _ (λ s0 r c, (ctl_ok c ∧ ctl_later s0 c) ∧ (r = Ok tt → settled c))).
  { intros s [[]|x] c1 [[? ?] Hr]; (split; [done|]); [|done]. apply listen_wp; auto. }
  assert (∀ x s0 c, ctl_ok c → ctl_later s0 c →
    (ctl_ok c ∧ ctl_later s0 c) ∧ (Raise x = Ok tt → settled c)) as Hraise by done.
  clear Hz.
  apply ctl_part_then_wp; [apply every_atomic, modify_part; intros c'; by split_and!|done|done|done|]. intros _ s1 c1 Hc1 Hl1.
  apply ctl_part_then_wp; [apply connect_part|done|done|done|]. intros _ s2 c2 Hc2 Hl2.
  apply ctl_part_then_wp; [apply setup_part|done|done|done|]. intros _ s3 c3 Hc3 Hl3.
  apply ctl_part_then_wp; [|done|done|done|].
  - apply every_atomic, modify_part. intros c'. split_and!; [done..|]. reflexivity.
  - intros _ s4 c4 Hc4 Hl4. by apply election_wp.
Qed.

Lemma controller_task_ok c t : ctl_ok c → controller_task me c t → cwp c t c kept.
Proof.
  intros Hc Ht. assert (ctl_later c c) as Hl by reflexivity.
  destruct Ht; [by apply ctl_start_wp|apply part_wp; [apply close_part|done..]|by apply ctl_leader_gone_wp|..];
    apply part_wp; try done.
  - apply handle_connection_part.
  - apply handle_frame_part.
  - apply heartbeat_checker_part.
Qed.
End controller.

(** ** Several controllers *)

Section system.
Context {E : Type} `{EnsembleLaws E} {n : nat}.
Implicit Types (s : System E n) (i j : fin n).

(** A session of a client ends, or the other end closes a connection. *)
Inductive system_event s : System E n → Prop :=
| event_session i e : en_ends i (shared s) e → system_event s (mkSystem e (controllers s))
| event_connection i k :
    let c := view i s in
    system_event s (set_view i (set_server (update_link k close_link (server c)).2 c) s).

Definition system_run := rtc (sched (system_task (n := n)) system_event).

Lemma view_set i c s : view i (set_view i c s) = c.
Proof.
  unfold view, set_view. cbn. rewrite vlookup_insert. by destruct c as [[[[] ?] ? ? ? ?] ? ? ? ? ? ?].
Qed.
Lemma view_set_ne i j c s : i ≠ j → view j (set_view i c s) = put_ensemble (ensemble_of c) (view j s).
Proof. intros Hij. unfold view, set_view. cbn. by rewrite vlookup_insert_ne by done. Qed.
Lemma set_view_set i c c' s : set_view i c (set_view i c' s) = set_view i c s.
Proof.
  unfold set_view. cbn. f_equal. apply vec_eq. intros j. destruct (decide (i = j)) as [<-|].
  - by rewrite !vlookup_insert.
  - by rewrite !vlookup_insert_ne.
Qed.
Lemma set_view_same i s : set_view i (view i s) s = s.
Proof.
  destruct s as [e cs]. unfold set_view, view. cbn. f_equal.
  assert (put_ensemble tt (put_ensemble e (cs !!! i)) = cs !!! i) as ->
    by by destruct (cs !!! i) as [[[[? []] ?] ? ? ? ?] ? ? ? ? ? ?].
  apply vlookup_insert_self.
Qed.

Definition system_ok s : Prop := ∀ i, ctl_ok i (view i s).
Definition system_later s s' : Prop := ∀ i, ctl_later i (view i s) (view i s').

#[export] Instance system_later_preorder : PreOrder system_later.
Proof. split; [intros s i; reflexivity|]. intros s1 s2 s3 H12 H23 i. exact (transitivity (H12 i) (H23 i)). Qed.

(** What the ensemble does, the others do not mind. *)
Lemma put_ensemble_later (i : nat) (c : ControllerServer E) e : ctl_ok i c → en_step (ensemble_of c) e →
  ctl_ok i (put_ensemble e c) ∧ ctl_later i c (put_ensemble e c).
Proof. intros Hc He. apply ctl_part_later; [done|]. by split_and!. Qed.

Lemma set_view_later i c s : system_ok s → ctl_ok i c → ctl_later i (view i s) c →
  system_ok (set_view i c s) ∧ system_later s (set_view i c s).
Proof.
  intros Hs Hc Hl. assert (∀ j, ctl_ok j (view j (set_view i c s)) ∧ ctl_later j (view j s) (view j (set_view i c s))) as Hj.
  { intros j. destruct (decide (i = j)) as [<-|Hij]; [by rewrite view_set|]. rewrite view_set_ne by done.
    apply put_ensemble_later; [done|]. by destruct Hl as (_ & _ & ?). }
  split; intros j; apply Hj.
Qed.

Lemma system_task_ok s t : system_ok s → system_task s t →
  wp system_ok system_later system_later s t s (λ s0 _ s, system_ok s ∧ system_later s0 s).
Proof.
  intros Hs [i c Ht]. pose proof (controller_task_ok i _ _ (Hs i) Ht) as Hw. rewrite <-(set_view_same i s) at 2.
  eapply wp_mono; [|eapply (wp_zoom (view i) (set_view i)) with (Q := kept i);
    [apply view_set|apply set_view_set|apply set_view_same|intros t' Ht'; exact (Ht' i)|intros t1 t2 Ht'; exact (Ht' i)| |exact Hs|exact Hw]].
  - cbn. intros s0 r s1 (c1 & -> & Hs0 & Hc1 & Hl1). by apply set_view_later.
  - intros s0 c1 Hs0 Hc1 Hl1. by apply set_view_later.
Qed.

Lemma system_event_ok s s' : system_ok s → system_event s s' → system_ok s' ∧ system_later s s'.
Proof.
  intros Hs [i e He|i k c].
  - apply en_ends_step in He. assert (∀ j, ctl_ok j (view j (mkSystem e (controllers s))) ∧
      ctl_later j (view j s) (view j (mkSystem e (controllers s)))) as Hj.
    { intros j. change (view j (mkSystem e (controllers s))) with (put_ensemble e (view j s)). by apply put_ensemble_later. }
    split; intros j; apply Hj.
  - destruct (ctl_part_later i c (set_server (update_link k close_link (server c)).2 c)) as [Hc Hl]; [apply Hs| |].
    { split_and!; [done..|]. cbn. reflexivity. }
    by apply set_view_later.
Qed.

Lemma system_run_ok a b : system_run a b → sched_ok system_ok system_later system_later a →
  sched_ok system_ok system_later system_later b ∧ system_later a.2 b.2.
Proof. apply sched_rtc_ok; [apply _|done|apply system_task_ok|apply system_event_ok]. Qed.

(** A controller that answers brokers as the leader. *)
Definition leads s i : Prop :=
  let c := controllers s !!! i in
  zk_hosts c = true ∧ listener c = Some true ∧ is_leader (server c) = true.

(** C25: there is one leader at a time.  Several controllers that are configured with
    ZooKeeper start, elect their leader again whenever a watch fires, are used by
    brokers and are closed, in any interleaving, and sessions end at any time: two
    controllers that accept brokers as the leader, and whose clients have not lost a
    session, are the same one. *)
Theorem one_leader_at_a_time s0 ts s i j :
  (∀ i, listener (controllers s0 !!! i) = None) → system_run ([], s0) (ts, s) →
  leads s i → leads s j → ¬ en_lost (shared s) i → ¬ en_lost (shared s) j → i = j.
Proof.
  intros Hfresh Hrun Hi Hj Li Lj. destruct (system_run_ok _ _ Hrun) as [[Hs _] _].
  { split; [|constructor]. intros k Hk. cbn in Hk. by rewrite Hfresh in Hk. }
  assert (∀ k : fin n, leads s k → ¬ en_lost (shared s) k → en_owner (shared s) = Some (fin_to_nat k)) as Hown.
  { intros k (Hz & Hl & Hld) Hnl. by destruct (Hs k Hl Hz Hld). }
  pose proof (Hown i Hi Li) as Ei. rewrite (Hown j Hj Lj) in Ei. injection Ei as Ei. by apply (inj fin_to_nat).
Qed.
End system.

Section takeover.
Context {S : Type} `{StorageApi S}.
Implicit Types (s : Server S) (l : Link).

(** The transport is closed, and an open one was sent the answer before. *)
Definition told_off (resp : Packet Response) l l' : Prop :=
  link_open l' = false ∧ (link_open l = true → last (answers l') = Some resp).

Definition reject_one (resp : Packet Response) (id : pystr) s : Server S :=
  let s1 := set_active (dict_del (active_brokers s) id) s in
  match dict_get (active_brokers s) id with
  | Some a => (update_link (ab_link a) (λ l, close_link (write_answer resp l)) s1).2
  | None => s1
  end.

Lemma reject_one_run resp id ids s :
  run (reject_brokers resp (id :: ids)) s = run (reject_brokers resp ids) (reject_one resp id s).
Proof.
  cbn [reject_brokers]. run_co. unfold pop_active, reject_one. run.
  destruct (dict_get (active_brokers s) id) as [a|]; [|reflexivity].
  unfold Controller.drain, close_writer. run_co. unfold update_link. run. run_co. run.
  cbn [links set_links set_active]. rewrite lookup_alter_eq.
  destruct (links s !! ab_link a) as [l|] eqn:El; cbn [fmap option_fmap option_map].
  - destruct (link_open (write_answer resp l)) eqn:Eo.
    + run_co. run. run_co. cbn [snd]. f_equal. unfold set_links, set_active. cbn. f_equal. apply map_eq. intros j.
      destruct (decide (ab_link a = j)) as [<-|Hj]; [|by rewrite !lookup_alter_ne].
      by rewrite !lookup_alter_eq, El.
    + run_co. cbn [snd]. f_equal. unfold set_links, set_active. cbn. f_equal. apply map_eq. intros j.
      destruct (decide (ab_link a = j)) as [<-|Hj]; [|by rewrite !lookup_alter_ne].
      rewrite !lookup_alter_eq, El. cbn. f_equal. destruct (write_answer resp l). cbn in *. by rewrite Eo.
  - run_co. cbn [snd]. f_equal. unfold set_links, set_active. cbn. f_equal. apply map_eq. intros j.
    destruct (decide (ab_link a = j)) as [<-|Hj]; [|by rewrite !lookup_alter_ne].
    by rewrite !lookup_alter_eq, El.
Qed.

Definition reject_all (resp : Packet Response) (ids : list (list Z)) s : Server S :=
  fold_left (λ s id, reject_one resp id s) ids s.
Lemma reject_run resp ids s : run (reject_brokers resp ids) s = (Ok tt, reject_all resp ids s).
Proof. revert s. induction ids as [|id ids IH]; intros s; [done|]. by rewrite reject_one_run, IH. Qed.

(** What becomes of a connection in the process. *)
Definition link_after (resp : Packet Response) l l' : Prop := l' = l ∨ link_open l = true ∧ told_off resp l l'.

Lemma after_told_off resp l l' l'' : told_off resp l l' → link_after resp l' l'' → told_off resp l l''.
Proof. intros [Hc Ht] [->|[Ho _]]; [done|congruence]. Qed.
Lemma after_trans resp l l' l'' : link_after resp l l' → link_after resp l' l'' → link_after resp l l''.
Proof. intros [->|[Ho Ht]] H2; [done|]. right. split; [done|]. by eapply after_told_off. Qed.

Lemma reject_one_link resp id s i l : links s !! i = Some l →
  ∃ l', links (reject_one resp id s) !! i = Some l' ∧ link_after resp l l' ∧
    (∀ a, dict_get (active_brokers s) id = Some a → ab_link a = i → told_off resp l l').
Proof.
  intros Hl. unfold reject_one. destruct (dict_get (active_brokers s) id) as [a|] eqn:Ea.
  2:{ exists l. split; [done|]. split; [by left|done]. }
  cbn. destruct (decide (ab_link a = i)) as [Hi|Hi].
  - rewrite Hi, lookup_alter_eq, Hl. cbn. eexists. split; [done|].
    assert (told_off resp l (close_link (write_answer resp l))) as Ht.
    { split; [done|]. intros Ho. unfold write_answer. rewrite Ho. cbn. by rewrite last_snoc. }
    split; [|done]. destruct (link_open l) eqn:Ho; [by right|left]. unfold write_answer. rewrite Ho.
    destruct l. cbn in *. by rewrite Ho.
  - rewrite lookup_alter_ne by done. exists l. split; [done|]. split; [by left|]. intros b [= <-] Hb. done.
Qed.

Lemma reject_one_rest resp id s :
  active_brokers (reject_one resp id s) = dict_del (active_brokers s) id ∧ manager (reject_one resp id s) = manager s ∧
  is_leader (reject_one resp id s) = is_leader s ∧ election_lock (reject_one resp id s) = election_lock s.
Proof. unfold reject_one. by destruct (dict_get _ _). Qed.

Lemma reject_all_rest resp ids s : manager (reject_all resp ids s) = manager s ∧
  is_leader (reject_all resp ids s) = is_leader s ∧ election_lock (reject_all resp ids s) = election_lock s.
Proof.
  revert s. induction ids as [|id ids IH]; intros s; [done|].
  change (reject_all resp (id :: ids) s) with (reject_all resp ids (reject_one resp id s)).
  destruct (IH (reject_one resp id s)) as (-> & -> & ->). apply reject_one_rest.
Qed.

Lemma reject_all_link resp ids s i l : links s !! i = Some l →
  ∃ l', links (reject_all resp ids s) !! i = Some l' ∧ link_after resp l l' ∧
    (∀ id a, id ∈ ids → NoDup ids → dict_get (active_brokers s) id = Some a → ab_link a = i → told_off resp l l').
Proof.
  revert s l. induction ids as [|id ids IH]; intros s l Hl.
  { exists l. split; [done|]. split; [by left|]. by intros id a ?%elem_of_nil. }
  destruct (reject_one_link resp id s i l Hl) as (l1 & Hl1 & Ha1 & Ht1).
  destruct (IH (reject_one resp id s) l1 Hl1) as (l2 & Hl2 & Ha2 & Ht2). exists l2. split; [exact Hl2|].
  split; [by eapply after_trans|]. intros id' a Hin [Hn Hnd]%NoDup_cons Ha Hai. apply elem_of_cons in Hin as [->|Hin].
  - eapply after_told_off; [by eapply Ht1|done].
  - assert (told_off resp l1 l2) as Ht.
    { eapply (Ht2 id' a); [done|done| |done]. destruct (reject_one_rest resp id s) as (-> & _).
      rewrite dict_get_del_ne; [done|]. by intros ->. }
    destruct Ha1 as [->|[_ ?]]; [done|]. by eapply after_told_off.
Qed.

(** Everybody is gone afterwards. *)
Lemma reject_all_active resp d s : active_brokers s = d → active_brokers (reject_all resp (dict_keys d) s) = [].
Proof.
  revert s. induction d as [|[k a] d IH]; intros s E; [done|]. apply (IH (reject_one resp k s)).
  destruct (reject_one_rest resp k s) as (-> & _). rewrite E. cbn. by rewrite decide_True.
Qed.
End takeover.

(** ** The callback *)

Section takes_over.
Context {E : Type} `{EnsembleApi E} (me : nat) `{!@KazooLaws E (my_client me)}.
#[local] Hint Extern 0 (KazooApi E) => exact (my_client me) : typeclass_instances.
#[local] Hint Extern 0 (StorageApi (Store E)) => exact (my_storage me) : typeclass_instances.
Implicit Types c : ControllerServer E.

Lemma run_on_ensemble {A} (t : Co E A) c :
  run (on_ensemble t) c = let '(r, e) := run t (ensemble_of c) in (r, put_ensemble e c).
Proof. apply run_co_zoom; [done|done|]. intros [[[[] ?] ? ? ? ?] ? ? ? ? ? ?]. done. Qed.
Lemma run_on_server {A} (t : Co (Server (Store E)) A) c :
  run (on_server t) c = let '(r, s) := run t (server c) in (r, set_server s c).
Proof. apply run_co_zoom; [done|done|]. by intros []. Qed.

Lemma nobody_leads (e : E) : kz_ok e → kz_tree e !! _CONTROLLER_PATH = None → run ask_leader e = (Ok None, e).
Proof.
  intros He Hn. unfold ask_leader, ZKClient.get. run_co. rewrite run_to_thread.
  rewrite kz_get_ok by (done || by apply (zpath_child root (py "controller") root_ok)). rewrite Hn. reflexivity.
Qed.

Lemma broadcast_not_leader_run c : zk c = true → kz_ok (ensemble_of c) → kz_tree (ensemble_of c) !! _CONTROLLER_PATH = None →
  run (Ensemble._broadcast_not_leader me) c =
    (Ok tt, set_server (reject_all (packet (not_leader None)) (dict_keys (active_brokers (server c))) (server c)) c).
Proof.
  intros Hz He Hn. unfold Ensemble._broadcast_not_leader, Ensemble.get_leader. run_co. run. rewrite Hz.
  rewrite run_on_ensemble, nobody_leads by done. rewrite put_ensemble_same. run_co. run.
  destruct (encode_response (packet (not_leader None))) as [f|x] eqn:Ef; [|vm_compute in Ef; discriminate Ef].
  rewrite run_on_server. run_co. run. by rewrite reject_run.
Qed.

Lemma election_run c : zk c = true → election_lock (server c) = false →
  kz_ok (ensemble_of c) → is_Some (kz_tree (ensemble_of c) !! root) → kz_tree (ensemble_of c) !! _CONTROLLER_PATH = None →
  leader_ok (self_info c) →
  ∃ e, run (Ensemble._run_election me) c = (Ok tt, put_ensemble e (set_server (set_leader true (server c)) c)) ∧
    led_by e (self_info c).
Proof.
  intros Hz Hlock He Hroot Hn Hl. pose proof (ask_create_run (ensemble_of c) (self_info c) He Hroot Hl) as Hc.
  rewrite Hn in Hc. destruct Hc as (e & Ec & Hled). exists e. split; [|done].
  unfold Ensemble._run_election. run_co. run. rewrite Hz. run_co. cbn [run]. run_co. rewrite run_on_server. run_co. run.
  rewrite run_co_finally. run_co. run. run_co. rewrite run_on_ensemble.
  change (ensemble_of (set_server (set_lock true (server c)) c)) with (ensemble_of c).
  change (self_info (set_server (set_lock true (server c)) c)) with (self_info c). rewrite Ec.
  rewrite run_on_server. run_co. run. destruct c as [[[[] ?] ? ? ? ?] ? ? ? ? ? ?]. cbn in *. by subst.
Qed.

(** C26: a follower takes over.  When its watch fires because the znode of the leader is gone,
    the controller makes the znode itself and leads: whoever asks ZooKeeper is told so.
    Brokers it had are told that it does not lead, and their connections are closed, so
    that every one of them has to register again. *)
Theorem follower_takes_over c :
  zk c = true → election_lock (server c) = false →
  kz_ok (ensemble_of c) → is_Some (kz_tree (ensemble_of c) !! root) → kz_tree (ensemble_of c) !! _CONTROLLER_PATH = None →
  leader_ok (self_info c) → dict_ok (active_brokers (server c)) →
  ∃ c', run (Ensemble._on_leader_gone me) c = (Ok tt, c') ∧
    is_leader (server c') = true ∧ election_lock (server c') = false ∧ active_brokers (server c') = [] ∧
    run ask_leader (ensemble_of c') = (Ok (Some (self_info c)), ensemble_of c') ∧
    ∀ id a l, dict_get (active_brokers (server c)) id = Some a → links (server c) !! ab_link a = Some l →
      ∃ l', links (server c') !! ab_link a = Some l' ∧ told_off (packet (not_leader None)) l l'.
Proof.
  intros Hz Hlock He Hroot Hn Hl Hd. unfold Ensemble._on_leader_gone. run_co. rewrite run_on_server. run_co. run.
  set (c1 := set_server (set_leader false (server c)) c).
  run_co. rewrite (broadcast_not_leader_run c1) by done. set (ids := dict_keys (active_brokers (server c1))).
  set (s2 := reject_all _ ids (server c1)). destruct (reject_all_rest (packet (not_leader None)) ids (server c1)) as (Em & _ & Elock).
  change (reject_all _ _ _) with s2 in Em, Elock. set (c2 := set_server s2 c1).
  assert (ensemble_of c2 = ensemble_of c) as Ee by (unfold ensemble_of; change (server c2) with s2; by rewrite Em).
  assert (election_lock (server c2) = election_lock (server c)) as El2 by exact Elock.
  destruct (election_run c2) as (e & Er & Hled); [done|by rewrite El2|by rewrite Ee|by rewrite Ee|by rewrite Ee|done|].
  rewrite Er. eexists. split; [done|]. split; [reflexivity|]. split; [exact (eq_trans El2 Hlock)|].
  split; [exact (reject_all_active _ _ (server c1) eq_refl)|]. split; [exact (ask_leader_run e _ Hled)|].
  intros id a l Ha Hal. destruct (reject_all_link (packet (not_leader None)) ids (server c1) (ab_link a) l Hal) as (l' & Hl' & _ & Ht).
  exists l'. split; [exact Hl'|]. eapply (Ht id a); [|exact Hd|done|done].
  apply dict_get_elem in Ha. by apply (list_elem_of_fmap_2 fst) in Ha.
Qed.
End takes_over.

(** A ZooKeeper whose sessions never end. *)
#[local] Instance lasting : EnsembleApi Tree := {
  en_client _ := tree_kazoo;
  en_start _ := mret tt;
  en_stop _ := mret tt;
  en_close _ := mret tt;
  en_watch_data _ p := kz_get p;
  en_watch_exists _ p := kz_exists p }.
#[local] Instance lasting_laws : @KazooLaws Tree (my_client 1) := tree_laws.

(** A follower that still has a broker. *)
Definition follower : ControllerServer Tree :=
  mkController
    (mkServer (MetastoreManager.new_manager 2 (mkStore MetastoreStorage.new_storage sample_tree true))
       [(py "b1", mkActiveBroker 0 0 (py "127.0.0.1") 9092)] {[0%nat := mkLink true [] (Some (py "b1")) Reading]} false false)
    (candidate (py "c2") 9091) true true true (Some true) true.

Lemma follower_takes_over_witness :
  ∃ c l, run (Ensemble._on_leader_gone 1) follower = (Ok tt, c) ∧ is_leader (server c) = true ∧
    run ask_leader (ensemble_of c) = (Ok (Some (candidate (py "c2") 9091)), ensemble_of c) ∧
    links (server c) !! 0%nat = Some l ∧ link_open l = false ∧ answers l ≠ [].
Proof.
  destruct (follower_takes_over 1 follower) as (c & E & Hl & _ & _ & Ha & Ht).
  - reflexivity.
  - reflexivity.
  - exact I.
  - exists []. vm_compute. reflexivity.
  - vm_compute. reflexivity.
  - apply leader_fits_ok. vm_compute. reflexivity.
  - apply (bool_decide_unpack _). vm_compute. exact I.
  - destruct (Ht (py "b1") (mkActiveBroker 0 0 (py "127.0.0.1") 9092) (mkLink true [] (Some (py "b1")) Reading) eq_refl eq_refl)
      as (l & Hlink & Hc & Hlast).
    exists c, l. split; [exact E|]. split; [exact Hl|]. split; [exact Ha|]. split; [exact Hlink|]. split; [exact Hc|].
    intros He. specialize (Hlast eq_refl). rewrite He in Hlast. discriminate Hlast.
Defined.
