(* ===== verification/EnsembleRuns.v ===== *)
(** * Controllers that share ZooKeeper, in particular cases

    A ZooKeeper that obeys the laws, and runs over it: an election, a leader whose
    session expired, and a leader that is closed. *)
From Stdlib Require Import String.
From stdpp Require Import vector relations.
From S2P Require Import Prelude Coroutine PyData PyDict Messages Framer Encoder Parser Md5 Ring Metastore Controller Json JsonFacts Zk ZkFacts ZkTheorems AsyncTheorems Ensemble EnsembleFacts EnsembleTheorems.

(** ** A ZooKeeper *)

(** The znodes, the client whose session made that of the leader, the clients that
    lost a session and those that are closed. *)
Record Zoo := mkZoo {
  zoo_tree : Tree;
  holder : option nat;
  lost : gset nat;
  closed : gset nat }.

Definition on_tree {A} (i : nat) (m : M Tree A) : M Zoo A := λ z,
  if bool_decide (i ∈ closed z) then (Raise ConnectionError, z)
  else let '(r, t) := m (zoo_tree z) in (r, mkZoo t (holder z) (lost z) (closed z)).

Definition zoo_create (i : nat) (p : pystr) (raw : bytes) (ephemeral : bool) : M Zoo pystr := λ z,
  if bool_decide (p = _CONTROLLER_PATH) then
    match holder z with
    | Some _ => (Raise NodeExistsError, z)
    | None =>
        match on_tree i (kz_create p raw ephemeral) z with
        | (Ok q, z) => (Ok q, mkZoo (zoo_tree z) (Some i) (lost z) (closed z))
        | (Raise e, z) => (Raise e, z)
        end
    end
  else on_tree i (kz_create p raw ephemeral) z.

Definition end_session (i : nat) (z : Zoo) : Zoo :=
  if bool_decide (holder z = Some i)
  then mkZoo (delete _CONTROLLER_PATH (zoo_tree z)) None ({[i]} ∪ lost z) (closed z)
  else mkZoo (zoo_tree z) (holder z) ({[i]} ∪ lost z) (closed z).
Definition close_client (i : nat) (z : Zoo) : Zoo :=
  let z := end_session i z in mkZoo (zoo_tree z) (holder z) (lost z) ({[i]} ∪ closed z).

#[export] Instance zoo_api : EnsembleApi Zoo := {
  en_client i := {|
    kz_ensure_path p := on_tree i (kz_ensure_path p);
    kz_create := zoo_create i;
    kz_set p raw := on_tree i (kz_set p raw);
    kz_get p := on_tree i (kz_get p);
    kz_get_children p := on_tree i (kz_get_children p);
    kz_exists p := on_tree i (kz_exists p);
    kz_delete p := on_tree i (kz_delete p) |};
  en_start i := mret tt;
  en_stop i := modify (close_client i);
  en_close i := mret tt;
  en_watch_data i p := on_tree i (kz_get p);
  en_watch_exists i p := on_tree i (kz_exists p) }.

Definition zoo_step (z z' : Zoo) : Prop :=
  (∀ i, i ∈ lost z → i ∈ lost z') ∧ (∀ i, holder z = Some i → holder z' = Some i ∨ i ∈ lost z').

Lemma on_tree_step {A} (i : nat) (m : M Tree A) z : zoo_step z (on_tree i m z).2.
Proof. unfold on_tree. case_bool_decide; [split; auto|]. destruct (m (zoo_tree z)). split; auto. Qed.
Lemma zoo_same z : zoo_step z z.
Proof. split; auto. Qed.
Lemma zoo_create_step (i : nat) p raw b z : zoo_step z (zoo_create i p raw b z).2.
Proof.
  unfold zoo_create. case_bool_decide; [|apply on_tree_step].
  destruct (holder z) eqn:Eh; [apply zoo_same|]. pose proof (on_tree_step i (kz_create p raw b) z) as [Hl _].
  destruct (on_tree i (kz_create p raw b) z) as [[q|e] z']; cbn in *; (split; [done|by rewrite Eh]).
Qed.
Lemma end_session_step (i : nat) z : zoo_step z (end_session i z).
Proof.
  unfold end_session. case_bool_decide as Hh; (split; cbn; [set_solver|]); intros j Hj; [|by left].
  right. assert (j = i) as -> by congruence. set_solver.
Qed.

#[export] Instance zoo_laws : EnsembleLaws Zoo.
Proof.
  refine {| en_owner := holder; en_lost z i := i ∈ lost z; en_ends i z z' := z' = end_session i z |}.
  - intros i raw z q z' E. left. cbn in E. unfold zoo_create in E. rewrite bool_decide_eq_true_2 in E by done.
    destruct (holder z); [discriminate E|]. destruct (on_tree i _ z) as [[q'|e] z1]; [|discriminate E].
    injection E as _ <-. done.
  - intros i p raw b z. apply zoo_create_step.
  - intros i p z. apply on_tree_step.
  - intros i p raw z. apply on_tree_step.
  - intros i p z. apply on_tree_step.
  - intros i p z. apply on_tree_step.
  - intros i p z. apply on_tree_step.
  - intros i p z _. apply on_tree_step.
  - intros i z. apply zoo_same.
  - intros i z. apply end_session_step.
  - intros i z. apply zoo_same.
  - intros i p z. apply on_tree_step.
  - intros i z z' ->. apply end_session_step.
Defined.

(** ** Scripts *)

Abbreviation Zoos := (System Zoo 2).
Abbreviation State := (list (Co Zoos unit) * Zoos)%type.

Inductive doing := Starts | Closes | Watches | Accepts (j : nat) | Receives (now : Z) (j : nat) (data : read_result).

Definition doing_task (me : nat) (d : doing) (c : ControllerServer Zoo) : option (Co (ControllerServer Zoo) unit) :=
  match d with
  | Starts => Some (Ensemble.start me (Ok tt))
  | Closes => Some (Ensemble.close me)
  | Watches => if zk c then Some (Ensemble._on_leader_gone me) else None
  | Accepts j =>
      if bool_decide (listener c = Some true) && bool_decide (links (server c) !! j = None)
      then Some (handle_connection me 9 j) else None
  | Receives now j data =>
      if bool_decide (link_phase <$> links (server c) !! j = Some Reading) then Some (handle_frame me 9 now j data) else None
  end.

Inductive move := Begin (i : fin 2) (d : doing) | Go (k steps : nat) | Expire (i : fin 2).

Definition do_move (x : State) (m : move) : option State :=
  match m with
  | Begin i d => (λ t, AsyncTheorems.start x (co_zoom (view i) (set_view i) t)) <$> doing_task i d (view i x.2)
  | Go k steps => Some (fold_left play (repeat k steps) x)
  | Expire i => Some (x.1, mkSystem (end_session i (shared x.2)) (controllers x.2))
  end.
Fixpoint do_moves (x : State) (ms : list move) : option State :=
  match ms with
  | [] => Some x
  | m :: ms => y ← do_move x m; do_moves y ms
  end.

Lemma doing_task_ok me d c t : doing_task me d c = Some t → controller_task me c t.
Proof.
  destruct d as [| | |j|now j data]; cbn [doing_task].
  - intros [= <-]. apply does_start.
  - intros [= <-]. apply does_close.
  - destruct (zk c) eqn:E; intros [= <-]. by apply does_watch.
  - case_bool_decide; [|done]. case_bool_decide; [|done]. intros [= <-]. by apply does_accept.
  - case_bool_decide as Hp; [|done]. intros [= <-]. apply fmap_Some in Hp as (l & Hl & Hp). by apply (does_frame _ _ 9 _ _ _ l).
Qed.

Lemma do_moves_run x ms y : do_moves x ms = Some y → system_run x y.
Proof.
  revert x. induction ms as [|m ms IH]; intros x; cbn; [by intros [= ->]|]. intros (z & Hz & Hy)%bind_Some.
  etrans; [|by apply IH]. destruct m as [i d|k steps|i]; cbn in Hz.
  - apply fmap_Some in Hz as (t & Ht & ->). apply rtc_once. destruct x as [ts s]. unfold AsyncTheorems.start. cbn.
    destruct (resume _ s) as [c' s'] eqn:E. eapply sched_spawn; [|exact E]. constructor. by eapply doing_task_ok.
  - injection Hz as <-. apply plays_run.
  - injection Hz as <-. apply rtc_once. destruct x as [ts s]. apply sched_env. by apply (event_session _ i).
Qed.

(** Two controllers that have not connected yet. *)
Definition fresh_controller (port : Z) : ControllerServer unit :=
  match new_controller (py "127.0.0.1") port 2 true [] tt with
  | Ok c => c
  | Raise _ => mkController (mkServer (MetastoreManager.new_manager 2 (mkStore MetastoreStorage.new_storage tt false)) [] ∅ true false)
                 (mkLeaderInfo [] [] 0) true false false None false
  end.
Definition two_controllers : Zoos := mkSystem (mkZoo ∅ None ∅ ∅) [# fresh_controller 9090; fresh_controller 9091].
Abbreviation c0 := (0%fin : fin 2).
Abbreviation c1 := (1%fin : fin 2).

(** What is seen of a controller: whether it accepts connections and whether it leads. *)
Definition seen (s : Zoos) (i : fin 2) : option bool * bool :=
  (listener (controllers s !!! i), is_leader (server (controllers s !!! i))).

Definition opening : list move := [Begin c0 Starts; Go 0 20; Begin c1 Starts; Go 1 20].

Definition command_frame (cmd : Command) : read_result :=
  Controller.Frame (match encode_command (packet cmd) false with Ok f => drop 4 (ef_header f) | Raise _ => [] end).
Definition joins (now : Z) : doing := Receives now 0 (command_frame (BrokerRegisterCommand (py "b1") (py "127.0.0.1") 9092)).

(** A broker registers at the first controller and makes a topic. *)
Definition working : list move :=
  [Begin c0 (Accepts 0); Begin c0 (joins 0); Go 3 10;
   Begin c0 (Receives 1 0 (command_frame (RegisterTopicCommand (py "orders")))); Go 4 10].
(** The controller is closed.  While it waits for its server, the broker sends a ping. *)
Definition closing : list move :=
  [Begin c0 Closes; Begin c0 (Receives 2 0 (command_frame (ControllerPingCommand (py "b1")))); Go 6 20; Go 5 20].
(** The other controller takes over, and the broker registers there. *)
Definition taking_over : list move :=
  [Begin c1 Watches; Go 7 20; Begin c1 (Accepts 0); Begin c1 (joins 3); Go 9 10].

Definition stored_topic (s : Zoos) : option (list Z * list (list Z)) :=
  match (run (ZKMetastoreStorage.get_topic (H := my_client 1) (py "orders")) (shared s)).1 with
  | Ok (Some t) => Some (leader_id t, replica_list t)
  | _ => None
  end.
Definition registered (s : Zoos) (i : fin 2) : list (list Z) := dict_keys (active_brokers (server (controllers s !!! i))).

(** What there is to see after some moves: how the tasks ended, both controllers with
    the brokers they know, the holder of the znode and the topic. *)
Record Observed := mkObserved {
  ended : list (option (result unit));
  first_seen : option bool * bool * list (list Z);
  second_seen : option bool * bool * list (list Z);
  held_by : option nat;
  sessions_lost : list nat;
  topic_seen : option (list Z * list (list Z)) }.
Definition observe (x : State) : Observed :=
  mkObserved (outcome_of <$> x.1) (seen x.2 c0, registered x.2 c0) (seen x.2 c1, registered x.2 c1) (holder (shared x.2))
    (elements (lost (shared x.2))) (stored_topic x.2).
Definition all_well (k : nat) : list (option (result unit)) := repeat (Some (Ok tt)) k.
Definition expiring : list move := [Expire c0; Begin c1 Watches; Go 2 20].

Lemma opening_computed :
  observe <$> do_moves ([], two_controllers) opening =
    Some (mkObserved (all_well 2) (Some true, true, []) (Some true, false, []) (Some 0%nat) [] None).
Proof. vm_compute. reflexivity. Qed.
Lemma expired_computed :
  observe <$> do_moves ([], two_controllers) (opening ++ expiring) =
    Some (mkObserved (all_well 3) (Some true, true, []) (Some true, true, []) (Some 1%nat) [0%nat] None).
Proof. vm_compute. reflexivity. Qed.
Lemma working_computed :
  observe <$> do_moves ([], two_controllers) (opening ++ working) =
    Some (mkObserved (all_well 5) (Some true, true, [py "b1"]) (Some true, false, []) (Some 0%nat) [] (Some (py "b1", [py "b1"]))).
Proof. vm_compute. reflexivity. Qed.
Lemma handover_computed :
  observe <$> do_moves ([], two_controllers) ((opening ++ working) ++ closing ++ taking_over) =
    Some (mkObserved (all_well 10) (Some false, true, []) (Some true, true, [py "b1"]) (Some 1%nat) [0%nat] (Some (py "", []))).
Proof. vm_compute. reflexivity. Qed.

Lemma do_moves_app x ms ms' : do_moves x (ms ++ ms') = y ← do_moves x ms; do_moves y ms'.
Proof. revert x. induction ms as [|m ms IH]; intros x; cbn; [done|]. destruct (do_move x m); [apply IH|done]. Qed.

Lemma observed x ms o : observe <$> do_moves x ms = Some o → ∃ ts s, system_run x (ts, s) ∧ do_moves x ms = Some (ts, s) ∧ observe (ts, s) = o.
Proof. intros (y & Hy & Hm)%fmap_Some. destruct y as [ts s]. exists ts, s. split; [by eapply do_moves_run|]. split; congruence. Qed.

(** No task changes whether a controller is configured with ZooKeeper. *)
Lemma both_configured (i : fin 2) : zk_hosts (controllers two_controllers !!! i) = true.
Proof. inv_fin i; [done|]. intros i. inv_fin i; [done|]. intros i. inv_fin i. Qed.
Lemma both_fresh (i : fin 2) : listener (controllers two_controllers !!! i) = None.
Proof. inv_fin i; [done|]. intros i. inv_fin i; [done|]. intros i. inv_fin i. Qed.
Lemma seen_leads ts s i : system_run ([], two_controllers) (ts, s) → seen s i = (Some true, true) → leads s i.
Proof.
  intros Hrun [= Hl Hi]. split_and!; [|done..]. destruct (system_run_ok _ _ Hrun) as [_ Hlater].
  { split; [|constructor]. intros j. unfold ctl_ok. cbn. by rewrite both_fresh. }
  destruct (Hlater i) as [Hz _]. cbn in Hz. by rewrite Hz, both_configured.
Qed.

(** Whoever else leads without having lost a session is the one that holds the znode. *)
Lemma one_leader_at_a_time_witness :
  ∃ ts s, system_run ([], two_controllers) (ts, s) ∧ leads s c0 ∧ ∀ j : fin 2, leads s j → ¬ en_lost (shared s) j → c0 = j.
Proof.
  destruct (observed _ _ _ opening_computed) as (ts & s & Hrun & Em & Ho). exists ts, s. split; [exact Hrun|].
  assert (leads s c0) as Hl by (eapply seen_leads; [exact Hrun|]; exact (f_equal (λ o, (first_seen o).1) Ho)).
  split; [exact Hl|]. intros j Hj Lj. refine (one_leader_at_a_time _ ts s c0 j both_fresh Hrun Hl Hj _ Lj).
  intros H0. change (0%nat ∈ lost (shared s)) in H0. apply elem_of_elements in H0. pose proof (f_equal sessions_lost Ho) as He. cbn in He. rewrite He in H0.
  by apply elem_of_nil in H0.
Defined.

(** A leader whose session is over does not notice.  The session of the elected
    controller ends, the znode goes with it and the other controller, which watches it,
    is elected; the first one has set no watch, and both of them accept brokers as the
    leader from then on. *)
Theorem expired_leader_serves :
  ∃ ts s ts' s', system_run ([], two_controllers) (ts, s) ∧ leads s c0 ∧ ¬ leads s c1 ∧
    system_run (ts, s) (ts', s') ∧ outcome_of <$> ts' = all_well 3 ∧ leads s' c0 ∧ leads s' c1.
Proof.
  pose proof expired_computed as He. rewrite do_moves_app in He.
  destruct (observed _ _ _ opening_computed) as (ts & s & Hrun & Em & Ho). rewrite Em in He.
  apply observed in He as (ts' & s' & Hrun' & _ & Ho'). exists ts, s, ts', s'.
  assert (system_run ([], two_controllers) (ts', s')) as Hall by by etrans.
  split_and!; [done| | |done| | |].
  - apply (seen_leads ts); [done|]. exact (f_equal (λ o, (first_seen o).1) Ho).
  - intros (_ & _ & Hl). pose proof (f_equal (λ o, (second_seen o).1.2) Ho) as Hf. cbn in Hf. by rewrite Hl in Hf.
  - exact (f_equal ended Ho').
  - apply (seen_leads ts'); [done|]. exact (f_equal (λ o, (first_seen o).1) Ho').
  - apply (seen_leads ts'); [done|]. exact (f_equal (λ o, (second_seen o).1) Ho').
Qed.

(** C27: closing a leader may make a topic unusable: there is a run of two controllers in
    which it does.  The first one leads, with one broker that is all a topic is on.  While
    its [close] waits, the connection of the broker, which is still there, ends after its
    next command, since the server is not running any more, and the broker is
    deregistered as if it had failed.  The broker registers at the next leader, every
    task has ended well, and the topic is left with no leader and no replicas. *)
Theorem handover_orphans_topics :
  ∃ ts s ts' s', system_run ([], two_controllers) (ts, s) ∧ leads s c0 ∧ registered s c0 = [py "b1"] ∧
    stored_topic s = Some (py "b1", [py "b1"]) ∧
    system_run (ts, s) (ts', s') ∧ outcome_of <$> ts' = all_well 10 ∧ leads s' c1 ∧ registered s' c1 = [py "b1"] ∧
    stored_topic s' = Some (py "", []).
Proof.
  pose proof handover_computed as He. rewrite do_moves_app in He.
  destruct (observed _ _ _ working_computed) as (ts & s & Hrun & Em & Ho). rewrite Em in He.
  apply observed in He as (ts' & s' & Hrun' & _ & Ho'). exists ts, s, ts', s'.
  assert (system_run ([], two_controllers) (ts', s')) as Hall by by etrans.
  split_and!; [done| | | |done| | | |].
  - apply (seen_leads ts); [done|]. exact (f_equal (λ o, (first_seen o).1) Ho).
  - exact (f_equal (λ o, (first_seen o).2) Ho).
  - exact (f_equal topic_seen Ho).
  - exact (f_equal ended Ho').
  - apply (seen_leads ts'); [done|]. exact (f_equal (λ o, (second_seen o).1) Ho').
  - exact (f_equal (λ o, (second_seen o).2) Ho').
  - exact (f_equal topic_seen Ho').
Qed.
