(* ===== verification/Config.v ===== *)
(** * The configuration

    [config.py] of the broker and of the controller and [main.py] of the controller.
    What [open] and [yaml.safe_load] make of a file is an input: a value of the types
    that JSON has, or the exception they raise.  [dataclass] does not look at the types
    of its fields, so that they are such values here. *)
From Stdlib Require Import String.
From S2P Require Import Prelude PyData PyDict Json.

(** ** Keyword arguments *)

(** [f( **d )] for a function with these parameters and their defaults: the arguments in
    the order of the parameters. *)
Fixpoint bind_parameters (params : list (list Z * option Json)) (d : list (list Z * Json)) : result (list Json) :=
  match params with
  | [] => Ok []
  | (name, default) :: params =>
      v ← or_raise (match dict_get d name with Some v => Some v | None => default end) TypeError;
      vs ← bind_parameters params d;
      Ok (v :: vs)
  end.

Definition keyword_arguments (params : list (list Z * option Json)) (d : Json) : result (list Json) :=
  match d with
  | JDict d =>
      _ ← require (forallb (λ k, bool_decide (k ∈ params.*1)) (dict_keys d)) TypeError;
      bind_parameters params d
  | _ => Raise TypeError
  end.

(** [for x in v] *)
Definition iterate (v : Json) : result (list Json) :=
  match v with
  | JList l => Ok l
  | JDict d => Ok (map JStr (dict_keys d))
  | JStr s => Ok (map (λ c, JStr [c]) s)
  | _ => Raise TypeError
  end.

Fixpoint map_result {A B} (f : A → result B) (l : list A) : result (list B) :=
  match l with
  | [] => Ok []
  | x :: l => y ← f x; ys ← map_result f l; Ok (y :: ys)
  end.

(** ** The broker *)

Module BrokerSettings.
Record LogConfig := mkLogConfig {
  log_dir : Json;
  retension_ms : Json;
  rollover_ms : Json;
  max_segment_size : Json;
  init_segment_size : Json;
  segment_size_inc : Json;
  segment_cache_size : Json;
  cleaner_service_interval : Json;
  flush_service_interval : Json }.

Record WriterConfig := mkWriterConfig {
  max_batch_size : Json;
  max_batch_bytes : Json;
  max_batch_wait : Json;
  max_workers : Json }.

Record ControllerAddress := mkControllerAddress {
  controller_id : Json;
  controller_host : Json;
  controller_port : Json }.

Record BrokerConfig := mkBrokerConfig {
  host : Json;
  port : Json;
  controller_list : list ControllerAddress;
  checksum_enable : Json;
  writer_config : WriterConfig;
  offset_topic : Json }.

Record ReplicaConfig := mkReplicaConfig {
  id : Json;
  fetch_size : Json;
  pool_wait : Json;
  min_isr_count : Json;
  max_isr_lag_ms : Json }.

Record Config := mkConfig {
  broker : BrokerConfig;
  log : LogConfig;
  replica : ReplicaConfig }.

Definition log_parameters : list (list Z * option Json) :=
  [(py "log_dir", None); (py "retension_ms", None); (py "rollover_ms", None); (py "max_segment_size", None);
   (py "init_segment_size", None); (py "segment_size_inc", None); (py "segment_cache_size", Some (JInt 100));
   (py "cleaner_service_interval", Some (JFloat (py "2.0"))); (py "flush_service_interval", Some (JFloat (py "2.0")))].
Definition writer_parameters : list (list Z * option Json) :=
  [(py "max_batch_size", Some (JInt 64)); (py "max_batch_bytes", Some (JInt (1024 * 1024)));
   (py "max_batch_wait", Some (JFloat (py "0.002"))); (py "max_workers", Some (JInt 4))].
Definition address_parameters : list (list Z * option Json) :=
  [(py "controller_id", None); (py "host", None); (py "port", None)].
Definition replica_parameters : list (list Z * option Json) :=
  [(py "id", None); (py "fetch_size", Some (JInt (1024 * 1024))); (py "pool_wait", Some (JInt 1));
   (py "min_isr_count", Some (JInt 2)); (py "max_isr_lag_ms", Some (JInt 10000))].

(** The constructors; the other branch is not reached, as the lists have the length of
    the parameters. *)
Definition new_log_config (d : Json) : result LogConfig :=
  vs ← keyword_arguments log_parameters d;
  match vs with
  | [a; b; c; e; f; g; h; i; j] => Ok (mkLogConfig a b c e f g h i j)
  | _ => Raise TypeError
  end.
Definition new_writer_config (d : Json) : result WriterConfig :=
  vs ← keyword_arguments writer_parameters d;
  match vs with [a; b; c; e] => Ok (mkWriterConfig a b c e) | _ => Raise TypeError end.
Definition new_address (d : Json) : result ControllerAddress :=
  vs ← keyword_arguments address_parameters d;
  match vs with [a; b; c] => Ok (mkControllerAddress a b c) | _ => Raise TypeError end.
Definition new_replica_config (d : Json) : result ReplicaConfig :=
  vs ← keyword_arguments replica_parameters d;
  match vs with [a; b; c; e; f] => Ok (mkReplicaConfig a b c e f) | _ => Raise TypeError end.

Definition load_config (file : result Json) : result Config :=
  data ← file;
  broker_data ← item data (py "broker");
  host ← item broker_data (py "host");
  port ← item broker_data (py "port");
  checksum_enable ← item broker_data (py "checksum_enable");
  offset_topic ← item_or broker_data (py "offset_topic") (JStr (py "__consumer_offset"));
  writer_config ← item broker_data (py "writer_config") ≫= new_writer_config;
  controllers ← item_or broker_data (py "controllers") (JList []) ≫= iterate;
  controller_list ← map_result new_address controllers;
  log ← item data (py "log") ≫= new_log_config;
  replica ← item data (py "replica") ≫= new_replica_config;
  Ok (mkConfig (mkBrokerConfig host port controller_list checksum_enable writer_config offset_topic) log replica).
End BrokerSettings.

(** ** The controller *)

Module ControllerSettings.
Record ControllerConfig := mkControllerConfig {
  host : Json;
  port : Json;
  zk_hosts : Json;
  controller_id : Json }.

Definition load_config (file : result Json) : result ControllerConfig :=
  data ← file;
  ctrl ← item_or data (py "controller") (JDict []);
  host ← item ctrl (py "host");
  port ← item ctrl (py "port");
  zk_hosts ← item_or ctrl (py "zk_hosts") (JStr (py "127.0.0.1:2181"));
  controller_id ← item_or ctrl (py "controller_id") (JStr []);
  Ok (mkControllerConfig host port zk_hosts controller_id).

(** The arguments of the command line, [JNull] when they are not given. *)
Record Arguments := mkArguments {
  arg_host : Json;
  arg_port : Json;
  arg_zk_hosts : Json;
  arg_controller_id : Json }.

(** [x or y] *)
Definition py_or (x y : Json) : Json := if truthy x then x else y.

(** What [main] gives to [ControllerServer]; any exception of [load_config] leaves the
    defaults. *)
Definition main_settings (args : Arguments) (file : result Json) : ControllerConfig :=
  let '(host, port, zk_hosts, controller_id) :=
    match load_config file with
    | Ok cfg => (host cfg, port cfg, py_or (zk_hosts cfg) JNull, controller_id cfg)
    | Raise _ => (JStr (py "127.0.0.1"), JInt 9093, JNull, JStr [])
    end in
  mkControllerConfig
    (if truthy (arg_host args) then arg_host args else host)
    (if truthy (arg_port args) then arg_port args else port)
    (if truthy (arg_zk_hosts args) then arg_zk_hosts args else zk_hosts)
    (if truthy (arg_controller_id args) then arg_controller_id args else controller_id).
End ControllerSettings.

(** ** Keyword arguments *)

(** The value of a parameter: what is given, or else its default. *)
Definition given (d : list (list Z * Json)) (param : list Z * option Json) (v : Json) : Prop :=
  dict_get d param.1 = Some v ∨ dict_get d param.1 = None ∧ param.2 = Some v.

(** A section that names only these parameters, with their values. *)
Definition section (params : list (list Z * option Json)) (d : Json) (vs : list Json) : Prop :=
  ∃ kvs, d = JDict kvs ∧ (∀ k, k ∈ dict_keys kvs → k ∈ params.*1) ∧ Forall2 (given kvs) params vs.

Lemma given_Ok d name default v e :
  or_raise (match dict_get d name with Some v => Some v | None => default end) e = Ok v ↔ given d (name, default) v.
Proof.
  unfold given. cbn. destruct (dict_get d name) as [w|]; cbn; [naive_solver|]. destruct default; cbn; naive_solver.
Qed.

Lemma bind_parameters_Ok params d vs : bind_parameters params d = Ok vs ↔ Forall2 (given d) params vs.
Proof.
  revert vs. induction params as [|[name default] params IH]; intros vs; cbn [bind_parameters].
  - split; [by intros [= <-]|]. by intros ->%Forall2_nil_inv_l.
  - rewrite bind_Ok. setoid_rewrite given_Ok. setoid_rewrite bind_Ok. split.
    + intros (v & Hv & l & Hl%IH & [= <-]). by constructor.
    + intros (v & l & Hv & Hl & ->)%Forall2_cons_inv_l. exists v. split; [done|]. exists l. by rewrite IH.
Qed.

Lemma keyword_arguments_Ok params d vs : keyword_arguments params d = Ok vs ↔ section params d vs.
Proof.
  unfold keyword_arguments, section. destruct d; try by split; [done|intros (? & ? & _)].
  rewrite bind_Ok. setoid_rewrite bind_parameters_Ok. split.
  - intros ([] & Hr & Hl). exists d. split; [done|]. split; [|done]. unfold require in Hr. case_match eqn:Hf; [|done].
    intros k Hk. rewrite forallb_forall in Hf. apply list_elem_of_In, Hf in Hk. by apply bool_decide_eq_true in Hk.
  - intros (kvs & [= <-] & Hk & Hl). exists tt. split; [|done]. unfold require.
    replace (forallb _ _) with true; [done|]. symmetry. apply forallb_forall. intros k Hin%list_elem_of_In%Hk.
    by apply bool_decide_eq_true.
Qed.

Lemma item_dict kvs k v : item (JDict kvs) k = Ok v ↔ dict_get kvs k = Some v.
Proof. cbn. destruct (dict_get kvs k); cbn; naive_solver. Qed.

Lemma item_or_Ok d k default v : item_or d k default = Ok v ↔ ∃ kvs, d = JDict kvs ∧ given kvs (k, Some default) v.
Proof.
  unfold item_or, given. destruct d; try by split; [done|intros (? & ? & _)]. split.
  - intros H. exists d. split; [done|]. cbn. destruct (dict_get d k); [left|right]; naive_solver.
  - intros (kvs & [= <-] & H). cbn in H. destruct (dict_get d k); naive_solver.
Qed.

Lemma item_or_dict kvs k default v : item_or (JDict kvs) k default = Ok v ↔ given kvs (k, Some default) v.
Proof. rewrite item_or_Ok. naive_solver. Qed.

Lemma map_result_Ok {A B} (f : A → result B) l ys : map_result f l = Ok ys ↔ Forall2 (λ x y, f x = Ok y) l ys.
Proof.
  revert ys. induction l as [|x l IH]; intros ys; cbn [map_result].
  - split; [by intros [= <-]|]. by intros ->%Forall2_nil_inv_l.
  - rewrite bind_Ok. setoid_rewrite bind_Ok. split.
    + intros (y & Hy & l' & Hl%IH & [= <-]). by constructor.
    + intros (y & l' & Hy & Hl & ->)%Forall2_cons_inv_l. exists y. split; [done|]. exists l'. by rewrite IH.
Qed.

(** ** The broker *)

Import BrokerSettings.

Definition log_fields (c : LogConfig) : list Json :=
  [log_dir c; retension_ms c; rollover_ms c; max_segment_size c; init_segment_size c; segment_size_inc c;
   segment_cache_size c; cleaner_service_interval c; flush_service_interval c].
Definition writer_fields (c : WriterConfig) : list Json :=
  [max_batch_size c; max_batch_bytes c; max_batch_wait c; max_workers c].
Definition address_fields (a : ControllerAddress) : list Json := [controller_id a; controller_host a; controller_port a].
Definition replica_fields (c : ReplicaConfig) : list Json :=
  [id c; fetch_size c; pool_wait c; min_isr_count c; max_isr_lag_ms c].

Lemma section_length params d vs : section params d vs → length vs = length params.
Proof. intros (kvs & _ & _ & Hl). by apply Forall2_length in Hl. Qed.

Ltac fields_of :=
  rewrite bind_Ok; setoid_rewrite keyword_arguments_Ok; split;
  [intros (vs & Hs & E); pose proof (section_length _ _ _ Hs);
   repeat (destruct vs as [|? vs]; try discriminate); by injection E as <-
  |intros Hs; eexists; split; [exact Hs|]; by match goal with |- _ = Ok ?c => destruct c end].

Lemma new_log_config_Ok d c : new_log_config d = Ok c ↔ section log_parameters d (log_fields c).
Proof. unfold new_log_config. fields_of. Qed.
Lemma new_writer_config_Ok d c : new_writer_config d = Ok c ↔ section writer_parameters d (writer_fields c).
Proof. unfold new_writer_config. fields_of. Qed.
Lemma new_address_Ok d c : new_address d = Ok c ↔ section address_parameters d (address_fields c).
Proof. unfold new_address. fields_of. Qed.
Lemma new_replica_config_Ok d c : new_replica_config d = Ok c ↔ section replica_parameters d (replica_fields c).
Proof. unfold new_replica_config. fields_of. Qed.

Lemma addresses_Ok l cs : map_result new_address l = Ok cs ↔ Forall2 (λ d a, section address_parameters d (address_fields a)) l cs.
Proof. rewrite map_result_Ok. split; intros H; (eapply Forall2_impl; [exact H|]); intros d a; by rewrite new_address_Ok. Qed.

(** What a document says, read as a specification. *)
Record describes (data : Json) (c : Config) : Prop := {
  de_broker : ∃ b, item data (py "broker") = Ok (JDict b) ∧
    dict_get b (py "host") = Some (host (broker c)) ∧
    dict_get b (py "port") = Some (port (broker c)) ∧
    dict_get b (py "checksum_enable") = Some (checksum_enable (broker c)) ∧
    given b (py "offset_topic", Some (JStr (py "__consumer_offset"))) (offset_topic (broker c)) ∧
    (∃ w, dict_get b (py "writer_config") = Some w ∧
       section writer_parameters w (writer_fields (writer_config (broker c)))) ∧
    ∃ v l, given b (py "controllers", Some (JList [])) v ∧ iterate v = Ok l ∧
      Forall2 (λ d a, section address_parameters d (address_fields a)) l (controller_list (broker c));
  de_log : ∃ d, item data (py "log") = Ok d ∧ section log_parameters d (log_fields (log c));
  de_replica : ∃ d, item data (py "replica") = Ok d ∧ section replica_parameters d (replica_fields (replica c)) }.

(** The exceptions of a document that is not a configuration. *)
Definition refused (e : exn) : Prop := e = KeyError ∨ e = TypeError.

Definition raises_refused {A} (m : result A) : Prop := match m with Ok _ => True | Raise e => refused e end.
Lemma refused_bind {A B} (m : result A) (f : A → result B) :
  raises_refused m → (∀ a, m = Ok a → raises_refused (f a)) → raises_refused (m ≫= f).
Proof. destruct m; cbn; auto. Qed.
Lemma refused_item d k : raises_refused (item d k).
Proof. unfold item. destruct d; try by right. destruct (dict_get d k); [done|by left]. Qed.
Lemma refused_arguments params d : raises_refused (keyword_arguments params d).
Proof.
  unfold keyword_arguments. destruct d; try by right. apply refused_bind.
  - unfold require. case_match; [done|by right].
  - intros _ _. induction params as [|[name default] params IH]; [done|]. cbn [bind_parameters]. apply refused_bind.
    + destruct (dict_get d name); [done|]. destruct default; [done|by right].
    + intros v _. by apply refused_bind.
Qed.
Lemma refused_iterate v : raises_refused (iterate v).
Proof. destruct v; try done; by right. Qed.
Lemma refused_map {A B} (f : A → result B) l : (∀ x, raises_refused (f x)) → raises_refused (map_result f l).
Proof.
  intros Hf. induction l as [|x l IH]; [done|]. cbn [map_result]. apply refused_bind; [done|]. intros y _.
  by apply refused_bind.
Qed.
Lemma refused_item_or kvs k default : raises_refused (item_or (JDict kvs) k default).
Proof. done. Qed.
Lemma refused_Ok {A} (a : A) : raises_refused (Ok a).
Proof. done. Qed.
Lemma refused_fields {A} params d (f : list Json → result A) :
  (∀ vs, raises_refused (f vs)) → raises_refused (vs ← keyword_arguments params d; f vs).
Proof. intros Hf. apply refused_bind; [apply refused_arguments|auto]. Qed.

Create HintDb refused.
#[local] Hint Resolve refused_item refused_item_or refused_iterate refused_map refused_Ok : refused.
Ltac refuses := intros; apply refused_fields; intros; repeat case_match; try done; by right.
Lemma refused_writer d : raises_refused (new_writer_config d).
Proof. refuses. Qed.
Lemma refused_log d : raises_refused (new_log_config d).
Proof. refuses. Qed.
Lemma refused_address d : raises_refused (new_address d).
Proof. refuses. Qed.
Lemma refused_replica d : raises_refused (new_replica_config d).
Proof. refuses. Qed.
#[local] Hint Resolve refused_writer refused_log refused_address refused_replica : refused.

(** C24: a configuration is loaded as the document says.  [load_config] gives a configuration
    exactly when the document describes it: every field has the value the document gives
    it, or its default where it has one, and no section names an unknown setting; any
    other document raises [KeyError] or [TypeError]. *)
Theorem load_config_correct data :
  (∀ c, load_config (Ok data) = Ok c ↔ describes data c) ∧
  (∀ e, load_config (Ok data) = Raise e → refused e).
Proof.
  split.
  - intros c. unfold load_config. cbn [mbind result_bind]. split.
    + intros H. repeat (apply bind_Ok in H as (? & ? & H)). injection H as <-.
      repeat match goal with H : item _ _ ≫= _ = Ok _ |- _ => apply bind_Ok in H as (? & ? & H)
        | H : item_or _ _ _ ≫= _ = Ok _ |- _ => apply bind_Ok in H as (? & ? & H)
        | H : item_or _ _ _ = Ok _ |- _ => apply item_or_Ok in H as (? & -> & H)
        | H : item (JDict _) _ = Ok _ |- _ => apply item_dict in H
        | H : new_writer_config _ = Ok _ |- _ => apply new_writer_config_Ok in H
        | H : new_log_config _ = Ok _ |- _ => apply new_log_config_Ok in H
        | H : new_replica_config _ = Ok _ |- _ => apply new_replica_config_Ok in H
        | H : map_result _ _ = Ok _ |- _ => apply addresses_Ok in H
        end.
      match goal with H : item_or (JDict _) _ _ = Ok _ |- _ => apply item_or_dict in H end.
      split; cbn [broker log replica host port checksum_enable offset_topic writer_config controller_list]; eauto 20.
    + intros [(b & Hb & Hh & Hp & Hck & Ho & (w & Hw & Hws) & v & l & Hv & Hl & Hcs) (d & Hd & Hds) (d' & Hr & Hrs)].
      rewrite Hb. cbn [mbind result_bind]. apply item_dict in Hh, Hp, Hck, Hw. apply item_or_dict in Ho, Hv.
      apply new_writer_config_Ok in Hws. apply new_log_config_Ok in Hds. apply new_replica_config_Ok in Hrs.
      apply addresses_Ok in Hcs.
      rewrite Hh, Hp, Hck, Ho. cbn [mbind result_bind]. rewrite Hw. cbn [mbind result_bind]. rewrite Hws, Hv.
      cbn [mbind result_bind]. rewrite Hl. cbn [mbind result_bind]. rewrite Hcs, Hd. cbn [mbind result_bind].
      rewrite Hds, Hr. cbn [mbind result_bind]. rewrite Hrs. cbn. by destruct c as [[] ? ?].
  - intros e E. assert (raises_refused (load_config (Ok data))) as Hr; [|by rewrite E in Hr].
    clear E. unfold load_config. cbn [mbind result_bind].
    apply refused_bind; [apply refused_item|]. intros b _. apply refused_bind; [apply refused_item|]. intros h Hh.
    assert (∃ kvs, b = JDict kvs) as [kvs ->] by (destruct b; try discriminate; by eexists).
    repeat (apply refused_bind; [first [by auto with refused|apply refused_bind; auto with refused]|intros ? _]).
    done.
Qed.

(** ** Witness

    The [config.yaml] of the repository. *)
Definition address (id : string) (p : Z) : Json :=
  JDict [(py "controller_id", JStr (py id)); (py "host", JStr (py "127.0.0.1")); (py "port", JInt p)].
Definition repository_config : Json := JDict [
  (py "broker", JDict [
    (py "host", JStr (py "127.0.0.1")); (py "port", JInt 9092); (py "checksum_enable", JBool true);
    (py "offset_topic", JStr (py "__consumer_offset"));
    (py "controllers", JList [address "controller-1" 9093; address "controller-2" 9094; address "controller-3" 9095]);
    (py "writer_config", JDict [
      (py "max_batch_size", JInt 64); (py "max_batch_bytes", JInt 1048576);
      (py "max_batch_wait", JFloat (py "0.002")); (py "max_workers", JInt 4)])]);
  (py "controller", JDict [
    (py "host", JStr (py "127.0.0.1")); (py "port", JInt 9093); (py "zk_hosts", JStr (py "127.0.0.1:2181"));
    (py "controller_id", JStr (py "controller-1"))]);
  (py "log", JDict [
    (py "log_dir", JStr (py "./data/logs")); (py "retension_ms", JInt 604800000); (py "rollover_ms", JInt 3600000);
    (py "max_segment_size", JInt 134217728); (py "init_segment_size", JInt 16777216);
    (py "segment_size_inc", JInt 16777216); (py "segment_cache_size", JInt 100);
    (py "cleaner_service_interval", JFloat (py "2.0")); (py "flush_service_interval", JFloat (py "2.0"))]);
  (py "replica", JDict [
    (py "id", JStr (py "replica1")); (py "fetch_size", JInt 1048576); (py "pool_wait", JInt 1);
    (py "min_isr_count", JInt 1); (py "max_isr_lag_ms", JInt 10000)])].

Definition loaded_config : option Config := Eval vm_compute in
  match load_config (Ok repository_config) with Ok c => Some c | Raise _ => None end.

Lemma load_config_correct_witness :
  match loaded_config with
  | Some c => describes repository_config c ∧ length (controller_list (broker c)) = 3%nat ∧
      refused KeyError ∧ load_config (Ok (JDict [])) = Raise KeyError
  | None => False
  end.
Proof.
  split; [|split; [reflexivity|split; [|reflexivity]]].
  - apply (proj1 (load_config_correct repository_config)). vm_compute. reflexivity.
  - apply (proj2 (load_config_correct (JDict []))). reflexivity.
Defined.

(** The settings of the controller: the argument where it is given and not empty, else
    what the file says, else the defaults; a file that cannot be loaded leaves a
    controller without ZooKeeper. *)
Lemma main_settings_unloaded args file e :
  ControllerSettings.load_config file = Raise e → ControllerSettings.arg_zk_hosts args = JNull →
  ControllerSettings.zk_hosts (ControllerSettings.main_settings args file) = JNull.
Proof. intros E Ha. unfold ControllerSettings.main_settings. by rewrite E, Ha. Qed.
